(** * Fahren: tenant lifecycle and connection routing

    A shallow embedding of the TypeScript sources of the multi-tenant
    layer (packages core, postgres, redis) and the properties its
    specification states about them.

    Conventions of the embedding:
    - a JavaScript string is a [string]; every character stands for one
      code unit in the range 0..255;
    - a value that is [undefined] or absent is [None]; JavaScript
      truthiness of an optional string is [truthy];
    - an asynchronous method is a computation of the monad [M] below: it
      threads the state of the outside world (database, cache, secret
      store), the trace of the calls made to it, and the fields of the
      object ([this]); a rejected promise is [Throw]. *)

From Stdlib Require Import ZArith Ascii String List Bool Lia.
From Stdlib Require Import DecimalN DecimalFacts.
From stdpp Require Import base option.

Import ListNotations.
Open Scope string_scope.
Open Scope list_scope.

(** ** JavaScript strings *)

Module JsString.

(** The double quote character, [U+0022]. *)
Definition dquote : ascii := "034"%char.
Definition dq : string := String dquote EmptyString.

(** [if (s)] on an optional string: [undefined] and the empty string are
    falsy. *)
Definition truthy (o : option string) : bool :=
  match o with
  | Some (String _ _) => true
  | _ => false
  end.

(** [a || b] on optional strings. *)
Definition or_else (o : option string) (d : string) : string :=
  match o with
  | Some (String c s) => String c s
  | _ => d
  end.

Fixpoint drop (n : nat) (s : string) : string :=
  match n, s with
  | S n', String _ s' => drop n' s'
  | _, _ => s
  end.

(** [StringIndexOf(s, pat, 0)], returned as the text before the first
    occurrence and the text after it. *)
Fixpoint split_at_first (pat s : string) : option (string * string) :=
  if String.prefix pat s then Some (EmptyString, drop (String.length pat) s)
  else match s with
       | EmptyString => None
       | String c s' =>
           match split_at_first pat s' with
           | Some (b, a) => Some (String c b, a)
           | None => None
           end
       end.

(** [GetSubstitution(matched, str, position, captures, undefined, repl)]
    for a search by string: there are no captures, so of the dollar
    patterns only [$$], [$&], [$`] and [$'] are expanded. *)
Fixpoint get_substitution (matched before after repl : string) : string :=
  match repl with
  | EmptyString => EmptyString
  | String "$" (String "$" r) =>
      String "$" (get_substitution matched before after r)
  | String "$" (String "&" r) =>
      matched ++ get_substitution matched before after r
  | String "$" (String "`" r) =>
      before ++ get_substitution matched before after r
  | String "$" (String "'" r) =>
      after ++ get_substitution matched before after r
  | String c r => String c (get_substitution matched before after r)
  end.

(** [s.replace(pat, repl)] with a string pattern and a string
    replacement: the first occurrence only. *)
Definition replace (s pat repl : string) : string :=
  match split_at_first pat s with
  | None => s
  | Some (b, a) => b ++ get_substitution pat b a repl ++ a
  end.

(** Membership of a character in a string. *)
Fixpoint has_char (c : ascii) (s : string) : bool :=
  match s with
  | EmptyString => false
  | String d s' => Ascii.eqb c d || has_char c s'
  end.

End JsString.

(** ** JSON values, [JSON.stringify] and [JSON.parse]

    Connection descriptors are structured values: strings, numbers
    (ports, timeouts, pool sizes), booleans, [null], arrays and objects.
    An object is the list of its own properties in insertion order.

    A number is kept as the decimal that its text denotes: an integer
    [JNum z], or [JDec m places] for [m / 10 ^ places] when that is
    not an integer. JavaScript keeps the double nearest to it; the two
    print alike for integers up to [2 ^ 53] and for decimals of at most
    15 significant digits within the range of doubles. *)

Module Json.
Import JsString.

#[warnings="-register-all"]
Inductive json :=
| JNull
| JBool (b : bool)
| JNum (z : Z)
| JDec (m : Z) (places : positive)
| JStr (s : string)
| JArr (items : list json)
| JObj (members : list (string * json)).

(** *** Objects as ordered property lists *)

(** [obj[k]]. *)
Fixpoint obj_get {A} (k : string) (l : list (string * A)) : option A :=
  match l with
  | [] => None
  | (k', v) :: r => if String.eqb k k' then Some v else obj_get k r
  end.

(** [obj[k] = v]: an existing property keeps its position, a new one is
    added last. *)
Fixpoint obj_set {A} (k : string) (v : A) (l : list (string * A))
  : list (string * A) :=
  match l with
  | [] => [(k, v)]
  | (k', v') :: r =>
      if String.eqb k k' then (k, v) :: r else (k', v') :: obj_set k v r
  end.

(** [{...a, ...b}] on property lists. *)
Definition obj_assign {A} (a b : list (string * A)) : list (string * A) :=
  fold_left (fun acc kv => obj_set (fst kv) (snd kv) acc) b a.

Fixpoint mem_string (k : string) (l : list string) : bool :=
  match l with
  | [] => false
  | k' :: r => String.eqb k k' || mem_string k r
  end.

Fixpoint distinct (l : list string) : bool :=
  match l with
  | [] => true
  | k :: r => negb (mem_string k r) && distinct r
  end.

(** A value is well formed when no object lists a property twice and
    no number with a fraction ends in the digit zero: [1.50] is
    [JDec 15 1], and [1.0] is [JNum 1]. *)
Fixpoint wf (v : json) : bool :=
  match v with
  | JDec m _ => negb (Z.eqb (Z.rem m 10) 0)
  | JArr l => forallb wf l
  | JObj l =>
      distinct (map fst l)
      && forallb (fun kv => let '(_, x) := kv in wf x) l
  | _ => true
  end.

(** *** [JSON.stringify(value)] (no indentation) *)

Definition hex_digit (n : nat) : ascii :=
  match n with
  | 0 => "0" | 1 => "1" | 2 => "2" | 3 => "3" | 4 => "4" | 5 => "5"
  | 6 => "6" | 7 => "7" | 8 => "8" | 9 => "9" | 10 => "a" | 11 => "b"
  | 12 => "c" | 13 => "d" | 14 => "e" | _ => "f"
  end%char.

(** [QuoteJSONString], one code unit. *)
Definition escape_char (c : ascii) : list ascii :=
  let n := nat_of_ascii c in
  if Ascii.eqb c dquote then ["\"; dquote]%char
  else if Ascii.eqb c "\" then ["\"; "\"]%char
  else if Nat.eqb n 8 then ["\"; "b"]%char
  else if Nat.eqb n 12 then ["\"; "f"]%char
  else if Nat.eqb n 10 then ["\"; "n"]%char
  else if Nat.eqb n 13 then ["\"; "r"]%char
  else if Nat.eqb n 9 then ["\"; "t"]%char
  else if Nat.ltb n 32 then
    ["\"; "u"; "0"; "0"; hex_digit (n / 16); hex_digit (n mod 16)]%char
  else [c].

Fixpoint escape (s : string) : list ascii :=
  match s with
  | EmptyString => []
  | String c r => escape_char c ++ escape r
  end.

Definition quote (s : string) : list ascii :=
  dquote :: escape s ++ [dquote].

Fixpoint chars_of_uint (u : Decimal.uint) : list ascii :=
  match u with
  | Decimal.Nil => []
  | Decimal.D0 r => "0" :: chars_of_uint r
  | Decimal.D1 r => "1" :: chars_of_uint r
  | Decimal.D2 r => "2" :: chars_of_uint r
  | Decimal.D3 r => "3" :: chars_of_uint r
  | Decimal.D4 r => "4" :: chars_of_uint r
  | Decimal.D5 r => "5" :: chars_of_uint r
  | Decimal.D6 r => "6" :: chars_of_uint r
  | Decimal.D7 r => "7" :: chars_of_uint r
  | Decimal.D8 r => "8" :: chars_of_uint r
  | Decimal.D9 r => "9" :: chars_of_uint r
  end%char.

(** [Number::toString] of an integer. *)
Definition print_number (z : Z) : list ascii :=
  match z with
  | Z0 => ["0"%char]
  | Zpos p => chars_of_uint (Pos.to_uint p)
  | Zneg p => "-"%char :: chars_of_uint (Pos.to_uint p)
  end.

(** The digits after the first one in exponent notation, if any. *)
Definition print_fraction (f : Decimal.uint) : list ascii :=
  match f with
  | Decimal.Nil => []
  | _ => "."%char :: chars_of_uint f
  end.

(** [Number::toString] of a number with a fraction. With [k] digits
    and [n] of them before the decimal point: the digits with the point
    among them when [0 < n <= 21], [0.] and [-n] zeros before the
    digits when [-6 < n <= 0], and otherwise the first digit, the
    others after a point, and the exponent [n - 1] with its sign. *)
Definition print_decimal (m : Z) (places : positive) : list ascii :=
  let digits := Pos.to_uint (Z.to_pos (Z.abs m)) in
  let k := Decimal.nb_digits digits in
  let n := (Z.of_nat k - Zpos places)%Z in
  (if Z.ltb m 0 then ["-"%char] else [])
    ++ (if Z.ltb 0 n && Z.leb n 21 then
          chars_of_uint (Decimal.del_tail (Pos.to_nat places) digits)
            ++ "."%char
            :: chars_of_uint (Decimal.del_head (Z.to_nat n) digits)
        else if Z.ltb (-6) n && Z.leb n 0 then
          "0"%char :: "."%char
            :: chars_of_uint (Nat.iter (Z.to_nat (- n)) Decimal.D0 digits)
        else
          chars_of_uint (Decimal.del_tail (k - 1) digits)
            ++ print_fraction (Decimal.del_head 1 digits)
            ++ "e"%char
            :: (if Z.ltb (n - 1) 0 then "-" else "+")%char
            :: print_number (Z.abs (n - 1))).

Fixpoint join (parts : list (list ascii)) : list ascii :=
  match parts with
  | [] => []
  | p :: r =>
      match r with
      | [] => p
      | _ :: _ => p ++ ","%char :: join r
      end
  end.

Fixpoint print (v : json) : list ascii :=
  match v with
  | JNull => list_ascii_of_string "null"
  | JBool true => list_ascii_of_string "true"
  | JBool false => list_ascii_of_string "false"
  | JNum z => print_number z
  | JDec m places => print_decimal m places
  | JStr s => quote s
  | JArr l => "["%char :: join (map print l) ++ ["]"%char]
  | JObj l =>
      "{"%char
        :: join (map (fun kv => let '(k, x) := kv in
                                quote k ++ ":"%char :: print x) l)
        ++ ["}"%char]
  end.

Definition stringify (v : json) : string := string_of_list_ascii (print v).

(** *** [JSON.parse(text)] *)

Definition is_ws (c : ascii) : bool :=
  let n := nat_of_ascii c in
  Nat.eqb n 32 || Nat.eqb n 9 || Nat.eqb n 10 || Nat.eqb n 13.

Fixpoint skip_ws (s : list ascii) : list ascii :=
  match s with
  | c :: r => if is_ws c then skip_ws r else s
  | [] => []
  end.

Definition hex_val (c : ascii) : option nat :=
  let n := nat_of_ascii c in
  if Nat.leb 48 n && Nat.leb n 57 then Some (n - 48)
  else if Nat.leb 97 n && Nat.leb n 102 then Some (n - 87)
  else if Nat.leb 65 n && Nat.leb n 70 then Some (n - 55)
  else None.

Definition hex4 (a b c d : ascii) : option nat :=
  match hex_val a, hex_val b, hex_val c, hex_val d with
  | Some x, Some y, Some z, Some w => Some (((x * 16 + y) * 16 + z) * 16 + w)
  | _, _, _, _ => None
  end.

(** The single-character escapes of the JSON grammar. *)
Definition unescape (e : ascii) : option ascii :=
  if Ascii.eqb e dquote then Some dquote
  else if Ascii.eqb e "\" then Some "\"%char
  else if Ascii.eqb e "/" then Some "/"%char
  else if Ascii.eqb e "b" then Some (ascii_of_nat 8)
  else if Ascii.eqb e "f" then Some (ascii_of_nat 12)
  else if Ascii.eqb e "n" then Some (ascii_of_nat 10)
  else if Ascii.eqb e "r" then Some (ascii_of_nat 13)
  else if Ascii.eqb e "t" then Some (ascii_of_nat 9)
  else None.

(** The characters of a string literal after its opening quote. A
    [\uXXXX] escape above [U+00FF] has no counterpart in the embedding
    and is refused. *)
Fixpoint parse_string_body (s : list ascii) : option (string * list ascii) :=
  match s with
  | [] => None
  | c :: r =>
      if Ascii.eqb c dquote then Some (EmptyString, r)
      else if Ascii.eqb c "\" then
        match r with
        | [] => None
        | e :: r1 =>
            if Ascii.eqb e "u" then
              match r1 with
              | h1 :: h2 :: h3 :: h4 :: r2 =>
                  match hex4 h1 h2 h3 h4 with
                  | Some n =>
                      if Nat.ltb n 256 then
                        match parse_string_body r2 with
                        | Some (t, rest) => Some (String (ascii_of_nat n) t, rest)
                        | None => None
                        end
                      else None
                  | None => None
                  end
              | _ => None
              end
            else
              match unescape e with
              | Some ch =>
                  match parse_string_body r1 with
                  | Some (t, rest) => Some (String ch t, rest)
                  | None => None
                  end
              | None => None
              end
        end
      else if Nat.ltb (nat_of_ascii c) 32 then None
      else
        match parse_string_body r with
        | Some (t, rest) => Some (String c t, rest)
        | None => None
        end
  end.

Definition digit_of (c : ascii) : option (Decimal.uint -> Decimal.uint) :=
  match nat_of_ascii c with
  | 48 => Some Decimal.D0 | 49 => Some Decimal.D1 | 50 => Some Decimal.D2
  | 51 => Some Decimal.D3 | 52 => Some Decimal.D4 | 53 => Some Decimal.D5
  | 54 => Some Decimal.D6 | 55 => Some Decimal.D7 | 56 => Some Decimal.D8
  | 57 => Some Decimal.D9 | _ => None
  end.

Fixpoint take_digits (s : list ascii) : Decimal.uint * list ascii :=
  match s with
  | [] => (Decimal.Nil, [])
  | c :: r =>
      match digit_of c with
      | Some d => let '(u, rest) := take_digits r in (d u, rest)
      | None => (Decimal.Nil, s)
      end
  end.

Definition starts_fraction (s : list ascii) : bool :=
  match s with
  | c :: _ => Ascii.eqb c "." || Ascii.eqb c "e" || Ascii.eqb c "E"
  | [] => false
  end.

(** The digits of a fraction: none without a decimal point, at least
    one after it. *)
Definition parse_fraction (s : list ascii)
  : option (Decimal.uint * list ascii) :=
  match s with
  | c :: r =>
      if Ascii.eqb c "." then
        let '(f, rest) := take_digits r in
        match f with
        | Decimal.Nil => None
        | _ => Some (f, rest)
        end
      else Some (Decimal.Nil, s)
  | [] => Some (Decimal.Nil, s)
  end.

(** The exponent: [0] without one; after [e] or [E] an optional sign
    and at least one digit. *)
Definition parse_exponent (s : list ascii) : option (Z * list ascii) :=
  match s with
  | c :: r =>
      if Ascii.eqb c "e" || Ascii.eqb c "E" then
        let '(neg, r1) :=
          match r with
          | c1 :: r' =>
              if Ascii.eqb c1 "-" then (true, r')
              else if Ascii.eqb c1 "+" then (false, r')
              else (false, r)
          | [] => (false, r)
          end in
        let '(x, rest) := take_digits r1 in
        match x with
        | Decimal.Nil => None
        | _ =>
            let n := Z.of_N (N.of_uint x) in
            Some (if neg then Z.opp n else n, rest)
        end
      else Some (0%Z, s)
  | [] => Some (0%Z, s)
  end.

(** [m / 10 ^ places] without the zeros its digits end in. *)
Fixpoint lowest_terms (fuel : nat) (m : Z) (places : positive) : json :=
  match fuel with
  | 0 => JDec m places
  | S f =>
      if Z.eqb (Z.rem m 10) 0 then
        match places with
        | 1%positive => JNum (Z.quot m 10)
        | _ => lowest_terms f (Z.quot m 10) (Pos.pred places)
        end
      else JDec m places
  end.

(** The number with the given digits and sign, times [10 ^ e]. *)
Definition number_of (neg : bool) (digits : Decimal.uint) (e : Z) : json :=
  let n := Z.of_N (N.of_uint digits) in
  let m := if neg then Z.opp n else n in
  if Z.eqb m 0 then JNum 0
  else
    match e with
    | Zneg places => lowest_terms (Decimal.nb_digits digits) m places
    | _ => JNum (m * 10 ^ e)
    end.

(** A JSON number: an optional minus sign, then [0] or a digit string
    without leading zero, then an optional fraction and an optional
    exponent. *)
Definition parse_number (s : list ascii) : option (json * list ascii) :=
  let '(neg, s1) :=
    match s with
    | c :: r => if Ascii.eqb c "-" then (true, r) else (false, s)
    | [] => (false, s)
    end in
  let '(u, rest) := take_digits s1 in
  match u with
  | Decimal.Nil => None
  | _ =>
      if Decimal.uint_eq_dec u (Decimal.unorm u) then
        if starts_fraction rest then
          match parse_fraction rest with
          | Some (f, rest1) =>
              match parse_exponent rest1 with
              | Some (x, rest2) =>
                  Some (number_of neg (Decimal.app u f)
                          (x - Z.of_nat (Decimal.nb_digits f)),
                        rest2)
              | None => None
              end
          | None => None
          end
        else
          let n := Z.of_N (N.of_uint u) in
          Some (JNum (if neg then Z.opp n else n), rest)
      else None
  end.

Fixpoint parse_value (fuel : nat) (s : list ascii)
  : option (json * list ascii) :=
  match fuel with
  | 0 => None
  | S f =>
      match skip_ws s with
      | [] => None
      | c :: r =>
          if Ascii.eqb c "n" then
            match r with
            | "u" :: "l" :: "l" :: r' => Some (JNull, r')
            | _ => None
            end%char
          else if Ascii.eqb c "t" then
            match r with
            | "r" :: "u" :: "e" :: r' => Some (JBool true, r')
            | _ => None
            end%char
          else if Ascii.eqb c "f" then
            match r with
            | "a" :: "l" :: "s" :: "e" :: r' => Some (JBool false, r')
            | _ => None
            end%char
          else if Ascii.eqb c dquote then
            match parse_string_body r with
            | Some (t, r') => Some (JStr t, r')
            | None => None
            end
          else if Ascii.eqb c "[" then
            match skip_ws r with
            | [] => None
            | c' :: r' =>
                if Ascii.eqb c' "]" then Some (JArr [], r')
                else
                  match parse_elements f r with
                  | Some (l, r'') => Some (JArr l, r'')
                  | None => None
                  end
            end
          else if Ascii.eqb c "{" then
            match skip_ws r with
            | [] => None
            | c' :: r' =>
                if Ascii.eqb c' "}" then Some (JObj [], r')
                else
                  match parse_members f r with
                  | Some (l, r'') => Some (JObj (obj_assign [] l), r'')
                  | None => None
                  end
            end
          else parse_number (c :: r)
      end
  end
with parse_elements (fuel : nat) (s : list ascii)
  : option (list json * list ascii) :=
  match fuel with
  | 0 => None
  | S f =>
      match parse_value f s with
      | None => None
      | Some (v, r) =>
          match skip_ws r with
          | c :: r' =>
              if Ascii.eqb c "," then
                match parse_elements f r' with
                | Some (l, r'') => Some (v :: l, r'')
                | None => None
                end
              else if Ascii.eqb c "]" then Some ([v], r')
              else None
          | [] => None
          end
      end
  end
with parse_members (fuel : nat) (s : list ascii)
  : option (list (string * json) * list ascii) :=
  match fuel with
  | 0 => None
  | S f =>
      match skip_ws s with
      | q :: r0 =>
          if Ascii.eqb q dquote then
            match parse_string_body r0 with
            | None => None
            | Some (k, r1) =>
                match skip_ws r1 with
                | c1 :: r2 =>
                    if Ascii.eqb c1 ":" then
                      match parse_value f r2 with
                      | None => None
                      | Some (v, r3) =>
                          match skip_ws r3 with
                          | c :: r' =>
                              if Ascii.eqb c "," then
                                match parse_members f r' with
                                | Some (l, r'') => Some ((k, v) :: l, r'')
                                | None => None
                                end
                              else if Ascii.eqb c "}" then Some ([(k, v)], r')
                              else None
                          | [] => None
                          end
                      end
                    else None
                | [] => None
                end
            end
          else None
      | [] => None
      end
  end.

(** [JSON.parse]: [None] is the [SyntaxError]. A text that escapes a
    code unit above [U+00FF], which no string of the embedding holds,
    gets that answer as well. *)
Definition parse (text : string) : option json :=
  let s := list_ascii_of_string text in
  match parse_value (S (List.length s)) s with
  | Some (v, r) =>
      match skip_ws r with
      | [] => Some v
      | _ :: _ => None
      end
  | None => None
  end.

(** *** Values at run time

    A value read from an object may be [undefined]: [None]. *)

(** Property access [o.k] on a parsed value that is not [null]. *)
Definition member (o : json) (k : string) : option json :=
  match o with
  | JObj l => obj_get k l
  | _ => None
  end.

(** [if (v)]. *)
Definition js_truthy (v : option json) : bool :=
  match v with
  | None | Some JNull => false
  | Some (JBool b) => b
  | Some (JNum z) => negb (Z.eqb z 0)
  | Some (JDec m _) => negb (Z.eqb m 0)
  | Some (JStr EmptyString) => false
  | Some _ => true
  end.

(** [v === "text"]. *)
Definition is_string (v : option json) (text : string) : bool :=
  match v with
  | Some (JStr s) => String.eqb s text
  | _ => false
  end.

(** [a !== b]: primitives by value, objects by identity (two parsed
    objects are never the same object). *)
Definition strict_neq (a b : option json) : bool :=
  match a, b with
  | None, None => false
  | Some JNull, Some JNull => false
  | Some (JBool x), Some (JBool y) => negb (Bool.eqb x y)
  | Some (JNum x), Some (JNum y) => negb (Z.eqb x y)
  | Some (JDec x p), Some (JDec y q) => negb (Z.eqb x y && Pos.eqb p q)
  | Some (JStr x), Some (JStr y) => negb (String.eqb x y)
  | _, _ => true
  end.

Fixpoint join_strings (parts : list string) : string :=
  match parts with
  | [] => EmptyString
  | p :: r =>
      match r with
      | [] => p
      | _ :: _ => (p ++ "," ++ join_strings r)%string
      end
  end.

(** [String(v)] of a value, as a template literal inserts it; inside an
    array [null] reads as the empty string. *)
Fixpoint to_string (in_array : bool) (v : json) : string :=
  match v with
  | JNull => if in_array then EmptyString else "null"
  | JBool true => "true"
  | JBool false => "false"
  | JNum z => string_of_list_ascii (print_number z)
  | JDec m places => string_of_list_ascii (print_decimal m places)
  | JStr s => s
  | JArr l => join_strings (map (to_string true) l)
  | JObj _ => "[object Object]"
  end.

Definition to_template (v : option json) : string :=
  match v with
  | None => "undefined"
  | Some x => to_string false x
  end.

End Json.

(** ** packages/postgres/src/strategies/base.ts *)

Module PostgresBase.
Import JsString.

Definition DEFAULT_SETTINGS_TENANT_FIELD := "app.current_tenant".
Definition DEFAULT_ROLE := "tenant_role".
Definition DEFAULT_TENANT_ID_COLUMN := "tenant_id".
Definition DEFAULT_TENANT_DB_PREFIX := "tenant_".
Definition DEFAULT_TENANT_SCHEMA_PREFIX := "tenant_".
Definition DEFAULT_TENANT_ROLE_PREFIX := "tenant_".
Definition DEFAULT_SECRETS_PATTERN := "/tenants/{tenantId}/postgres/connection".
Definition DEFAULT_SECRETS_WITH_RESOURCE_ID_PATTERN :=
  "/tenants/{tenantId}/postgres/{resourceId}/connection".

(** [PostgresResource.generateDefaultTenantRoleName]. *)
Definition generateDefaultTenantRoleName (tenantId : string)
    (prefix : option string) : string :=
  if truthy prefix then or_else prefix "" ++ tenantId
  else DEFAULT_TENANT_ROLE_PREFIX ++ tenantId.

(** [PostgresResource.getPattern], on the resource's [id]. *)
Definition getPattern (id : option string) : string :=
  if truthy id then DEFAULT_SECRETS_WITH_RESOURCE_ID_PATTERN
  else DEFAULT_SECRETS_PATTERN.

End PostgresBase.

(** ** The SQL the core issues

    Every statement the Postgres strategies send is a constructor of
    [stmt]; [sql_text] is the text of the template literal at its call
    site, with the interpolated values in place. *)

Module Sql.
Import JsString PostgresBase.

(** A line break of a template literal followed by its indentation. *)
Fixpoint spaces (n : nat) : string :=
  match n with
  | 0 => EmptyString
  | S n' => String " " (spaces n')
  end.
Definition nl (indent : nat) : string :=
  String (ascii_of_nat 10) (spaces indent).

(** A string between double quotes, as the templates write it: the
    text is inserted as it is. *)
Definition dquoted (s : string) : string := dq ++ s ++ dq.
(** A string between single quotes, inserted as it is. *)
Definition squoted (s : string) : string := "'" ++ s ++ "'".

(** [interface Table] of strategies/rls.ts. *)
Record Table := {
  name : string;
  schema : option string;
  tenantIdColumn : option string
}.

Inductive stmt :=
(* transaction control, spelled as at the call sites *)
| Begin                 (* "BEGIN" *)
| BeginSemi             (* "BEGIN;" *)
| CommitSemi            (* "COMMIT;" *)
| Rollback              (* "ROLLBACK" *)
| RollbackSemi          (* "ROLLBACK;" *)
| ResetAll
| SelectCurrentSchema
| SelectCurrentDatabase
(* strategies/rls.ts, management *)
| GrantOverRole (schema tableName : string)
| SelectTableSequences (schema tableName : string)
| GrantSequence (sequenceName : string)
| EnableRls (schema tableName : string) (force : bool)
| SelectPolicy (schema tableName policyName : string)
| CreateUsingPolicy (schema tableName tenantIdColumn : string)
| CreateInsertPolicy (schema tableName tenantIdColumn : string)
| SelectRole
| CreateRole
| SelectMultitenantTables (tenantColumn : string)
| SetTenantLocal (id : string)
| DeleteTenantRows (schema : option string) (tableName column id : string)
(* strategies/rls.ts, tenants *)
| SetTenantSession (id : string)
(* pgbouncer/strategies/rls.ts *)
| PgbSetTenantSession (id : string)
| PgbBeginSetTenant (id : string)
(* strategies/schema.ts *)
| CreateSchema (schemaName : string)
| SchemaRoleAndGrants (roleName password schemaName currentDatabase : string)
| DropSchemaCascade (schemaName : string)
| SetRoleAndSearchPath (roleName schema : string)
(* pgbouncer/strategies/schema.ts *)
| PgbSetSearchPath (schema : string)
| PgbBeginSetSearchPath (schema : string)
(* strategies/database.ts *)
| CreateDatabase (databaseName : string) (template : option string)
| DatabaseRoleAndGrant (roleName password databaseName : string)
| CreateSchemaIfNotExists (schema : string)
| DatabaseSchemaGrants (schema roleName : string)
| DropDatabase (database : string) (force : bool)
| DropRole (role : string)
(* the caller's query, passed to queryAs *)
| UserQuery (text : string).

Definition set_config (key value : string) (is_local : bool) : string :=
  "SELECT set_config(" ++ squoted key ++ ", " ++ squoted value ++ ", "
    ++ (if is_local then "true" else "false") ++ ");".

Definition sql_text (q : stmt) : string :=
  match q with
  | Begin => "BEGIN"
  | BeginSemi => "BEGIN;"
  | CommitSemi => "COMMIT;"
  | Rollback => "ROLLBACK"
  | RollbackSemi => "ROLLBACK;"
  | ResetAll => "RESET ALL"
  | SelectCurrentSchema => "SELECT current_schema();"
  | SelectCurrentDatabase => "SELECT current_database();"
  | GrantOverRole schema tableName =>
      " GRANT SELECT, INSERT, UPDATE, DELETE ON " ++ schema ++ "."
        ++ tableName ++ " TO " ++ DEFAULT_ROLE ++ ";"
        ++ nl 8 ++ "GRANT USAGE ON SCHEMA " ++ schema ++ " TO "
        ++ DEFAULT_ROLE ++ ";"
  | SelectTableSequences schema tableName =>
      nl 4 ++ "SELECT pg_get_serial_sequence("
        ++ squoted (schema ++ "." ++ tableName)
        ++ ", column_name) AS sequence_name"
        ++ nl 10 ++ "FROM information_schema.columns"
        ++ nl 10 ++ "WHERE table_schema = " ++ squoted schema
        ++ nl 10 ++ "AND table_name = " ++ squoted tableName
        ++ nl 10 ++ "AND column_default LIKE 'nextval%'"
        ++ nl 10 ++ "AND pg_get_serial_sequence("
        ++ squoted (schema ++ "." ++ tableName)
        ++ ", column_name) IS NOT NULL;"
        ++ nl 4
  | GrantSequence sequenceName =>
      "GRANT USAGE, SELECT, UPDATE ON SEQUENCE " ++ sequenceName ++ " TO "
        ++ DEFAULT_ROLE ++ ";"
  | EnableRls schema tableName true =>
      nl 10 ++ "ALTER TABLE " ++ schema ++ "." ++ tableName
        ++ " ENABLE ROW LEVEL SECURITY;"
        ++ nl 10 ++ "ALTER TABLE " ++ schema ++ "." ++ tableName
        ++ " FORCE ROW LEVEL SECURITY;"
        ++ nl 8
  | EnableRls schema tableName false =>
      "ALTER TABLE " ++ schema ++ "." ++ tableName
        ++ " ENABLE ROW LEVEL SECURITY;"
  | SelectPolicy schema tableName policyName =>
      "SELECT * FROM pg_policies WHERE schemaname = " ++ squoted schema
        ++ " AND tablename = " ++ squoted tableName
        ++ " AND policyname = " ++ squoted policyName ++ ";"
  | CreateUsingPolicy schema tableName tenantIdColumn =>
      nl 8 ++ "CREATE POLICY tenant_isolation ON " ++ schema ++ "."
        ++ tableName
        ++ nl 8 ++ "USING (" ++ tenantIdColumn
        ++ "::TEXT = current_setting("
        ++ squoted DEFAULT_SETTINGS_TENANT_FIELD ++ "))"
        ++ nl 6
  | CreateInsertPolicy schema tableName tenantIdColumn =>
      nl 8 ++ "CREATE POLICY tenant_insert ON " ++ schema ++ "."
        ++ tableName
        ++ nl 8 ++ "FOR INSERT WITH CHECK (" ++ tenantIdColumn
        ++ "::TEXT = current_setting("
        ++ squoted DEFAULT_SETTINGS_TENANT_FIELD ++ "))"
        ++ nl 6
  | SelectRole =>
      "SELECT 1 FROM pg_catalog.pg_roles WHERE rolname = "
        ++ squoted DEFAULT_ROLE ++ ";"
  | CreateRole => "CREATE ROLE " ++ DEFAULT_ROLE ++ " WITH NOLOGIN;"
  | SelectMultitenantTables tenantColumn =>
      nl 6 ++ "SELECT"
        ++ nl 8 ++ "c.table_schema,"
        ++ nl 8 ++ "c.table_name,"
        ++ nl 8 ++ "CASE"
        ++ nl 12 ++ "WHEN EXISTS ("
        ++ nl 16 ++ "SELECT 1"
        ++ nl 16 ++ "FROM pg_catalog.pg_class cl"
        ++ nl 16 ++ "JOIN pg_catalog.pg_namespace n ON n.oid = cl.relnamespace"
        ++ nl 16 ++ "WHERE n.nspname = c.table_schema"
        ++ nl 18 ++ "AND cl.relname = c.table_name"
        ++ nl 18 ++ "AND cl.relrowsecurity = true"
        ++ nl 12 ++ ") THEN True"
        ++ nl 12 ++ "ELSE False"
        ++ nl 8 ++ "END AS has_rls_enabled"
        ++ nl 4 ++ "FROM information_schema.columns c"
        ++ nl 4 ++ "WHERE c.column_name = " ++ squoted tenantColumn
        ++ nl 4 ++ "ORDER BY c.table_schema, c.table_name;"
        ++ nl 2
  | SetTenantLocal id =>
      nl 8 ++ set_config DEFAULT_SETTINGS_TENANT_FIELD id true
        ++ nl 8 ++ set_config "role" DEFAULT_ROLE true
        ++ nl 6
  | DeleteTenantRows schema tableName column id =>
      "DELETE FROM "
        ++ (if truthy schema then or_else schema "" ++ "." else "")
        ++ tableName ++ " WHERE " ++ dquoted column ++ " = " ++ squoted id
  | SetTenantSession id =>
      " " ++ set_config DEFAULT_SETTINGS_TENANT_FIELD id false
        ++ nl 10 ++ set_config "role" DEFAULT_ROLE false
  | PgbSetTenantSession id =>
      nl 8 ++ set_config DEFAULT_SETTINGS_TENANT_FIELD id false
        ++ nl 8 ++ set_config "role" DEFAULT_ROLE false
        ++ nl 6
  | PgbBeginSetTenant id =>
      nl 10 ++ "BEGIN;"
        ++ nl 10 ++ set_config DEFAULT_SETTINGS_TENANT_FIELD id true
        ++ nl 10 ++ set_config "role" DEFAULT_ROLE true
        ++ nl 8
  | CreateSchema schemaName => "CREATE SCHEMA " ++ dquoted schemaName ++ ";"
  | SchemaRoleAndGrants roleName password schemaName currentDatabase =>
      let r := dquoted roleName in
      let s := dquoted schemaName in
      "CREATE ROLE " ++ r ++ " WITH LOGIN PASSWORD " ++ squoted password ++ ";"
        ++ nl 0
        ++ nl 12 ++ "-- PUBLIC = ALL ROLES"
        ++ nl 12 ++ "REVOKE CREATE ON SCHEMA " ++ s ++ " FROM PUBLIC;"
        ++ nl 12 ++ "REVOKE ALL PRIVILEGES ON SCHEMA " ++ s ++ " FROM PUBLIC;"
        ++ nl 0
        ++ nl 12 ++ "GRANT CONNECT ON DATABASE " ++ dquoted currentDatabase
        ++ " TO " ++ r ++ ";"
        ++ nl 12 ++ "GRANT ALL PRIVILEGES ON SCHEMA " ++ s ++ " TO " ++ r ++ ";"
        ++ nl 12 ++ "GRANT ALL PRIVILEGES ON ALL TABLES IN SCHEMA " ++ s
        ++ " TO " ++ r ++ ";"
        ++ nl 12 ++ "GRANT ALL PRIVILEGES ON ALL FUNCTIONS IN SCHEMA " ++ s
        ++ " TO " ++ r ++ ";"
        ++ nl 12 ++ "GRANT ALL PRIVILEGES ON ALL PROCEDURES IN SCHEMA " ++ s
        ++ " TO " ++ r ++ ";"
        ++ nl 12 ++ "GRANT ALL PRIVILEGES ON ALL ROUTINES IN SCHEMA " ++ s
        ++ " TO " ++ r ++ ";"
        ++ nl 12 ++ "GRANT ALL PRIVILEGES ON ALL SEQUENCES IN SCHEMA " ++ s
        ++ " TO " ++ r ++ ";"
        ++ nl 0
        ++ nl 12 ++ "-- For future objects"
        ++ nl 12 ++ "ALTER DEFAULT PRIVILEGES IN SCHEMA " ++ s
        ++ " GRANT ALL ON TABLES TO " ++ r ++ ";"
        ++ nl 12 ++ "ALTER DEFAULT PRIVILEGES IN SCHEMA " ++ s
        ++ " GRANT ALL ON SEQUENCES TO " ++ r ++ ";"
        ++ nl 12 ++ "ALTER DEFAULT PRIVILEGES IN SCHEMA " ++ s
        ++ " GRANT ALL ON FUNCTIONS TO " ++ r ++ ";"
        ++ nl 10
  | DropSchemaCascade schemaName =>
      "DROP SCHEMA " ++ dquoted schemaName ++ " CASCADE;"
  | SetRoleAndSearchPath roleName schema =>
      nl 8 ++ set_config "role" roleName false
        ++ nl 8 ++ set_config "search_path" schema false
        ++ nl 6
  | PgbSetSearchPath schema =>
      nl 10 ++ set_config "search_path" schema false ++ nl 8
  | PgbBeginSetSearchPath schema =>
      nl 12 ++ "BEGIN;"
        ++ nl 12 ++ set_config "search_path" schema true
        ++ nl 10
  | CreateDatabase databaseName template =>
      match template with
      | Some (String c t) =>
          "CREATE DATABASE " ++ dquoted databaseName ++ " WITH TEMPLATE "
            ++ dquoted (String c t) ++ ";"
      | _ => "CREATE DATABASE " ++ dquoted databaseName ++ ";"
      end
  | DatabaseRoleAndGrant roleName password databaseName =>
      "CREATE ROLE " ++ dquoted roleName ++ " WITH LOGIN PASSWORD "
        ++ squoted password ++ ";"
        ++ "GRANT ALL PRIVILEGES ON DATABASE " ++ dquoted databaseName
        ++ " TO " ++ dquoted roleName ++ ";"
  | CreateSchemaIfNotExists schema =>
      "CREATE SCHEMA IF NOT EXISTS " ++ dquoted schema ++ ";"
  | DatabaseSchemaGrants schema roleName =>
      let r := dquoted roleName in
      let s := dquoted schema in
      nl 12 ++ "GRANT ALL ON SCHEMA " ++ s ++ " TO " ++ r ++ ";"
        ++ nl 12 ++ "GRANT ALL PRIVILEGES ON ALL TABLES IN SCHEMA " ++ s
        ++ " TO " ++ r ++ ";"
        ++ nl 12 ++ "GRANT ALL PRIVILEGES ON ALL SEQUENCES IN SCHEMA " ++ s
        ++ " TO " ++ r ++ ";"
        ++ nl 12 ++ "GRANT ALL PRIVILEGES ON ALL FUNCTIONS IN SCHEMA " ++ s
        ++ " TO " ++ r ++ ";"
        ++ nl 12 ++ "GRANT ALL PRIVILEGES ON ALL PROCEDURES IN SCHEMA " ++ s
        ++ " TO " ++ r ++ ";"
        ++ nl 12 ++ "GRANT ALL PRIVILEGES ON ALL ROUTINES IN SCHEMA " ++ s
        ++ " TO " ++ r ++ ";"
        ++ nl 12
        ++ nl 12 ++ "-- For future objects"
        ++ nl 12 ++ "ALTER DEFAULT PRIVILEGES IN SCHEMA " ++ s
        ++ " GRANT ALL PRIVILEGES ON TABLES TO " ++ r ++ ";"
        ++ nl 12 ++ "ALTER DEFAULT PRIVILEGES IN SCHEMA " ++ s
        ++ " GRANT ALL PRIVILEGES ON SEQUENCES TO " ++ r ++ ";"
        ++ nl 12 ++ "ALTER DEFAULT PRIVILEGES IN SCHEMA " ++ s
        ++ " GRANT ALL PRIVILEGES ON FUNCTIONS TO " ++ r ++ ";"
        ++ nl 12 ++ "ALTER DEFAULT PRIVILEGES IN SCHEMA " ++ s
        ++ " GRANT ALL PRIVILEGES ON ROUTINES TO " ++ r ++ ";"
        ++ nl 10
  | DropDatabase database true =>
      "DROP DATABASE " ++ dquoted database ++ " WITH (FORCE);"
  | DropDatabase database false =>
      "DROP DATABASE " ++ dquoted database ++ ";"
  | DropRole role => "DROP ROLE " ++ dquoted role ++ ";"
  | UserQuery text => text
  end.

End Sql.

(** ** The outside world and the monad of asynchronous methods *)

Module Effects.
Import Json Sql.

(** A thrown value: the message of the [Error]. *)
Definition error := string.

Inductive sqlval :=
| VText (s : string)
| VBool (b : bool)
| VNull.

(** A result row: column name to value. *)
Definition row := list (string * sqlval).

(** Objects created by the code ([new Pool], [new Client]) are named by
    the number they got at creation. *)
Definition handle := nat.

(** The calls that leave the process, and the console. *)
Inductive event :=
| PoolNew (tenantId : option string) (pool : handle) (config : json)
| PoolConnect (pool : handle)
| PoolQuery (pool : handle) (q : stmt)
| PoolEnd (pool : handle)
| ClientNew (client : handle) (config : json)
| ClientConnect (client : handle)
| ClientEnd (client : handle)
| Query (client : handle) (q : stmt)
| Release (client : handle)
| GetSecret (path : string)
| CreateSecret (path value : string)
| UpdateSecret (path value : string)
| DeleteSecret (path : string)
| RandomValues (length : nat)
| CustomPassword (tenantId : string)
| RedisKeys (pattern : string)
| RedisPipelineDel (keys : list string)
| RedisCall (args : list string)
| RedisAclList
| RedisQuit
| Console (level message : string).

(** What the world answers: a query result, a string, a list of
    strings, random numbers, or a rejection. *)
Inductive response :=
| Rows (rows : list row)
| Text (s : string)
| Texts (l : list string)
| Numbers (l : list N)
| Rejected (e : error).

Definition rows_of (r : response) : list row :=
  match r with Rows l => l | _ => [] end.
Definition text_of (r : response) : string :=
  match r with Text s => s | _ => EmptyString end.
Definition texts_of (r : response) : list string :=
  match r with Texts l => l | _ => [] end.
Definition numbers_of (r : response) : list N :=
  match r with Numbers l => l | _ => [] end.

(** The error of a rejected call. *)
Definition rejection (r : response) : option error :=
  match r with
  | Rejected e => Some e
  | _ => None
  end.

Inductive outcome (A : Type) :=
| Return (a : A)
| Throw (e : error).
Arguments Return {A} a.
Arguments Throw {A} e.

(** The state a method runs in: the world [env], the [trace] of events
    so far (oldest first), and the fields of [this]. *)
Record world (E F : Type) := World {
  env : E;
  trace : list event;
  self : F
}.
Arguments World {E F} env trace self.
Arguments env {E F} w.
Arguments trace {E F} w.
Arguments self {E F} w.

Section Monad.
Context {E F : Type}.
(** How the world answers an event and what it becomes. *)
Variable respond : event -> E -> E * response.

Definition M (A : Type) : Type := world E F -> world E F * outcome A.

Definition ret {A} (a : A) : M A := fun w => (w, Return a).
Definition throw {A} (e : error) : M A := fun w => (w, Throw e).

Definition bind {A B} (m : M A) (k : A -> M B) : M B :=
  fun w =>
    match m w with
    | (w', Return a) => k a w'
    | (w', Throw e) => (w', Throw e)
    end.

(** [try { m } catch (err) { h err }]. *)
Definition try_catch {A} (m : M A) (h : error -> M A) : M A :=
  fun w =>
    match m w with
    | (w', Return a) => (w', Return a)
    | (w', Throw e) => h e w'
    end.

(** [try { m } finally { fin }]: [fin] always runs; if it throws, its
    error replaces the outcome of [m]. *)
Definition try_finally {A} (m : M A) (fin : M unit) : M A :=
  fun w =>
    match m w with
    | (w', o) =>
        match fin w' with
        | (w'', Return _) => (w'', o)
        | (w'', Throw e) => (w'', Throw e)
        end
    end.

(** An awaited call: the event is recorded, the world answers, a
    rejection is thrown. *)
Definition call (ev : event) : M response :=
  fun w =>
    let '(e', r) := respond ev (env w) in
    let w' := World e' (trace w ++ [ev]) (self w) in
    match rejection r with
    | Some err => (w', Throw err)
    | None => (w', Return r)
    end.

(** A call that cannot fail (a constructor, [release], the console):
    recorded, the answer is not used. *)
Definition emit (ev : event) : M unit :=
  fun w =>
    (World (fst (respond ev (env w))) (trace w ++ [ev]) (self w),
     Return tt).

Definition get_self : M F := fun w => (w, Return (self w)).
Definition set_self (f : F) : M unit :=
  fun w => (World (env w) (trace w) f, Return tt).

(** [for (const x of l) { body x }]. *)
Fixpoint for_each {A} (l : list A) (body : A -> M unit) : M unit :=
  match l with
  | [] => ret tt
  | x :: r => bind (body x) (fun _ => for_each r body)
  end.

End Monad.

Declare Scope m_scope.
Delimit Scope m_scope with M.
Notation "'let*' x ':=' m 'in' k" :=
  (bind m (fun x => k))
    (at level 10, x pattern, m at level 100, k at level 200) : m_scope.
Notation "m ';;' k" :=
  (bind m (fun _ => k))
    (at level 100, k at level 200, right associativity) : m_scope.

End Effects.

(** ** packages/core/src/index.ts: the credential manager *)

Module Core.
Import JsString Json Effects.

(** [TenantsSecrets]: the provider is the outside world; [pattern] is
    optional. *)
Record TenantsSecrets := { secrets_pattern : option string }.

(** The fields of [TenantsSecretsManager]. *)
Record TenantsSecretsManager := {
  pattern : string;
  resourceId : option string
}.

(** The constructor: [this.pattern = options.pattern || defaultPattern]. *)
Definition new_TenantsSecretsManager (options : TenantsSecrets)
    (defaultPattern : string) (resourceId : option string)
  : TenantsSecretsManager :=
  {| pattern := or_else (secrets_pattern options) defaultPattern;
     resourceId := resourceId |}.

Definition getPath (m : TenantsSecretsManager) (tenantId : string) : string :=
  match resourceId m with
  | Some (String c r) =>
      replace (replace (pattern m) "{tenantId}" tenantId)
              "{resourceId}" (String c r)
  | _ => replace (pattern m) "{tenantId}" tenantId
  end.

Definition validChars : string :=
  "0123456789abcdefghijklmnopqrstuvwxyzABCDEFGHIJKLMNOPQRSTUVWXYZ".

(** [validChars[i]], for [i] below the length. *)
Definition char_at (i : nat) (s : string) : string :=
  match String.get i s with
  | Some c => String c EmptyString
  | None => EmptyString
  end.

(** The loop of [generatePassword] over the random values. *)
Fixpoint password_of (length : nat) (randomValues : list N) : string :=
  match length with
  | 0 => EmptyString
  | S n =>
      let v := match randomValues with v :: _ => v | [] => 0%N end in
      (char_at (N.to_nat (v mod 62)) validChars
         ++ password_of n (List.tl randomValues))%string
  end.

Section Methods.
Context {E F : Type}.
Variable respond : event -> E -> E * response.
Local Open Scope m_scope.
Local Abbreviation M := (@M E F).
Local Abbreviation call := (call respond).
Local Abbreviation emit := (emit respond).

Definition store (m : TenantsSecretsManager) (tenantId : string)
    (secret : json) : M unit :=
  let path := getPath m tenantId in
  call (CreateSecret path (stringify secret)) ;; ret tt.

Definition update (m : TenantsSecretsManager) (tenantId : string)
    (secret : json) : M unit :=
  let path := getPath m tenantId in
  call (UpdateSecret path (stringify secret)) ;; ret tt.

Definition remove (m : TenantsSecretsManager) (tenantId : string)
  : M unit :=
  let path := getPath m tenantId in
  call (DeleteSecret path) ;; ret tt.

Definition get (m : TenantsSecretsManager) (tenantId : string) : M json :=
  let path := getPath m tenantId in
  let* r := call (GetSecret path) in
  let clientConfig := text_of r in
  match parse clientConfig with
  | Some v => ret v
  | None =>
      emit (Console "error"
              "Error parsing secret. Make sure the secret is a valid JSON string.") ;;
      throw "SyntaxError"
  end.

Definition generatePassword (length : nat) : M string :=
  let* r := call (RandomValues length) in
  ret (password_of length (numbers_of r)).

End Methods.

End Core.

(** ** The Tenants roles of the Schema and Database strategies *)

Module Tenants.
Import JsString Json Sql Effects Core PostgresBase.

(** The fields of [PostgresSchemaTenants], [PostgresDatabaseTenants] and
    their PgBouncer subclasses. [pools], [poolsMode] and
    [tenantsSchemas] are the [Map]s of the classes; [ended] lists the
    pools whose [ended] property is true; [next_handle] numbers the
    objects created. The subclasses build [tenantsSecretsManager] from
    the same arguments as [secretsManager]: one field stands for both. *)
Record fields := {
  pools : list (string * handle);
  poolsMode : list (string * option json);
  tenantsSchemas : list (string * option json);
  secretsManager : TenantsSecretsManager;
  next_handle : handle;
  ended : list handle
}.

(** The constructors: [new Map()] for every map, the secrets manager
    built on [getPattern()] and the resource's [id]. *)
Definition new_fields (secrets : TenantsSecrets) (id : option string)
  : fields :=
  {| pools := [];
     poolsMode := [];
     tenantsSchemas := [];
     secretsManager := new_TenantsSecretsManager secrets (getPattern id) id;
     next_handle := 0;
     ended := [] |}.

Definition with_pools (p : list (string * handle)) (f : fields) : fields :=
  {| pools := p; poolsMode := poolsMode f;
     tenantsSchemas := tenantsSchemas f;
     secretsManager := secretsManager f;
     next_handle := next_handle f; ended := ended f |}.
Definition with_poolsMode (p : list (string * option json)) (f : fields)
  : fields :=
  {| pools := pools f; poolsMode := p;
     tenantsSchemas := tenantsSchemas f;
     secretsManager := secretsManager f;
     next_handle := next_handle f; ended := ended f |}.
Definition with_tenantsSchemas (p : list (string * option json))
    (f : fields) : fields :=
  {| pools := pools f; poolsMode := poolsMode f;
     tenantsSchemas := p;
     secretsManager := secretsManager f;
     next_handle := next_handle f; ended := ended f |}.
Definition with_next_handle (n : handle) (f : fields) : fields :=
  {| pools := pools f; poolsMode := poolsMode f;
     tenantsSchemas := tenantsSchemas f;
     secretsManager := secretsManager f;
     next_handle := n; ended := ended f |}.
Definition with_ended (l : list handle) (f : fields) : fields :=
  {| pools := pools f; poolsMode := poolsMode f;
     tenantsSchemas := tenantsSchemas f;
     secretsManager := secretsManager f;
     next_handle := next_handle f; ended := l |}.

(** [map.delete(k)]: no entry for [k] is left. *)
Fixpoint obj_delete {A} (k : string) (l : list (string * A))
  : list (string * A) :=
  match l with
  | [] => []
  | (k', v) :: r =>
      if String.eqb k k' then obj_delete k r else (k', v) :: obj_delete k r
  end.

(** [map.get(k)] on a map whose values may be [undefined]. *)
Definition get_value (k : string) (m : list (string * option json))
  : option json :=
  match obj_get k m with
  | Some v => v
  | None => None
  end.

Definition is_ended (pool : handle) (f : fields) : bool :=
  existsb (Nat.eqb pool) (ended f).

Section Methods.
Context {E : Type}.
Variable respond : event -> E -> E * response.
Local Open Scope m_scope.
Local Abbreviation M := (@M E fields).
Local Abbreviation call := (call respond).
Local Abbreviation emit := (emit respond).

Definition modify (g : fields -> fields) : M unit :=
  let* f := get_self in set_self (g f).

(** [new Pool(config)] followed by [pool.on("error", ...)]: the pool
    gets the next number. Nothing is connected yet. *)
Definition new_Pool (tenantId : string) (config : json) : M handle :=
  let* f := get_self in
  let pool := next_handle f in
  set_self (with_next_handle (S pool) f) ;;
  emit (PoolNew (Some tenantId) pool config) ;;
  ret pool.

(** [pool.connect()]: the client is named after its pool. *)
Definition connect (pool : handle) : M handle :=
  call (PoolConnect pool) ;; ret pool.

(** [pool.end()]: once it has resolved, [pool.ended] is true. *)
Definition end_pool (pool : handle) : M unit :=
  call (PoolEnd pool) ;;
  modify (fun f => with_ended (pool :: ended f) f).

Definition query (client : handle) (q : stmt) : M response :=
  call (Query client q).

Definition release (client : handle) : M unit :=
  emit (Release client).

Definition console_error (message : string) : M unit :=
  emit (Console "error" message).

(** [getClientConfigFor]: the descriptor from the secret store. *)
Definition getClientConfigFor (tenantId : string) : M json :=
  let* f := get_self in
  get respond (secretsManager f) tenantId.

(** Reading a property of the descriptor; [JSON.parse] may have
    returned [null], on which the access throws. *)
Definition prop (config : json) (k : string) : M (option json) :=
  match config with
  | JNull => throw "TypeError"
  | _ => ret (member config k)
  end.

(** [end(tenantId?)], the same text in both strategies. *)
Definition end_ (tenantId : option string) : M unit :=
  if truthy tenantId then
    let tid := or_else tenantId EmptyString in
    let* f := get_self in
    match obj_get tid (pools f) with
    | Some pool =>
        end_pool pool ;;
        modify (fun f => with_pools (obj_delete tid (pools f)) f)
    | None => ret tt
    end
  else
    let* f := get_self in
    for_each (map snd (pools f))
      (fun pool =>
         let* f := get_self in
         if negb (is_ended pool f) then end_pool pool else ret tt).

(** [PostgresTenantsBase.queryAs], on a given [getClientFor]. *)
Definition base_queryAs (getClientFor : string -> M handle)
    (tenantId : string) (q : stmt) : M response :=
  let* client := getClientFor tenantId in
  try_finally (query client q) (release client).

End Methods.

End Tenants.

(** *** strategies/database.ts: [PostgresDatabaseTenants] *)

Module PostgresDatabaseTenants.
Import JsString Json Sql Effects Core PostgresBase Tenants.

Section Methods.
Context {E : Type}.
Variable respond : event -> E -> E * response.
Local Open Scope m_scope.
Local Abbreviation M := (@M E fields).

Definition initTenantPool (tenantId : string) : M handle :=
  let* poolConfig := getClientConfigFor respond tenantId in
  new_Pool respond tenantId poolConfig.

Definition getClientFor (tenantId : string) : M handle :=
  let* f := get_self in
  match obj_get tenantId (pools f) with
  | Some pool => connect respond pool
  | None =>
      let* f := get_self in
      let* pool :=
        match obj_get tenantId (pools f) with
        | Some pool => ret pool
        | None => initTenantPool tenantId
        end in
      modify (fun f => with_pools (obj_set tenantId pool (pools f)) f) ;;
      connect respond pool
  end.

Definition queryAs := base_queryAs respond getClientFor.
Definition end_ := @Tenants.end_ E respond.

End Methods.

End PostgresDatabaseTenants.

(** *** strategies/schema.ts: [PostgresSchemaTenants] *)

Module PostgresSchemaTenants.
Import JsString Json Sql Effects Core PostgresBase Tenants.

Section Methods.
Context {E : Type}.
Variable respond : event -> E -> E * response.
Local Open Scope m_scope.
Local Abbreviation M := (@M E fields).

Definition initTenantPool (tenantId : string) : M handle :=
  let* poolConfig := getClientConfigFor respond tenantId in
  new_Pool respond tenantId poolConfig.

Definition getClientFor (tenantId : string) : M handle :=
  let* poolConfig := getClientConfigFor respond tenantId in
  let* schema := prop poolConfig "schema" in
  let* f := get_self in
  let* pool :=
    match obj_get tenantId (pools f) with
    | Some pool => ret pool
    | None => initTenantPool tenantId
    end in
  modify (fun f => with_pools (obj_set tenantId pool (pools f)) f) ;;
  let* client := connect respond pool in
  try_catch
    (query respond client
       (SetRoleAndSearchPath
          (generateDefaultTenantRoleName tenantId None)
          (to_template schema)) ;;
     ret client)
    (fun err => release respond client ;; throw err).

Definition queryAs := base_queryAs respond getClientFor.
Definition end_ := @Tenants.end_ E respond.

End Methods.

End PostgresSchemaTenants.

(** *** pgbouncer/strategies/database.ts: [PgBouncerDatabaseTenants] *)

Module PgBouncerDatabaseTenants.
Import JsString Json Sql Effects Core PostgresBase Tenants.

Section Methods.
Context {E : Type}.
Variable respond : event -> E -> E * response.
Local Open Scope m_scope.
Local Abbreviation M := (@M E fields).

Definition initTenantPool (tenantId : string) : M handle :=
  let* poolConfig := getClientConfigFor respond tenantId in
  let* poolMode := prop poolConfig "poolMode" in
  modify (fun f =>
            with_poolsMode (obj_set tenantId poolMode (poolsMode f)) f) ;;
  new_Pool respond tenantId poolConfig.

(** The rollback of a failed [BEGIN]: attempted, its own failure only
    logged, the client released, the first error thrown again. *)
Definition rollback_release {A} (client : handle) (err : error) : M A :=
  try_finally
    (try_catch
       (query respond client Rollback ;; ret tt)
       (fun rollbackErr =>
          console_error respond
            ("Error during rollback: " ++ rollbackErr)))
    (release respond client) ;;
  throw err.

Definition getClientFor (tenantId : string) : M handle :=
  let* f := get_self in
  let* pool :=
    match obj_get tenantId (pools f) with
    | Some pool => ret pool
    | None => initTenantPool tenantId
    end in
  let* f := get_self in
  let poolMode := get_value tenantId (poolsMode f) in
  let* client := connect respond pool in
  if is_string poolMode "session_mode" then ret client
  else if is_string poolMode "transaction_mode" then
    try_catch
      (query respond client BeginSemi ;; ret client)
      (fun err => rollback_release client err)
  else throw "Invalid mode".

(** The body of [queryAs] under [transaction_mode]. *)
Definition commit_or_rollback (client : handle) (q : stmt) : M response :=
  try_catch
    (let* res := query respond client q in
     query respond client CommitSemi ;;
     ret res)
    (fun err =>
       try_catch
         (query respond client RollbackSemi ;; ret tt)
         (fun rollbackErr =>
            console_error respond
              ("Error during rollback: " ++ rollbackErr)) ;;
       throw err).

Definition queryAs (tenantId : string) (q : stmt) : M response :=
  let* client := getClientFor tenantId in
  let* f := get_self in
  let poolMode := get_value tenantId (poolsMode f) in
  try_finally
    (if is_string poolMode "transaction_mode" then
       commit_or_rollback client q
     else query respond client q)
    (release respond client).

Definition end_ := @Tenants.end_ E respond.

End Methods.

End PgBouncerDatabaseTenants.

(** *** pgbouncer/strategies/schema.ts: [PgBouncerSchemaTenants] *)

Module PgBouncerSchemaTenants.
Import JsString Json Sql Effects Core PostgresBase Tenants.

Definition MISSING_MODE : string :=
  "PG Bouncer mode is not present in the client configuration. This could be due to a corrupt configuration in the secrets provider.".
Definition WRONG_MODE : string :=
  "PG Bouncer mode has an incorrect value in the client configuration. This could be due to a corrupt configuration in the secrets provider.".
Definition MISSING_SCHEMA : string :=
  "Schema is not present in the client configuration. This could be due to a corrupt configuration in the secrets provider.".

Section Methods.
Context {E : Type}.
Variable respond : event -> E -> E * response.
Local Open Scope m_scope.
Local Abbreviation M := (@M E fields).

Definition initTenantPool (tenantId : string) : M handle :=
  let* poolConfig := getClientConfigFor respond tenantId in
  let* poolMode := prop poolConfig "poolMode" in
  modify (fun f =>
            with_poolsMode (obj_set tenantId poolMode (poolsMode f)) f) ;;
  let* schema := prop poolConfig "schema" in
  modify (fun f =>
            with_tenantsSchemas
              (obj_set tenantId schema (tenantsSchemas f)) f) ;;
  new_Pool respond tenantId poolConfig.

Definition getClientFor (tenantId : string) : M handle :=
  let* f := get_self in
  let* pool :=
    match obj_get tenantId (pools f) with
    | Some pool => ret pool
    | None => initTenantPool tenantId
    end in
  let* f := get_self in
  let poolMode := get_value tenantId (poolsMode f) in
  let schema := get_value tenantId (tenantsSchemas f) in
  (if negb (js_truthy poolMode) then throw MISSING_MODE
   else if negb (is_string poolMode "session_mode")
           && negb (is_string poolMode "transaction_mode")
        then throw WRONG_MODE
        else ret tt) ;;
  (if negb (js_truthy schema) then throw MISSING_SCHEMA else ret tt) ;;
  let* client := connect respond pool in
  (if is_string poolMode "session_mode" then
     query respond client (PgbSetSearchPath (to_template schema)) ;;
     ret tt
   else if is_string poolMode "transaction_mode" then
     try_catch
       (query respond client (PgbBeginSetSearchPath (to_template schema)) ;;
        ret tt)
       (fun err =>
          PgBouncerDatabaseTenants.rollback_release respond client err)
   else throw "Invalid mode") ;;
  ret client.

Definition queryAs (tenantId : string) (q : stmt) : M response :=
  let* client := getClientFor tenantId in
  try_finally
    (let* f := get_self in
     if is_string (get_value tenantId (poolsMode f)) "transaction_mode"
     then PgBouncerDatabaseTenants.commit_or_rollback respond client q
     else query respond client q)
    (release respond client).

Definition end_ := @Tenants.end_ E respond.

End Methods.

End PgBouncerSchemaTenants.

(** *** strategies/rls.ts and pgbouncer/strategies/rls.ts: the Tenants
    roles of the RLS strategy, one shared pool *)

Module RlsTenants.
Import JsString Json Sql Effects Core PostgresBase.

(** [pool] is created by the constructor; [poolMode] is read by the
    PgBouncer subclass from its pool configuration. *)
Record fields := {
  pool : handle;
  poolMode : option string
}.

Definition mode_is (f : fields) (text : string) : bool :=
  match poolMode f with
  | Some m => String.eqb m text
  | None => false
  end.

Section Methods.
Context {E : Type}.
Variable respond : event -> E -> E * response.
Local Open Scope m_scope.
Local Abbreviation M := (@M E fields).
Local Abbreviation call := (call respond).
Local Abbreviation emit := (emit respond).

Definition connect : M handle :=
  let* f := get_self in
  call (PoolConnect (pool f)) ;; ret (pool f).
Definition query (client : handle) (q : stmt) : M response :=
  call (Query client q).
Definition release (client : handle) : M unit := emit (Release client).
Definition console_error (message : string) : M unit :=
  emit (Console "error" message).

(** [PostgresRlsTenants.getClientFor]. *)
Definition getClientFor (id : string) : M handle :=
  let* client := connect in
  try_catch
    (query client (SetTenantSession id) ;; ret client)
    (fun err => release client ;; throw err).

(** [PostgresTenantsBase.queryAs] on it. *)
Definition queryAs (tenantId : string) (q : stmt) : M response :=
  let* client := getClientFor tenantId in
  try_finally (query client q) (release client).

(** [PgBouncerRlsTenants.getClientFor]. *)
Definition pgb_getClientFor (id : string) : M handle :=
  let* client := connect in
  let* f := get_self in
  (if mode_is f "session_mode" then
     query client (PgbSetTenantSession id) ;; ret tt
   else if mode_is f "transaction_mode" then
     try_catch
       (query client (PgbBeginSetTenant id) ;; ret tt)
       (fun err =>
          try_finally
            (try_catch
               (query client Rollback ;; ret tt)
               (fun rollbackErr =>
                  console_error ("Error during rollback: " ++ rollbackErr)))
            (release client) ;;
          throw err)
   else throw "Invalid mode") ;;
  ret client.

(** [PgBouncerRlsTenants.queryAs]. *)
Definition pgb_queryAs (tenantId : string) (q : stmt) : M response :=
  let* client := pgb_getClientFor tenantId in
  try_finally
    (let* f := get_self in
     if mode_is f "transaction_mode" then
       try_catch
         (let* res := query client q in
          query client CommitSemi ;;
          ret res)
         (fun err =>
            try_catch
              (query client RollbackSemi ;; ret tt)
              (fun rollbackErr =>
                 console_error ("Error during rollback: " ++ rollbackErr)) ;;
            throw err)
     else query client q)
    (release client).

End Methods.

End RlsTenants.

(** ** The Management roles *)

(** *** strategies/database.ts and pgbouncer/strategies/database.ts *)

Module DatabaseManagement.
Import JsString Json Sql Effects Core PostgresBase.

(** [PostgresDatabaseManagementOptions], every property optional;
    [generatePassword] tells whether the caller gave a function. *)
Record options_in := {
  in_database_prefix : option string;
  in_database_template : option string;
  in_role_prefix : option string;
  in_generatePassword : bool;
  in_schemas_names : option (list string);
  in_createIfNotExists : option bool;
  in_useForceOnDelete : option bool
}.

(** [this.options], as the constructor fills it. *)
Record options := {
  database_prefix : string;
  database_template : option string;
  role_prefix : string;
  custom_generatePassword : bool;
  schemas_names : list string;
  createIfNotExists : bool;
  useForceOnDelete : option bool
}.

Record fields := {
  poolConfig : list (string * json);
  opts : options;
  pool : handle;
  secretsManager : TenantsSecretsManager;
  next_handle : handle
}.

Definition new_options (o : options_in) : options :=
  {| database_prefix :=
       or_else (in_database_prefix o) DEFAULT_TENANT_DB_PREFIX;
     database_template := in_database_template o;
     role_prefix := or_else (in_role_prefix o) DEFAULT_TENANT_ROLE_PREFIX;
     custom_generatePassword := in_generatePassword o;
     schemas_names :=
       match in_schemas_names o with Some l => l | None => ["public"] end;
     createIfNotExists :=
       match in_createIfNotExists o with Some b => b | None => true end;
     useForceOnDelete := in_useForceOnDelete o |}.

(** The constructor; the administrative pool is object number 0. *)
Definition new_fields (poolConfig : list (string * json)) (o : options_in)
    (secrets : TenantsSecrets) (id : option string) : fields :=
  {| poolConfig := poolConfig;
     opts := new_options o;
     pool := 0;
     secretsManager := new_TenantsSecretsManager secrets (getPattern id) id;
     next_handle := 1 |}.

Definition with_next_handle (n : handle) (f : fields) : fields :=
  {| poolConfig := poolConfig f; opts := opts f; pool := pool f;
     secretsManager := secretsManager f; next_handle := n |}.

Definition CREATE_IN_TRANSACTION_MODE : string :=
  "Tenant creation is not supported when pgBouncer is configured in transaction mode. Database creations are not possible inside transaction. Please use a different configuration and/or multi-tenant strategy.".
Definition DELETE_IN_TRANSACTION_MODE : string :=
  "Tenant deletion is not supported when pgBouncer is configured in transaction mode. Database deletions are not possible inside transaction. Please use a different configuration and/or multi-tenant strategy.".

Section Methods.
Context {E : Type}.
Variable respond : event -> E -> E * response.
Local Open Scope m_scope.
Local Abbreviation M := (@M E fields).
Local Abbreviation call := (call respond).
Local Abbreviation emit := (emit respond).

Definition query (client : handle) (q : stmt) : M response :=
  call (Query client q).

(** [new Client(config)]. *)
Definition new_Client (config : json) : M handle :=
  let* f := get_self in
  let client := next_handle f in
  set_self (with_next_handle (S client) f) ;;
  emit (ClientNew client config) ;;
  ret client.

(** [PostgresDatabaseManagement.createTenant]. *)
Definition createTenant (tenantId : string) : M unit :=
  let* f := get_self in
  let o := opts f in
  call (PoolConnect (pool f)) ;;
  let client := pool f in
  try_finally
    (let databaseName := (database_prefix o ++ tenantId)%string in
     query client (CreateDatabase databaseName (database_template o)) ;;
     let roleName :=
       generateDefaultTenantRoleName tenantId (Some (role_prefix o)) in
     let* password :=
       if custom_generatePassword o then
         let* r := call (CustomPassword tenantId) in ret (text_of r)
       else generatePassword respond 24 in
     query client (DatabaseRoleAndGrant roleName password databaseName) ;;
     let clientConfig :=
       obj_assign (poolConfig f)
         [("user", JStr roleName); ("password", JStr password);
          ("database", JStr databaseName)] in
     store respond (secretsManager f) tenantId (JObj clientConfig) ;;
     let* adminClient :=
       new_Client
         (JObj (obj_assign (poolConfig f)
                  [("database", JStr databaseName)])) in
     try_finally
       (call (ClientConnect adminClient) ;;
        let schemas := schemas_names o in
        (if createIfNotExists o then
           for_each schemas
             (fun schema =>
                query adminClient (CreateSchemaIfNotExists schema) ;;
                ret tt)
         else ret tt) ;;
        for_each schemas
          (fun schema =>
             query adminClient (DatabaseSchemaGrants schema roleName) ;;
             ret tt))
       (* adminClient.end() is not awaited *)
       (emit (ClientEnd adminClient)))
    (emit (Release client)).

(** [PostgresDatabaseManagement.deleteTenant]. *)
Definition deleteTenant (tenantId : string) : M unit :=
  let* f := get_self in
  let* config := get respond (secretsManager f) tenantId in
  let* (role, database) :=
    match config with
    | JNull => throw "TypeError"
    | _ => ret (member config "user", member config "database")
    end in
  call (PoolQuery (pool f)
          (DropDatabase (to_template database)
             (match useForceOnDelete (opts f) with
              | Some b => b
              | None => false
              end))) ;;
  remove respond (secretsManager f) tenantId ;;
  if strict_neq (obj_get "user" (poolConfig f)) role then
    call (PoolQuery (pool f) (DropRole (to_template role))) ;; ret tt
  else ret tt.

Definition in_transaction_mode (f : fields) : bool :=
  is_string (obj_get "poolMode" (poolConfig f)) "transaction_mode".

(** [PgBouncerDatabaseManagement.createTenant]. *)
Definition pgb_createTenant (tenantId : string) : M unit :=
  let* f := get_self in
  if in_transaction_mode f then throw CREATE_IN_TRANSACTION_MODE
  else
    createTenant tenantId ;;
    emit (Console "warn"
            "Tenant database and role created, but PgBouncer was not updated. You must manually update PgBouncer to grant access to the new database.").

(** [PgBouncerDatabaseManagement.deleteTenant]. *)
Definition pgb_deleteTenant (tenantId : string) : M unit :=
  let* f := get_self in
  if in_transaction_mode f then throw DELETE_IN_TRANSACTION_MODE
  else deleteTenant tenantId.

End Methods.

End DatabaseManagement.

(** *** strategies/schema.ts: [PostgresSchemaManagement] *)

Module SchemaManagement.
Import JsString Json Sql Effects Core PostgresBase.

(** [this.options.provision] holds the schema prefix only; the role
    prefix is not copied by the constructor. *)
Record fields := {
  poolConfig : list (string * json);
  schema_prefix : string;
  secretsManager : TenantsSecretsManager;
  next_handle : handle
}.

Definition new_fields (poolConfig : list (string * json))
    (prefix : option string) (secrets : TenantsSecrets)
    (id : option string) : fields :=
  {| poolConfig := poolConfig;
     schema_prefix := or_else prefix DEFAULT_TENANT_SCHEMA_PREFIX;
     secretsManager := new_TenantsSecretsManager secrets (getPattern id) id;
     next_handle := 1 |}.

Definition with_next_handle (n : handle) (f : fields) : fields :=
  {| poolConfig := poolConfig f; schema_prefix := schema_prefix f;
     secretsManager := secretsManager f; next_handle := n |}.

Definition getSchemaNameForTenant (f : fields) (tenantId : string) : string :=
  schema_prefix f ++ tenantId.

(** A column of a result row, as a template literal inserts it. *)
Definition column (k : string) (r : row) : string :=
  match obj_get k r with
  | Some (VText s) => s
  | Some (VBool true) => "true"
  | Some (VBool false) => "false"
  | Some VNull => "null"
  | None => "undefined"
  end.

Section Methods.
Context {E : Type}.
Variable respond : event -> E -> E * response.
Local Open Scope m_scope.
Local Abbreviation M := (@M E fields).
Local Abbreviation call := (call respond).
Local Abbreviation emit := (emit respond).

Definition query (client : handle) (q : stmt) : M response :=
  call (Query client q).

Definition new_Client (config : json) : M handle :=
  let* f := get_self in
  let client := next_handle f in
  set_self (with_next_handle (S client) f) ;;
  emit (ClientNew client config) ;;
  ret client.

Definition createTenant (tenantId : string) : M unit :=
  let* f := get_self in
  let* client := new_Client (JObj (poolConfig f)) in
  call (ClientConnect client) ;;
  try_finally
    (try_catch
       (let schemaName := getSchemaNameForTenant f tenantId in
        query client BeginSemi ;;
        query client (CreateSchema schemaName) ;;
        let* r := query client SelectCurrentDatabase in
        let* currentDatabase :=
          match rows_of r with
          | first :: _ => ret (column "current_database" first)
          | [] => throw "TypeError"
          end in
        let roleName := generateDefaultTenantRoleName tenantId None in
        let* password := generatePassword respond 24 in
        query client
          (SchemaRoleAndGrants roleName password schemaName
             currentDatabase) ;;
        query client CommitSemi ;;
        store respond (secretsManager f) tenantId
          (JObj (obj_assign (poolConfig f)
                   [("user", JStr roleName); ("password", JStr password);
                    ("database", JStr currentDatabase);
                    ("schema", JStr schemaName)])))
       (fun err =>
          try_catch
            (query client Rollback ;; ret tt)
            (fun rollbackErr =>
               emit (Console "error"
                       ("Error during rollback: " ++ rollbackErr))) ;;
          throw err))
    (call (ClientEnd client) ;; ret tt).

Definition deleteTenant (tenantId : string) : M unit :=
  let* f := get_self in
  let* config := get respond (secretsManager f) tenantId in
  let* client := new_Client (JObj (poolConfig f)) in
  call (ClientConnect client) ;;
  try_finally
    (let* schema :=
       match config with
       | JNull => throw "TypeError"
       | _ => ret (member config "schema")
       end in
     query client (DropSchemaCascade (to_template schema)) ;; ret tt)
    (call (ClientEnd client) ;; ret tt).

End Methods.

End SchemaManagement.

(** *** strategies/rls.ts: [PostgresRlsManagement] *)

Module RlsManagement.
Import JsString Json Sql Effects Core PostgresBase.

(** [this.options] after the constructor. *)
Record fields := {
  tables : option (list Table);
  tenantColumn : string;
  autoDetectTables : bool;
  autoSetup : bool;
  forceRlsOnTableOwner : bool;
  pool : handle
}.

(** The constructor, from the optional properties of
    [PostgresRlsManagementOptions]. *)
Definition new_fields (in_tables : option (list Table))
    (in_tenantColumn : option string)
    (in_autoDetectTables in_autoSetup in_forceRlsOnTableOwner : option bool)
  : fields :=
  {| tables := in_tables;
     tenantColumn := or_else in_tenantColumn DEFAULT_TENANT_ID_COLUMN;
     autoDetectTables :=
       match in_autoDetectTables with Some b => b | None => true end;
     autoSetup := match in_autoSetup with Some b => b | None => false end;
     forceRlsOnTableOwner :=
       match in_forceRlsOnTableOwner with Some b => b | None => true end;
     pool := 0 |}.

Definition with_autoSetup (b : bool) (f : fields) : fields :=
  {| tables := tables f; tenantColumn := tenantColumn f;
     autoDetectTables := autoDetectTables f; autoSetup := b;
     forceRlsOnTableOwner := forceRlsOnTableOwner f; pool := pool f |}.

(** A text column of a catalog row; the catalog views queried here have
    text columns. *)
Definition text_column (k : string) (r : row) : option string :=
  match obj_get k r with
  | Some (VText s) => Some s
  | _ => None
  end.

(** A value inserted by a template literal. *)
Definition template (v : option string) : string :=
  match v with
  | Some s => s
  | None => "undefined"
  end.

(** [a || b] where [b] may itself be [undefined]. *)
Definition or_value (a b : option string) : option string :=
  if truthy a then a else b.

(** [if (row.has_rls_enabled)]. *)
Definition column_truthy (k : string) (r : row) : bool :=
  match obj_get k r with
  | Some (VBool b) => b
  | Some (VText (String _ _)) => true
  | _ => false
  end.

Definition policy_conflict (policyName schema tableName : string) : error :=
  ("A row-level security (RLS) policy named " ++ dq ++ policyName ++ dq
    ++ " already exists on " ++ schema ++ "." ++ tableName
    ++ ". Multiple policies on the same table can lead to unpredictable behavior and unintended access control issues. To resolve this, modify the existing policy or ensure that group-specific policies do not overlap with the default isolation settings.")%string.

(** [options.tables.some(t => t.name === table.name &&
    t.schema === table.schema)]. *)
Definition same_table (t table : Table) : bool :=
  String.eqb (name t) (name table)
  && match schema t, schema table with
     | Some a, Some b => String.eqb a b
     | None, None => true
     | _, _ => false
     end.

Section Methods.
Context {E : Type}.
Variable respond : event -> E -> E * response.
Local Open Scope m_scope.
Local Abbreviation M := (@M E fields).
Local Abbreviation call := (call respond).
Local Abbreviation emit := (emit respond).

Definition query (client : handle) (q : stmt) : M response :=
  call (Query client q).
Definition release (client : handle) : M unit := emit (Release client).
Definition console (level message : string) : M unit :=
  emit (Console level message).

Definition getTableSequences (client : handle) (tableName schema : string)
  : M response :=
  query client (SelectTableSequences schema tableName).

Definition grantOverRole (client : handle) (tableName schema : string)
  : M unit :=
  query client (GrantOverRole schema tableName) ;;
  let* r := getTableSequences client tableName schema in
  for_each (rows_of r)
    (fun row =>
       let sequenceName := text_column "sequence_name" row in
       query client (GrantSequence (template sequenceName)) ;; ret tt).

Definition enableRlsOverTable (client : handle)
    (tableName schema : string) : M unit :=
  let* f := get_self in
  query client (EnableRls schema tableName (forceRlsOnTableOwner f)) ;;
  ret tt.

(** [rowCount && rowCount > 0]: the number of rows of the answer. *)
Definition isPolicyCreated (client : handle)
    (tableName schema policyName : string) : M bool :=
  let* r := query client (SelectPolicy schema tableName policyName) in
  ret (Nat.ltb 0 (List.length (rows_of r))).

Definition createPoliciesOverTable (client : handle) (table : Table)
    (schema : string) : M unit :=
  let* f := get_self in
  let tenantIdColumn := or_else (tenantIdColumn table) (tenantColumn f) in
  let usingPolicyName := "tenant_isolation" in
  let* exists_using :=
    isPolicyCreated client (name table) schema usingPolicyName in
  (if exists_using then
     throw (policy_conflict usingPolicyName schema (name table))
   else
     query client (CreateUsingPolicy schema (name table) tenantIdColumn) ;;
     ret tt) ;;
  let insertPolicyName := "tenant_insert" in
  let* exists_insert :=
    isPolicyCreated client (name table) schema insertPolicyName in
  if exists_insert then
    throw (policy_conflict insertPolicyName schema (name table))
  else
    query client (CreateInsertPolicy schema (name table) tenantIdColumn) ;;
    ret tt.

(** [rowCount === 1]. *)
Definition isRoleCreated (client : handle) : M bool :=
  let* r := query client SelectRole in
  ret (Nat.eqb (List.length (rows_of r)) 1).

Definition createRole (client : handle) : M response :=
  query client CreateRole.

Definition getCleanClient : M handle :=
  let* f := get_self in
  call (PoolConnect (pool f)) ;;
  let client := pool f in
  try_catch
    (query client ResetAll ;; ret client)
    (fun err => release client ;; throw err).

(** The body of the loop of [setup] over the tables. *)
Definition setup_table (client : handle) (currentSchema : option string)
    (table : Table) : M unit :=
  let schema := template (or_value (schema table) currentSchema) in
  grantOverRole client (name table) schema ;;
  enableRlsOverTable client (name table) schema ;;
  createPoliciesOverTable client table schema.

Definition setup (tables_arg : option (list Table)) : M unit :=
  let* f := get_self in
  let tableList :=
    match tables_arg with Some l => Some l | None => tables f end in
  match tableList with
  | None | Some [] =>
      console "warn"
        "No tables specified for Row-Level Security (RLS) setup. No RLS policies will be applied. No role will be created."
  | Some tableList =>
      let* client := getCleanClient in
      try_finally
        (try_catch
           (let* r := query client SelectCurrentSchema in
            let* currentSchema :=
              match rows_of r with
              | first :: _ => ret (text_column "current_schema" first)
              | [] => throw "TypeError"
              end in
            query client Begin ;;
            let* role_exists := isRoleCreated client in
            (if negb role_exists then createRole client ;; ret tt
             else console "warn" "Role already exists") ;;
            for_each tableList (setup_table client currentSchema) ;;
            query client CommitSemi ;;
            ret tt)
           (fun err =>
              try_catch (query client RollbackSemi ;; ret tt)
                        (fun _ => ret tt) ;;
              throw err))
        (release client)
  end.

Definition getMultitenantTablesWithoutRls (client : handle)
  : M (list Table) :=
  let* f := get_self in
  let* r := query client (SelectMultitenantTables (tenantColumn f)) in
  ret (map (fun row =>
              {| name := template (text_column "table_name" row);
                 schema := text_column "table_schema" row;
                 tenantIdColumn := None |})
           (List.filter (fun row => negb (column_truthy "has_rls_enabled" row))
                   (rows_of r))).

(** [createTenant]; the result tells whether a setup pass ran. The
    [finally] block clears [autoSetup] whatever the outcome. *)
Definition createTenant (_tenantId : string) : M bool :=
  let* f := get_self in
  if autoSetup f then
    let* client := getCleanClient in
    try_finally
      (let* multitenantTablesWithoutRls :=
         getMultitenantTablesWithoutRls client in
       if Nat.ltb 0 (List.length multitenantTablesWithoutRls) then
         match tables f with
         | Some configured =>
             let filteredTables :=
               List.filter (fun table => existsb (fun t => same_table t table)
                                            configured)
                      multitenantTablesWithoutRls in
             if Nat.ltb 0 (List.length filteredTables) then
               console "log" "Setting up RLS for tables:" ;;
               setup (Some filteredTables) ;;
               ret true
             else ret false
         | None =>
             if autoDetectTables f then
               console "log" "Setting up RLS for tables:" ;;
               setup (Some multitenantTablesWithoutRls) ;;
               ret true
             else ret false
         end
       else ret false)
      ((let* f := get_self in set_self (with_autoSetup false f)) ;;
       release client)
  else ret false.

Definition deleteTenant (id : string) (tables_arg : option (list Table))
  : M unit :=
  let* f := get_self in
  let tableList :=
    match tables_arg with Some l => Some l | None => tables f end in
  match tableList with
  | None | Some [] =>
      console "warn" "No tables specified. No data will be removed."
  | Some tableList =>
      call (PoolConnect (pool f)) ;;
      let client := pool f in
      try_finally
        (try_catch
           (query client BeginSemi ;;
            query client (SetTenantLocal id) ;;
            for_each tableList
              (fun table =>
                 query client
                   (DeleteTenantRows (schema table) (name table)
                      (or_else (tenantIdColumn table) (tenantColumn f))
                      id) ;;
                 ret tt) ;;
            query client CommitSemi ;;
            ret tt)
           (fun err =>
              try_catch
                (query client RollbackSemi ;; ret tt)
                (fun rollbackErr =>
                   console "error"
                     ("Error during rollback: " ++ rollbackErr)) ;;
              throw err))
        (release client)
  end.

End Methods.

End RlsManagement.

(** ** packages/redis: the ACL strategy's Management role *)

Module RedisAcl.
Import JsString Json Sql Effects Core.

Definition DEFAULT_SECRETS_PATTERN := "/tenants/{tenantId}/redis/connection".
Definition DEFAULT_SECRETS_WITH_RESOURCE_ID_PATTERN :=
  "/tenants/{tenantId}/redis/{resourceId}/connection".

(** [RedisResource.getPattern]: the resource id is substituted here. *)
Definition getPattern (id : option string) : string :=
  match id with
  | Some (String c r) =>
      replace DEFAULT_SECRETS_WITH_RESOURCE_ID_PATTERN "{resourceId}"
              (String c r)
  | _ => DEFAULT_SECRETS_PATTERN
  end.

Record fields := {
  config : option (list (string * json));
  enableDangerousCommands : bool;
  custom_generatePassword : bool;
  tenantsSecretsManager : TenantsSecretsManager
}.

(** [delete obj[k]], the effect of [this.config.keyPrefix = undefined]
    on what is later read and serialized. *)
Fixpoint without (k : string) (l : list (string * json))
  : list (string * json) :=
  match l with
  | [] => []
  | (k', v) :: r =>
      if String.eqb k k' then without k r else (k', v) :: without k r
  end.

(** The constructors of [RedisResource], [RedisManagementBase] and
    [RedisAclManagement]. *)
Definition new_fields (clientConfig : option (list (string * json)))
    (enableDangerous : option bool) (customPassword : bool)
    (secrets : TenantsSecrets) (id : option string) : fields :=
  {| config :=
       match clientConfig with
       | Some c => Some (without "keyPrefix" c)
       | None => None
       end;
     enableDangerousCommands :=
       match enableDangerous with Some b => b | None => false end;
     custom_generatePassword := customPassword;
     tenantsSecretsManager :=
       new_TenantsSecretsManager secrets (getPattern id) id |}.

(** [RedisResource.buildKeyspacePrefix]. *)
Definition buildKeyspacePrefix (f : fields) (tenantId : string) : string :=
  let keyPrefix :=
    match config f with
    | Some c => obj_get "keyPrefix" c
    | None => None
    end in
  if js_truthy keyPrefix then
    "tenant:" ++ tenantId ++ ":" ++ to_template keyPrefix ++ ":"
  else "tenant:" ++ tenantId ++ ":".

Section Methods.
Context {E : Type}.
Variable respond : event -> E -> E * response.
Local Open Scope m_scope.
Local Abbreviation M := (@M E fields).
Local Abbreviation call := (call respond).

(** [RedisManagementBase.deleteTenant]: the keys under the prefix,
    deleted in one pipeline. *)
Definition base_deleteTenant (tenantId : string) : M unit :=
  let* f := get_self in
  let prefix := buildKeyspacePrefix f tenantId in
  let* r := call (RedisKeys (prefix ++ "*")%string) in
  let keys := texts_of r in
  if Nat.ltb 0 (List.length keys) then
    call (RedisPipelineDel keys) ;; ret tt
  else ret tt.

(** [RedisAclManagement.createTenant]. *)
Definition createTenant (tenantId : string) : M unit :=
  let* f := get_self in
  let* generatedTenantPassword :=
    if custom_generatePassword f then
      let* r := call (CustomPassword tenantId) in ret (text_of r)
    else generatePassword respond 24 in
  let password :=
    match generatedTenantPassword with
    | EmptyString => "nopass"
    | _ => (">" ++ generatedTenantPassword)%string
    end in
  let keyspacePrefix := buildKeyspacePrefix f tenantId in
  (if enableDangerousCommands f then
     call (RedisCall ["ACL"; "SETUSER"; tenantId; "on"; password;
                      ("~" ++ keyspacePrefix ++ "*")%string; "+@all"])
   else
     call (RedisCall ["ACL"; "SETUSER"; tenantId; "on"; password;
                      ("~" ++ keyspacePrefix ++ "*")%string; "+@all";
                      "-@dangerous"])) ;;
  store respond (tenantsSecretsManager f) tenantId
    (JObj (obj_assign
             (match config f with Some c => c | None => [] end)
             [("username", JStr tenantId);
              ("password", JStr generatedTenantPassword);
              ("keyPrefix", JStr keyspacePrefix)])).

(** [RedisAclManagement.deleteTenant]. *)
Definition deleteTenant (tenantId : string) : M unit :=
  let* f := get_self in
  base_deleteTenant tenantId ;;
  call (RedisCall ["ACL"; "DELUSER"; tenantId]) ;;
  remove respond (tenantsSecretsManager f) tenantId.

End Methods.

End RedisAcl.

(** ** Vocabulary of the properties *)

(** *** Serialized values *)

Module JsonSpec.
Import JsString Json.

(** Induction over values, with the hypothesis on every element of an
    array and every property of an object. *)
Fixpoint json_induction (P : json -> Prop)
    (Hnull : P JNull) (Hbool : forall b, P (JBool b))
    (Hnum : forall z, P (JNum z)) (Hdec : forall m places, P (JDec m places))
    (Hstr : forall s, P (JStr s))
    (Harr : forall l, Forall P l -> P (JArr l))
    (Hobj : forall l, Forall (fun kv => P (snd kv)) l -> P (JObj l))
    (v : json) {struct v} : P v :=
  match v with
  | JNull => Hnull
  | JBool b => Hbool b
  | JNum z => Hnum z
  | JDec m places => Hdec m places
  | JStr s => Hstr s
  | JArr l =>
      Harr l
        ((fix all (l : list json) : Forall P l :=
            match l with
            | [] => Forall_nil P
            | x :: r =>
                Forall_cons x
                  (json_induction P Hnull Hbool Hnum Hdec Hstr Harr Hobj x)
                  (all r)
            end) l)
  | JObj l =>
      Hobj l
        ((fix all (l : list (string * json))
            : Forall (fun kv => P (snd kv)) l :=
            match l with
            | [] => Forall_nil _
            | kv :: r =>
                Forall_cons kv
                  (json_induction P Hnull Hbool Hnum Hdec Hstr Harr Hobj (snd kv))
                  (all r)
            end) l)
  end.

(** The text after a run of digits: nothing, or a character that is
    not a digit. *)
Definition stops (rest : list ascii) : Prop :=
  match rest with
  | [] => True
  | c :: _ => digit_of c = None
  end.

(** The text after a number in a serialized value: nothing, or a
    character that is neither a digit nor the start of a fraction. *)
Definition ends_number (rest : list ascii) : Prop :=
  match rest with
  | [] => True
  | c :: _ => digit_of c = None /\ starts_fraction rest = false
  end.

(** The text after a serialized value inside a container, or nothing. *)
Definition delimited (rest : list ascii) : Prop :=
  match rest with
  | [] => True
  | c :: _ => c = ","%char \/ c = "]"%char \/ c = "}"%char
  end.

(** The fuel a value needs. *)
Fixpoint size (v : json) : nat :=
  match v with
  | JArr l => S (fold_right (fun x n => S (size x + n)) 0 l)
  | JObj l =>
      S (fold_right (fun kv n => let '(_, x) := kv in S (size x + n)) 0 l)
  | _ => 1
  end.

(** The first character of a value: not white space, not a closing
    bracket. *)
Definition starts_value (s : list ascii) : Prop :=
  match s with
  | c :: _ =>
      is_ws c = false /\ Ascii.eqb c "]" = false /\ Ascii.eqb c "}" = false
  | [] => False
  end.

Definition is_number_head (c : ascii) : Prop :=
  In c ["-"; "0"; "1"; "2"; "3"; "4"; "5"; "6"; "7"; "8"; "9"]%char.

Definition parses (v : json) : Prop :=
  forall fuel rest,
    size v <= fuel -> delimited rest ->
    parse_value fuel (print v ++ rest) = Some (v, rest).

Definition member_text (kv : string * json) : list ascii :=
  let '(k, x) := kv in quote k ++ ":"%char :: print x.

End JsonSpec.

(** *** A secret store kept in memory, and a world that accepts
    everything *)

Module Worlds.
Import Json Effects.

(** The secret store as the list of its entries: [createSecret] refuses
    a path that exists, [getSecret], [updateSecret] and [deleteSecret]
    one that does not. Every other call is answered with an empty
    result. *)
Definition memory_store (ev : event) (e : list (string * string))
  : list (string * string) * response :=
  match ev with
  | CreateSecret path value =>
      match obj_get path e with
      | Some _ => (e, Rejected "Secret already exists")
      | None => (obj_set path value e, Text EmptyString)
      end
  | UpdateSecret path value =>
      match obj_get path e with
      | Some _ => (obj_set path value e, Text EmptyString)
      | None => (e, Rejected "Secret not found")
      end
  | GetSecret path =>
      match obj_get path e with
      | Some value => (e, Text value)
      | None => (e, Rejected "Secret not found")
      end
  | DeleteSecret path =>
      match obj_get path e with
      | Some _ => (Tenants.obj_delete path e, Text EmptyString)
      | None => (e, Rejected "Secret not found")
      end
  | _ => (e, Rows [])
  end.

(** A world for the Tenants roles: the secret store in memory and the
    pools that were ended. A pool refuses [connect] once ended and refuses
    to be ended twice, as the driver does. *)
Definition tenant_world (ev : event)
    (e : list (string * string) * list handle)
  : (list (string * string) * list handle) * response :=
  let '(secrets, ended) := e in
  match ev with
  | PoolConnect pool =>
      if existsb (Nat.eqb pool) ended then
        (e, Rejected "Cannot use a pool after calling end on the pool")
      else (e, Rows [])
  | PoolEnd pool =>
      if existsb (Nat.eqb pool) ended then
        (e, Rejected "Called end on pool more than once")
      else ((secrets, pool :: ended), Rows [])
  | _ =>
      let '(secrets', r) := memory_store ev secrets in
      ((secrets', ended), r)
  end.

(** A descriptor of a tenant behind PgBouncer in session mode, and a
    fresh Tenants role whose secret store holds it for tenant [acme]. *)
Definition session_descriptor : json :=
  JObj [("host", JStr "pgbouncer"); ("port", JNum 6432);
        ("user", JStr "tenant_acme"); ("password", JStr "pw");
        ("database", JStr "tenant_acme"); ("schema", JStr "tenant_acme");
        ("poolMode", JStr "session_mode")].

Definition session_tenants
  : world (list (string * string) * list handle) Tenants.fields :=
  World ([("/tenants/acme/postgres/connection", stringify session_descriptor)],
         [])
        [] (Tenants.new_fields {| Core.secrets_pattern := None |} None).

(** That role after it has served tenant [acme] once, and after a
    resolved [end()] on top of that. *)
Definition served_tenants
  : world (list (string * string) * list handle) Tenants.fields :=
  Eval vm_compute in
    fst (PostgresDatabaseTenants.getClientFor tenant_world "acme"
           session_tenants).

Definition ended_tenants
  : world (list (string * string) * list handle) Tenants.fields :=
  Eval vm_compute in fst (Tenants.end_ tenant_world None served_tenants).

(** A world that reads its answers from a script, one per event. *)
Definition scripted (ev : event) (s : list response)
  : list response * response :=
  match s with
  | r :: s' => (s', r)
  | [] => ([], Rows [])
  end.

(** A descriptor with strategy fields ([schema], [keyPrefix]) and
    nested values. *)
Definition sample_descriptor : json :=
  JObj [("host", JStr "db.internal"); ("port", JNum 5432);
        ("user", JStr "tenant_acme"); ("password", JStr "s3cr3t\pass");
        ("database", JStr "app"); ("schema", JStr "tenant_acme");
        ("keyPrefix", JStr "tenant:acme:");
        ("ssl", JObj [("rejectUnauthorized", JBool false)]);
        ("hosts", JArr [JStr "a"; JStr "b"]); ("max", JNum (-1));
        ("application_name", JNull)].

(** A descriptor of the Schema strategy behind PgBouncer. *)
Definition pgbouncer_schema_descriptor : json :=
  JObj [("host", JStr "pgbouncer"); ("port", JNum 6432);
        ("user", JStr "tenant_acme"); ("password", JStr "pw");
        ("database", JStr "app"); ("schema", JStr "tenant_acme");
        ("poolMode", JStr "transaction_mode")].

End Worlds.

(** *** Secret paths *)

Module PathSpec.
Import Core PostgresBase.

(** The manager of a Postgres resource with the given configured
    pattern and resource id. *)
Definition manager (configured : option string) (id : option string)
  : TenantsSecretsManager :=
  new_TenantsSecretsManager {| secrets_pattern := configured |}
                            (getPattern id) id.

End PathSpec.

(** *** The transaction wrapper *)

Module TransactionSpec.
Import JsString Json Sql Effects.

(** What the console shows after the rollback was answered with [r]. *)
Definition rollback_log (r : response) : list event :=
  match r with
  | Rejected e => [Console "error" ("Error during rollback: " ++ e)%string]
  | _ => []
  end.

(** The discipline of one [queryAs] under [transaction_mode], from the
    moment the pool hands out [client] (the world being [e0] and the
    trace [t0] then), for the result [run] of the whole call.

    The first statement sent is [begin]. If the world rejects it, or
    the query [q], or the commit, with [err], a rollback is sent next,
    a rejected rollback is only logged, the client is released and
    [err] is what [queryAs] throws. If nothing is rejected the trace is
    begin, query, commit, release, and the answer to the query is
    returned. *)
Definition transaction_discipline {E F : Type}
    (respond : event -> E -> E * response)
    (run : world E F * outcome response)
    (client : handle) (begin q : stmt) (e0 : E) (t0 : list event) : Prop :=
  forall e1 r1 e2 r2,
    respond (PoolConnect client) e0 = (e1, r1) ->
    rejection r1 = None ->
    respond (Query client begin) e1 = (e2, r2) ->
    let t2 := t0 ++ [PoolConnect client; Query client begin] in
    match rejection r2 with
    | Some err =>
        forall e3 r3,
          respond (Query client Rollback) e2 = (e3, r3) ->
          trace (fst run)
          = t2 ++ Query client Rollback :: rollback_log r3 ++ [Release client]
          /\ snd run = Throw err
    | None =>
        forall e3 r3,
          respond (Query client q) e2 = (e3, r3) ->
          match rejection r3 with
          | Some err =>
              forall e4 r4,
                respond (Query client RollbackSemi) e3 = (e4, r4) ->
                trace (fst run)
                = t2 ++ Query client q :: Query client RollbackSemi
                     :: rollback_log r4 ++ [Release client]
                /\ snd run = Throw err
          | None =>
              forall e4 r4,
                respond (Query client CommitSemi) e3 = (e4, r4) ->
                match rejection r4 with
                | Some err =>
                    forall e5 r5,
                      respond (Query client RollbackSemi) e4 = (e5, r5) ->
                      trace (fst run)
                      = t2 ++ Query client q :: Query client CommitSemi
                           :: Query client RollbackSemi
                           :: rollback_log r5 ++ [Release client]
                      /\ snd run = Throw err
                | None =>
                    trace (fst run)
                    = t2 ++ [Query client q; Query client CommitSemi;
                             Release client]
                    /\ snd run = Return r3
                end
          end
    end.

End TransactionSpec.

(** *** Pools *)

Module PoolSpec.
Import Json Effects.

(** The number of pools created for a tenant in a trace. *)
Fixpoint pools_created (tenantId : string) (tr : list event) : nat :=
  match tr with
  | [] => 0
  | PoolNew (Some t) _ _ :: r =>
      (if String.eqb t tenantId then 1 else 0) + pools_created tenantId r
  | _ :: r => pools_created tenantId r
  end.

(** A call made on a Tenants role. *)
Inductive tenant_call :=
| GetClientFor (tenantId : string)
| QueryAs (tenantId : string) (q : Sql.stmt).

Section Runs.
Context {E F : Type}.
Variable getClientFor : string -> @M E F handle.
Variable queryAs : string -> Sql.stmt -> @M E F response.

(** The state after a call, whether it returned or threw. *)
Definition run_call (c : tenant_call) (w : world E F) : world E F :=
  match c with
  | GetClientFor t => fst (getClientFor t w)
  | QueryAs t q => fst (queryAs t q w)
  end.

(** The state after a sequence of calls on the same instance. *)
Definition run_calls (calls : list tenant_call) (w : world E F) : world E F :=
  fold_left (fun w c => run_call c w) calls w.

End Runs.

(** What a [getClientFor] that caches its pools may do, [run] being its
    result from [w]. With a pool cached for the tenant it creates none,
    leaves the fields alone, and connects on that pool only. Without one
    it either fails before creating a pool, or creates exactly one,
    numbered [next_handle], and caches it under the tenant id. *)
Definition caches_pools {E : Type}
    (run : world E Tenants.fields * outcome handle)
    (w : world E Tenants.fields) (tenantId : string) : Prop :=
  match obj_get tenantId (Tenants.pools (self w)) with
  | Some pool =>
      self (fst run) = self w
      /\ (exists added,
             trace (fst run) = trace w ++ added
             /\ (forall t, pools_created t added = 0)
             /\ (forall p, In (PoolConnect p) added -> p = pool))
      /\ (forall client, snd run = Return client -> client = pool)
  | None =>
      (self (fst run) = self w
       /\ (forall t,
              pools_created t (trace (fst run)) = pools_created t (trace w))
       /\ exists err, snd run = Throw err)
      \/ (self (fst run)
          = Tenants.with_pools
              (obj_set tenantId (Tenants.next_handle (self w))
                       (Tenants.pools (self w)))
              (Tenants.with_next_handle (S (Tenants.next_handle (self w)))
                                        (self w))
          /\ (forall t,
                 pools_created t (trace (fst run))
                 = pools_created t (trace w)
                   + (if String.eqb tenantId t then 1 else 0))
          /\ (forall client,
                 snd run = Return client ->
                 client = Tenants.next_handle (self w)))
  end.

(** A [getClientFor] creates no pool, keeps the map, connects on [pool]
    only and, if it returns, returns the client of [pool]. *)
Definition reuses_pool {E : Type}
    (getClientFor : string -> @M E Tenants.fields handle)
    (tenantId : string) (pool : handle) (w : world E Tenants.fields) : Prop :=
  forall w2 o,
    getClientFor tenantId w = (w2, o) ->
    (forall t, pools_created t (trace w2) = pools_created t (trace w))
    /\ Tenants.pools (self w2) = Tenants.pools (self w)
    /\ (exists added,
           trace w2 = trace w ++ added
           /\ forall p, In (PoolConnect p) added -> p = pool)
    /\ (forall client, o = Return client -> client = pool).

(** One round of the loop of [end()]. *)
Definition end_if_open {E : Type} (respond : event -> E -> E * response)
    (pool : handle) : @M E Tenants.fields unit :=
  bind get_self
       (fun f => if negb (Tenants.is_ended pool f)
                 then Tenants.end_pool respond pool
                 else ret tt).

(** At most one pool was created for each tenant, and a tenant without a
    cached pool has had none created. *)
Definition cached_once {E : Type} (w : world E Tenants.fields) : Prop :=
  forall t,
    pools_created t (trace w) <= 1
    /\ (obj_get t (Tenants.pools (self w)) = None ->
        pools_created t (trace w) = 0).

End PoolSpec.

(** ** Vocabulary of the RLS setup properties *)

Module SetupSpec.
Import JsString Json Sql Effects Core RlsManagement.

(** The catalog query of the auto-discovery pass of [createTenant]. *)
Definition is_discovery (ev : event) : bool :=
  match ev with
  | Query _ (SelectMultitenantTables _) => true
  | _ => false
  end.

(** The [BEGIN] that opens the transaction of [setup]; no other method
    of the class sends this statement. *)
Definition is_setup_begin (ev : event) : bool :=
  match ev with
  | Query _ Begin => true
  | _ => false
  end.

Definition count_events (p : event -> bool) (t : list event) : nat :=
  List.length (List.filter p t).

(** [createTenant] called once per element of [ids], one call after the
    other, whatever each call returned or threw. *)
Fixpoint create_tenants {E : Type} (respond : event -> E -> E * response)
    (ids : list string) (w : world E fields) : world E fields :=
  match ids with
  | [] => w
  | id :: rest =>
      create_tenants respond rest (fst (createTenant respond id w))
  end.

(** [m] appends at most [n] events selected by [p] and leaves the
    fields of the object as they are. *)
Definition adds {E F A : Type} (p : event -> bool) (n : nat) (m : @M E F A)
  : Prop :=
  forall w, exists added,
    trace (fst (m w)) = trace w ++ added
    /\ count_events p added <= n
    /\ self (fst (m w)) = self w.

(** The state of the instance after some calls of [createTenant], [n0]
    being the number of selected events before the first of them:
    either the pass is still to run and nothing was added, or it is
    disabled and at most one event was added. *)
Definition pass_state {E : Type} (p : event -> bool) (n0 : nat)
    (w : world E fields) : Prop :=
  (autoSetup (self w) = true /\ count_events p (trace w) = n0)
  \/ (autoSetup (self w) = false /\ count_events p (trace w) <= n0 + 1).

End SetupSpec.

(** ** A database for the RLS setup properties *)

Module PolicySpec.
Import JsString Json Sql Effects Core PostgresBase RlsManagement.

(** A row-level security policy as [pg_policies] lists it: schema,
    table and policy name. *)
Definition policy := (string * string * string)%type.

(** What the RLS setup reads and writes in a Postgres database: the
    current schema of the connection, the roles, the policies, and what
    both were when the open transaction began. *)
Record database := {
  db_schema : string;
  db_roles : list string;
  db_policies : list policy;
  db_saved : option (list string * list policy)
}.

Definition same_policy (a b : policy) : bool :=
  let '(s, t, p) := a in
  let '(s', t', p') := b in
  String.eqb s s' && String.eqb t t' && String.eqb p p'.

Definition has_policy (db : database) (schema table policyName : string)
  : bool :=
  existsb (same_policy (schema, table, policyName)) (db_policies db).

Definition has_role (db : database) (role : string) : bool :=
  existsb (String.eqb role) (db_roles db).

Definition add_policy (q : policy) (db : database) : database :=
  {| db_schema := db_schema db; db_roles := db_roles db;
     db_policies := q :: db_policies db; db_saved := db_saved db |}.

Definition add_role (role : string) (db : database) : database :=
  {| db_schema := db_schema db; db_roles := role :: db_roles db;
     db_policies := db_policies db; db_saved := db_saved db |}.

(** [BEGIN]: inside a transaction it only warns. *)
Definition begin (db : database) : database :=
  match db_saved db with
  | Some _ => db
  | None =>
      {| db_schema := db_schema db; db_roles := db_roles db;
         db_policies := db_policies db;
         db_saved := Some (db_roles db, db_policies db) |}
  end.

Definition commit (db : database) : database :=
  {| db_schema := db_schema db; db_roles := db_roles db;
     db_policies := db_policies db; db_saved := None |}.

(** [ROLLBACK]: outside a transaction it only warns. *)
Definition rollback (db : database) : database :=
  match db_saved db with
  | Some (roles, policies) =>
      {| db_schema := db_schema db; db_roles := roles;
         db_policies := policies; db_saved := None |}
  | None => db
  end.

(** The database as a world. Names are catalog names as they stand.
    [CREATE ROLE] and [CREATE POLICY] are refused when the role or the
    policy exists; the catalog queries of the setup answer from the
    state; [sequences] gives the rows of the sequence query of a table;
    every other call succeeds with no row. *)
Definition postgres (sequences : string -> string -> list row)
    (ev : event) (db : database) : database * response :=
  match ev with
  | Query _ q =>
      match q with
      | Begin | BeginSemi => (begin db, Rows [])
      | CommitSemi => (commit db, Rows [])
      | Rollback | RollbackSemi => (rollback db, Rows [])
      | SelectCurrentSchema =>
          (db, Rows [[("current_schema", VText (db_schema db))]])
      | SelectRole =>
          (db, Rows (if has_role db DEFAULT_ROLE
                     then [[("?column?", VText "1")]] else []))
      | CreateRole =>
          if has_role db DEFAULT_ROLE
          then (db, Rejected "role already exists")
          else (add_role DEFAULT_ROLE db, Rows [])
      | SelectPolicy schema tableName policyName =>
          (db, Rows (if has_policy db schema tableName policyName
                     then [[("policyname", VText policyName)]] else []))
      | CreateUsingPolicy schema tableName _ =>
          if has_policy db schema tableName "tenant_isolation"
          then (db, Rejected "policy already exists")
          else (add_policy (schema, tableName, "tenant_isolation") db,
                Rows [])
      | CreateInsertPolicy schema tableName _ =>
          if has_policy db schema tableName "tenant_insert"
          then (db, Rejected "policy already exists")
          else (add_policy (schema, tableName, "tenant_insert") db, Rows [])
      | SelectTableSequences schema tableName =>
          (db, Rows (sequences schema tableName))
      | _ => (db, Rows [])
      end
  | _ => (db, Rows [])
  end.

(** The schema [setup] uses for a table: its own, or the current one. *)
Definition table_schema (db : database) (table : Table) : string :=
  template (or_value (schema table) (Some (db_schema db))).

(** One of the two policies of a table exists. *)
Definition has_tenant_policy (db : database) (table : Table) : bool :=
  has_policy db (table_schema db table) (name table) "tenant_isolation"
  || has_policy db (table_schema db table) (name table) "tenant_insert".

(** The error is the conflict error of [createPoliciesOverTable] for a
    table of the list. *)
Definition is_policy_conflict (db : database) (l : list Table)
    (o : outcome unit) : Prop :=
  exists table policyName,
    In table l
    /\ In policyName ["tenant_isolation"; "tenant_insert"]
    /\ o = Throw (policy_conflict policyName (table_schema db table)
                    (name table)).

(** A small database and a table list for it. *)
Definition no_sequences (_ _ : string) : list row := [].
Definition empty_database : database :=
  {| db_schema := "public"; db_roles := []; db_policies := [];
     db_saved := None |}.
Definition sample_tables : list Table :=
  [{| name := "todos"; schema := None; tenantIdColumn := None |};
   {| name := "users"; schema := Some "app"; tenantIdColumn := None |}].
Definition sample_management : fields :=
  new_fields (Some sample_tables) None None None None.

End PolicySpec.

(** ** The shape of an SQL command *)

Module InjectionSpec.
Import JsString Json Sql Effects Core PostgresBase.

(** Where a scan of SQL text stands: in code, after one dash, in a
    string literal, after a quote inside a string literal (it closes
    the literal unless another quote follows), the same two for a
    quoted identifier, and in a [--] comment. This is how PostgreSQL
    reads a command with [standard_conforming_strings] on: a quote is
    escaped by doubling it and a backslash is an ordinary character.
    Block comments and dollar-quoted strings, which the templates do
    not use, are not told apart. *)
Inductive mode :=
| Code | Dash | Literal | LiteralQuote | Quoted | QuotedQuote | Comment.

(** What is left of a command when the contents of its string literals,
    quoted identifiers and comments are forgotten. *)
Inductive token :=
| Char (c : ascii)
| StringLiteral
| QuotedIdentifier
| Unterminated.

Definition newline : ascii := ascii_of_nat 10.

Definition code_step (c : ascii) : list token * mode :=
  if Ascii.eqb c "'" then ([], Literal)
  else if Ascii.eqb c dquote then ([], Quoted)
  else if Ascii.eqb c "-" then ([], Dash)
  else ([Char c], Code).

Definition step (m : mode) (c : ascii) : list token * mode :=
  match m with
  | Code => code_step c
  | Dash =>
      if Ascii.eqb c "-" then ([], Comment)
      else (Char "-" :: fst (code_step c), snd (code_step c))
  | Literal => if Ascii.eqb c "'" then ([], LiteralQuote) else ([], Literal)
  | LiteralQuote =>
      if Ascii.eqb c "'" then ([], Literal)
      else (StringLiteral :: fst (code_step c), snd (code_step c))
  | Quoted => if Ascii.eqb c dquote then ([], QuotedQuote) else ([], Quoted)
  | QuotedQuote =>
      if Ascii.eqb c dquote then ([], Quoted)
      else (QuotedIdentifier :: fst (code_step c), snd (code_step c))
  | Comment => if Ascii.eqb c newline then ([], Code) else ([], Comment)
  end.

Definition finish (m : mode) : list token :=
  match m with
  | Code | Comment => []
  | Dash => [Char "-"]
  | Literal | Quoted => [Unterminated]
  | LiteralQuote => [StringLiteral]
  | QuotedQuote => [QuotedIdentifier]
  end.

Fixpoint scan (m : mode) (s : string) : list token :=
  match s with
  | EmptyString => finish m
  | String c r => fst (step m c) ++ scan (snd (step m c)) r
  end.

(** The shape of a command. *)
Definition shape (s : string) : list token := scan Code s.

(** The mode after a text, and what was recognized in it. *)
Fixpoint run (m : mode) (s : string) : mode :=
  match s with
  | EmptyString => m
  | String c r => run (snd (step m c)) r
  end.

Fixpoint emitted (m : mode) (s : string) : list token :=
  match s with
  | EmptyString => []
  | String c r => fst (step m c) ++ emitted (snd (step m c)) r
  end.

(** A text that can stand between quotes of either kind. *)
Definition plain (s : string) : bool :=
  negb (has_char "'" s) && negb (has_char dquote s).

(** A text that can stand in code without opening a literal, a quoted
    identifier or a comment. *)
Definition bare (s : string) : bool := plain s && negb (has_char "-" s).

Definition bare_option (o : option string) : bool :=
  match o with
  | Some s => bare s
  | None => true
  end.

(** The commands into which a tenant id is inserted:
    by [PostgresRlsTenants.getClientFor]; by
    [PostgresRlsManagement.deleteTenant] for a table; by
    [PostgresSchemaManagement.createTenant], with the schema prefix of
    the instance, the generated password and the name of the current
    database. *)
Definition session_commands (tenantId : string) : list stmt :=
  [SetTenantSession tenantId].

Definition delete_commands (table : Table) (tenantColumn : string)
    (tenantId : string) : list stmt :=
  [SetTenantLocal tenantId;
   DeleteTenantRows (schema table) (name table)
     (or_else (tenantIdColumn table) tenantColumn) tenantId].

Definition schema_commands (schemaPrefix password currentDatabase : string)
    (tenantId : string) : list stmt :=
  [CreateSchema (schemaPrefix ++ tenantId);
   SchemaRoleAndGrants (generateDefaultTenantRoleName tenantId None)
     password (schemaPrefix ++ tenantId) currentDatabase].

Definition shapes (l : list stmt) : list (list token) :=
  map (fun q => shape (sql_text q)) l.

(** A table and tenant ids that carry a quote. *)
Definition todos : Table :=
  {| name := "todos"; schema := None; tenantIdColumn := None |}.
Definition closing_literal : string := "x' OR 'a'='a".
Definition closing_identifier : string :=
  "x" ++ dq ++ "; DROP SCHEMA public CASCADE; --".

(** The statements of the queries of a trace. *)
Definition queries (t : list event) : list stmt :=
  flat_map (fun ev => match ev with Query _ q => [q] | _ => [] end) t.

(** A world in which every call succeeds; the current database has the
    given name. *)
Definition accepting (database : string) (ev : event) (e : unit)
  : unit * response :=
  match ev with
  | Query _ SelectCurrentDatabase =>
      (tt, Rows [[("current_database", VText database)]])
  | RandomValues n => (tt, Numbers (repeat 0%N n))
  | _ => (tt, Rows [])
  end.

(** A template literal as its parts: the text of the template, a value
    between single quotes, a value between double quotes, a value
    inserted as it is. *)
Inductive text :=
| Lit (s : string)
| SQ (s : string)
| DQ (s : string)
| Bare (s : string)
| App (a b : text).

Fixpoint denote (t : text) : string :=
  match t with
  | Lit s => s
  | SQ s => squoted s
  | DQ s => dquoted s
  | Bare s => s
  | App a b => denote a ++ denote b
  end.

(** The inserted values can stand where they are. *)
Fixpoint sound (t : text) : Prop :=
  match t with
  | Lit _ => True
  | SQ s | DQ s => plain s = true
  | Bare s => bare s = true
  | App a b => sound a /\ sound b
  end.

(** The scan of a template that does not look into the quoted values;
    a bare value is kept as it is. *)
Inductive item :=
| Tok (t : token)
| BareText (s : string).

Fixpoint walk (m : mode) (t : text) : option (list item * mode) :=
  match t with
  | Lit s => Some (map Tok (emitted m s), run m s)
  | SQ _ => match m with Code => Some ([], LiteralQuote) | _ => None end
  | DQ _ => match m with Code => Some ([], QuotedQuote) | _ => None end
  | Bare s => match m with Code => Some ([BareText s], Code) | _ => None end
  | App a b =>
      match walk m a with
      | Some (ia, m1) =>
          match walk m1 b with
          | Some (ib, m2) => Some (ia ++ ib, m2)
          | None => None
          end
      | None => None
      end
  end.

Fixpoint interp (l : list item) : list token :=
  match l with
  | [] => []
  | Tok t :: r => t :: interp r
  | BareText s :: r => emitted Code s ++ interp r
  end.

End InjectionSpec.

(** ** packages/secrets/src/hashicorp/vault/index.ts: the path of a
    secret in Vault *)

Module Vault.
Import JsString.

(** [Vault.normalizePath]. *)
Definition normalizePath (path : string) : string :=
  if String.prefix "secret/data/" path then path
  else if String.prefix "/" path then "secret/data" ++ path
       else "secret/data/" ++ path.

End Vault.

(** ** packages/redis/src/strategies/prefix.ts: the key prefix of the
    Prefix strategy *)

Module RedisPrefixTenants.
Import JsString Json.

Definition DEFAULT_ACL_USERNAME := "tenant_acl".

(** [RedisPrefixTenants.buildKeyspacePrefix], on [this.clientConfig]. *)
Definition buildKeyspacePrefix (clientConfig : option (list (string * json)))
    (tenantId : string) : string :=
  let keyPrefix :=
    match clientConfig with
    | Some c => obj_get "keyPrefix" c
    | None => None
    end in
  if js_truthy keyPrefix then
    "tenant:" ++ tenantId ++ ":" ++ to_template keyPrefix ++ ":"
  else "tenant:" ++ tenantId ++ ":".

(** [RedisPrefixTenants.getClientFor]: the options the client is built
    with. *)
Definition getClientFor (clientConfig : option (list (string * json)))
    (tenantId : string) : list (string * json) :=
  obj_assign (match clientConfig with Some c => c | None => [] end)
    [("keyPrefix", JStr (buildKeyspacePrefix clientConfig tenantId));
     ("username", JStr DEFAULT_ACL_USERNAME);
     ("enableReadyCheck", JBool false)].

End RedisPrefixTenants.

(** ** Vocabulary of the properties of names and paths *)

Module NamesSpec.
Import JsString Core.

(** Every character of [s] is one of [alphabet]. *)
Fixpoint over (alphabet s : string) : bool :=
  match s with
  | EmptyString => true
  | String c r => has_char c alphabet && over alphabet r
  end.

End NamesSpec.

(** ** packages/postgres/src/strategies/base.ts: [withClientFor] *)

Module TenantsBase.
Import Effects.

Section Methods.
Context {E F : Type}.
Variable respond : event -> E -> E * response.
Local Open Scope m_scope.

(** [PostgresTenantsBase.withClientFor], on the [getClientFor] of the
    subclass; [safeCb] is the caller's callback. *)
Definition withClientFor (getClientFor : string -> @M E F handle)
    (tenantId : string) (safeCb : handle -> @M E F unit) : @M E F unit :=
  let* client := getClientFor tenantId in
  try_finally (safeCb client) (emit respond (Release client)).

End Methods.

End TenantsBase.

(** ** Vocabulary of the properties of the RLS strategy *)

Module RlsSpec.
Import JsString Json Sql Effects Core PostgresBase.

(** The [DELETE] that [deleteTenant] sends for a table. *)
Definition delete_of (f : RlsManagement.fields) (id : string)
    (client : handle) (table : Table) : event :=
  Query client
    (DeleteTenantRows (schema table) (name table)
       (or_else (tenantIdColumn table) (RlsManagement.tenantColumn f)) id).

(** The statements of [deleteTenant], in the order of the source. *)
Definition delete_script (f : RlsManagement.fields) (id : string)
    (client : handle) (l : list Table) : list event :=
  Query client BeginSemi :: Query client (SetTenantLocal id)
    :: map (delete_of f id client) l ++ [Query client CommitSemi].

(** A world in which every call succeeds with no row, and one that
    rejects every [DELETE]. *)
Definition agreeable (ev : event) (e : unit) : unit * response :=
  (tt, Rows []).

Definition read_only (ev : event) (e : unit) : unit * response :=
  match ev with
  | Query _ (DeleteTenantRows _ _ _ _) =>
      (tt, Rejected "permission denied")
  | _ => (tt, Rows [])
  end.

(** The events that open or close a transaction or hand a client
    out or back. *)
Definition is_transaction_control (ev : event) : bool :=
  match ev with
  | PoolConnect _ | Release _ => true
  | Query _ Begin | Query _ BeginSemi | Query _ CommitSemi
  | Query _ Rollback | Query _ RollbackSemi => true
  | _ => false
  end.

Definition two_tables : list Table :=
  [{| name := "todos"; schema := None; tenantIdColumn := None |};
   {| name := "users"; schema := Some "app";
      tenantIdColumn := Some "org" |}].

End RlsSpec.

(** ** What the Schema strategy stores and reads back *)

Module SchemaSpec.
Import JsString Json Sql Effects Core PostgresBase Worlds.
Import SchemaManagement.

(** The descriptor [createTenant] stores, for the password that was
    drawn and the database the server named. *)
Definition descriptor (f : fields) (tenantId password currentDatabase : string)
  : json :=
  JObj (obj_assign (poolConfig f)
          [("user", JStr (generateDefaultTenantRoleName tenantId None));
           ("password", JStr password);
           ("database", JStr currentDatabase);
           ("schema", JStr (getSchemaNameForTenant f tenantId))]).

(** A server that names its database [app] and draws sevens, over the
    secret store kept in memory. *)
Definition schema_world (ev : event) (e : list (string * string))
  : list (string * string) * response :=
  match ev with
  | Query _ SelectCurrentDatabase =>
      (e, Rows [[("current_database", VText "app")]])
  | RandomValues n => (e, Numbers (repeat 7%N n))
  | _ => memory_store ev e
  end.

Definition sample_schema_management : fields :=
  new_fields [("host", JStr "db"); ("port", JNum 5432)] None
    {| secrets_pattern := None |} None.

End SchemaSpec.

(** ** What the Database strategy sends, stores and reads back *)

Module DatabaseSpec.
Import JsString Json Sql Effects Core PostgresBase Worlds.
Import DatabaseManagement.

(** The names [createTenant] gives to the tenant's database and role. *)
Definition databaseName (f : fields) (tenantId : string) : string :=
  database_prefix (opts f) ++ tenantId.
Definition roleName (f : fields) (tenantId : string) : string :=
  generateDefaultTenantRoleName tenantId (Some (role_prefix (opts f))).

(** The descriptor [createTenant] stores, for the password in use. *)
Definition descriptor (f : fields) (tenantId password : string) : json :=
  JObj (obj_assign (poolConfig f)
          [("user", JStr (roleName f tenantId));
           ("password", JStr password);
           ("database", JStr (databaseName f tenantId))]).

(** Where the password comes from. *)
Definition password_draw (f : fields) (tenantId : string) : event :=
  if custom_generatePassword (opts f) then CustomPassword tenantId
  else RandomValues 24.

(** The statements sent on the administrative client, inside the new
    database. *)
Definition admin_script (f : fields) (tenantId : string) : list event :=
  let adminClient := next_handle f in
  (if createIfNotExists (opts f) then
     map (fun schema => Query adminClient (CreateSchemaIfNotExists schema))
       (schemas_names (opts f))
   else [])
  ++ map (fun schema =>
            Query adminClient
              (DatabaseSchemaGrants schema (roleName f tenantId)))
       (schemas_names (opts f)).

(** The inner [finally]: the administrative client is ended once it was
    created, which is the fifth call of [createTenant] after it took
    its client from the pool. *)
Definition admin_closing (f : fields) (sent : list event) : list event :=
  if Nat.leb 5 (List.length sent) then [ClientEnd (next_handle f)] else [].

(** What [deleteTenant] does after reading the descriptor
    [createTenant] stored, when nothing is rejected. *)
Definition delete_script (f : fields) (tenantId : string) : list event :=
  [PoolQuery (pool f)
     (DropDatabase (databaseName f tenantId)
        (match useForceOnDelete (opts f) with
         | Some b => b
         | None => false
         end));
   DeleteSecret (getPath (secretsManager f) tenantId)]
  ++ (if strict_neq (obj_get "user" (poolConfig f))
           (Some (JStr (roleName f tenantId)))
      then [PoolQuery (pool f) (DropRole (roleName f tenantId))]
      else []).

Definition sample_database_management : fields :=
  new_fields [("host", JStr "db"); ("user", JStr "postgres")]
    {| in_database_prefix := None; in_database_template := None;
       in_role_prefix := None; in_generatePassword := false;
       in_schemas_names := Some ["public"; "audit"];
       in_createIfNotExists := None; in_useForceOnDelete := None |}
    {| secrets_pattern := None |} None.

End DatabaseSpec.

(** ** packages/redis/src/strategies/base.ts: [RedisAclManagement] and
    [RedisAclTenants], with the descriptor as it is serialized *)

Module RedisAclManagement.
Import JsString Json Effects Core.

(** An object whose properties may hold [undefined]. *)
Definition props := list (string * option json).

(** An object of defined values, seen as such an object. *)
Definition of_object (l : list (string * json)) : props :=
  map (fun kv => (fst kv, Some (snd kv))) l.

(** What [JSON.stringify] keeps of an object: the properties that are
    not [undefined], in their order. *)
Fixpoint defined (l : props) : list (string * json) :=
  match l with
  | [] => []
  | (k, Some v) :: r => (k, v) :: defined r
  | (_, None) :: r => defined r
  end.

Record fields := {
  config : option props;
  enableDangerousCommands : bool;
  custom_generatePassword : bool;
  tenantsSecretsManager : TenantsSecretsManager
}.

(** The constructors of [RedisResource] and [RedisAclManagement]:
    [this.config] is the caller's object, on which [keyPrefix] is set to
    [undefined]: the property keeps its place, or is added last. *)
Definition new_fields (clientConfig : option (list (string * json)))
    (enableDangerous : option bool) (customPassword : bool)
    (secrets : TenantsSecrets) (id : option string) : fields :=
  {| config :=
       match clientConfig with
       | Some c => Some (obj_set "keyPrefix" None (of_object c))
       | None => None
       end;
     enableDangerousCommands :=
       match enableDangerous with Some b => b | None => false end;
     custom_generatePassword := customPassword;
     tenantsSecretsManager :=
       new_TenantsSecretsManager secrets (RedisAcl.getPattern id) id |}.

(** [RedisResource.buildKeyspacePrefix]. *)
Definition buildKeyspacePrefix (f : fields) (tenantId : string) : string :=
  let keyPrefix :=
    match config f with
    | Some c => Tenants.get_value "keyPrefix" c
    | None => None
    end in
  if js_truthy keyPrefix then
    "tenant:" ++ tenantId ++ ":" ++ to_template keyPrefix ++ ":"
  else "tenant:" ++ tenantId ++ ":".

Section Methods.
Context {E : Type}.
Variable respond : event -> E -> E * response.
Local Open Scope m_scope.
Local Abbreviation M := (@M E fields).
Local Abbreviation call := (call respond).

(** [RedisAclManagement.createTenant]. *)
Definition createTenant (tenantId : string) : M unit :=
  let* f := get_self in
  let* generatedTenantPassword :=
    if custom_generatePassword f then
      let* r := call (CustomPassword tenantId) in ret (text_of r)
    else generatePassword respond 24 in
  let password :=
    match generatedTenantPassword with
    | EmptyString => "nopass"
    | _ => (">" ++ generatedTenantPassword)%string
    end in
  let keyspacePrefix := buildKeyspacePrefix f tenantId in
  (if enableDangerousCommands f then
     call (RedisCall ["ACL"; "SETUSER"; tenantId; "on"; password;
                      ("~" ++ keyspacePrefix ++ "*")%string; "+@all"])
   else
     call (RedisCall ["ACL"; "SETUSER"; tenantId; "on"; password;
                      ("~" ++ keyspacePrefix ++ "*")%string; "+@all";
                      "-@dangerous"])) ;;
  store respond (tenantsSecretsManager f) tenantId
    (JObj (defined
             (obj_assign
                (match config f with Some c => c | None => [] end)
                [("username", Some (JStr tenantId));
                 ("password", Some (JStr generatedTenantPassword));
                 ("keyPrefix", Some (JStr keyspacePrefix))]))).

End Methods.

End RedisAclManagement.

Module RedisAclTenants.
Import JsString Json Effects Core.

Record fields := { secretsManager : TenantsSecretsManager }.

Definition new_fields (secrets : TenantsSecrets) (id : option string)
  : fields :=
  {| secretsManager :=
       new_TenantsSecretsManager secrets (RedisAcl.getPattern id) id |}.

Definition KEY_PREFIX_NOT_SET : string := "Tenant key prefix is not set".

Section Methods.
Context {E : Type}.
Variable respond : event -> E -> E * response.
Local Open Scope m_scope.
Local Abbreviation M := (@M E fields).

(** [RedisAclTenants.getClientFor]: the options the client is built
    with. Reading [keyPrefix] throws on [null]; on anything but an
    object it gives [undefined]. *)
Definition getClientFor (tenantId : string) : M json :=
  let* f := get_self in
  let* tenantConfig := get respond (secretsManager f) tenantId in
  let* keyPrefix :=
    match tenantConfig with
    | JNull => throw "TypeError"
    | _ => ret (member tenantConfig "keyPrefix")
    end in
  match keyPrefix with
  | Some v =>
      if js_truthy keyPrefix then
        ret (JObj (obj_assign
                     (match tenantConfig with JObj l => l | _ => [] end)
                     [("keyPrefix", v)]))
      else throw KEY_PREFIX_NOT_SET
  | None => throw KEY_PREFIX_NOT_SET
  end.

End Methods.

End RedisAclTenants.

(** ** packages/redis/src/strategies/prefix.ts: [RedisPrefixManagement] *)

Module RedisPrefixManagement.
Import JsString Json Effects Core RedisPrefixTenants.

Record fields := { autosetup : bool }.

(** [this.options = { autosetup: options?.autosetup || false }]. *)
Definition new_fields (autosetup : option bool) : fields :=
  {| autosetup := match autosetup with Some b => b | None => false end |}.

Section Methods.
Context {E : Type}.
Variable respond : event -> E -> E * response.
Local Open Scope m_scope.
Local Abbreviation M := (@M E fields).
Local Abbreviation call := (call respond).

Definition setup : M unit :=
  call (RedisCall ["ACL"; "SETUSER"; DEFAULT_ACL_USERNAME; "on"; "nopass";
                   "~tenant:*"; "+@all"; "-@dangerous"]) ;;
  ret tt.

Definition createTenant : M unit :=
  let* f := get_self in
  if autosetup f then
    let* r := call RedisAclList in
    let existingUsers := texts_of r in
    let userExists :=
      existsb (String.prefix ("user " ++ DEFAULT_ACL_USERNAME))
        existingUsers in
    if negb userExists then setup else ret tt
  else ret tt.

End Methods.

End RedisPrefixManagement.

(** ** Vocabulary of the Redis properties *)

Module RedisRolesSpec.
Import JsString Json Effects Core RedisPrefixTenants.

(** The descriptor the ACL strategy stores for a tenant: the caller's
    options with [keyPrefix] in its place, or last, then [username] and
    [password]. *)
Definition descriptor (clientConfig : option (list (string * json)))
    (tenantId generated : string) : json :=
  JObj (obj_assign
          (match clientConfig with
           | Some c =>
               obj_set "keyPrefix" (JStr ("tenant:" ++ tenantId ++ ":")) c
           | None => []
           end)
          [("username", JStr tenantId); ("password", JStr generated);
           ("keyPrefix", JStr ("tenant:" ++ tenantId ++ ":"))]).

(** The password argument of [ACL SETUSER]. *)
Definition acl_password (generated : string) : string :=
  match generated with
  | EmptyString => "nopass"
  | _ => ">" ++ generated
  end.

(** The command of [RedisPrefixManagement.setup]. *)
Definition shared_user : event :=
  RedisCall ["ACL"; "SETUSER"; "tenant_acl"; "on"; "nopass"; "~tenant:*";
             "+@all"; "-@dangerous"].

(** A server that keeps its ACL users as the lines of [ACL LIST]. *)
Definition acl_server (ev : event) (users : list string)
  : list string * response :=
  match ev with
  | RedisAclList => (users, Texts users)
  | RedisCall ("ACL" :: "SETUSER" :: name :: _) =>
      (users ++ [("user " ++ name ++ " on nopass")%string], Text "OK")
  | _ => (users, Text "OK")
  end.

End RedisRolesSpec.

(** ** Vocabulary of the properties of stored descriptors *)

Module DescriptorSpec.
Import JsString Json Effects Core Tenants PgBouncerSchemaTenants.

(** The stored value is not [null]. *)
Definition not_null (d : json) : bool :=
  match d with JNull => false | _ => true end.

(** An answer of the secret store that gives no descriptor: the read is
    rejected, or the text is empty. *)
Definition unreadable (r : response) : bool :=
  match rejection r with
  | Some _ => true
  | None => String.eqb (text_of r) EmptyString
  end.

(** What [get] throws on such an answer, and what it logs. *)
Definition read_error (r : response) : error :=
  match rejection r with
  | Some e => e
  | None => "SyntaxError"
  end.
Definition read_log (r : response) : list event :=
  match rejection r with
  | Some _ => []
  | None =>
      [Console "error"
         "Error parsing secret. Make sure the secret is a valid JSON string."]
  end.

(** The checks of [PgBouncerSchemaTenants.getClientFor] on the pool
    mode and the schema of a descriptor, and the error of the first
    check that fails. *)
Definition known_mode (d : json) : bool :=
  is_string (member d "poolMode") "session_mode"
  || is_string (member d "poolMode") "transaction_mode".

Definition corrupt (d : json) : bool :=
  negb (js_truthy (member d "poolMode"))
  || negb (known_mode d)
  || negb (js_truthy (member d "schema")).

Definition refusal (d : json) : error :=
  if negb (js_truthy (member d "poolMode")) then MISSING_MODE
  else if negb (known_mode d) then WRONG_MODE
  else MISSING_SCHEMA.

End DescriptorSpec.

(** ** packages/secrets: [StaticProvider] *)

Module StaticProvider.
Import JsString Json Effects Core.

Section Provider.
Context {E : Type}.
(** The resolver the provider is built on: the text it gives for a
    path, or the error it throws. *)
Variable resolver : string -> outcome string.
(** The world beyond the secret store. *)
Variable rest : event -> E -> E * response.

Definition getSecret (path : string) : response :=
  match resolver path with
  | Return text => Text text
  | Throw e => Rejected e
  end.

(** [createSecret], [updateSecret] and [deleteSecret] resolve at once. *)
Definition resolved : response := Text EmptyString.

(** The world as the secrets manager meets it through this provider. *)
Definition provider (ev : event) (e : E) : E * response :=
  match ev with
  | GetSecret path => (e, getSecret path)
  | CreateSecret _ _ | UpdateSecret _ _ | DeleteSecret _ => (e, resolved)
  | _ => rest ev e
  end.

End Provider.

(** A write through [TenantsSecretsManager]. *)
Inductive write :=
| Store (tenantId : string) (secret : json)
| Update (tenantId : string) (secret : json)
| Remove (tenantId : string).

Section Writes.
Context {E F : Type}.
Variable respond : event -> E -> E * response.
Variable m : TenantsSecretsManager.

Definition run_write (op : write) : @M E F unit :=
  match op with
  | Store tenantId secret => store respond m tenantId secret
  | Update tenantId secret => update respond m tenantId secret
  | Remove tenantId => remove respond m tenantId
  end.

End Writes.

(** What [get] returns for a tenant, as the resolver decides it. *)
Definition read (resolver : string -> outcome string)
    (m : TenantsSecretsManager) (tenantId : string) : outcome json :=
  match resolver (getPath m tenantId) with
  | Return text =>
      match parse text with
      | Some v => Return v
      | None => Throw "SyntaxError"
      end
  | Throw e => Throw e
  end.

End StaticProvider.

(** ** Plans: the calls of a block of code, answer by answer *)

Module StepsSpec.
Import JsString Json Sql Effects.

(** The awaited calls of a block of code, one after the other; what
    follows a call may depend on what the world answered. [Fail] is a
    [throw] of the code itself, [Also] a call that cannot fail. *)
Inductive plan :=
| Done
| Fail (err : error)
| Then (ev : event) (next : response -> plan)
| Also (ev : event) (next : plan).

(** A fixed list of calls, then [next]. *)
Fixpoint steps (l : list event) (next : plan) : plan :=
  match l with
  | [] => next
  | ev :: r => Then ev (fun _ => steps r next)
  end.

(** What a plan came to: the calls that were made, the world after
    the last of them, and the error that stopped it, if any. *)
Record result (E : Type) := Result {
  done : list event;
  after : E;
  failure : option error
}.
Arguments Result {E} done after failure.
Arguments done {E} r.
Arguments after {E} r.
Arguments failure {E} r.

Definition outcome_of {A : Type} (a : A) (failure : option error)
  : outcome A :=
  match failure with
  | Some err => Throw err
  | None => Return a
  end.

(** The outcome of one awaited call. *)
Definition awaited (r : response) : outcome response :=
  match rejection r with
  | Some err => Throw err
  | None => Return r
  end.

Section Run.
Context {E : Type}.
Variable respond : event -> E -> E * response.

(** A plan against the world: the calls are made in order; the first
    one the world rejects is the last one made, and its error is the
    failure; every call before it was accepted. *)
Fixpoint run_plan (p : plan) (e : E) : result E :=
  match p with
  | Done => Result [] e None
  | Fail err => Result [] e (Some err)
  | Then ev next =>
      let '(e1, r) := respond ev e in
      match rejection r with
      | Some err => Result [ev] e1 (Some err)
      | None =>
          let rest := run_plan (next r) e1 in
          Result (ev :: done rest) (after rest) (failure rest)
      end
  | Also ev next =>
      let rest := run_plan next (fst (respond ev e)) in
      Result (ev :: done rest) (after rest) (failure rest)
  end.

(** A [catch] block that rolls back with the statement [rollback],
    logs a rollback that was rejected, and throws the error again:
    nothing is sent when nothing failed. *)
Definition rolled_back (rollback : event) (failure : option error) (e : E)
  : result E :=
  match failure with
  | None => Result [] e None
  | Some err =>
      let '(e1, r) := respond rollback e in
      match rejection r with
      | Some rollbackErr =>
          let line :=
            Console "error" ("Error during rollback: " ++ rollbackErr) in
          Result [rollback; line] (fst (respond line e1)) (Some err)
      | None => Result [rollback] e1 (Some err)
      end
  end.

(** A [finally] block that awaits [ev]: when [ev] is rejected its error
    replaces the outcome [o]. *)
Definition finally_awaited {A : Type} (ev : event) (e : E) (o : outcome A)
  : outcome A :=
  match rejection (snd (respond ev e)) with
  | Some err => Throw err
  | None => o
  end.

End Run.

End StepsSpec.

(** ** The plan of the Schema strategy *)

Module SchemaPlanSpec.
Import JsString Json Sql Effects Core PostgresBase StepsSpec.
Import SchemaManagement SchemaSpec.

(** What [createTenant] does inside its [try] block, call by call:
    [BEGIN;], [CREATE SCHEMA], the name of the current database, read
    from the first row of the answer (without a row the destructuring
    throws), the random values of the password, [CREATE ROLE] with the
    grants for that password, [COMMIT;], and the descriptor of what
    was created, stored under the tenant's path. *)
Definition create_plan (f : fields) (client : handle) (tenantId : string)
  : plan :=
  let schemaName := getSchemaNameForTenant f tenantId in
  let roleName := generateDefaultTenantRoleName tenantId None in
  Then (Query client BeginSemi) (fun _ =>
  Then (Query client (CreateSchema schemaName)) (fun _ =>
  Then (Query client SelectCurrentDatabase) (fun r =>
  match rows_of r with
  | [] => Fail "TypeError"
  | first :: _ =>
      let currentDatabase := column "current_database" first in
      Then (RandomValues 24) (fun n =>
      let password := password_of 24 (numbers_of n) in
      steps
        [Query client
           (SchemaRoleAndGrants roleName password schemaName currentDatabase);
         Query client CommitSemi;
         CreateSecret (getPath (secretsManager f) tenantId)
           (stringify (descriptor f tenantId password currentDatabase))]
        Done)
  end))).

(** What [getClientFor] sends after the new pool has handed out its
    client, [r] being the answer to the session setting: the client is
    released when the setting was rejected. *)
Definition session_closing (client : handle) (r : response) : list event :=
  match rejection r with
  | Some _ => [Release client]
  | None => []
  end.

End SchemaPlanSpec.

(** ** The plan of the Database strategy *)

Module DatabasePlanSpec.
Import JsString Json Sql Effects Core PostgresBase StepsSpec.
Import DatabaseManagement DatabaseSpec.

(** The password [createTenant] uses, [r] being the answer to
    [password_draw]: what the caller's function returned, or the
    characters picked by the random values. *)
Definition drawn_password (f : fields) (r : response) : string :=
  if custom_generatePassword (opts f) then text_of r
  else password_of 24 (numbers_of r).

(** What [createTenant] does between taking its client from the pool
    and the [finally] blocks, call by call: [CREATE DATABASE], the
    password, [CREATE ROLE] with the grant for that password, the
    descriptor with that password, a second client on the new
    database, and on it the schemas and their grants. *)
Definition create_plan (f : fields) (tenantId : string) : plan :=
  let client := pool f in
  let adminClient := next_handle f in
  Then (Query client
          (CreateDatabase (databaseName f tenantId)
             (database_template (opts f)))) (fun _ =>
  Then (password_draw f tenantId) (fun r =>
  let password := drawn_password f r in
  steps
    [Query client
       (DatabaseRoleAndGrant (roleName f tenantId) password
          (databaseName f tenantId));
     CreateSecret (getPath (secretsManager f) tenantId)
       (stringify (descriptor f tenantId password))]
    (Also (ClientNew adminClient
             (JObj (obj_assign (poolConfig f)
                      [("database", JStr (databaseName f tenantId))])))
       (steps (ClientConnect adminClient :: admin_script f tenantId)
          Done)))).

End DatabasePlanSpec.

(** ** The Redis server: key patterns *)

Module RedisServer.
Import JsString Json Effects.

(** Redis reads the pattern of [KEYS] and of an ACL key rule in the
    glob style (util.c, [stringmatchlen]): [*] stands for any text,
    [?] for any character, [[...]] for a character of a class (with
    ranges, [^] for the complement and the backslash as an escape), and
    a backslash makes the next character stand for itself. Every other
    character stands for itself. *)

(** What is left of the pattern once the key is used up: stars only. *)
Fixpoint only_stars (p : string) : bool :=
  match p with
  | EmptyString => true
  | String "*" r => only_stars r
  | String _ _ => false
  end.

Definition in_range (a b c : ascii) : bool :=
  let lo := Nat.min (nat_of_ascii a) (nat_of_ascii b) in
  let hi := Nat.max (nat_of_ascii a) (nat_of_ascii b) in
  Nat.leb lo (nat_of_ascii c) && Nat.leb (nat_of_ascii c) hi.

(** The pattern [p] against a key that is not empty. *)
Fixpoint glob (p : string) : string -> bool :=
  match p with
  | EmptyString => fun _ => false
  | String "*" p1 =>
      if only_stars p1 then fun _ => true
      else
        fix from (s : string) : bool :=
          match s with
          | EmptyString => false
          | String _ s1 => glob p1 s || from s1
          end
  | String "?" p1 =>
      fun s =>
        match s with
        | EmptyString => false
        | String _ EmptyString => only_stars p1
        | String _ s1 => glob p1 s1
        end
  | String "[" p1 =>
      fun s =>
        match s with
        | EmptyString => false
        | String c s1 =>
            let negated :=
              match p1 with String "^" _ => true | _ => false end in
            (fix class (q : string) (found : bool) {struct q} : bool :=
               match q with
               | EmptyString =>
                   xorb found negated
                   && match s1 with EmptyString => true | _ => false end
               | String "\" (String b q2) =>
                   class q2 (found || Ascii.eqb b c)
               | String "]" q1 =>
                   xorb found negated
                   && match s1 with
                      | EmptyString => only_stars q1
                      | String _ _ => glob q1 s1
                      end
               | String a (String "-" (String b q3)) =>
                   class q3 (found || in_range a b c)
               | String a q1 => class q1 (found || Ascii.eqb a c)
               end)
              (match p1 with String "^" q => q | _ => p1 end) false
        end
  | String "\" (String b p2) =>
      fun s =>
        match s with
        | EmptyString => false
        | String c s1 =>
            Ascii.eqb b c
            && match s1 with
               | EmptyString => only_stars p2
               | String _ _ => glob p2 s1
               end
        end
  | String a p1 =>
      fun s =>
        match s with
        | EmptyString => false
        | String c s1 =>
            Ascii.eqb a c
            && match s1 with
               | EmptyString => only_stars p1
               | String _ _ => glob p1 s1
               end
        end
  end.

(** [stringmatchlen(pattern, key)]: an empty key matches the empty
    pattern only. *)
Definition matches (pattern key : string) : bool :=
  match key with
  | EmptyString =>
      match pattern with EmptyString => true | _ => false end
  | String _ _ => glob pattern key
  end.

(** A text without any character that a pattern reads as more than
    itself. *)
Definition glob_free (s : string) : bool :=
  negb (has_char "*" s) && negb (has_char "?" s) && negb (has_char "[" s)
  && negb (has_char "\" s).

(** A Redis server with a secret store beside it: its keys and the
    names of its ACL users. [KEYS] lists the keys the pattern matches,
    the pipeline deletes the keys it names, [ACL SETUSER] and [ACL
    DELUSER] add and remove a user; random values are sevens; every
    other call goes to the secret store. *)
Record redis := {
  keys : list string;
  users : list string;
  secrets : list (string * string)
}.

Definition server (ev : event) (st : redis) : redis * response :=
  match ev with
  | RedisKeys pattern =>
      (st, Texts (List.filter (matches pattern) (keys st)))
  | RedisPipelineDel l =>
      ({| keys := List.filter (fun k => negb (mem_string k l)) (keys st);
          users := users st; secrets := secrets st |},
       Texts [])
  | RedisCall ("ACL" :: "SETUSER" :: name :: _) =>
      ({| keys := keys st;
          users := if mem_string name (users st) then users st
                   else users st ++ [name];
          secrets := secrets st |},
       Text "OK")
  | RedisCall ["ACL"; "DELUSER"; name] =>
      ({| keys := keys st;
          users := List.filter (fun u => negb (String.eqb u name)) (users st);
          secrets := secrets st |},
       Text "1")
  | RandomValues n => (st, Numbers (repeat 7%N n))
  | _ =>
      let '(secrets', r) := Worlds.memory_store ev (secrets st) in
      ({| keys := keys st; users := users st; secrets := secrets' |}, r)
  end.

End RedisServer.

(** ** The plans of the Redis ACL strategy *)

Module RedisPlanSpec.
Import JsString Json Effects Core StepsSpec RedisRolesSpec.

(** What [RedisAclManagement.deleteTenant] does, call by call: the keys
    that match [tenant:<tenantId>:*] are listed; when the server lists
    any, they are deleted in one pipeline, those keys and no other;
    then the ACL user named after the tenant is deleted; then the
    stored descriptor. *)
Definition delete_plan (f : RedisAcl.fields) (tenantId : string) : plan :=
  Then (RedisKeys ("tenant:" ++ tenantId ++ ":*")) (fun r =>
  let keys := texts_of r in
  steps
    (match keys with
     | [] => []
     | _ :: _ => [RedisPipelineDel keys]
     end
     ++ [RedisCall ["ACL"; "DELUSER"; tenantId];
         DeleteSecret (getPath (RedisAcl.tenantsSecretsManager f) tenantId)])
    Done).

(** Where the password of a new tenant comes from, and the password
    itself, [r] being the answer. *)
Definition password_draw (f : RedisAclManagement.fields) (tenantId : string)
  : event :=
  if RedisAclManagement.custom_generatePassword f
  then CustomPassword tenantId else RandomValues 24.

Definition drawn_password (f : RedisAclManagement.fields) (r : response)
  : string :=
  if RedisAclManagement.custom_generatePassword f then text_of r
  else password_of 24 (numbers_of r).

(** The [ACL SETUSER] of [createTenant]: the user is named after the
    tenant, and its key pattern is [keyPrefix] followed by a star. *)
Definition set_user (f : RedisAclManagement.fields)
    (tenantId generated keyPrefix : string) : event :=
  RedisCall
    (["ACL"; "SETUSER"; tenantId; "on"; acl_password generated;
      ("~" ++ keyPrefix ++ "*")%string; "+@all"]
     ++ (if RedisAclManagement.enableDangerousCommands f then []
         else ["-@dangerous"])).

(** What [RedisAclManagement.createTenant] does, call by call: the
    password, the ACL user with that password, the descriptor with
    that password. *)
Definition create_plan (f : RedisAclManagement.fields)
    (clientConfig : option (list (string * json))) (tenantId : string)
  : plan :=
  Then (password_draw f tenantId) (fun r =>
  let generated := drawn_password f r in
  steps
    [set_user f tenantId generated ("tenant:" ++ tenantId ++ ":");
     CreateSecret
       (getPath (RedisAclManagement.tenantsSecretsManager f) tenantId)
       (stringify (descriptor clientConfig tenantId generated))]
    Done).

End RedisPlanSpec.

(** ** Vocabulary of the properties of [end] *)

Module PoolEndSpec.
Import JsString Json Sql Effects Core PostgresBase Tenants StepsSpec.
Import SchemaPlanSpec.

Section Roles.
Context {E : Type}.
Variable respond : event -> E -> E * response.

(** [getClientFor] of the Database role creates a pool for the tenant:
    whatever descriptor the secret store gives, a pool is created from
    it, as the next object of the instance, cached under the tenant id
    and asked for a client; the call returns that client when the pool
    hands it out and throws the pool's error when it does not. *)
Definition database_creates_pool (tenantId : string)
    (w : world E fields) : Prop :=
  let path := getPath (secretsManager (self w)) tenantId in
  let pool := next_handle (self w) in
  forall (text : string) (d : json) (e1 e2 e3 : E) (r2 r3 : response),
    respond (GetSecret path) (env w) = (e1, Text text) ->
    parse text = Some d ->
    respond (PoolNew (Some tenantId) pool d) e1 = (e2, r2) ->
    respond (PoolConnect pool) e2 = (e3, r3) ->
    exists w',
      PostgresDatabaseTenants.getClientFor respond tenantId w
      = (w', outcome_of pool (rejection r3))
      /\ trace w'
         = trace w ++ [GetSecret path; PoolNew (Some tenantId) pool d;
                       PoolConnect pool]
      /\ obj_get tenantId (pools (self w')) = Some pool.

(** The same for the Schema role, which reads the descriptor twice
    (for the schema, then for the pool), and sets the session of the
    client it got: the pool is created from the descriptor read last,
    cached, and its client is returned when the setting is accepted,
    released when it is rejected. *)
Definition schema_creates_pool (tenantId : string)
    (w : world E fields) : Prop :=
  let path := getPath (secretsManager (self w)) tenantId in
  let pool := next_handle (self w) in
  forall (text text' : string) (d d' : json) (e1 e2 e3 e4 e5 : E)
         (r3 r4 r5 : response),
    let setting :=
      Query pool
        (SetRoleAndSearchPath (generateDefaultTenantRoleName tenantId None)
           (to_template (member d "schema"))) in
    respond (GetSecret path) (env w) = (e1, Text text) ->
    parse text = Some d ->
    d <> JNull ->
    respond (GetSecret path) e1 = (e2, Text text') ->
    parse text' = Some d' ->
    respond (PoolNew (Some tenantId) pool d') e2 = (e3, r3) ->
    respond (PoolConnect pool) e3 = (e4, r4) ->
    rejection r4 = None ->
    respond setting e4 = (e5, r5) ->
    exists w',
      PostgresSchemaTenants.getClientFor respond tenantId w
      = (w', outcome_of pool (rejection r5))
      /\ trace w'
         = trace w
             ++ [GetSecret path; GetSecret path;
                 PoolNew (Some tenantId) pool d'; PoolConnect pool; setting]
             ++ session_closing pool r5
      /\ obj_get tenantId (pools (self w')) = Some pool.

End Roles.

End PoolEndSpec.

(** ** Calls of [createTenant] that overlap *)

Module OverlapSpec.
Import JsString Json Sql Effects Core PostgresBase RlsManagement.

Section Calls.
Context {E : Type}.
Variable respond : event -> E -> E * response.
Local Open Scope m_scope.

(** [createTenant] from its first [await] on, that is once
    [this.options.provision.autoSetup] was read and found true, [f]
    being the options as they were read. *)
Definition pass (f : fields) : @M E fields bool :=
  let* client := getCleanClient respond in
  try_finally
    (let* multitenantTablesWithoutRls :=
       getMultitenantTablesWithoutRls respond client in
     if Nat.ltb 0 (List.length multitenantTablesWithoutRls) then
       match tables f with
       | Some configured =>
           let filteredTables :=
             List.filter (fun table => existsb (fun t => same_table t table)
                                          configured)
                    multitenantTablesWithoutRls in
           if Nat.ltb 0 (List.length filteredTables) then
             console respond "log" "Setting up RLS for tables:" ;;
             setup respond (Some filteredTables) ;;
             ret true
           else ret false
       | None =>
           if autoDetectTables f then
             console respond "log" "Setting up RLS for tables:" ;;
             setup respond (Some multitenantTablesWithoutRls) ;;
             ret true
           else ret false
       end
     else ret false)
    ((let* f := get_self in set_self (with_autoSetup false f)) ;;
     release respond client).

(** A call that was suspended at its first [await] and goes on: what
    it does depends on the options it had read before. *)
Definition resumed (f : fields) : @M E fields bool :=
  if autoSetup f then pass f else ret false.

(** Two calls of [createTenant] on one instance, the second made while
    the first waits for its client. A call runs up to its first
    [await] when it is made, so both have read the options before
    either goes on; here the first then runs to its end, and the
    second after it. The results of both, the first one first. *)
Definition overlapping (w : world E fields)
  : (world E fields * outcome bool) * (world E fields * outcome bool) :=
  let read_by_first := self w in
  let read_by_second := self w in
  let first := resumed read_by_first w in
  let second := resumed read_by_second (fst first) in
  (first, second).

End Calls.

(** A database with one table that has the tenant column and no
    row-level security, on which the connected user may not enable
    it. *)
Definition unowned_table (ev : event) (e : unit) : unit * response :=
  match ev with
  | Query _ (SelectMultitenantTables _) =>
      (tt, Rows [[("table_schema", VText "public");
                  ("table_name", VText "todos");
                  ("has_rls_enabled", VBool false)]])
  | Query _ SelectCurrentSchema =>
      (tt, Rows [[("current_schema", VText "public")]])
  | Query _ (EnableRls _ _ _) =>
      (tt, Rejected "must be owner of table todos")
  | _ => (tt, Rows [])
  end.

(** A Management role with [autoSetup] on and no table list. *)
Definition auto_management : fields :=
  new_fields None None None (Some true) None.

End OverlapSpec.

(** ** The commands that carry a tenant id *)

Module CommandsSpec.
Import JsString Json Sql Effects Core PostgresBase InjectionSpec.
Import RedisRolesSpec RedisPlanSpec.

(** The other commands into which a tenant id, or a name made from
    one, is inserted.

    By [PgBouncerRlsTenants.getClientFor], in session mode and in
    transaction mode. *)
Definition pgbouncer_commands (tenantId : string) : list stmt :=
  [PgbSetTenantSession tenantId; PgbBeginSetTenant tenantId].

(** By [getClientFor] of [PostgresSchemaTenants] and of
    [PgBouncerSchemaTenants] in both modes, and by
    [PostgresSchemaManagement.deleteTenant], for the role and the
    schema that [createTenant] made for the tenant. *)
Definition schema_session_commands (schemaPrefix : string)
    (tenantId : string) : list stmt :=
  [SetRoleAndSearchPath (generateDefaultTenantRoleName tenantId None)
     (schemaPrefix ++ tenantId);
   PgbSetSearchPath (schemaPrefix ++ tenantId);
   PgbBeginSetSearchPath (schemaPrefix ++ tenantId);
   DropSchemaCascade (schemaPrefix ++ tenantId)].

(** By [createTenant] and [deleteTenant] of
    [PostgresDatabaseManagement], with the prefixes of the instance,
    its template, the generated password and one of its schemas. *)
Definition database_commands (databasePrefix rolePrefix password : string)
    (template : option string) (schema : string) (force : bool)
    (tenantId : string) : list stmt :=
  let databaseName := (databasePrefix ++ tenantId)%string in
  let roleName :=
    generateDefaultTenantRoleName tenantId (Some rolePrefix) in
  [CreateDatabase databaseName template;
   DatabaseRoleAndGrant roleName password databaseName;
   CreateSchemaIfNotExists schema;
   DatabaseSchemaGrants schema roleName;
   DropDatabase databaseName force;
   DropRole roleName].

(** The arguments of the two Redis commands of the ACL strategy, as
    [createTenant] and [deleteTenant] pass them to the client: each
    argument is sent as a text of its own. *)
Definition acl_commands (dangerous : bool) (generated tenantId : string)
  : list (list string) :=
  [["ACL"; "SETUSER"; tenantId; "on"; acl_password generated;
    ("~" ++ ("tenant:" ++ tenantId ++ ":") ++ "*")%string; "+@all"]
     ++ (if dangerous then [] else ["-@dangerous"]);
   ["ACL"; "DELUSER"; tenantId]].

(** The arguments of a command that do not carry the tenant id: those
    at other places than the user name and the key pattern. *)
Fixpoint fixed_arguments (place : nat) (args : list string) : list string :=
  match args with
  | [] => []
  | a :: r =>
      if Nat.eqb place 2 || Nat.eqb place 5
      then fixed_arguments (S place) r
      else a :: fixed_arguments (S place) r
  end.

(** The Redis commands of a trace. *)
Definition redis_calls (t : list event) : list (list string) :=
  flat_map (fun ev => match ev with RedisCall args => [args] | _ => [] end) t.

End CommandsSpec.

(** * Properties *)

(** ** Strings and secret paths *)

Module PathFacts.
Import JsString Core PostgresBase PathSpec.

Lemma append_assoc (a b c : string) : ((a ++ b) ++ c = a ++ (b ++ c))%string.
Proof. induction a as [|x a IH]; simpl; [reflexivity | f_equal; exact IH]. Qed.

Lemma append_empty_r (a : string) : (a ++ "" = a)%string.
Proof. induction a as [|x a IH]; simpl; [reflexivity | f_equal; exact IH]. Qed.

(** A replacement text without dollar sign is inserted as it is. *)
Lemma get_substitution_plain (m b a r : string) :
  has_char "$" r = false -> get_substitution m b a r = r.
Proof.
  induction r as [|c r IH]; [reflexivity |].
  intros H. simpl in H. apply orb_false_iff in H as [Hc Hr].
  destruct c as [[] [] [] [] [] [] [] []]; cbn in Hc; try discriminate;
    cbn [get_substitution]; rewrite (IH Hr); reflexivity.
Qed.

(** The search skips text in which the first character of the pattern
    does not occur. *)
Lemma split_at_first_skip (c : ascii) (pat pre rest : string) :
  has_char c pre = false ->
  split_at_first (String c pat) (pre ++ rest)
  = match split_at_first (String c pat) rest with
    | Some (b, a) => Some ((pre ++ b)%string, a)
    | None => None
    end.
Proof.
  induction pre as [|x pre IH]; simpl; intros H.
  - now destruct (split_at_first (String c pat) rest) as [[b a]|].
  - apply orb_false_iff in H as [Hx Hpre].
    destruct (Ascii.ascii_dec c x) as [->|Hne].
    + now rewrite Ascii.eqb_refl in Hx.
    + rewrite (IH Hpre).
      now destruct (split_at_first (String c pat) rest) as [[b a]|].
Qed.

(** With the default pattern and no resource id, a tenant id without
    dollar sign lands in the path as it is. *)
Lemma getPath_default_without_id (tenantId : string) :
  has_char "$" tenantId = false ->
  getPath (manager None None) tenantId
  = ("/tenants/" ++ tenantId ++ "/postgres/connection")%string.
Proof.
  intros H. unfold getPath, manager, replace. cbn.
  now rewrite (get_substitution_plain _ _ _ _ H).
Qed.

(** With the default pattern and a resource id, both placeholders are
    filled, for ids without dollar sign and a tenant id without brace. *)
Lemma getPath_default_with_id (tenantId : string) (c : ascii) (r : string) :
  has_char "$" tenantId = false ->
  has_char "{" tenantId = false ->
  has_char "$" (String c r) = false ->
  getPath (manager None (Some (String c r))) tenantId
  = ("/tenants/" ++ tenantId ++ "/postgres/" ++ String c r
       ++ "/connection")%string.
Proof.
  intros Hd Hb Hr. unfold getPath, manager. cbn [resourceId pattern
    new_TenantsSecretsManager secrets_pattern or_else getPattern truthy].
  unfold replace at 2. cbn.
  rewrite (get_substitution_plain _ _ _ _ Hd).
  unfold replace.
  change (String "/" (String "t" (String "e" (String "n" (String "a"
           (String "n" (String "t" (String "s" (String "/"
             (tenantId ++ "/postgres/{resourceId}/connection"))))))))))
    with ("/tenants/" ++ (tenantId ++ "/postgres/{resourceId}/connection"))%string.
  rewrite (split_at_first_skip "{" "resourceId}" "/tenants/") by reflexivity.
  rewrite (split_at_first_skip "{" "resourceId}" tenantId) by exact Hb.
  change (split_at_first "{resourceId}" "/postgres/{resourceId}/connection")
    with (Some ("/postgres/", "/connection")).
  cbv beta iota.
  rewrite (get_substitution_plain _ _ _ _ Hr).
  rewrite !append_assoc. reflexivity.
Qed.

(** C6, as the code falls short of it: the replacement text of
    [String.prototype.replace] is a pattern, so a tenant id holding a
    dollar sequence is not inserted as it is. With the default
    pattern, tenant ["a$$b"] gets the path of tenant ["a$b"], and
    tenant ["$&"] a path that still shows the placeholder. *)
Theorem getPath_expands_dollar_patterns :
  getPath (manager None None) "a$$b" = "/tenants/a$b/postgres/connection"
  /\ getPath (manager None None) "a$$b" = getPath (manager None None) "a$b"
  /\ getPath (manager None None) "$&"
     = "/tenants/{tenantId}/postgres/connection".
Proof. repeat split; reflexivity. Qed.

End PathFacts.

(** ** [JSON.parse] undoes [JSON.stringify] *)

Module JsonFacts.
Import JsString Json JsonSpec.

(** *** Strings *)

Lemma parse_escape_char (c : ascii) (tail : list ascii) :
  parse_string_body (escape_char c ++ tail)
  = match parse_string_body tail with
    | Some (t, rest) => Some (String c t, rest)
    | None => None
    end.
Proof.
  destruct c as [[] [] [] [] [] [] [] []]; reflexivity.
Qed.

Lemma parse_escape (s : string) (rest : list ascii) :
  parse_string_body (escape s ++ dquote :: rest) = Some (s, rest).
Proof.
  induction s as [|c s IH]; [reflexivity |].
  cbn [escape]. rewrite <- List.app_assoc, parse_escape_char, IH.
  reflexivity.
Qed.

Lemma parse_quote (s : string) (rest : list ascii) :
  parse_string_body (List.tl (quote s ++ rest)) = Some (s, rest).
Proof.
  unfold quote. cbn [List.app List.tl].
  rewrite <- List.app_assoc. apply parse_escape.
Qed.

(** *** Numbers *)

Lemma take_digits_stops (u : Decimal.uint) (rest : list ascii) :
  stops rest -> take_digits (chars_of_uint u ++ rest) = (u, rest).
Proof.
  intros Hrest.
  induction u; cbn [chars_of_uint List.app take_digits];
    try (change (digit_of _) with (Some Decimal.D0)
         || change (digit_of _) with (Some Decimal.D1)
         || change (digit_of _) with (Some Decimal.D2)
         || change (digit_of _) with (Some Decimal.D3)
         || change (digit_of _) with (Some Decimal.D4)
         || change (digit_of _) with (Some Decimal.D5)
         || change (digit_of _) with (Some Decimal.D6)
         || change (digit_of _) with (Some Decimal.D7)
         || change (digit_of _) with (Some Decimal.D8)
         || change (digit_of _) with (Some Decimal.D9));
    try (rewrite IHu; reflexivity).
  destruct rest as [|c rest]; [reflexivity |].
  cbn [take_digits]. cbn in Hrest. rewrite Hrest. reflexivity.
Qed.

Lemma ends_number_stops (rest : list ascii) : ends_number rest -> stops rest.
Proof. destruct rest; [easy | intros [H _]; exact H]. Qed.

Lemma take_digits_chars (u : Decimal.uint) (rest : list ascii) :
  ends_number rest -> take_digits (chars_of_uint u ++ rest) = (u, rest).
Proof. intros H. now apply take_digits_stops, ends_number_stops. Qed.

Lemma unorm_to_uint (p : positive) :
  Decimal.unorm (Pos.to_uint p) = Pos.to_uint p.
Proof.
  rewrite <- (DecimalPos.Unsigned.to_of (Pos.to_uint p)).
  rewrite DecimalPos.Unsigned.of_to. reflexivity.
Qed.

Lemma parse_unsigned (p : positive) (rest : list ascii) :
  ends_number rest ->
  take_digits (chars_of_uint (Pos.to_uint p) ++ rest) = (Pos.to_uint p, rest)
  /\ Pos.to_uint p <> Decimal.Nil
  /\ Decimal.unorm (Pos.to_uint p) = Pos.to_uint p
  /\ N.of_uint (Pos.to_uint p) = Npos p.
Proof.
  intros H. repeat split.
  - now apply take_digits_chars.
  - apply DecimalPos.Unsigned.to_uint_nonnil.
  - apply unorm_to_uint.
  - apply DecimalPos.Unsigned.of_to.
Qed.

Lemma starts_fraction_of_ends (rest : list ascii) :
  ends_number rest -> starts_fraction rest = false.
Proof. destruct rest; [reflexivity | intros [_ H]; exact H]. Qed.

(** The digits of a positive number do not start with a minus sign. *)
Lemma chars_not_minus (u : Decimal.uint) (rest : list ascii) :
  u <> Decimal.Nil ->
  match chars_of_uint u ++ rest with
  | c :: r => (if Ascii.eqb c "-" then (true, r) else (false, chars_of_uint u ++ rest))
              = (false, chars_of_uint u ++ rest)
  | [] => False
  end.
Proof. destruct u; intros H; try reflexivity. now contradiction H. Qed.

Lemma parse_print_number (z : Z) (rest : list ascii) :
  ends_number rest ->
  parse_number (print_number z ++ rest) = Some (JNum z, rest).
Proof.
  intros Hrest. pose proof (starts_fraction_of_ends _ Hrest) as Hfrac.
  destruct z as [|p|p]; unfold parse_number, print_number.
  - cbn [List.app Ascii.eqb Bool.eqb].
    change (take_digits ("0"%char :: rest))
      with (take_digits (chars_of_uint (Decimal.D0 Decimal.Nil) ++ rest)).
    rewrite take_digits_chars by exact Hrest.
    cbn. rewrite Hfrac. reflexivity.
  - destruct (parse_unsigned p rest Hrest) as (Htake & Hnil & Hnorm & Hof).
    pose proof (chars_not_minus (Pos.to_uint p) rest Hnil) as Hminus.
    destruct (chars_of_uint (Pos.to_uint p) ++ rest) as [|c r] eqn:Hchars;
      [contradiction |].
    rewrite Hminus, Htake.
    destruct (Pos.to_uint p) eqn:Hu; try (now contradiction Hnil);
      rewrite Hnorm;
      (destruct (Decimal.uint_eq_dec _ _) as [_|Hne];
       [| now contradiction Hne]);
      rewrite Hfrac, Hof; reflexivity.
  - destruct (parse_unsigned p rest Hrest) as (Htake & Hnil & Hnorm & Hof).
    cbn [List.app Ascii.eqb Bool.eqb]. rewrite Htake.
    destruct (Pos.to_uint p) eqn:Hu; try (now contradiction Hnil);
      rewrite Hnorm;
      (destruct (Decimal.uint_eq_dec _ _) as [_|Hne];
       [| now contradiction Hne]);
      rewrite Hfrac, Hof; reflexivity.
Qed.

(** *** Numbers with a fraction *)

Lemma parse_exponent_none (rest : list ascii) :
  ends_number rest -> parse_exponent rest = Some (0%Z, rest).
Proof.
  destruct rest as [|c rest]; [reflexivity |]. intros [_ H].
  cbn in H. apply orb_false_iff in H as [H HE]. apply orb_false_iff in H as [_ He].
  cbn [parse_exponent]. rewrite He, HE. reflexivity.
Qed.

Lemma parse_fraction_digits (f : Decimal.uint) (rest : list ascii) :
  f <> Decimal.Nil -> stops rest ->
  parse_fraction ("."%char :: chars_of_uint f ++ rest) = Some (f, rest).
Proof.
  intros Hf Hrest. cbn [parse_fraction].
  change (Ascii.eqb "." ".") with true. cbn match.
  rewrite take_digits_stops by exact Hrest.
  destruct f; [now contradiction Hf | reflexivity..].
Qed.

Lemma of_uint_zeros (n : nat) (u : Decimal.uint) :
  N.of_uint (Nat.iter n Decimal.D0 u) = N.of_uint u.
Proof. induction n as [|n IH]; [reflexivity | exact IH]. Qed.

Lemma lowest_terms_kept (fuel : nat) (m : Z) (places : positive) :
  Z.rem m 10 <> 0%Z -> lowest_terms fuel m places = JDec m places.
Proof.
  intros H. apply Z.eqb_neq in H.
  destruct fuel; cbn [lowest_terms]; [| rewrite H]; reflexivity.
Qed.

(** The exponent that [print_decimal] writes. *)
Lemma parse_exponent_printed (e : Z) (rest : list ascii) :
  e <> 0%Z -> ends_number rest ->
  parse_exponent
    ("e"%char :: (if Z.ltb e 0 then "-" else "+")%char
       :: print_number (Z.abs e) ++ rest)
  = Some (e, rest).
Proof.
  intros He Hrest. apply ends_number_stops in Hrest.
  cbn [parse_exponent]. change (Ascii.eqb "e" "e") with true.
  cbn [orb].
  destruct e as [|q|q]; [now contradiction He | |].
  - cbn [Z.ltb Z.compare Z.abs print_number].
    change (Ascii.eqb "+" "-") with false. change (Ascii.eqb "+" "+") with true.
    cbn match.
    rewrite take_digits_stops by exact Hrest.
    pose proof (DecimalPos.Unsigned.to_uint_nonnil q) as Hnil.
    pose proof (DecimalPos.Unsigned.of_to q) as Hof.
    change (Pos.of_uint (Pos.to_uint q)) with (N.of_uint (Pos.to_uint q)) in Hof.
    destruct (Pos.to_uint q); [now contradiction Hnil | rewrite Hof; reflexivity..].
  - cbn [Z.ltb Z.compare Z.abs print_number].
    change (Ascii.eqb "-" "-") with true. cbn match.
    rewrite take_digits_stops by exact Hrest.
    pose proof (DecimalPos.Unsigned.to_uint_nonnil q) as Hnil.
    pose proof (DecimalPos.Unsigned.of_to q) as Hof.
    change (Pos.of_uint (Pos.to_uint q)) with (N.of_uint (Pos.to_uint q)) in Hof.
    destruct (Pos.to_uint q); [now contradiction Hnil | rewrite Hof; reflexivity..].
Qed.


Lemma take_digits_head (text : list ascii) (u : Decimal.uint)
    (rest : list ascii) :
  take_digits text = (u, rest) -> u <> Decimal.Nil ->
  match text with
  | c :: _ => Ascii.eqb c "-" = false
  | [] => False
  end.
Proof.
  destruct text as [|c text]; cbn [take_digits].
  - intros [= <- _] H. now contradiction H.
  - destruct (Ascii.eqb c "-") eqn:Hc; [| reflexivity].
    apply Ascii.eqb_eq in Hc. subst c. cbn. intros [= <- _] H.
    now contradiction H.
Qed.

(** The digits that [print_decimal] writes after the sign, as the
    parser reads them. *)
Lemma decimal_digits (U : Decimal.uint) (places : positive)
    (rest : list ascii) :
  U <> Decimal.Nil -> Decimal.unorm U = U -> ends_number rest ->
  let k := Decimal.nb_digits U in
  let n := (Z.of_nat k - Zpos places)%Z in
  let text :=
    (if Z.ltb 0 n && Z.leb n 21 then
       chars_of_uint (Decimal.del_tail (Pos.to_nat places) U)
         ++ "."%char :: chars_of_uint (Decimal.del_head (Z.to_nat n) U)
     else if Z.ltb (-6) n && Z.leb n 0 then
       "0"%char :: "."%char
         :: chars_of_uint (Nat.iter (Z.to_nat (- n)) Decimal.D0 U)
     else
       chars_of_uint (Decimal.del_tail (k - 1) U)
         ++ print_fraction (Decimal.del_head 1 U)
         ++ "e"%char
         :: (if Z.ltb (n - 1) 0 then "-" else "+")%char
         :: print_number (Z.abs (n - 1))) ++ rest in
  exists u rest0 f rest1 x,
    take_digits text = (u, rest0)
    /\ u <> Decimal.Nil /\ Decimal.unorm u = u
    /\ starts_fraction rest0 = true
    /\ parse_fraction rest0 = Some (f, rest1)
    /\ parse_exponent rest1 = Some (x, rest)
    /\ N.of_uint (Decimal.app u f) = N.of_uint U
    /\ (x - Z.of_nat (Decimal.nb_digits f) = Zneg places)%Z.
Proof.
  intros Hnil Hnorm Hrest k n text.
  assert (Hk : 0 < k).
  { subst k. destruct U; [now contradiction Hnil | cbn; lia..]. }
  assert (Hcut : forall j, j < k ->
            Decimal.del_tail j U <> Decimal.Nil
            /\ Decimal.unorm (Decimal.del_tail j U) = Decimal.del_tail j U).
  { intros j Hj. split; [now apply del_tail_nonnil |].
    rewrite <- Hnorm. apply unorm_del_tail_unorm. now rewrite Hnorm. }
  pose proof (ends_number_stops _ Hrest) as Hstops.
  subst text.
  destruct (Z.ltb 0 n && Z.leb n 21) eqn:Hplain.
  - apply andb_true_iff in Hplain as [Hpos _]. apply Z.ltb_lt in Hpos.
    assert (Hlt : Pos.to_nat places < k) by lia.
    destruct (Hcut _ Hlt) as [Hu Hun].
    replace (Z.to_nat n) with (k - Pos.to_nat places) by lia.
    set (u := Decimal.del_tail (Pos.to_nat places) U) in *.
    set (f := Decimal.del_head (k - Pos.to_nat places) U).
    assert (Hf : Decimal.nb_digits f = Pos.to_nat places)
      by (apply nb_digits_del_head_sub; fold k; lia).
    exists u, ("."%char :: chars_of_uint f ++ rest), f, rest, 0%Z.
    rewrite <- !List.app_assoc. cbn [List.app].
    split; [now apply take_digits_stops |].
    split; [exact Hu |]. split; [exact Hun |]. split; [reflexivity |].
    split.
    { apply parse_fraction_digits; [| exact Hstops].
      apply nb_digits_n0. rewrite Hf. lia. }
    split; [now apply parse_exponent_none |].
    split; [| rewrite Hf; lia].
    subst u f. rewrite app_del_tail_head by (fold k; lia). reflexivity.
  - destruct (Z.ltb (-6) n && Z.leb n 0) eqn:Hsmall.
    + apply andb_true_iff in Hsmall as [_ Hle]. apply Z.leb_le in Hle.
      set (f := Nat.iter (Z.to_nat (- n)) Decimal.D0 U).
      assert (Hf : Decimal.nb_digits f = Pos.to_nat places).
      { subst f. rewrite nb_digits_iter_D0. fold k. lia. }
      exists (Decimal.D0 Decimal.Nil),
        ("."%char :: chars_of_uint f ++ rest), f, rest, 0%Z.
      cbn [List.app].
      split; [reflexivity |]. split; [discriminate |].
      split; [reflexivity |]. split; [reflexivity |].
      split.
      { apply parse_fraction_digits; [| exact Hstops].
        apply nb_digits_n0. rewrite Hf. lia. }
      split; [now apply parse_exponent_none |].
      split; [| rewrite Hf; lia].
      change (Decimal.app (Decimal.D0 Decimal.Nil) f) with (Decimal.D0 f).
      change (N.of_uint (Decimal.D0 f)) with (N.of_uint f).
      apply of_uint_zeros.
    + assert (Hlt : k - 1 < k) by lia.
      destruct (Hcut _ Hlt) as [Hu Hun].
      set (u := Decimal.del_tail (k - 1) U) in *.
      set (f := Decimal.del_head 1 U).
      assert (Hf : Decimal.nb_digits f = k - 1).
      { pose proof (nb_digits_del_head_sub U (k - 1)) as H. fold k in H.
        replace (k - (k - 1)) with 1 in H by lia. apply H. lia. }
      assert (He : (n - 1 <> 0)%Z).
      { intros H. replace n with 1%Z in Hplain by lia. discriminate Hplain. }
      set (tail := "e"%char
                     :: (if Z.ltb (n - 1) 0 then "-" else "+")%char
                     :: print_number (Z.abs (n - 1)) ++ rest).
      exists u, (print_fraction f ++ tail), f, tail, (n - 1)%Z.
      rewrite <- !List.app_assoc. cbn [List.app]. fold tail.
      split.
      { apply take_digits_stops. destruct f; reflexivity. }
      split; [exact Hu |]. split; [exact Hun |].
      split; [destruct f; reflexivity |].
      split.
      { destruct (Decimal.uint_eq_dec f Decimal.Nil) as [-> | Hfn].
        - reflexivity.
        - replace (print_fraction f ++ tail)
            with ("."%char :: chars_of_uint f ++ tail)
            by (destruct f; [now contradiction Hfn | reflexivity..]).
          apply parse_fraction_digits; [exact Hfn | reflexivity]. }
      split; [now apply parse_exponent_printed |].
      split; [| rewrite Hf; lia].
      pose proof (app_del_tail_head (k - 1) U) as H. fold k in H.
      replace (k - (k - 1)) with 1 in H by lia.
      subst u f. rewrite H by lia. reflexivity.
Qed.

(** Parsing the text of a number with a fraction gives the number. *)
Lemma parse_print_decimal (m : Z) (places : positive) (rest : list ascii) :
  Z.rem m 10 <> 0%Z -> ends_number rest ->
  parse_number (print_decimal m places ++ rest) = Some (JDec m places, rest).
Proof.
  intros Hm Hrest.
  assert (Hp : exists p, Z.to_pos (Z.abs m) = p /\ Z.abs m = Zpos p).
  { destruct m as [|p|p]; [now contradiction Hm | now exists p..]. }
  destruct Hp as (p & Hp & Habs).
  unfold print_decimal. rewrite Hp.
  pose proof (DecimalPos.Unsigned.of_to p) as Hof.
  change (Pos.of_uint (Pos.to_uint p)) with (N.of_uint (Pos.to_uint p)) in Hof.
  destruct (decimal_digits (Pos.to_uint p) places rest
              (DecimalPos.Unsigned.to_uint_nonnil p)
              (unorm_to_uint p) Hrest)
    as (u & rest0 & f & rest1 & x & Htake & Hu & Hun & Hstart & Hfrac
        & Hexp & Hval & Hplaces).
  cbv zeta in Htake.
  set (text := _ ++ rest) in Htake.
  pose proof (take_digits_head _ _ _ Htake Hu) as Hhead.
  rewrite <- List.app_assoc. fold text.
  assert (Hrun : forall neg : bool,
            match u with
            | Decimal.Nil => None
            | _ =>
                if Decimal.uint_eq_dec u (Decimal.unorm u) then
                  if starts_fraction rest0 then
                    match parse_fraction rest0 with
                    | Some (f, rest1) =>
                        match parse_exponent rest1 with
                        | Some (x, rest2) =>
                            Some (number_of neg (Decimal.app u f)
                                    (x - Z.of_nat (Decimal.nb_digits f)),
                                  rest2)
                        | None => None
                        end
                    | None => None
                    end
                  else
                    let n := Z.of_N (N.of_uint u) in
                    Some (JNum (if neg then Z.opp n else n), rest0)
                else None
            end
            = Some (JDec (if neg then Z.neg p else Z.pos p) places, rest)).
  { intros neg.
    assert (Hgo : (if Decimal.uint_eq_dec u (Decimal.unorm u) then
                     if starts_fraction rest0 then
                       match parse_fraction rest0 with
                       | Some (f, rest1) =>
                           match parse_exponent rest1 with
                           | Some (x, rest2) =>
                               Some (number_of neg (Decimal.app u f)
                                       (x - Z.of_nat (Decimal.nb_digits f)),
                                     rest2)
                           | None => None
                           end
                       | None => None
                       end
                     else
                       let n := Z.of_N (N.of_uint u) in
                       Some (JNum (if neg then Z.opp n else n), rest0)
                   else None)
                  = Some (JDec (if neg then Z.neg p else Z.pos p) places,
                          rest)).
    { rewrite Hun.
      destruct (Decimal.uint_eq_dec u u) as [_ | Hne];
        [| now contradiction Hne].
      rewrite Hstart, Hfrac, Hexp, Hplaces. unfold number_of.
      rewrite Hval, Hof. cbn [Z.of_N].
      assert (Hrem : Z.rem (if neg then Z.neg p else Z.pos p) 10 <> 0%Z).
      { destruct m as [|q|q]; cbn [Z.abs] in Habs;
          [discriminate Habs | |]; injection Habs as ->.
        - destruct neg; [| exact Hm].
          change (Z.neg p) with (- Z.pos p)%Z. rewrite Z.rem_opp_l by lia.
          lia.
        - destruct neg; [exact Hm |].
          change (Z.neg p) with (- Z.pos p)%Z in Hm.
          rewrite Z.rem_opp_l in Hm by lia. lia. }
      destruct neg; cbn [Z.opp Z.eqb];
        rewrite lowest_terms_kept by exact Hrem; reflexivity. }
    destruct u; [now contradiction Hu | exact Hgo..]. }
  unfold parse_number.
  destruct m as [|q|q]; cbn [Z.abs] in Habs; [discriminate Habs | |];
    injection Habs as ->.
  - cbn [Z.ltb Z.compare List.app].
    destruct text as [|c text']; [contradiction |].
    rewrite Hhead, Htake. apply (Hrun false).
  - cbn [Z.ltb Z.compare List.app].
    change (Ascii.eqb "-" "-") with true. cbn match.
    rewrite Htake. apply (Hrun true).
Qed.

(** *** Values *)

Lemma delimited_ends_number rest : delimited rest -> ends_number rest.
Proof.
  destruct rest as [|c rest]; [easy |].
  intros [-> | [-> | ->]]; split; reflexivity.
Qed.

Lemma chars_head (u : Decimal.uint) :
  u <> Decimal.Nil ->
  exists c tl, chars_of_uint u = c :: tl /\ is_number_head c.
Proof.
  destruct u; intros H; try (now contradiction H);
    eexists; eexists; (split; [reflexivity |]); unfold is_number_head;
    cbn; tauto.
Qed.

Lemma print_number_head (z : Z) :
  exists c tl, print_number z = c :: tl /\ is_number_head c.
Proof.
  destruct z as [|p|p]; cbn [print_number].
  - eexists; eexists; split; [reflexivity |]. unfold is_number_head; cbn; tauto.
  - apply chars_head, DecimalPos.Unsigned.to_uint_nonnil.
  - eexists; eexists; split; [reflexivity |]. unfold is_number_head; cbn; tauto.
Qed.

Lemma print_decimal_head (m : Z) (places : positive) :
  exists c tl, print_decimal m places = c :: tl /\ is_number_head c.
Proof.
  unfold print_decimal.
  destruct (Z.ltb m 0).
  { eexists; eexists; split; [reflexivity |]. cbn. tauto. }
  cbn [List.app].
  set (U := Pos.to_uint (Z.to_pos (Z.abs m))).
  pose proof (DecimalPos.Unsigned.to_uint_nonnil (Z.to_pos (Z.abs m))) as Hnil.
  fold U in Hnil.
  assert (Hk : 0 < Decimal.nb_digits U).
  { destruct U; [now contradiction Hnil | cbn; lia..]. }
  assert (Hcut : forall j tail, j < Decimal.nb_digits U ->
            exists c tl,
              chars_of_uint (Decimal.del_tail j U) ++ tail = c :: tl
              /\ is_number_head c).
  { intros j tail Hj.
    destruct (chars_head _ (del_tail_nonnil j U Hj)) as (c & tl & -> & Hc).
    exists c, (tl ++ tail). split; [reflexivity | exact Hc]. }
  destruct (Z.ltb 0 _ && Z.leb _ 21) eqn:Hplain.
  - apply andb_true_iff in Hplain as [Hpos _]. apply Z.ltb_lt in Hpos.
    apply Hcut. lia.
  - destruct (Z.ltb (-6) _ && Z.leb _ 0).
    + eexists; eexists; split; [reflexivity |]. cbn. tauto.
    + apply Hcut. lia.
Qed.

Lemma number_head_starts_value (c : ascii) (s : list ascii) :
  is_number_head c -> starts_value (c :: s).
Proof.
  unfold is_number_head. cbn.
  intros H; repeat (destruct H as [<- | H]; [repeat split |]); contradiction.
Qed.

Lemma parse_value_number_head (f : nat) (c : ascii) (s : list ascii) :
  is_number_head c ->
  parse_value (S f) (c :: s) = parse_number (c :: s).
Proof.
  unfold is_number_head. cbn [In].
  intros H; repeat (destruct H as [<- | H]; [reflexivity |]); contradiction.
Qed.

Lemma join_cons (p : list ascii) (q : list ascii) (r : list (list ascii)) :
  join (p :: q :: r) = p ++ ","%char :: join (q :: r).
Proof. reflexivity. Qed.

Lemma print_starts_value (v : json) (rest : list ascii) :
  starts_value (print v ++ rest).
Proof.
  destruct v as [| [] | z | m places | s | l | l];
    try (cbn; repeat split; reflexivity).
  - destruct (print_number_head z) as (c & tl & Heq & Hc).
    cbn [print]. rewrite Heq. cbn [List.app].
    now apply number_head_starts_value.
  - destruct (print_decimal_head m places) as (c & tl & Heq & Hc).
    cbn [print]. rewrite Heq. cbn [List.app].
    now apply number_head_starts_value.
Qed.

Lemma skip_ws_starts_value (s : list ascii) :
  starts_value s -> skip_ws s = s.
Proof.
  destruct s as [|c s]; [easy |]. intros (Hws & _). cbn. now rewrite Hws.
Qed.

Lemma skip_ws_delimiter (c : ascii) (s : list ascii) :
  c = ","%char \/ c = "]"%char \/ c = "}"%char -> skip_ws (c :: s) = c :: s.
Proof. intros [-> | [-> | ->]]; reflexivity. Qed.

(** *** Objects *)

Lemma mem_string_app (k : string) (a b : list string) :
  mem_string k (a ++ b) = mem_string k a || mem_string k b.
Proof.
  induction a as [|x a IH]; [reflexivity |].
  cbn [List.app mem_string]. rewrite IH. apply orb_assoc.
Qed.

Lemma obj_set_fresh {A} (k : string) (v : A) (acc : list (string * A)) :
  mem_string k (map fst acc) = false -> obj_set k v acc = acc ++ [(k, v)].
Proof.
  induction acc as [|[k' v'] acc IH]; [reflexivity |].
  cbn [map fst mem_string obj_set List.app].
  intros H. apply orb_false_iff in H as [Hk Hacc].
  rewrite Hk. f_equal. exact (IH Hacc).
Qed.

Lemma obj_assign_distinct {A} (l acc : list (string * A)) :
  distinct (map fst acc ++ map fst l) = true -> obj_assign acc l = acc ++ l.
Proof.
  revert acc. induction l as [|[k v] l IH]; intros acc H.
  - symmetry. apply List.app_nil_r.
  - unfold obj_assign. cbn [fold_left fst snd].
    assert (Hfresh : mem_string k (map fst acc) = false).
    { clear IH. induction acc as [|[k' v'] acc IHacc]; [reflexivity |].
      cbn [map fst List.app distinct mem_string] in H |- *.
      apply andb_true_iff in H as [Hk' Hrest].
      rewrite (IHacc Hrest), orb_false_r.
      rewrite mem_string_app in Hk'. cbn [map fst mem_string] in Hk'.
      destruct (String.eqb_spec k k') as [->|Hne]; [| reflexivity].
      rewrite String.eqb_refl in Hk'. cbn in Hk'.
      now rewrite orb_true_r in Hk'. }
    rewrite (obj_set_fresh _ _ _ Hfresh).
    change (fold_left _ l (acc ++ [(k, v)])) with (obj_assign (acc ++ [(k, v)]) l).
    rewrite IH.
    + rewrite <- List.app_assoc. reflexivity.
    + rewrite List.map_app, <- List.app_assoc. exact H.
Qed.

(** *** One step of each parser *)

Lemma parse_elements_eq (f : nat) (s : list ascii) :
  parse_elements (S f) s
  = match parse_value f s with
    | None => None
    | Some (v, r) =>
        match skip_ws r with
        | c :: r' =>
            if Ascii.eqb c "," then
              match parse_elements f r' with
              | Some (l, r'') => Some (v :: l, r'')
              | None => None
              end
            else if Ascii.eqb c "]" then Some ([v], r')
            else None
        | [] => None
        end
    end.
Proof. reflexivity. Qed.

Lemma parse_members_eq (f : nat) (k : string) (s : list ascii) :
  parse_members (S f) (dquote :: escape k ++ dquote :: ":"%char :: s)
  = match parse_value f s with
    | None => None
    | Some (v, r3) =>
        match skip_ws r3 with
        | c :: r' =>
            if Ascii.eqb c "," then
              match parse_members f r' with
              | Some (l, r'') => Some ((k, v) :: l, r'')
              | None => None
              end
            else if Ascii.eqb c "}" then Some ([(k, v)], r')
            else None
        | [] => None
        end
    end.
Proof.
  change (parse_members (S f) (dquote :: escape k ++ dquote :: ":"%char :: s))
    with (match parse_string_body (escape k ++ dquote :: ":"%char :: s) with
          | None => None
          | Some (k, r1) =>
              match skip_ws r1 with
              | c1 :: r2 =>
                  if Ascii.eqb c1 ":" then
                    match parse_value f r2 with
                    | None => None
                    | Some (v, r3) =>
                        match skip_ws r3 with
                        | c :: r' =>
                            if Ascii.eqb c "," then
                              match parse_members f r' with
                              | Some (l, r'') => Some ((k, v) :: l, r'')
                              | None => None
                              end
                            else if Ascii.eqb c "}" then Some ([(k, v)], r')
                            else None
                        | [] => None
                        end
                    end
                  else None
              | [] => None
              end
          end).
  rewrite parse_escape. reflexivity.
Qed.

Lemma parse_value_array (f : nat) (r : list ascii) :
  parse_value (S f) ("["%char :: r)
  = match skip_ws r with
    | [] => None
    | c' :: r' =>
        if Ascii.eqb c' "]" then Some (JArr [], r')
        else
          match parse_elements f r with
          | Some (l, r'') => Some (JArr l, r'')
          | None => None
          end
    end.
Proof. reflexivity. Qed.

Lemma parse_value_object (f : nat) (r : list ascii) :
  parse_value (S f) ("{"%char :: r)
  = match skip_ws r with
    | [] => None
    | c' :: r' =>
        if Ascii.eqb c' "}" then Some (JObj [], r')
        else
          match parse_members f r with
          | Some (l, r'') => Some (JObj (obj_assign [] l), r'')
          | None => None
          end
    end.
Proof. reflexivity. Qed.

Lemma parse_value_string (f : nat) (r : list ascii) :
  parse_value (S f) (dquote :: r)
  = match parse_string_body r with
    | Some (t, r') => Some (JStr t, r')
    | None => None
    end.
Proof. reflexivity. Qed.

(** *** The round trip *)

Lemma member_text_app (k : string) (x : json) (tail : list ascii) :
  member_text (k, x) ++ tail
  = dquote :: escape k ++ dquote :: ":"%char :: print x ++ tail.
Proof.
  unfold member_text, quote. cbn [List.app].
  rewrite <- !List.app_assoc. reflexivity.
Qed.

Lemma parse_elements_print (l : list json) :
  Forall parses l -> l <> [] ->
  forall fuel rest,
    fold_right (fun x n => S (size x + n)) 0 l <= fuel ->
    parse_elements fuel (join (map print l) ++ "]"%char :: rest)
    = Some (l, rest).
Proof.
  induction 1 as [|x l Hx Hl IH]; [easy |].
  intros _ fuel rest Hfuel. cbn [fold_right] in Hfuel.
  destruct fuel as [|f]; [lia |].
  rewrite parse_elements_eq.
  destruct l as [|y l'].
  - cbn [map join]. rewrite Hx; [| lia | right; left; reflexivity].
    reflexivity.
  - cbn [map]. rewrite join_cons, <- List.app_assoc. cbn [List.app].
    rewrite Hx; [| lia | left; reflexivity].
    rewrite (skip_ws_delimiter ","%char) by (left; reflexivity).
    cbn [Ascii.eqb Bool.eqb].
    rewrite IH; [reflexivity | easy | lia].
Qed.

Lemma parse_members_print (l : list (string * json)) :
  Forall (fun kv => parses (snd kv)) l -> l <> [] ->
  forall fuel rest,
    fold_right (fun kv n => let '(_, x) := kv in S (size x + n)) 0 l <= fuel ->
    parse_members fuel (join (map member_text l) ++ "}"%char :: rest)
    = Some (l, rest).
Proof.
  induction 1 as [|[k x] l Hx Hl IH]; [easy |].
  intros _ fuel rest Hfuel. cbn [fold_right snd] in Hfuel, Hx.
  destruct fuel as [|f]; [lia |].
  destruct l as [|y l'].
  - cbn [map join]. rewrite member_text_app, parse_members_eq.
    rewrite Hx; [| lia | right; right; reflexivity].
    reflexivity.
  - cbn [map]. rewrite join_cons, <- List.app_assoc, member_text_app.
    rewrite parse_members_eq. cbn [List.app].
    rewrite Hx; [| lia | left; reflexivity].
    rewrite (skip_ws_delimiter ","%char) by (left; reflexivity).
    cbn [Ascii.eqb Bool.eqb].
    rewrite IH; [reflexivity | easy | lia].
Qed.

Lemma join_starts_value (x : json) (l : list json) (rest : list ascii) :
  starts_value (join (map print (x :: l)) ++ rest).
Proof.
  destruct l as [|y l]; cbn [map].
  - cbn [join]. apply print_starts_value.
  - rewrite join_cons, <- List.app_assoc. apply print_starts_value.
Qed.

Lemma wf_array (l : list json) :
  wf (JArr l) = true -> Forall (fun x => wf x = true) l.
Proof. cbn [wf]. intros H. now apply Forall_forall, forallb_forall. Qed.

Lemma wf_object (l : list (string * json)) :
  wf (JObj l) = true ->
  distinct (map fst l) = true /\ Forall (fun kv => wf (snd kv) = true) l.
Proof.
  cbn [wf]. intros H. apply andb_true_iff in H as [Hd Hall]. split; [exact Hd |].
  apply Forall_forall. intros [k x] Hin.
  exact (proj1 (forallb_forall _ _) Hall (k, x) Hin).
Qed.

(** Parsing the text of a well-formed value gives the value back and
    leaves what follows it. *)
Lemma parse_print (v : json) : wf v = true -> parses v.
Proof.
  induction v as [| b | z | m places | s | l IH | l IH] using json_induction;
    intros Hwf fuel rest Hfuel Hrest;
    (destruct fuel as [|f]; [cbn in Hfuel; lia |]).
  - reflexivity.
  - destruct b; reflexivity.
  - destruct (print_number_head z) as (c & tl & Heq & Hc).
    cbn [print]. rewrite Heq. cbn [List.app].
    rewrite parse_value_number_head by exact Hc.
    change (c :: tl ++ rest) with ((c :: tl) ++ rest). rewrite <- Heq.
    now apply parse_print_number, delimited_ends_number.
  - destruct (print_decimal_head m places) as (c & tl & Heq & Hc).
    cbn [print]. rewrite Heq. cbn [List.app].
    rewrite parse_value_number_head by exact Hc.
    change (c :: tl ++ rest) with ((c :: tl) ++ rest). rewrite <- Heq.
    cbn [wf] in Hwf. apply negb_true_iff, Z.eqb_neq in Hwf.
    now apply parse_print_decimal, delimited_ends_number.
  - cbn [print]. unfold quote. cbn [List.app].
    rewrite parse_value_string, <- List.app_assoc. cbn [List.app].
    rewrite parse_escape. reflexivity.
  - cbn [print List.app]. rewrite parse_value_array, <- List.app_assoc.
    cbn [List.app]. cbn [size] in Hfuel.
    destruct l as [|x l]; [reflexivity |].
    pose proof (join_starts_value x l ("]"%char :: rest)) as Hstart.
    rewrite (skip_ws_starts_value _ Hstart).
    destruct (join (map print (x :: l)) ++ "]"%char :: rest) as [|c r] eqn:Htext;
      [contradiction |].
    destruct Hstart as (_ & Hclose & _). rewrite Hclose, <- Htext.
    rewrite parse_elements_print; [reflexivity | | easy | lia].
    pose proof (wf_array _ Hwf) as Hall.
    clear - IH Hall. induction IH as [|y l0 Hy Hl IHl]; [constructor |].
    inversion Hall; subst. constructor; auto.
  - cbn [print List.app].
    change (map _ l) with (map member_text l).
    rewrite parse_value_object, <- List.app_assoc.
    cbn [List.app]. cbn [size] in Hfuel.
    destruct (wf_object _ Hwf) as [Hdistinct Hall].
    destruct l as [|[k x] l]; [reflexivity |].
    assert (Hstart : starts_value
              (join (map member_text ((k, x) :: l)) ++ "}"%char :: rest)).
    { destruct l as [|y l]; cbn [map].
      - cbn [join]. rewrite member_text_app. cbn. repeat split; reflexivity.
      - rewrite join_cons, <- List.app_assoc, member_text_app.
        cbn. repeat split; reflexivity. }
    rewrite (skip_ws_starts_value _ Hstart).
    destruct (join (map member_text ((k, x) :: l)) ++ "}"%char :: rest)
      as [|c r] eqn:Htext; [contradiction |].
    destruct Hstart as (_ & _ & Hclose). rewrite Hclose, <- Htext.
    rewrite parse_members_print; [| | easy | lia].
    + rewrite obj_assign_distinct by exact Hdistinct. reflexivity.
    + clear - IH Hall. induction IH as [|y l0 Hy Hl IHl]; [constructor |].
      inversion Hall; subst. constructor; auto.
Qed.

Lemma size_le_length (v : json) : size v <= List.length (print v).
Proof.
  induction v as [| b | z | m places | s | l IH | l IH] using json_induction.
  - simpl. lia.
  - destruct b; simpl; lia.
  - destruct (print_number_head z) as (c & tl & Heq & _).
    cbn [print size]. rewrite Heq. simpl. lia.
  - destruct (print_decimal_head m places) as (c & tl & Heq & _).
    cbn [print size]. rewrite Heq. simpl. lia.
  - cbn [print size quote List.length]. lia.
  - cbn [print size List.length]. rewrite List.length_app. cbn [List.length].
    enough (fold_right (fun x n => S (size x + n)) 0 l
            <= S (List.length (join (map print l)))) by lia.
    induction IH as [|x l0 Hx Hl IHl]; [simpl; lia |].
    destruct l0 as [|y l'].
    + simpl. lia.
    + change (map print (x :: y :: l'))
        with (print x :: print y :: map print l').
      rewrite join_cons, List.length_app.
      change (fold_right (fun x n => S (size x + n)) 0 (x :: y :: l'))
        with (S (size x + fold_right (fun x n => S (size x + n)) 0 (y :: l'))).
      change (print y :: map print l') with (map print (y :: l')).
      cbn [List.length]. lia.
  - cbn [print size List.length]. rewrite List.length_app. cbn [List.length].
    change (map _ l) with (map member_text l).
    enough (fold_right (fun kv n => let '(_, x) := kv in S (size x + n)) 0 l
            <= S (List.length (join (map member_text l)))) by lia.
    induction IH as [|[k x] l0 Hx Hl IHl]; [simpl; lia |].
    cbn [snd] in Hx.
    assert (Hm : size x < List.length (member_text (k, x))).
    { unfold member_text. rewrite List.length_app. cbn [List.length]. lia. }
    destruct l0 as [|y l'].
    + simpl fold_right.
      change (join (map member_text [(k, x)])) with (member_text (k, x)).
      lia.
    + change (map member_text ((k, x) :: y :: l'))
        with (member_text (k, x) :: member_text y :: map member_text l').
      rewrite join_cons, List.length_app.
      change (fold_right (fun kv n => let '(_, x) := kv in S (size x + n)) 0
                         ((k, x) :: y :: l'))
        with (S (size x + fold_right
                    (fun kv n => let '(_, x) := kv in S (size x + n)) 0
                    (y :: l'))).
      change (member_text y :: map member_text l')
        with (map member_text (y :: l')).
      cbn [List.length]. lia.
Qed.

(** [JSON.parse(JSON.stringify(v))] is [v], for every well-formed
    value. *)
Lemma parse_stringify (v : json) : wf v = true -> parse (stringify v) = Some v.
Proof.
  intros Hwf. unfold parse, stringify.
  rewrite list_ascii_of_string_of_list_ascii.
  pose proof (parse_print v Hwf (S (List.length (print v))) []) as H.
  rewrite List.app_nil_r in H.
  rewrite H; [reflexivity | | exact I].
  pose proof (size_le_length v). lia.
Qed.

(** Numbers as [JSON.parse] reads them and [JSON.stringify] writes
    them. A fraction or an exponent that leaves an integer gives that
    integer; a point without digits, a leading zero and an exponent
    without digits are refused. *)
Example parse_numbers :
  parse "5432.0" = Some (JNum 5432)
  /\ parse "1e3" = Some (JNum 1000)
  /\ parse "-0.0" = Some (JNum 0)
  /\ parse "-12.25E-2" = Some (JDec (-1225) 4)
  /\ parse "[1.50, 0.000001, 1e-7, 120e-1]"
     = Some (JArr [JDec 15 1; JDec 1 6; JDec 1 7; JNum 12])
  /\ stringify (JArr [JDec 15 1; JDec 1 6; JDec 1 7; JDec (-1225) 4])
     = "[1.5,0.000001,1e-7,-0.1225]"
  /\ parse "1." = None /\ parse ".5" = None /\ parse "01" = None
  /\ parse "1e" = None /\ parse "1.5.2" = None.
Proof. vm_compute. repeat split. Qed.

End JsonFacts.

(** ** The credential manager: what is stored is what is read *)

Module SecretsFacts.
Import JsString Json Effects Core JsonSpec JsonFacts PathSpec Worlds.

Section RoundTrip.
Context {E F : Type}.
Variable respond : event -> E -> E * response.

(** C7. [store(tenantId, descriptor)] followed by [get(tenantId)]
    returns the descriptor that was stored, whatever its fields
    ([schema], [keyPrefix], ...), for every tenant id and every
    descriptor, provided the secret store accepted the value and
    hands the stored string back unchanged. Both calls use the same
    path; the value survives [JSON.stringify] and [JSON.parse]. *)
Theorem store_then_get (m : TenantsSecretsManager) (tenantId : string)
    (descriptor : json) (w : world E F) (e1 e2 : E) (r : response) :
  wf descriptor = true ->
  respond (CreateSecret (getPath m tenantId) (stringify descriptor)) (env w)
    = (e1, r) ->
  rejection r = None ->
  respond (GetSecret (getPath m tenantId)) e1
    = (e2, Text (stringify descriptor)) ->
  exists w1 w2,
    store respond m tenantId descriptor w = (w1, Return tt)
    /\ get respond m tenantId w1 = (w2, Return descriptor).
Proof.
  intros Hwf Hcreate Haccepted Hget.
  unfold store, get, bind, call, ret. rewrite Hcreate, Haccepted.
  eexists. eexists. split; [reflexivity |].
  cbn [env trace self]. rewrite Hget. cbn [rejection text_of].
  rewrite (parse_stringify _ Hwf). reflexivity.
Qed.

End RoundTrip.

Lemma store_then_get_witness :
  exists w1 w2,
    store memory_store (manager None (Some "eu1")) "acme" sample_descriptor
          (World [] [] tt) = (w1, Return tt)
    /\ get memory_store (manager None (Some "eu1")) "acme" w1
       = (w2, Return sample_descriptor).
Proof.
  eapply (store_then_get memory_store (manager None (Some "eu1")) "acme"
            sample_descriptor (World [] [] tt)).
  - reflexivity.
  - reflexivity.
  - reflexivity.
  - reflexivity.
Defined.

End SecretsFacts.

(** ** Maps kept as property lists *)

Module MapFacts.
Import Json Tenants.

Lemma obj_get_set_eq {A} (k : string) (v : A) (l : list (string * A)) :
  obj_get k (obj_set k v l) = Some v.
Proof.
  induction l as [|[k' v'] l IH]; cbn [obj_set obj_get].
  - now rewrite String.eqb_refl.
  - destruct (String.eqb k k') eqn:Hk; cbn [obj_get];
      rewrite ?String.eqb_refl, ?Hk; auto.
Qed.

Lemma get_value_set (k : string) (v : option json)
    (l : list (string * option json)) :
  get_value k (obj_set k v l) = v.
Proof. unfold get_value. now rewrite obj_get_set_eq. Qed.

Lemma obj_get_set_ne {A} (k k' : string) (v : A) (l : list (string * A)) :
  k <> k' -> obj_get k (obj_set k' v l) = obj_get k l.
Proof.
  intros Hne. induction l as [|[k0 v0] l IH]; cbn [obj_set obj_get].
  - destruct (String.eqb_spec k k'); [contradiction | reflexivity].
  - destruct (String.eqb_spec k' k0) as [->|Hk0]; cbn [obj_get].
    + destruct (String.eqb_spec k k0); [contradiction | reflexivity].
    + rewrite IH. reflexivity.
Qed.

Lemma obj_set_same {A} (k : string) (v : A) (l : list (string * A)) :
  obj_get k l = Some v -> obj_set k v l = l.
Proof.
  induction l as [|[k0 v0] l IH]; cbn [obj_set obj_get]; [discriminate |].
  destruct (String.eqb_spec k k0) as [->|Hne]; intros H.
  - now inversion H.
  - now rewrite IH.
Qed.

Lemma obj_get_delete_eq {A} (k : string) (l : list (string * A)) :
  obj_get k (obj_delete k l) = None.
Proof.
  induction l as [|[k0 v0] l IH]; cbn [obj_delete obj_get]; [reflexivity |].
  destruct (String.eqb k k0) eqn:Hk; [exact IH |].
  cbn [obj_get]. now rewrite Hk.
Qed.

Lemma obj_get_In {A} (k : string) (v : A) (l : list (string * A)) :
  obj_get k l = Some v -> In v (map snd l).
Proof.
  induction l as [|[k0 v0] l IH]; cbn [obj_get map snd]; [discriminate |].
  destruct (String.eqb k k0); intros H.
  - inversion H. now left.
  - right. now apply IH.
Qed.

End MapFacts.

(** ** The transaction wrapper of the PgBouncer roles *)

Module TransactionFacts.
Import JsString Json Sql Effects Core Tenants TransactionSpec Worlds MapFacts.

Lemma rejection_some (r : response) (e : error) :
  rejection r = Some e -> r = Rejected e.
Proof. destruct r; cbn; congruence. Qed.

Lemma rollback_log_none (r : response) :
  rejection r = None -> rollback_log r = [].
Proof. destruct r; cbn; congruence. Qed.

(** Symbolic execution: answer each call with the hypothesis about
    it, split on the answers still unknown. *)
Ltac execute :=
  repeat match goal with
    | |- forall _, _ => intro
    | H : _ = ?b |- context [if ?c then _ else _] =>
        match b with true => idtac | false => idtac end;
        rewrite H; cbn
    | H : ?respond ?ev ?e = _ |- context [?respond ?ev ?e] => rewrite H; cbn
    | H : Some _ = None |- _ => discriminate H
    | H : None = Some _ |- _ => discriminate H
    | H : rejection ?r = _ |- context [rejection ?r] => rewrite H; cbn
    | |- context [rejection ?r] =>
        is_var r; destruct (rejection r) eqn:?; cbn
    | H : rejection ?r = Some ?e |- _ =>
        is_var r; apply rejection_some in H; subst r; cbn
    | H : rejection ?r = None |- context [rollback_log ?r] =>
        rewrite (rollback_log_none _ H); cbn
    | |- context [get_value ?k (obj_set ?k _ _)] =>
        rewrite !get_value_set; cbn
    | H : member ?c ?k = _ |- context [member ?c ?k] => rewrite H; cbn
    | |- _ /\ _ => split
    | |- _ = _ => rewrite <- ?List.app_assoc; reflexivity
    end.

Section Rls.
Context {E : Type}.
Variable respond : event -> E -> E * response.
Import RlsTenants.

Lemma rls_transaction_discipline (w : world E fields) (tenantId : string)
    (q : stmt) :
  mode_is (self w) "transaction_mode" = true ->
  transaction_discipline respond (pgb_queryAs respond tenantId q w)
    (pool (self w)) (PgbBeginSetTenant tenantId) q (env w) (trace w).
Proof.
  intros Hmode e1 r1 e2 r2 Hconnect Hok Hbegin t2.
  assert (Hsession : mode_is (self w) "session_mode" = false).
  { unfold mode_is in *. destruct (poolMode (self w)) as [m|]; [| easy].
    apply String.eqb_eq in Hmode. now subst m. }
  unfold pgb_queryAs, pgb_getClientFor, connect, query, release,
    console_error.
  destruct w as [e0 t0 f]. cbn [env trace self] in *.
  unfold bind, try_catch, try_finally, call, emit, get_self, ret, throw.
  subst t2. cbn. rewrite Hconnect, Hok. cbn. execute.
Qed.
End Rls.

Section Schema.
Context {E : Type}.
Variable respond : event -> E -> E * response.
Import PgBouncerSchemaTenants.

Lemma schema_transaction_discipline (w : world E fields)
    (tenantId : string) (q : stmt) (e1 : E) (text : string) (cfg : json) :
  obj_get tenantId (pools (self w)) = None ->
  respond (GetSecret (getPath (secretsManager (self w)) tenantId)) (env w)
    = (e1, Text text) ->
  parse text = Some cfg ->
  member cfg "poolMode" = Some (JStr "transaction_mode") ->
  js_truthy (member cfg "schema") = true ->
  let pool := next_handle (self w) in
  transaction_discipline respond (queryAs respond tenantId q w)
    pool (PgbBeginSetSearchPath (to_template (member cfg "schema"))) q
    (fst (respond (PoolNew (Some tenantId) pool cfg) e1))
    (trace w
       ++ [GetSecret (getPath (secretsManager (self w)) tenantId);
           PoolNew (Some tenantId) pool cfg]).
Proof.
  intros Hpools Hsecret Hparse Hmode Hschema pool.
  assert (Hcfg : forall k, prop (E:=E) cfg k = ret (member cfg k)).
  { intros k. destruct cfg; try reflexivity. discriminate. }
  subst pool. destruct w as [e0 t0 f]. cbn [env trace self] in *.
  unfold queryAs, getClientFor, initTenantPool, getClientConfigFor, get,
    PgBouncerDatabaseTenants.rollback_release,
    PgBouncerDatabaseTenants.commit_or_rollback,
    new_Pool, modify, connect, query, release, console_error.
  unfold bind, try_catch, try_finally, call, emit, get_self, set_self,
    ret, throw.
  cbn [env trace self]. rewrite Hpools. cbn [env trace self].
  rewrite Hsecret.
  cbn [rejection text_of env trace self].
  rewrite Hparse. rewrite !Hcfg. unfold ret.
  cbn [env trace self with_poolsMode with_tenantsSchemas with_next_handle
       poolsMode tenantsSchemas next_handle pools].
  rewrite !get_value_set, Hmode, Hschema. cbn.
  intros e2 r2 e3 r3 Hconnect Hok Hbegin t2. subst t2.
  rewrite Hconnect, Hok. cbn. rewrite ?get_value_set. cbn.
  execute.
Qed.
End Schema.


End TransactionFacts.

(** ** The Database strategy behind a transaction-pooling proxy *)

Module DatabaseFacts.
Import JsString Json Sql Effects Core DatabaseManagement Worlds.

(** C4. With a pool configuration in [transaction_mode], [createTenant]
    and [deleteTenant] of the PgBouncer Database Management role throw
    their configuration error at once: no statement is sent, the secret
    store is not called, and the world, the trace and the object are what
    they were. *)
Theorem transaction_mode_refuses_database_ddl (E : Type)
    (respond : event -> E -> E * response) (w : world E fields)
    (tenantId : string) :
  in_transaction_mode (self w) = true ->
  pgb_createTenant respond tenantId w = (w, Throw CREATE_IN_TRANSACTION_MODE)
  /\ pgb_deleteTenant respond tenantId w
     = (w, Throw DELETE_IN_TRANSACTION_MODE).
Proof.
  intros Hmode.
  unfold pgb_createTenant, pgb_deleteTenant, bind, get_self, throw.
  rewrite Hmode. split; reflexivity.
Qed.

Lemma transaction_mode_refuses_database_ddl_witness :
  let w :=
    World [] []
      (new_fields [("host", JStr "pgbouncer");
                   ("poolMode", JStr "transaction_mode")]
         {| in_database_prefix := None; in_database_template := None;
            in_role_prefix := None; in_generatePassword := false;
            in_schemas_names := None; in_createIfNotExists := None;
            in_useForceOnDelete := None |}
         {| secrets_pattern := None |} None) in
  pgb_createTenant memory_store "acme" w = (w, Throw CREATE_IN_TRANSACTION_MODE)
  /\ pgb_deleteTenant memory_store "acme" w
     = (w, Throw DELETE_IN_TRANSACTION_MODE).
Proof.
  intros w.
  exact (transaction_mode_refuses_database_ddl _ memory_store w "acme" eq_refl).
Defined.

(** In [session_mode] the same call goes through to the database: the
    guard is what stops it above. *)
Example session_mode_creates_the_database :
  let w :=
    World [] []
      (new_fields [("host", JStr "pgbouncer");
                   ("poolMode", JStr "session_mode")]
         {| in_database_prefix := None; in_database_template := None;
            in_role_prefix := None; in_generatePassword := false;
            in_schemas_names := None; in_createIfNotExists := None;
            in_useForceOnDelete := None |}
         {| secrets_pattern := None |} None) in
  firstn 2 (trace (fst (pgb_createTenant memory_store "acme" w)))
  = [PoolConnect 0; Query 0 (CreateDatabase "tenant_acme" None)]
  /\ snd (pgb_createTenant memory_store "acme" w) = Return tt.
Proof. split; reflexivity. Qed.

End DatabaseFacts.

(** ** The pool caches of the Tenants roles *)

Module PoolFacts.
Import JsString Json Sql Effects Core Tenants Worlds PoolSpec MapFacts.

Lemma pools_created_app (tenantId : string) (a b : list event) :
  pools_created tenantId (a ++ b)
  = pools_created tenantId a + pools_created tenantId b.
Proof.
  induction a as [|ev a IH]; [reflexivity |].
  destruct ev as [[t|] ? ?| | | | | | | | | | | | | | | | | | | |];
    cbn [List.app pools_created]; rewrite IH; lia.
Qed.

Lemma with_pools_same (f : fields) : with_pools (pools f) f = f.
Proof. now destruct f. Qed.

(** Case analysis on every answer of the world met along a run. *)
Ltac answers respond :=
  repeat (cbn [fst snd env trace self];
          match goal with
          | |- context [respond ?ev ?e] =>
              let e' := fresh "e" in
              let r := fresh "r" in
              destruct (respond ev e) as [e' r] eqn:?
          | |- context [match rejection ?r with _ => _ end] =>
              destruct (rejection r) eqn:?
          | |- context [match parse ?s with _ => _ end] =>
              destruct (parse s) eqn:?
          end).

(** What was appended to [t] in [l]. *)
Ltac strip t l :=
  match l with
  | t => constr:(@nil event)
  | ?a ++ ?b => let a' := strip t a in constr:(a' ++ b)
  end.

(** The goals left by [answers] about a trace that grew. *)
Ltac grown :=
  repeat match goal with
    | |- _ /\ _ => split
    | |- exists added, ?l = ?t ++ added /\ _ =>
        let a := strip t l in
        exists a; split; [rewrite <- ?List.app_assoc; reflexivity | cbn [List.app]]
    | |- forall _, _ => intro
    | H : In _ _ |- _ => cbn [In List.app] in H
    | H : _ \/ _ |- _ => destruct H
    | H : False |- _ => contradiction
    | H : PoolConnect _ = PoolConnect _ |- _ => inversion H; subst; clear H
    | H : _ = PoolConnect _ |- _ => discriminate H
    | H : Return _ = Return _ |- _ => inversion H; subst; clear H
    | H : Throw _ = Return _ |- _ => discriminate H
    | |- pools_created _ _ = _ =>
        rewrite ?pools_created_app; cbn;
        try match goal with |- context [String.eqb ?a ?b] =>
              destruct (String.eqb a b) end;
        lia
    | |- _ = _ => reflexivity
    | |- exists err, Throw _ = Throw err => eexists; reflexivity
    end.

Section Database.
Context {E : Type}.
Variable respond : event -> E -> E * response.
Import PostgresDatabaseTenants.

Lemma database_caches_pools (tenantId : string) (w : world E fields) :
  caches_pools (getClientFor respond tenantId w) w tenantId.
Proof.
  unfold caches_pools. destruct w as [e0 t0 f]. cbn [env trace self].
  unfold getClientFor, initTenantPool, getClientConfigFor, get, new_Pool,
    modify, connect.
  unfold bind, call, emit, get_self, set_self, ret, throw.
  cbn [env trace self].
  destruct (obj_get tenantId (pools f)) as [pool|] eqn:Hpool;
    cbn [env trace self]; rewrite ?Hpool; answers respond;
    cbn [fst snd env trace self];
    first [solve [grown] | left; solve [grown] | right; solve [grown]].
Qed.
End Database.

Section Schema.
Context {E : Type}.
Variable respond : event -> E -> E * response.
Import PostgresSchemaTenants.

Lemma schema_caches_pools (tenantId : string) (w : world E fields) :
  caches_pools (getClientFor respond tenantId w) w tenantId.
Proof.
  unfold caches_pools. destruct w as [e0 t0 f]. cbn [env trace self].
  unfold getClientFor, initTenantPool, getClientConfigFor, get, new_Pool,
    modify, connect, prop, query, release.
  unfold bind, try_catch, call, emit, get_self, set_self, ret, throw.
  cbn [env trace self].
  destruct (obj_get tenantId (pools f)) as [pool|] eqn:Hpool;
    repeat (cbn [fst snd env trace self with_pools with_next_handle pools];
            first [ rewrite Hpool
                  | progress answers respond
                  | match goal with
                    | |- context [match ?j with JNull => _ | _ => _ end] =>
                        is_var j; destruct j
                    end ]);
    cbn [fst snd env trace self with_pools with_next_handle pools];
    rewrite ?(obj_set_same _ _ _ Hpool), ?with_pools_same;
    first [solve [grown] | left; solve [grown] | right; solve [grown]].
Qed.
End Schema.

(** *** What follows for any role that caches its pools *)

Section Caching.
Context {E : Type}.
Variable respond : event -> E -> E * response.
Variable getClientFor : string -> @M E fields handle.
Hypothesis caches :
  forall tenantId w, caches_pools (getClientFor tenantId w) w tenantId.

Let queryAs := base_queryAs respond getClientFor.

(** [queryAs] adds the query and the release to what [getClientFor]
    did; it creates no pool and does not touch the fields. *)
Lemma queryAs_after_getClientFor (tenantId : string) (q : stmt)
    (w : world E fields) :
  exists extra,
    trace (fst (queryAs tenantId q w))
    = trace (fst (getClientFor tenantId w)) ++ extra
    /\ (forall t, pools_created t extra = 0)
    /\ self (fst (queryAs tenantId q w)) = self (fst (getClientFor tenantId w)).
Proof.
  unfold queryAs, base_queryAs, bind.
  destruct (getClientFor tenantId w) as [w1 [client|err]]; cbn [fst snd].
  - unfold try_finally, query, release, call, emit.
    answers respond; cbn [fst snd env trace self];
      (exists [Query client q; Release client]);
      (split; [rewrite <- List.app_assoc; reflexivity | split; reflexivity]).
  - exists []. rewrite List.app_nil_r. repeat split; reflexivity.
Qed.

Lemma getClientFor_keeps_invariant (tenantId : string) (w : world E fields) :
  cached_once w -> cached_once (fst (getClientFor tenantId w)).
Proof.
  intros Hinv t. pose proof (caches tenantId w) as Hstep.
  unfold caches_pools in Hstep. destruct (Hinv t) as [Hle Hnone].
  destruct (obj_get tenantId (pools (self w))) as [pool|] eqn:Hpool.
  - destruct Hstep as (-> & (added & -> & Hadded & _) & _).
    rewrite pools_created_app, Hadded.
    split; [lia |]. intros H. rewrite (Hnone H). reflexivity.
  - destruct Hstep as [(-> & Hsame & _) | (-> & Hcount & _)].
    + rewrite Hsame. auto.
    + rewrite Hcount. cbn [pools with_pools].
      destruct (String.eqb_spec tenantId t) as [<-|Hne].
      * destruct (Hinv tenantId) as [_ Hzero]. rewrite (Hzero Hpool).
        split; [lia |]. rewrite obj_get_set_eq. discriminate.
      * rewrite obj_get_set_ne by congruence.
        split; [lia |]. intros H. rewrite (Hnone H). lia.
Qed.

Lemma run_call_keeps_invariant (c : tenant_call) (w : world E fields) :
  cached_once w -> cached_once (run_call getClientFor queryAs c w).
Proof.
  intros Hinv. destruct c as [tenantId | tenantId q]; cbn [run_call].
  - now apply getClientFor_keeps_invariant.
  - destruct (queryAs_after_getClientFor tenantId q w)
      as (extra & Htrace & Hextra & Hself).
    pose proof (getClientFor_keeps_invariant tenantId w Hinv) as Hget.
    intros t. destruct (Hget t) as [Hle Hnone].
    rewrite Htrace, Hself, pools_created_app, Hextra.
    split; [lia |]. intros H. rewrite (Hnone H). reflexivity.
Qed.

Lemma one_pool_per_tenant (e : E) (secrets : TenantsSecrets)
    (id : option string) (calls : list tenant_call) (tenantId : string) :
  pools_created tenantId
    (trace (run_calls getClientFor queryAs calls
              (World e [] (new_fields secrets id)))) <= 1.
Proof.
  assert (Hstart : cached_once (World e [] (new_fields secrets id))).
  { intros t. cbn. split; [lia | reflexivity]. }
  revert Hstart. generalize (World e [] (new_fields secrets id)).
  induction calls as [|c calls IH]; intros w Hinv; cbn [run_calls fold_left].
  - apply Hinv.
  - apply IH. now apply run_call_keeps_invariant.
Qed.

End Caching.

(** X9. The siblings of the defect reported under C1: in
    [PostgresDatabaseTenants] and [PostgresSchemaTenants], over any
    sequence of [getClientFor] and [queryAs] calls on one instance,
    whatever the world answers, at most one pool is created for each
    tenant id. *)
Lemma plain_tenants_one_pool_per_tenant (E : Type)
    (respond : event -> E -> E * response) (e : E) (secrets : TenantsSecrets)
    (id : option string) (calls : list tenant_call) (tenantId : string) :
  pools_created tenantId
    (trace (run_calls (PostgresDatabaseTenants.getClientFor respond)
                      (PostgresDatabaseTenants.queryAs respond) calls
                      (World e [] (new_fields secrets id)))) <= 1
  /\ pools_created tenantId
       (trace (run_calls (PostgresSchemaTenants.getClientFor respond)
                         (PostgresSchemaTenants.queryAs respond) calls
                         (World e [] (new_fields secrets id)))) <= 1.
Proof.
  split.
  - apply (one_pool_per_tenant respond); apply database_caches_pools.
  - apply (one_pool_per_tenant respond); apply schema_caches_pools.
Qed.

(** C1, where the code falls short of it. The PgBouncer Tenants roles of
    the Database and Schema strategies look the pool up in [pools] but
    never store it there: two [getClientFor] calls for the same tenant on
    one instance, with no [end] between them, create two pools. The
    plain Database role creates one in the same run. *)
Theorem pgbouncer_tenants_create_a_pool_per_call :
  let twice getClientFor :=
    fst (getClientFor "acme" (fst (getClientFor "acme" session_tenants))) in
  pools_created "acme"
    (trace (twice (PgBouncerDatabaseTenants.getClientFor tenant_world))) = 2
  /\ pools (self (twice (PgBouncerDatabaseTenants.getClientFor tenant_world)))
     = []
  /\ pools_created "acme"
       (trace (twice (PgBouncerSchemaTenants.getClientFor tenant_world))) = 2
  /\ pools (self (twice (PgBouncerSchemaTenants.getClientFor tenant_world)))
     = []
  /\ pools_created "acme"
       (trace (twice (PostgresDatabaseTenants.getClientFor tenant_world))) = 1.
Proof. repeat split; reflexivity. Qed.


(** *** [end] *)

Section End.
Context {E : Type}.
Variable respond : event -> E -> E * response.

Lemma is_ended_cons (pool : handle) (f : fields) :
  is_ended pool (with_ended (pool :: ended f) f) = true.
Proof.
  unfold is_ended. cbn [ended with_ended existsb].
  now rewrite Nat.eqb_refl.
Qed.

Lemma is_ended_mono (pool pool' : handle) (f : fields) :
  is_ended pool f = true ->
  is_ended pool (with_ended (pool' :: ended f) f) = true.
Proof.
  unfold is_ended. cbn [ended with_ended existsb]. intros ->.
  apply orb_true_r.
Qed.

(** [end(tenantId)] on a cached pool that the world lets end. *)
Lemma end_tenant (w : world E fields) (tenantId : string) (pool : handle)
    (e1 : E) (r : response) :
  truthy (Some tenantId) = true ->
  obj_get tenantId (pools (self w)) = Some pool ->
  respond (PoolEnd pool) (env w) = (e1, r) ->
  rejection r = None ->
  end_ respond (Some tenantId) w
  = (World e1 (trace w ++ [PoolEnd pool])
           (with_pools (obj_delete tenantId (pools (self w)))
                       (with_ended (pool :: ended (self w)) (self w))),
     Return tt).
Proof.
  intros Htruthy Hpool Hend Hok. destruct w as [e0 t0 f].
  cbn [env trace self] in *.
  unfold end_. rewrite Htruthy.
  destruct tenantId as [|c s]; [discriminate |]. cbn [or_else].
  unfold end_pool, modify, bind, call, get_self, set_self, ret.
  cbn [env trace self]. rewrite Hpool. cbn [env trace self].
  rewrite Hend, Hok. reflexivity.
Qed.

Lemma end_if_open_spec (pool : handle) (w : world E fields) :
  let run := end_if_open respond pool w in
  pools (self (fst run)) = pools (self w)
  /\ next_handle (self (fst run)) = next_handle (self w)
  /\ (forall t, pools_created t (trace (fst run)) = pools_created t (trace w))
  /\ (forall p, is_ended p (self w) = true -> is_ended p (self (fst run)) = true)
  /\ (snd run = Return tt -> is_ended pool (self (fst run)) = true).
Proof.
  destruct w as [e0 t0 f]. unfold end_if_open, bind, get_self.
  cbn [env trace self].
  destruct (is_ended pool f) eqn:Hended; cbn [negb].
  - cbn. auto.
  - unfold end_pool, modify, bind, call, get_self, set_self, ret.
    answers respond; cbn [fst snd env trace self with_ended pools next_handle];
      repeat split; auto;
      try (intros; rewrite ?pools_created_app; cbn; lia);
      try discriminate.
    + intros p Hp. now apply is_ended_mono.
    + intros _. apply is_ended_cons.
Qed.

Lemma end_loop_spec (l : list handle) (w : world E fields) :
  let run := for_each l (end_if_open respond) w in
  pools (self (fst run)) = pools (self w)
  /\ next_handle (self (fst run)) = next_handle (self w)
  /\ (forall t, pools_created t (trace (fst run)) = pools_created t (trace w))
  /\ (forall p, is_ended p (self w) = true -> is_ended p (self (fst run)) = true)
  /\ (snd run = Return tt ->
      forall p, In p l -> is_ended p (self (fst run)) = true).
Proof.
  revert w. induction l as [|pool l IH]; intros w; cbn [for_each].
  - cbn. repeat split; auto. all: intros _ p [].
  - unfold bind.
    pose proof (end_if_open_spec pool w) as Hone. cbn zeta in Hone.
    destruct (end_if_open respond pool w) as [w1 [[]|err]]; cbn [fst snd] in *.
    + destruct Hone as (Hp1 & Hn1 & Hc1 & Hm1 & He1).
      pose proof (IH w1) as Hrest. cbn zeta in Hrest.
      destruct (for_each l (end_if_open respond) w1) as [w2 o]; cbn [fst snd] in *.
      destruct Hrest as (Hp2 & Hn2 & Hc2 & Hm2 & He2).
      repeat split; try congruence; auto.
      all: try (intros t; rewrite Hc2; apply Hc1).
      all: try (intros Ho p [<- | Hin]; auto).
    + destruct Hone as (Hp1 & Hn1 & Hc1 & Hm1 & _).
      repeat split; auto. discriminate.
Qed.

(** [end()] that has resolved: every entry is still in the map, every
    pool of the map is ended, and no pool was created. *)
Lemma end_all (w w1 : world E fields) :
  end_ respond None w = (w1, Return tt) ->
  pools (self w1) = pools (self w)
  /\ next_handle (self w1) = next_handle (self w)
  /\ (forall t, pools_created t (trace w1) = pools_created t (trace w))
  /\ (forall tenantId pool,
         obj_get tenantId (pools (self w)) = Some pool ->
         is_ended pool (self w1) = true).
Proof.
  intros Hrun. unfold end_ in Hrun. cbn [truthy] in Hrun.
  unfold bind at 1, get_self at 1 in Hrun.
  change (for_each (map snd (pools (self w))) _ w)
    with (for_each (map snd (pools (self w))) (end_if_open respond) w) in Hrun.
  pose proof (end_loop_spec (map snd (pools (self w))) w) as Hloop.
  cbn zeta in Hloop. rewrite Hrun in Hloop. cbn [fst snd] in Hloop.
  destruct Hloop as (Hp & Hn & Hc & _ & He).
  repeat split; auto.
  intros tenantId pool Hget. apply (He eq_refl). now apply obj_get_In in Hget.
Qed.

End End.

(** *** After [end] *)

Section AfterEnd.
Context {E : Type}.
Variable getClientFor : string -> @M E fields handle.
Hypothesis caches :
  forall tenantId w, caches_pools (getClientFor tenantId w) w tenantId.

Lemma reuse_with_entry (tenantId : string) (pool : handle)
    (w : world E fields) :
  obj_get tenantId (pools (self w)) = Some pool ->
  reuses_pool getClientFor tenantId pool w.
Proof.
  intros Hsome w2 o Hrun. pose proof (caches tenantId w) as Hstep.
  unfold caches_pools in Hstep. rewrite Hsome, Hrun in Hstep.
  cbn [fst snd] in Hstep.
  destruct Hstep as (Hself & (added & Htrace & Hnew & Hconnect) & Hclient).
  repeat split.
  - intros t. rewrite Htrace, pools_created_app, Hnew. lia.
  - now rewrite Hself.
  - exists added. auto.
  - exact Hclient.
Qed.

End AfterEnd.

End PoolFacts.

(** ** The key prefix of the Redis ACL strategy *)

Module RedisFacts.
Import JsString Json Effects Core RedisAcl PathFacts PoolFacts.

Lemma obj_get_without (k : string) (l : list (string * json)) :
  obj_get k (without k l) = None.
Proof.
  induction l as [|[k' v] l IH]; cbn [without obj_get]; [reflexivity |].
  destruct (String.eqb k k') eqn:Hk; [exact IH |].
  cbn [obj_get]. now rewrite Hk.
Qed.

(** An instance built by the constructors has no key prefix of its own:
    the prefix of a tenant is [tenant:<tenantId>:]. *)
Lemma constructed_prefix (clientConfig : option (list (string * json)))
    (dangerous : option bool) (custom : bool) (secrets : TenantsSecrets)
    (id : option string) (tenantId : string) :
  buildKeyspacePrefix (new_fields clientConfig dangerous custom secrets id)
                      tenantId
  = ("tenant:" ++ tenantId ++ ":")%string.
Proof.
  unfold buildKeyspacePrefix, new_fields. cbn [config].
  destruct clientConfig as [c|]; [| reflexivity].
  now rewrite obj_get_without.
Qed.

Lemma constructed_pattern (clientConfig : option (list (string * json)))
    (dangerous : option bool) (custom : bool) (secrets : TenantsSecrets)
    (id : option string) (tenantId : string) :
  (buildKeyspacePrefix (new_fields clientConfig dangerous custom secrets id)
                       tenantId ++ "*")%string
  = ("tenant:" ++ tenantId ++ ":*")%string.
Proof.
  rewrite constructed_prefix, !append_assoc. reflexivity.
Qed.

End RedisFacts.

(** ** The auto-setup pass of the RLS strategy *)

Module SetupFacts.
Import JsString Json Sql Effects Core RlsManagement SetupSpec.

Lemma count_events_app (p : event -> bool) (a b : list event) :
  count_events p (a ++ b) = count_events p a + count_events p b.
Proof.
  unfold count_events. now rewrite List.filter_app, List.length_app.
Qed.

Section Tally.
Context {E F : Type}.
Variable respond : event -> E -> E * response.
Variable p : event -> bool.
Local Abbreviation M := (@M E F).

Lemma adds_le {A} (n k : nat) (m : M A) :
  n <= k -> adds p n m -> adds p k m.
Proof.
  intros Hle Hm w. destruct (Hm w) as (added & Ht & Hc & Hs).
  exists added. repeat split; [exact Ht | lia | exact Hs].
Qed.

Lemma adds_ret {A} (a : A) : adds p 0 (ret a : M A).
Proof. intros w. exists []. cbn. now rewrite List.app_nil_r. Qed.

Lemma adds_throw {A} (e : error) : adds p 0 (throw e : M A).
Proof. intros w. exists []. cbn. now rewrite List.app_nil_r. Qed.

Lemma adds_get_self : adds p 0 (get_self : M F).
Proof. intros w. exists []. cbn. now rewrite List.app_nil_r. Qed.

Lemma adds_call (ev : event) :
  adds p (if p ev then 1 else 0) (call respond ev : M response).
Proof.
  intros w. exists [ev]. unfold call.
  destruct (respond ev (env w)) as [e' r].
  destruct (rejection r); cbn [fst trace self];
    (split; [reflexivity | split; [| reflexivity]]);
    unfold count_events; cbn; destruct (p ev); cbn; lia.
Qed.

Lemma adds_call_other (ev : event) :
  p ev = false -> adds p 0 (call respond ev : M response).
Proof. intros H. generalize (adds_call ev). now rewrite H. Qed.

Lemma adds_emit_other (ev : event) :
  p ev = false -> adds p 0 (emit respond ev : M unit).
Proof.
  intros H w. exists [ev]. unfold emit. cbn [fst trace self].
  split; [reflexivity | split; [| reflexivity]].
  unfold count_events. cbn. now rewrite H.
Qed.

Lemma adds_bind {A B} (n k : nat) (m : M A) (f : A -> M B) :
  adds p n m -> (forall a, adds p k (f a)) -> adds p (n + k) (bind m f).
Proof.
  intros Hm Hf w. unfold bind.
  destruct (Hm w) as (a1 & Ht1 & Hc1 & Hs1).
  destruct (m w) as [w1 [a|e]]; cbn [fst] in *.
  - destruct (Hf a w1) as (a2 & Ht2 & Hc2 & Hs2).
    exists (a1 ++ a2). rewrite Ht2, Ht1, Hs2, Hs1, count_events_app.
    rewrite List.app_assoc. repeat split. lia.
  - exists a1. repeat split; [exact Ht1 | lia | exact Hs1].
Qed.

Lemma adds_try_catch {A} (n k : nat) (m : M A) (h : error -> M A) :
  adds p n m -> (forall e, adds p k (h e)) ->
  adds p (n + k) (try_catch m h).
Proof.
  intros Hm Hh w. unfold try_catch.
  destruct (Hm w) as (a1 & Ht1 & Hc1 & Hs1).
  destruct (m w) as [w1 [a|e]]; cbn [fst] in *.
  - exists a1. repeat split; [exact Ht1 | lia | exact Hs1].
  - destruct (Hh e w1) as (a2 & Ht2 & Hc2 & Hs2).
    exists (a1 ++ a2). rewrite Ht2, Ht1, Hs2, Hs1, count_events_app.
    rewrite List.app_assoc. repeat split. lia.
Qed.

Lemma adds_try_finally {A} (n k : nat) (m : M A) (fin : M unit) :
  adds p n m -> adds p k fin -> adds p (n + k) (try_finally m fin).
Proof.
  intros Hm Hf w. unfold try_finally.
  destruct (Hm w) as (a1 & Ht1 & Hc1 & Hs1).
  destruct (m w) as [w1 o]; cbn [fst] in *.
  destruct (Hf w1) as (a2 & Ht2 & Hc2 & Hs2).
  destruct (fin w1) as [w2 [[]|e]]; cbn [fst] in *;
    exists (a1 ++ a2); rewrite Ht2, Ht1, Hs2, Hs1, count_events_app;
    rewrite List.app_assoc; repeat split; lia.
Qed.

Lemma adds_for_each {A} (l : list A) (body : A -> M unit) :
  (forall x, adds p 0 (body x)) -> adds p 0 (for_each l body).
Proof.
  intros Hb. induction l as [|x l IH]; cbn [for_each].
  - apply adds_ret.
  - apply (adds_bind 0 0); [apply Hb | intros _; exact IH].
Qed.

End Tally.

(** A computation that adds no selected event, piece by piece. *)
Ltac silent_step :=
  first
    [ apply adds_ret | apply adds_throw | apply adds_get_self
    | apply adds_call_other; reflexivity
    | apply adds_emit_other; reflexivity
    | apply (adds_bind _ 0 0)
    | apply (adds_try_catch _ 0 0)
    | apply (adds_try_finally _ 0 0)
    | apply adds_for_each
    | match goal with
      | |- forall _, _ => intro
      | |- adds _ _ (if ?b then _ else _) => destruct b
      | |- adds _ _ (match ?x with _ => _ end) => destruct x
      end ].

Ltac silent := repeat silent_step.

Section Pass.
Context {E : Type}.
Variable respond : event -> E -> E * response.

Local Ltac open_setup :=
  unfold setup, setup_table, getCleanClient, isRoleCreated, createRole,
    grantOverRole,
    getTableSequences, enableRlsOverTable, createPoliciesOverTable,
    isPolicyCreated, query, release, console.

Lemma getCleanClient_silent (p : event -> bool) :
  p = is_discovery \/ p = is_setup_begin ->
  adds p 0 (getCleanClient respond).
Proof.
  intros [Hp|Hp]; subst p; unfold getCleanClient, query, release; silent.
Qed.

Lemma setup_no_discovery (l : option (list Table)) :
  adds is_discovery 0 (setup respond l).
Proof. open_setup. silent. Qed.

Lemma setup_one_begin (l : option (list Table)) :
  adds is_setup_begin 1 (setup respond l).
Proof.
  unfold setup.
  apply (adds_bind _ 0 1); [apply adds_get_self | intros f].
  destruct (match l with Some l0 => Some l0 | None => tables f end)
    as [[|table tableList]|];
    try solve [apply (adds_le _ 0 1); [lia |]; unfold console; silent].
  apply (adds_bind _ 0 1);
    [unfold getCleanClient, query, release; silent | intros client].
  apply (adds_try_finally _ 1 0); [| unfold release; silent].
  apply (adds_try_catch _ 1 0); [| unfold query; silent].
  apply (adds_bind _ 0 1); [unfold query; silent | intros r].
  apply (adds_bind _ 0 1); [silent | intros currentSchema].
  apply (adds_bind _ 1 0); [apply (adds_call respond) |].
  open_setup. silent.
Qed.

(** Once the pass is disabled a call does nothing and returns
    [false]. *)
Lemma createTenant_disabled (id : string) (w : world E fields) :
  autoSetup (self w) = false ->
  createTenant respond id w = (w, Return false).
Proof.
  intros H. unfold createTenant, bind, get_self. now rewrite H.
Qed.

(** A call that returns leaves the pass disabled. *)
Lemma createTenant_returns (id : string) (w : world E fields) (b : bool) :
  snd (createTenant respond id w) = Return b ->
  autoSetup (self (fst (createTenant respond id w))) = false.
Proof.
  destruct (autoSetup (self w)) eqn:Hflag.
  2: { rewrite (createTenant_disabled id w Hflag). intros _. exact Hflag. }
  destruct (createTenant respond id w) as [w' o] eqn:Hrun.
  unfold createTenant in Hrun. unfold bind at 1 in Hrun.
  unfold get_self at 1 in Hrun. rewrite Hflag in Hrun.
  unfold bind at 1 in Hrun.
  destruct (getCleanClient respond w) as [w1 [client|e]].
  2: { inversion Hrun; subst. discriminate. }
  unfold try_finally in Hrun.
  match type of Hrun with context [match ?body w1 with _ => _ end] =>
    destruct (body w1) as [w2 o2] end.
  unfold bind, get_self, set_self, release, emit in Hrun.
  cbn in Hrun. inversion Hrun; subst. intros _. reflexivity.
Qed.

Lemma createTenant_pass_state (p : event -> bool) (n0 : nat) (id : string)
    (w : world E fields) :
  p = is_discovery \/ p = is_setup_begin ->
  pass_state p n0 w -> pass_state p n0 (fst (createTenant respond id w)).
Proof.
  intros Hp Hw.
  destruct (autoSetup (self w)) eqn:Hflag.
  2: { now rewrite (createTenant_disabled id w Hflag). }
  destruct Hw as [[_ Hn]|[Hoff _]]; [| congruence].
  unfold createTenant. unfold bind at 1, get_self. rewrite Hflag.
  unfold bind at 1.
  destruct (getCleanClient_silent p Hp w) as (a1 & Ht1 & Hc1 & Hs1).
  destruct (getCleanClient respond w) as [w1 [client|e]]; cbn [fst] in *.
  - right. unfold try_finally.
    match goal with |- context [match ?body w1 with _ => _ end] =>
      assert (Hbody : adds p 1 body) end.
    { destruct Hp; subst p.
      - apply (adds_bind _ 1 0).
        + unfold getMultitenantTablesWithoutRls, query.
          apply (adds_bind _ 0 1); [apply adds_get_self | intros f].
          apply (adds_bind _ 1 0); [apply (adds_call respond) | silent].
        + intros l. unfold console.
          repeat first [apply setup_no_discovery | silent_step].
      - apply (adds_bind _ 0 1).
        + unfold getMultitenantTablesWithoutRls, query. silent.
        + intros l. unfold console.
          pose proof setup_one_begin as Hsetup.
          repeat match goal with
            | |- adds _ _ (if ?b then _ else _) => destruct b
            | |- adds _ _ (match ?x with _ => _ end) => destruct x
            end;
            try solve [apply (adds_le _ 0 1); [lia |]; silent].
          all: apply (adds_bind _ 0 1); [silent | intros _].
          all: apply (adds_bind _ 1 0); [apply Hsetup | silent]. }
    match goal with |- context [match ?body w1 with _ => _ end] =>
      destruct (Hbody w1) as (a2 & Ht2 & Hc2 & Hs2);
      destruct (body w1) as [w2 o2] end.
    cbn [fst] in *.
    unfold bind, get_self, set_self, release, emit. cbn.
    assert (Hr : p (Release client) = false) by (destruct Hp; now subst p).
    assert (Hlast : count_events p [Release client] = 0)
      by (unfold count_events; cbn; now rewrite Hr).
    split; [reflexivity |].
    change (count_events p (trace w2 ++ [Release client]) <= n0 + 1).
    rewrite Ht2, Ht1, !count_events_app. lia.
  - left. rewrite Hs1, Ht1, count_events_app. split; [exact Hflag | lia].
Qed.

Lemma create_tenants_pass_state (p : event -> bool) (n0 : nat)
    (ids : list string) (w : world E fields) :
  p = is_discovery \/ p = is_setup_begin ->
  pass_state p n0 w -> pass_state p n0 (create_tenants respond ids w).
Proof.
  intros Hp. revert w.
  induction ids as [|id ids IH]; intros w Hw; cbn [create_tenants].
  - exact Hw.
  - apply IH. now apply createTenant_pass_state.
Qed.

Lemma create_tenants_disabled (ids : list string) (w : world E fields) :
  autoSetup (self w) = false -> create_tenants respond ids w = w.
Proof.
  intros Hoff. induction ids as [|id ids IH]; cbn [create_tenants].
  - reflexivity.
  - now rewrite (createTenant_disabled id w Hoff).
Qed.

Lemma pass_state_bound (p : event -> bool) (w w' : world E fields) :
  pass_state p (count_events p (trace w)) w' ->
  count_events p (trace w') <= count_events p (trace w) + 1.
Proof. intros [[_ H]|[_ H]]; lia. Qed.

Lemma pass_state_start (p : event -> bool) (w : world E fields) :
  pass_state p (count_events p (trace w)) w.
Proof.
  destruct (autoSetup (self w)) eqn:H; [left | right]; split;
    try exact H; lia.
Qed.

End Pass.

(** C8, amended. Over any number of [createTenant] calls on one RLS
    management instance, each made after the one before has ended, and
    whatever the database answers: the catalog query of the
    auto-discovery pass is sent at most once and [setup] opens at most
    one transaction; a call that returns leaves [autoSetup] false; and
    once [autoSetup] is false every call returns [false] and does
    nothing at all. *)
Theorem autoSetup_runs_at_most_once (E : Type)
    (respond : event -> E -> E * response) (w : world E fields)
    (ids : list string) :
  let w' := create_tenants respond ids w in
  count_events is_discovery (trace w')
    <= count_events is_discovery (trace w) + 1
  /\ count_events is_setup_begin (trace w')
     <= count_events is_setup_begin (trace w) + 1
  /\ (forall id b,
        snd (createTenant respond id w') = Return b ->
        autoSetup (self (fst (createTenant respond id w'))) = false)
  /\ (autoSetup (self w') = false ->
      forall id later,
        createTenant respond id w' = (w', Return false)
        /\ create_tenants respond later w' = w').
Proof.
  intros w'. subst w'.
  split; [| split; [| split]].
  - apply pass_state_bound, create_tenants_pass_state;
      [now left | apply pass_state_start].
  - apply pass_state_bound, create_tenants_pass_state;
      [now right | apply pass_state_start].
  - intros id b. apply createTenant_returns.
  - intros Hoff id later. split.
    + now apply createTenant_disabled.
    + now apply create_tenants_disabled.
Qed.

End SetupFacts.

(** ** Policy conflicts of the RLS setup *)

Module PolicyFacts.
Import JsString Json Sql Effects Core PostgresBase RlsManagement PolicySpec.

Section Generic.
Context {E : Type}.
Variable respond : event -> E -> E * response.

(** Whatever the database is: when the catalog lists a policy named
    [tenant_isolation] on the table, [createPoliciesOverTable] throws the
    conflict error and has sent nothing but the lookup. *)
Lemma existing_isolation_policy (client : handle) (table : Table)
    (schema : string) (w : world E fields) :
  let lookup :=
    Query client (SelectPolicy schema (name table) "tenant_isolation") in
  rejection (snd (respond lookup (env w))) = None ->
  rows_of (snd (respond lookup (env w))) <> [] ->
  createPoliciesOverTable respond client table schema w
  = (World (fst (respond lookup (env w))) (trace w ++ [lookup]) (self w),
     Throw (policy_conflict "tenant_isolation" schema (name table))).
Proof.
  intros lookup Hok Hrows.
  unfold createPoliciesOverTable, isPolicyCreated, query, bind, get_self,
    call, ret, throw.
  fold lookup. destruct (respond lookup (env w)) as [e1 r1].
  cbn [fst snd] in *. rewrite Hok.
  destruct (rows_of r1); [congruence | reflexivity].
Qed.

(** The same for [tenant_insert], looked up after [tenant_isolation] was
    created: the insert policy is not created. *)
Lemma existing_insert_policy (client : handle) (table : Table)
    (schema : string) (w : world E fields) (e1 e2 e3 : E)
    (r1 r2 r3 : response) :
  let column := or_else (tenantIdColumn table) (tenantColumn (self w)) in
  let lookup :=
    Query client (SelectPolicy schema (name table) "tenant_isolation") in
  let create :=
    Query client (CreateUsingPolicy schema (name table) column) in
  let lookup' :=
    Query client (SelectPolicy schema (name table) "tenant_insert") in
  respond lookup (env w) = (e1, r1) ->
  rejection r1 = None -> rows_of r1 = [] ->
  respond create e1 = (e2, r2) -> rejection r2 = None ->
  respond lookup' e2 = (e3, r3) ->
  rejection r3 = None -> rows_of r3 <> [] ->
  createPoliciesOverTable respond client table schema w
  = (World e3 (trace w ++ [lookup; create; lookup']) (self w),
     Throw (policy_conflict "tenant_insert" schema (name table))).
Proof.
  cbv zeta. intros H1 Hok1 Hrows1 H2 Hok2 H3 Hok3 Hrows3.
  unfold createPoliciesOverTable, isPolicyCreated, query, bind, get_self,
    call, ret, throw.
  rewrite H1. cbn [fst snd env trace self].
  rewrite Hok1, Hrows1. cbn [List.length Nat.ltb Nat.leb env trace self].
  rewrite H2, Hok2. cbn [env trace self].
  rewrite H3, Hok3.
  destruct (rows_of r3); [congruence |].
  cbn [List.length Nat.ltb Nat.leb]. rewrite <- !List.app_assoc. reflexivity.
Qed.

End Generic.

Section Postgres.
Variable sequences : string -> string -> list row.
Local Abbreviation pg := (postgres sequences).

Lemma has_policy_add (q : policy) (db : database) (s t p : string) :
  has_policy (add_policy q db) s t p
  = same_policy (s, t, p) q || has_policy db s t p.
Proof. reflexivity. Qed.

Lemma same_policy_refl (s t p : string) :
  same_policy (s, t, p) (s, t, p) = true.
Proof. cbn. now rewrite !String.eqb_refl. Qed.

Lemma same_policy_names (s t p s' t' p' : string) :
  String.eqb p p' = false -> same_policy (s, t, p) (s', t', p') = false.
Proof. intros H. cbn. rewrite H. now rewrite andb_false_r. Qed.

(** A loop whose body only sends a call that the world accepts
    without changing. *)
Lemma for_each_events {A : Type} (g : A -> event)
    (body : A -> @M database fields unit) (l : list A)
    (w : world database fields) :
  (forall x w, body x w
               = (World (env w) (trace w ++ [g x]) (self w), Return tt)) ->
  for_each l body w
  = (World (env w) (trace w ++ map g l) (self w), Return tt).
Proof.
  intros Hbody. revert w.
  induction l as [|x l IH]; intros w; cbn [for_each map].
  - rewrite List.app_nil_r. now destruct w.
  - unfold bind. rewrite Hbody, IH. cbn [env trace self].
    now rewrite <- List.app_assoc.
Qed.

Local Ltac run_postgres :=
  unfold bind, call, emit, ret, throw, get_self, try_catch, try_finally;
  cbn [postgres env trace self rejection rows_of fst snd].

(** What [setup] does for one table, by the policies the table has. *)
Lemma setup_table_run (client : handle) (table : Table) (db : database)
    (t : list event) (f : fields) :
  let S := table_schema db table in
  let N := name table in
  exists t',
    setup_table pg client (Some (db_schema db)) table (World db t f)
    = if has_policy db S N "tenant_isolation" then
        (World db t' f, Throw (policy_conflict "tenant_isolation" S N))
      else if has_policy db S N "tenant_insert" then
        (World (add_policy (S, N, "tenant_isolation") db) t' f,
         Throw (policy_conflict "tenant_insert" S N))
      else
        (World (add_policy (S, N, "tenant_insert")
                  (add_policy (S, N, "tenant_isolation") db)) t' f,
         Return tt).
Proof.
  intros S N.
  unfold setup_table, grantOverRole, getTableSequences, enableRlsOverTable,
    createPoliciesOverTable, isPolicyCreated, query.
  fold (table_schema db table). fold S N.
  run_postgres.
  rewrite (for_each_events
             (fun row => Query client
                (GrantSequence (template (text_column "sequence_name" row)))))
    by reflexivity.
  cbn [env trace self].
  destruct (has_policy db S N "tenant_isolation") eqn:Hiso;
    cbn [List.length Nat.ltb Nat.leb rejection env trace self].
  { eexists. reflexivity. }
  rewrite Hiso. cbn [rejection env trace self].
  rewrite has_policy_add, same_policy_names by reflexivity.
  cbn [orb].
  destruct (has_policy db S N "tenant_insert") eqn:Hins;
    cbn [List.length Nat.ltb Nat.leb rejection env trace self].
  { eexists. reflexivity. }
  rewrite has_policy_add, same_policy_names, Hins by reflexivity.
  cbn [orb rejection env trace self]. eexists. reflexivity.
Qed.

Lemma setup_table_spec (client : handle) (table : Table) (db : database)
    (t : list event) (f : fields) :
  exists db' t',
    fst (setup_table pg client (Some (db_schema db)) table (World db t f))
    = World db' t' f
    /\ db_saved db' = db_saved db /\ db_schema db' = db_schema db
    /\ (forall s n p,
          has_policy db s n p = true -> has_policy db' s n p = true)
    /\ match snd (setup_table pg client (Some (db_schema db)) table
                    (World db t f)) with
       | Return _ =>
           has_tenant_policy db table = false
           /\ has_tenant_policy db' table = true
       | Throw e => is_policy_conflict db [table] (Throw e)
       end.
Proof.
  destruct (setup_table_run client table db t f) as [t' Hrun].
  cbv zeta in Hrun. rewrite Hrun. unfold has_tenant_policy.
  set (S := table_schema db table) in *. set (N := name table) in *.
  assert (Hsame : forall db', db_schema db' = db_schema db ->
                              table_schema db' table = S).
  { intros db' H. unfold S, table_schema. now rewrite H. }
  destruct (has_policy db S N "tenant_isolation") eqn:Hiso;
    [| destruct (has_policy db S N "tenant_insert") eqn:Hins];
    eexists; exists t'; cbn [fst snd];
    (split; [reflexivity |]); (split; [reflexivity |]);
    (split; [reflexivity |]).
  - split; [tauto |]. exists table, "tenant_isolation".
    cbn [In]. fold S N. tauto.
  - split.
    + intros s n p H. rewrite has_policy_add, H. apply orb_true_r.
    + exists table, "tenant_insert". cbn [In]. fold S N. tauto.
  - split.
    + intros s n p H. rewrite !has_policy_add, H. now rewrite !orb_true_r.
    + split; [reflexivity |].
      rewrite Hsame by reflexivity.
      rewrite !has_policy_add, !same_policy_refl.
      now rewrite !orb_true_r.
Qed.


Lemma table_schema_same (db db' : database) (table : Table) :
  db_schema db' = db_schema db -> table_schema db' table = table_schema db table.
Proof. intros H. unfold table_schema. now rewrite H. Qed.

Lemma has_tenant_policy_mono (db db' : database) (table : Table) :
  db_schema db' = db_schema db ->
  (forall s n p, has_policy db s n p = true -> has_policy db' s n p = true) ->
  has_tenant_policy db table = true -> has_tenant_policy db' table = true.
Proof.
  intros Hs Hmono. unfold has_tenant_policy.
  rewrite (table_schema_same db db' table Hs).
  intros H. apply orb_true_iff in H. apply orb_true_iff.
  destruct H as [H|H]; [left | right]; now apply Hmono.
Qed.

Lemma is_policy_conflict_same (db db' : database) (l l' : list Table)
    (o : outcome unit) :
  db_schema db' = db_schema db -> (forall x, In x l' -> In x l) ->
  is_policy_conflict db' l' o -> is_policy_conflict db l o.
Proof.
  intros Hs Hin (table & p & Ht & Hp & Ho).
  exists table, p. rewrite <- (table_schema_same db db' table Hs).
  auto.
Qed.

(** The loop of [setup] inside its transaction: it returns only when
    no table of the list had one of the two policies, and then each has
    them; otherwise it throws the conflict error. Policies are never
    removed. *)
Lemma setup_loop_spec (client : handle) (l : list Table) :
  forall (db : database) (t : list event) (f : fields),
  exists db' t',
    fst (for_each l (setup_table pg client (Some (db_schema db)))
           (World db t f))
    = World db' t' f
    /\ db_saved db' = db_saved db /\ db_schema db' = db_schema db
    /\ (forall s n p,
          has_policy db s n p = true -> has_policy db' s n p = true)
    /\ match snd (for_each l (setup_table pg client (Some (db_schema db)))
                    (World db t f)) with
       | Return _ =>
           forall table, In table l ->
             has_tenant_policy db table = false
             /\ has_tenant_policy db' table = true
       | Throw e => is_policy_conflict db l (Throw e)
       end.
Proof.
  induction l as [|x l IH]; intros db t f; cbn [for_each].
  - exists db, t. cbn [ret fst snd].
    do 3 (split; [reflexivity |]). split; [auto |]. intros x [].
  - unfold bind.
    destruct (setup_table_spec client x db t f)
      as (db1 & t1 & Hw1 & Hsaved1 & Hschema1 & Hmono1 & Hout1).
    destruct (setup_table pg client (Some (db_schema db)) x (World db t f))
      as [w1 [[]|e]]; cbn [fst snd] in *; subst w1.
    + rewrite <- Hschema1.
      destruct (IH db1 t1 f)
        as (db2 & t2 & Hw2 & Hsaved2 & Hschema2 & Hmono2 & Hout2).
      exists db2, t2.
      split; [exact Hw2 |]. split; [congruence |]. split; [congruence |].
      split; [auto |].
      destruct (snd (for_each l (setup_table pg client (Some (db_schema db1)))
                       (World db1 t1 f))) as [[]|e].
      * intros table [Hx|Hin].
        -- subst table. split; [tauto |].
           apply (has_tenant_policy_mono db1 db2 x Hschema2 Hmono2), Hout1.
        -- destruct (Hout2 table Hin) as [Hnone Hall]. split; [| exact Hall].
           destruct (has_tenant_policy db table) eqn:Hhas; [| reflexivity].
           rewrite (has_tenant_policy_mono db db1 table Hschema1 Hmono1 Hhas)
             in Hnone.
           discriminate.
      * apply (is_policy_conflict_same db db1 (x :: l) l);
          [exact Hschema1 | intros y Hy; now right | exact Hout2].
    + exists db1, t1. do 4 (split; [auto |]).
      apply (is_policy_conflict_same db db (x :: l) [x]);
        [reflexivity | | exact Hout1].
      intros y [Hy|[]]. now left.
Qed.

Lemma setup_spec (x : Table) (l : list Table) (db : database)
    (t : list event) (f : fields) :
  db_saved db = None ->
  exists db' t' o,
    setup pg (Some (x :: l)) (World db t f) = (World db' t' f, o)
    /\ match o with
       | Return _ =>
           db_saved db' = None /\ db_schema db' = db_schema db
           /\ forall table, In table (x :: l) ->
                has_tenant_policy db table = false
                /\ has_tenant_policy db' table = true
       | Throw e => is_policy_conflict db (x :: l) (Throw e) /\ db' = db
       end.
Proof.
  intros Hsaved.
  unfold setup, getCleanClient, isRoleCreated, createRole, query, release,
    console.
  run_postgres.
  change (text_column "current_schema"
            [("current_schema", VText (db_schema db))])
    with (Some (db_schema db)).
  unfold begin. rewrite Hsaved.
  unfold has_role. cbn [db_roles].
  set (saved := Some (db_roles db, db_policies db)).
  destruct (existsb (String.eqb DEFAULT_ROLE) (db_roles db)) eqn:Hrole;
    cbn [List.length Nat.eqb negb env trace self db_roles];
    rewrite ?Hrole; cbn [rejection env trace self].
  all: match goal with
       | |- context [for_each _ _ (World ?db0 ?t0 _)] =>
           destruct (setup_loop_spec (pool f) (x :: l) db0 t0 f)
             as (db1 & t1 & Hw1 & Hsaved1 & Hschema1 & Hmono1 & Hout1);
           change (db_schema db0) with (db_schema db) in *;
           destruct (for_each (x :: l)
                       (setup_table pg (pool f) (Some (db_schema db)))
                       (World db0 t0 f)) as [w1 [[]|e]];
           cbn [fst snd] in *; subst w1; cbn [env trace self]
       end.
  all: eexists; eexists; eexists; (split; [reflexivity |]).
  all: cbn [db_saved add_role] in Hsaved1.
  1, 3: split; [reflexivity |]; split; [exact Hschema1 |];
    intros table Hin; destruct (Hout1 table Hin) as [Hnone Hall];
    split; [exact Hnone | exact Hall].
  all: split; [exact Hout1 |]; unfold rollback; rewrite Hsaved1;
    subst saved; rewrite Hschema1; destruct db; cbn in *; subst;
    reflexivity.
Qed.

(** The table list [setup] works on: [tables || this.options.tables]. *)
Lemma setup_tables (tables_arg : option (list Table)) (l : list Table)
    (w : world database fields) :
  match tables_arg with Some l => Some l | None => tables (self w) end
  = Some l ->
  setup pg tables_arg w = setup pg (Some l) w.
Proof.
  intros H. unfold setup. unfold bind at 1 3, get_self.
  now rewrite H.
Qed.


End Postgres.

(** C5. [setup] against a Postgres database, on a connection with no
    open transaction and a table list that is not empty. If a table of
    the list already has a policy named [tenant_isolation] or
    [tenant_insert], [setup] throws the policy conflict error and leaves
    the database as it was: nothing is overwritten or added. And when a
    first [setup] returned, every table of the list has its policies
    and a second [setup] on the same list throws the policy conflict
    error, leaving the database as the first call left it. *)
Theorem setup_raises_policy_conflict
    (sequences : string -> string -> list row) (db : database)
    (t : list event) (f : fields) (tables_arg : option (list Table))
    (tableList : list Table) :
  db_saved db = None ->
  match tables_arg with Some l => Some l | None => tables f end
  = Some tableList ->
  (0 < List.length tableList)%nat ->
  let first := setup (postgres sequences) tables_arg (World db t f) in
  let second := setup (postgres sequences) tables_arg (fst first) in
  ((exists table,
       In table tableList /\ has_tenant_policy db table = true) ->
   is_policy_conflict db tableList (snd first) /\ env (fst first) = db)
  /\ (snd first = Return tt ->
      (forall table, In table tableList ->
         has_tenant_policy (env (fst first)) table = true)
      /\ is_policy_conflict db tableList (snd second)
      /\ env (fst second) = env (fst first)).
Proof.
  intros Hsaved Htables Hlen first second. subst first second.
  destruct tableList as [|x l]; [cbn in Hlen; lia |].
  rewrite (setup_tables sequences tables_arg (x :: l) (World db t f) Htables).
  destruct (setup_spec sequences x l db t f Hsaved)
    as (db1 & t1 & o1 & Hrun1 & Hout1).
  rewrite Hrun1. cbn [fst snd env].
  rewrite (setup_tables sequences tables_arg (x :: l) (World db1 t1 f) Htables).
  split.
  - intros (table & Hin & Hhas).
    destruct o1 as [[]|e]; [| exact Hout1].
    destruct Hout1 as (_ & _ & Hall).
    destruct (Hall table Hin) as [Hnone _]. congruence.
  - intros Ho. subst o1. destruct Hout1 as (Hsaved1 & Hschema1 & Hall).
    split; [intros table Hin; now destruct (Hall table Hin) |].
    destruct (setup_spec sequences x l db1 t1 f Hsaved1)
      as (db2 & t2 & o2 & Hrun2 & Hout2).
    rewrite Hrun2. cbn [fst snd env].
    destruct o2 as [[]|e].
    + destruct Hout2 as (_ & _ & Hall2).
      destruct (Hall2 x (or_introl eq_refl)) as [Hnone _].
      destruct (Hall x (or_introl eq_refl)) as [_ Hhas]. congruence.
    + destruct Hout2 as [Hconflict Hsame]. split; [| exact Hsame].
      apply (is_policy_conflict_same db db1 (x :: l) (x :: l));
        [exact Hschema1 | auto | exact Hconflict].
Qed.

Lemma setup_raises_policy_conflict_witness :
  let first :=
    setup (postgres no_sequences) None
      (World empty_database [] sample_management) in
  let second := setup (postgres no_sequences) None (fst first) in
  snd first = Return tt
  /\ (forall table, In table sample_tables ->
        has_tenant_policy (env (fst first)) table = true)
  /\ is_policy_conflict empty_database sample_tables (snd second)
  /\ env (fst second) = env (fst first).
Proof.
  split; [vm_compute; reflexivity |].
  apply (setup_raises_policy_conflict no_sequences empty_database []
           sample_management None sample_tables);
    [reflexivity | reflexivity | cbn; lia | vm_compute; reflexivity].
Defined.

(** The second call of the sample, computed: the conflict is the one of
    the first table of the list, and the policies are the four of the
    first call. *)
Example setup_twice :
  let first :=
    setup (postgres no_sequences) None
      (World empty_database [] sample_management) in
  let second := setup (postgres no_sequences) None (fst first) in
  snd second = Throw (policy_conflict "tenant_isolation" "public" "todos")
  /\ db_policies (env (fst second))
     = [("app", "users", "tenant_insert");
        ("app", "users", "tenant_isolation");
        ("public", "todos", "tenant_insert");
        ("public", "todos", "tenant_isolation")].
Proof. vm_compute. split; reflexivity. Qed.

End PolicyFacts.

(** ** Tenant ids inside SQL commands *)

Module InjectionFacts.
Import JsString Json Sql Effects Core PostgresBase InjectionSpec.

Lemma scan_app (a b : string) :
  forall m, scan m (a ++ b) = emitted m a ++ scan (run m a) b.
Proof.
  induction a as [|c a IH]; intros m; cbn [append scan emitted run].
  - reflexivity.
  - now rewrite IH, List.app_assoc.
Qed.

Lemma run_app (a b : string) : forall m, run m (a ++ b) = run (run m a) b.
Proof.
  induction a as [|c a IH]; intros m; cbn [append run]; [reflexivity |].
  apply IH.
Qed.

Lemma emitted_app (a b : string) :
  forall m, emitted m (a ++ b) = emitted m a ++ emitted (run m a) b.
Proof.
  induction a as [|c a IH]; intros m; cbn [append emitted run].
  - reflexivity.
  - now rewrite IH, List.app_assoc.
Qed.

Lemma has_char_app (c : ascii) (a b : string) :
  has_char c (a ++ b) = has_char c a || has_char c b.
Proof.
  induction a as [|d a IH]; cbn [append has_char]; [reflexivity |].
  now rewrite IH, orb_assoc.
Qed.

Lemma plain_app (a b : string) : plain (a ++ b) = plain a && plain b.
Proof.
  unfold plain. rewrite !has_char_app.
  destruct (has_char "'" a), (has_char "'" b), (has_char dquote a),
    (has_char dquote b); reflexivity.
Qed.

Lemma plain_cons (c : ascii) (s : string) :
  plain (String c s) = true ->
  Ascii.eqb c "'" = false /\ Ascii.eqb c dquote = false /\ plain s = true.
Proof.
  unfold plain. cbn [has_char].
  rewrite (Ascii.eqb_sym c "'"), (Ascii.eqb_sym c dquote).
  destruct (Ascii.eqb "'" c), (Ascii.eqb dquote c), (has_char "'" s),
    (has_char dquote s); cbn; try discriminate; auto.
Qed.

(** Inside a string literal or a quoted identifier a plain text is
    passed over. *)
Lemma literal_plain (s : string) :
  plain s = true -> run Literal s = Literal /\ emitted Literal s = [].
Proof.
  induction s as [|c s IH]; intros H; cbn [run emitted step]; [auto |].
  destruct (plain_cons c s H) as (Hq & _ & Hs).
  rewrite Hq. cbn [fst snd List.app]. auto.
Qed.

Lemma quoted_plain (s : string) :
  plain s = true -> run Quoted s = Quoted /\ emitted Quoted s = [].
Proof.
  induction s as [|c s IH]; intros H; cbn [run emitted step]; [auto |].
  destruct (plain_cons c s H) as (_ & Hq & Hs).
  rewrite Hq. cbn [fst snd List.app]. auto.
Qed.

Lemma run_squoted (s : string) :
  plain s = true -> run Code (squoted s) = LiteralQuote.
Proof.
  intros H. unfold squoted. cbn [append run step code_step Ascii.eqb].
  cbn. rewrite run_app. now rewrite (proj1 (literal_plain s H)).
Qed.

Lemma emitted_squoted (s : string) :
  plain s = true -> emitted Code (squoted s) = [].
Proof.
  intros H. unfold squoted. cbn. rewrite emitted_app.
  rewrite (proj2 (literal_plain s H)), (proj1 (literal_plain s H)).
  reflexivity.
Qed.

Lemma run_dquoted (s : string) :
  plain s = true -> run Code (dquoted s) = QuotedQuote.
Proof.
  intros H. unfold dquoted. cbn. rewrite run_app.
  now rewrite (proj1 (quoted_plain s H)).
Qed.

Lemma emitted_dquoted (s : string) :
  plain s = true -> emitted Code (dquoted s) = [].
Proof.
  intros H. unfold dquoted. cbn. rewrite emitted_app.
  rewrite (proj2 (quoted_plain s H)), (proj1 (quoted_plain s H)).
  reflexivity.
Qed.

Lemma scan_squoted (s : string) :
  plain s = true -> scan Code (squoted s) = [StringLiteral].
Proof.
  intros H. unfold squoted. cbn. rewrite scan_app.
  rewrite (proj2 (literal_plain s H)), (proj1 (literal_plain s H)).
  reflexivity.
Qed.

Lemma scan_dquoted (s : string) :
  plain s = true -> scan Code (dquoted s) = [QuotedIdentifier].
Proof.
  intros H. unfold dquoted. cbn. rewrite scan_app.
  rewrite (proj2 (quoted_plain s H)), (proj1 (quoted_plain s H)).
  reflexivity.
Qed.

Lemma bare_cons (c : ascii) (s : string) :
  bare (String c s) = true -> code_step c = ([Char c], Code) /\ bare s = true.
Proof.
  unfold bare, plain, code_step. cbn [has_char].
  rewrite (Ascii.eqb_sym c "'"), (Ascii.eqb_sym c dquote),
    (Ascii.eqb_sym c "-").
  destruct (Ascii.eqb "'" c), (Ascii.eqb dquote c), (Ascii.eqb "-" c),
    (has_char "'" s), (has_char dquote s), (has_char "-" s);
    cbn; try discriminate; auto.
Qed.

Lemma run_bare (s : string) : bare s = true -> run Code s = Code.
Proof.
  induction s as [|c s IH]; intros H; cbn [run step]; [reflexivity |].
  destruct (bare_cons c s H) as [Hc Hs]. rewrite Hc. cbn [snd]. auto.
Qed.

Lemma plain_role (tenantId : string) :
  plain tenantId = true ->
  plain (generateDefaultTenantRoleName tenantId None) = true.
Proof.
  intros H. unfold generateDefaultTenantRoleName. cbn [truthy].
  now rewrite plain_app, H.
Qed.

Lemma plain_both (a b : string) :
  plain a = true -> plain b = true -> plain (a ++ b) = true.
Proof. intros Ha Hb. now rewrite plain_app, Ha, Hb. Qed.

Lemma scan_finish (s : string) :
  forall m, scan m s = emitted m s ++ finish (run m s).
Proof.
  induction s as [|c s IH]; intros m; cbn [scan emitted run];
    [reflexivity |].
  now rewrite IH, List.app_assoc.
Qed.

Lemma interp_app (a b : list item) : interp (a ++ b) = interp a ++ interp b.
Proof.
  induction a as [|[t|s] a IH]; cbn [List.app interp]; [reflexivity | |].
  - now rewrite IH.
  - now rewrite IH, List.app_assoc.
Qed.

Lemma interp_tokens (l : list token) : interp (map Tok l) = l.
Proof. induction l as [|t l IH]; cbn; [reflexivity | now rewrite IH]. Qed.

Lemma walk_sound (t : text) :
  forall m items m',
    walk m t = Some (items, m') -> sound t ->
    run m (denote t) = m' /\ emitted m (denote t) = interp items.
Proof.
  induction t as [s|s|s|s|a IHa b IHb]; intros m items m' Hwalk Hsound;
    cbn [walk denote sound] in *.
  - inversion Hwalk; subst. now rewrite interp_tokens.
  - destruct m; try discriminate. inversion Hwalk; subst.
    now rewrite run_squoted, emitted_squoted.
  - destruct m; try discriminate. inversion Hwalk; subst.
    now rewrite run_dquoted, emitted_dquoted.
  - destruct m; try discriminate. inversion Hwalk; subst.
    rewrite run_bare by exact Hsound. cbn [interp].
    now rewrite List.app_nil_r.
  - destruct Hsound as [Ha Hb].
    destruct (walk m a) as [[ia m1]|] eqn:Hwa; [| discriminate].
    destruct (walk m1 b) as [[ib m2]|] eqn:Hwb; [| discriminate].
    inversion Hwalk; subst.
    destruct (IHa m ia m1 Hwa Ha) as [Hra Hea].
    destruct (IHb m1 ib m' Hwb Hb) as [Hrb Heb].
    now rewrite run_app, emitted_app, interp_app, Hra, Hrb, Hea, Heb.
Qed.

Lemma shape_walk (t : text) (items : list item) (m' : mode) :
  walk Code t = Some (items, m') -> sound t ->
  shape (denote t) = interp items ++ finish m'.
Proof.
  intros Hwalk Hsound. unfold shape. rewrite scan_finish.
  destruct (walk_sound t Code items m' Hwalk Hsound) as [Hr He].
  now rewrite Hr, He.
Qed.

Create HintDb quoting.
#[local] Hint Resolve plain_role plain_both : quoting.

Ltac quoting_side := solve [reflexivity | eauto with quoting].

(** The parts of a command text. *)
Ltac reify s :=
  lazymatch s with
  | append ?a ?b =>
      let a' := reify a in
      let b' := reify b in
      constr:(App a' b')
  | squoted ?x => constr:(SQ x)
  | dquoted ?x => constr:(DQ x)
  | _ =>
      match s with
      | context [?v] =>
          let _ := match goal with _ => is_var v end in
          constr:(Bare s)
      | _ => constr:(Lit s)
      end
  end.

(** Replaces the shape of a command by the scan of its template. *)
Ltac template_shape s :=
  let t := reify s in
  let w := eval vm_compute in (walk Code t) in
  lazymatch w with
  | Some (?items, ?m') =>
      let H := fresh "H" in
      assert (H : shape s = interp items ++ finish m')
        by (apply (shape_walk t items m');
            [vm_compute; reflexivity
            | cbn [sound]; repeat split; quoting_side]);
      rewrite H; clear H
  end.

Ltac same_shapes :=
  unfold shapes; cbn [map]; unfold sql_text, set_config; cbv beta iota zeta;
  cbn [truthy or_else];
  repeat match goal with
    | |- context [shape ?s] =>
        lazymatch s with denote _ => fail | _ => template_shape s end
    end;
  reflexivity.

Section Plain.
Variables tenantId tenantId' : string.
Hypothesis plain_id : plain tenantId = true.
Hypothesis plain_id' : plain tenantId' = true.

Lemma session_shape :
  shapes (session_commands tenantId) = shapes (session_commands tenantId').
Proof.
  unfold session_commands. same_shapes.
Qed.

Lemma delete_shape (table : Table) (tenantColumn : string) :
  bare (name table) = true -> bare_option (schema table) = true ->
  plain (or_else (tenantIdColumn table) tenantColumn) = true ->
  shapes (delete_commands table tenantColumn tenantId)
  = shapes (delete_commands table tenantColumn tenantId').
Proof.
  intros Hname Hschema Hcolumn.
  unfold delete_commands.
  destruct (schema table) as [[|c s]|]; cbn [truthy or_else bare_option] in *;
    same_shapes.
Qed.

Lemma schema_shape (schemaPrefix password currentDatabase : string) :
  plain schemaPrefix = true -> plain password = true ->
  plain currentDatabase = true ->
  shapes (schema_commands schemaPrefix password currentDatabase tenantId)
  = shapes (schema_commands schemaPrefix password currentDatabase tenantId').
Proof.
  intros Hprefix Hpassword Hdatabase.
  unfold schema_commands. same_shapes.
Qed.

End Plain.

(** The three methods send these commands: in a world where every call
    succeeds, the statements they send are the following, whatever the
    tenant id. *)
Lemma commands_sent (tenantId : string) (table : Table)
    (schemaPrefix : option string) :
  queries (trace (fst (RlsTenants.getClientFor (accepting "app") tenantId
                         (World tt [] (RlsTenants.Build_fields 0 None)))))
  = session_commands tenantId
  /\ queries
       (trace (fst (RlsManagement.deleteTenant (accepting "app") tenantId
                      (Some [table])
                      (World tt []
                         (RlsManagement.new_fields None None None None
                            None)))))
     = [BeginSemi] ++ delete_commands table DEFAULT_TENANT_ID_COLUMN tenantId
       ++ [CommitSemi]
  /\ exists password,
      queries
        (trace (fst (SchemaManagement.createTenant (accepting "app")
                       tenantId
                       (World tt []
                          (SchemaManagement.new_fields [] schemaPrefix
                             {| secrets_pattern := None |} None)))))
      = match schema_commands
                (or_else schemaPrefix DEFAULT_TENANT_SCHEMA_PREFIX)
                password "app" tenantId with
        | [create; grants] =>
            [BeginSemi; create; SelectCurrentDatabase; grants; CommitSemi]
        | _ => []
        end.
Proof.
  split; [reflexivity |]. split; [reflexivity |].
  eexists. reflexivity.
Qed.


End InjectionFacts.

(** ** Names, paths and key prefixes *)

Module NamesFacts.
Import JsString Json Effects Core PostgresBase PathSpec PathFacts NamesSpec
  InjectionSpec Worlds.

(** *** The generated password *)

Lemma validChars_at (i : nat) :
  i < 62 ->
  exists c, String.get i validChars = Some c
            /\ has_char c validChars = true
            /\ plain (String c EmptyString) = true.
Proof.
  intros H.
  do 62 (destruct i as [|i]; [eexists; repeat split; reflexivity |]).
  lia.
Qed.

Lemma over_app (alphabet a b : string) :
  over alphabet (a ++ b) = over alphabet a && over alphabet b.
Proof.
  induction a as [|c a IH]; cbn [append over]; [reflexivity |].
  now rewrite IH, andb_assoc.
Qed.

Lemma length_app (a b : string) :
  String.length (a ++ b) = String.length a + String.length b.
Proof. induction a as [|c a IH]; cbn; [reflexivity | now rewrite IH]. Qed.

Lemma password_of_spec (n : nat) :
  forall randomValues,
    String.length (password_of n randomValues) = n
    /\ over validChars (password_of n randomValues) = true
    /\ plain (password_of n randomValues) = true.
Proof.
  induction n as [|n IH]; intros randomValues; cbn [password_of].
  - repeat split; reflexivity.
  - set (v := match randomValues with v :: _ => v | [] => 0%N end).
    destruct (validChars_at (N.to_nat (v mod 62))) as (c & Hget & Hc & Hp).
    { clearbody v.
      assert (v mod 62 < 62)%N by (apply N.mod_upper_bound; discriminate).
      lia. }
    unfold char_at. rewrite Hget.
    destruct (IH (List.tl randomValues)) as (Hlen & Hover & Hplain).
    rewrite length_app, over_app, InjectionFacts.plain_app, Hlen, Hover,
      Hplain, Hp.
    cbn [String.length over]. rewrite Hc. repeat split; reflexivity.
Qed.

(** X1. [generatePassword(length)] returns, once the random values are
    delivered, a password of exactly [length] characters, each of them
    a digit or a letter of the 62 of [validChars]; so it holds no quote
    and can stand between the quotes of [CREATE ROLE ... PASSWORD]. *)
Theorem generatePassword_length_and_alphabet (E F : Type)
    (respond : event -> E -> E * response) (w : world E F) (length : nat) :
  rejection (snd (respond (RandomValues length) (env w))) = None ->
  exists password,
    snd (generatePassword respond length w) = Return password
    /\ String.length password = length
    /\ over validChars password = true
    /\ plain password = true.
Proof.
  intros Hok. unfold generatePassword, bind, call, ret.
  destruct (respond (RandomValues length) (env w)) as [e1 r].
  cbn [snd] in Hok. rewrite Hok. cbn [snd].
  eexists. split; [reflexivity |]. apply password_of_spec.
Qed.

Lemma generatePassword_length_and_alphabet_witness :
  exists password,
    snd (generatePassword scripted 4
           (World [Numbers [0; 61; 62; 4294967295]%N] [] tt))
    = Return password
    /\ String.length password = 4
    /\ over validChars password = true
    /\ plain password = true.
Proof.
  apply (generatePassword_length_and_alphabet _ _ scripted
           (World [Numbers [0; 61; 62; 4294967295]%N] [] tt) 4).
  reflexivity.
Defined.

(** *** The path of a tenant's secret *)

Lemma append_cancel_r (a b s : string) :
  (a ++ s)%string = (b ++ s)%string -> a = b.
Proof.
  revert b. induction a as [|x a IH]; intros [|y b] H.
  - reflexivity.
  - exfalso. apply (f_equal String.length) in H.
    cbn in H. rewrite length_app in H. lia.
  - exfalso. apply (f_equal String.length) in H.
    cbn in H. rewrite length_app in H. lia.
  - cbn in H. inversion H; subst. f_equal. now apply IH.
Qed.

Lemma getPath_default_falsy_id (tenantId : string) :
  has_char "$" tenantId = false ->
  getPath (manager None (Some EmptyString)) tenantId
  = ("/tenants/" ++ tenantId ++ "/postgres/connection")%string.
Proof.
  intros H. unfold getPath, manager, replace. cbn.
  now rewrite (get_substitution_plain _ _ _ _ H).
Qed.

(** X2. With the default patterns of a Postgres resource, two different
    tenants never get the same secret path, provided the ids hold
    neither a dollar sign (a replacement pattern of
    [String.prototype.replace]) nor an opening brace (which could spell
    the other placeholder). *)
Theorem getPath_separates_tenants (id : option string) (a b : string) :
  has_char "$" (or_else id EmptyString) = false ->
  has_char "$" a = false -> has_char "{" a = false ->
  has_char "$" b = false -> has_char "{" b = false ->
  String.eqb a b = false ->
  getPath (manager None id) a <> getPath (manager None id) b.
Proof.
  intros Hid Ha Hba Hb Hbb Hne Hpath.
  apply String.eqb_neq in Hne. apply Hne.
  destruct id as [[|c r]|].
  - rewrite !getPath_default_falsy_id in Hpath by assumption.
    apply (append_cancel_r a b "/postgres/connection").
    cbn in Hpath. now inversion Hpath.
  - cbn [or_else] in Hid.
    rewrite !getPath_default_with_id in Hpath by assumption.
    apply (append_cancel_r a b ("/postgres/" ++ String c r ++ "/connection")).
    cbn in Hpath. now inversion Hpath.
  - rewrite !getPath_default_without_id in Hpath by assumption.
    apply (append_cancel_r a b "/postgres/connection").
    cbn in Hpath. now inversion Hpath.
Qed.

Lemma getPath_separates_tenants_witness :
  getPath (manager None (Some "eu1")) "acme"
  <> getPath (manager None (Some "eu1")) "acme-2".
Proof.
  apply (getPath_separates_tenants (Some "eu1") "acme" "acme-2");
    reflexivity.
Defined.

(** *** The path of a secret in Vault *)

Lemma prefix_append (a b : string) : String.prefix a (a ++ b) = true.
Proof.
  induction a as [|c a IH]; [now destruct b |].
  change (String.prefix (String c a) (String c a ++ b))
    with (if Ascii.ascii_dec c c then String.prefix a (a ++ b) else false).
  now destruct (Ascii.ascii_dec c c).
Qed.

(** X3. [Vault.normalizePath] puts every path under the mount
    [secret/data/] of the KV engine and changes no path that is already
    there: normalizing twice, as [updateSecret] does before it calls
    [createSecret], is normalizing once. *)
Theorem normalizePath_idempotent (path : string) :
  String.prefix "secret/data/" (Vault.normalizePath path) = true
  /\ Vault.normalizePath (Vault.normalizePath path)
     = Vault.normalizePath path.
Proof.
  assert (H : String.prefix "secret/data/" (Vault.normalizePath path) = true).
  { unfold Vault.normalizePath.
    destruct (String.prefix "secret/data/" path) eqn:Hp; [exact Hp |].
    destruct (String.prefix "/" path) eqn:Hs.
    - destruct path as [|c path]; [discriminate |].
      change (String.prefix "/" (String c path))
        with (if Ascii.ascii_dec "/" c then String.prefix "" path else false)
        in Hs.
      destruct (Ascii.ascii_dec "/" c) as [<-|]; [| discriminate Hs].
      exact (prefix_append "secret/data/" path).
    - exact (prefix_append "secret/data/" path). }
  split; [exact H |].
  unfold Vault.normalizePath at 1. now rewrite H.
Qed.

(** *** The key spaces of the Redis strategies *)

Lemma colon_free_split (a b x y : string) :
  has_char ":" a = false -> has_char ":" b = false ->
  (a ++ String ":" x)%string = (b ++ String ":" y)%string -> a = b.
Proof.
  revert b. induction a as [|c a IH]; intros [|d b] Ha Hb H;
    cbn [append] in H.
  - reflexivity.
  - inversion H; subst. cbn in Hb. discriminate Hb.
  - inversion H; subst. cbn in Ha. discriminate Ha.
  - cbn [has_char] in Ha, Hb.
    apply orb_false_iff in Ha as [_ Ha]. apply orb_false_iff in Hb as [_ Hb].
    inversion H; subst. f_equal. now apply (IH b).
Qed.

Lemma acl_prefix_shape (f : RedisAcl.fields) (tenantId : string) :
  exists rest,
    RedisAcl.buildKeyspacePrefix f tenantId
    = ("tenant:" ++ tenantId ++ String ":" rest)%string.
Proof.
  unfold RedisAcl.buildKeyspacePrefix.
  destruct (js_truthy _); eexists; reflexivity.
Qed.

Lemma prefix_prefix_shape (clientConfig : option (list (string * json)))
    (tenantId : string) :
  exists rest,
    RedisPrefixTenants.buildKeyspacePrefix clientConfig tenantId
    = ("tenant:" ++ tenantId ++ String ":" rest)%string.
Proof.
  unfold RedisPrefixTenants.buildKeyspacePrefix.
  destruct (js_truthy _); eexists; reflexivity.
Qed.

(** Without the condition the key spaces overlap: the prefix of tenant
    [a] covers the keys of tenant [a:b]. *)
Example keyspace_of_a_colon_id :
  String.prefix (RedisPrefixTenants.buildKeyspacePrefix None "a")
    (RedisPrefixTenants.buildKeyspacePrefix None "a:b" ++ "order_1")
  = true.
Proof. reflexivity. Qed.

End NamesFacts.

(** ** The RLS strategy against any database *)

Module RlsFacts.
Import JsString Json Sql Effects Core PostgresBase RlsSpec.
Import SetupSpec SetupFacts PolicySpec.

Section Management.
Import RlsManagement.
Context {E : Type}.
Variable respond : event -> E -> E * response.

Local Open Scope m_scope.

Lemma bind3 {F A B C D : Type} (m1 : @M E F A) (m2 : A -> @M E F B)
    (m3 : @M E F C) (k : C -> @M E F D) (w : world E F) :
  bind m1 (fun a => bind (m2 a) (fun _ => bind m3 k)) w
  = bind (bind m1 (fun a => bind (m2 a) (fun _ => m3))) k w.
Proof.
  unfold bind. destruct (m1 w) as [w1 [a|e]]; [| reflexivity].
  destruct (m2 a w1) as [w2 [b|e]]; reflexivity.
Qed.

(** The part of [setup] between [BEGIN] and the end of the [try]
    block. *)
Lemma setup_body_spec (client : handle) (currentSchema : option string)
    (tableList : list Table) (w : world E fields) :
  exists middle w1 o1,
    (let* role_exists := isRoleCreated respond client in
     (if negb role_exists then createRole respond client ;; ret tt
      else console respond "warn" "Role already exists") ;;
     for_each tableList (setup_table respond client currentSchema) ;;
     query respond client CommitSemi ;;
     ret tt) w = (w1, o1)
    /\ self w1 = self w
    /\ count_events is_transaction_control middle = 0
    /\ ((o1 = Return tt
         /\ trace w1 = trace w ++ middle ++ [Query client CommitSemi])
        \/ ((exists e, o1 = Throw e)
            /\ (trace w1 = trace w ++ middle
                \/ trace w1 = trace w ++ middle ++ [Query client CommitSemi]))).
Proof.
  rewrite bind3.
  match goal with |- context [bind ?mid _ w] =>
    assert (Hmid : adds is_transaction_control 0 mid)
  end.
  { unfold isRoleCreated, createRole, setup_table, grantOverRole,
      getTableSequences, enableRlsOverTable, createPoliciesOverTable,
      isPolicyCreated, query, console.
    silent. }
  unfold bind at 1.
  match goal with |- context [match ?mid w with _ => _ end] =>
    destruct (Hmid w) as (middle & Ht & Hc & Hs);
    destruct (mid w) as [w1 [a|e]]; cbn [fst] in Ht, Hs
  end.
  - unfold query, bind, call, ret.
    destruct (respond (Query client CommitSemi) (env w1)) as [e2 r2].
    destruct (rejection r2) as [err|]; exists middle; eexists; eexists;
      (split; [reflexivity |]); cbn [self trace]; rewrite Ht;
      (split; [exact Hs |]); (split; [lia |]).
    + right. split; [eexists; reflexivity |]. right.
      now rewrite <- List.app_assoc.
    + left. split; [reflexivity |]. now rewrite <- List.app_assoc.
  - exists middle, w1, (Throw e). split; [reflexivity |].
    split; [exact Hs |]. split; [lia |].
    right. split; [eexists; reflexivity |]. left. exact Ht.
Qed.

(** X8. [setup] of the RLS Management role on a table list that is not
    empty, from the moment [BEGIN] was accepted, whatever the database
    answers afterwards: the transaction it opened is ended by the call
    itself, with [COMMIT;] when it returns and with [ROLLBACK;] when it
    throws (after a rejected [COMMIT;] too), nothing else opens or ends
    a transaction in between, and the client is released last. *)
Theorem setup_ends_its_transaction (w : world E fields)
    (tables_arg : option (list Table)) (x : Table) (l : list Table) :
  let client := pool (self w) in
  let connected := respond (PoolConnect client) (env w) in
  let reset := respond (Query client ResetAll) (fst connected) in
  let schema := respond (Query client SelectCurrentSchema) (fst reset) in
  let begun := respond (Query client Begin) (fst schema) in
  match tables_arg with Some l => Some l | None => tables (self w) end
  = Some (x :: l) ->
  rejection (snd connected) = None -> rejection (snd reset) = None ->
  rejection (snd schema) = None ->
  Nat.ltb 0 (List.length (rows_of (snd schema))) = true ->
  rejection (snd begun) = None ->
  exists w' o middle ending,
    setup respond tables_arg w = (w', o)
    /\ trace w'
       = trace w ++ [PoolConnect client; Query client ResetAll;
                     Query client SelectCurrentSchema; Query client Begin]
           ++ middle ++ ending ++ [Release client]
    /\ count_events is_transaction_control middle = 0
    /\ ((o = Return tt /\ ending = [Query client CommitSemi])
        \/ ((exists e, o = Throw e)
            /\ (ending = [Query client RollbackSemi]
                \/ ending = [Query client CommitSemi;
                             Query client RollbackSemi]))).
Proof.
  intros client connected reset schema begun.
  subst begun schema reset connected client.
  intros Htables Hconnect Hreset Hschema Hrows Hbegin.
  destruct w as [e0 t0 f]. cbn [env trace self] in *.
  unfold setup. unfold bind at 1. unfold get_self at 1. cbn [self].
  rewrite Htables. unfold getCleanClient.
  unfold bind at 1. unfold bind at 1. unfold get_self at 1.
  unfold bind at 1. unfold call at 1. cbn [env trace self].
  destruct (respond (PoolConnect (pool f)) e0) as [e1 r1].
  cbn [fst snd] in *. rewrite Hconnect.
  unfold try_catch at 1. unfold query at 1. unfold bind at 1.
  unfold call at 1. cbn [env trace self].
  destruct (respond (Query (pool f) ResetAll) e1) as [e2 r2].
  cbn [fst snd] in *. rewrite Hreset. unfold ret at 1.
  unfold try_finally at 1. unfold try_catch at 1.
  unfold bind at 1. unfold query at 1. unfold call at 1.
  cbn [env trace self].
  destruct (respond (Query (pool f) SelectCurrentSchema) e2) as [e3 r3].
  cbn [fst snd] in *. rewrite Hschema.
  unfold bind at 1.
  destruct (rows_of r3) as [|first rows]; [discriminate Hrows |].
  unfold ret at 1. unfold bind at 1. unfold query at 1. unfold call at 1.
  cbn [env trace self].
  destruct (respond (Query (pool f) Begin) e3) as [e4 r4].
  cbn [fst snd] in *. rewrite Hbegin.
  match goal with |- context [bind (isRoleCreated respond ?c) ?k ?w4] =>
    destruct (setup_body_spec c (text_column "current_schema" first)
                (x :: l) w4)
      as (middle & w5 & o5 & Hrun & Hs & Hcount & Ho);
    rewrite Hrun
  end.
  destruct w5 as [e5 t5 f5]. cbn [env trace self] in *. subst f5.
  unfold release, emit, query, bind, call, try_catch, ret, throw.
  destruct Ho as [[-> Ht] | [[e ->] Ht]]; cbn [env trace self fst snd].
  - eexists; eexists; exists middle, [Query (pool f) CommitSemi].
    split; [reflexivity |]. cbn [trace]. rewrite Ht.
    split; [rewrite <- !List.app_assoc; reflexivity |].
    split; [exact Hcount |]. left. auto.
  - destruct (respond (Query (pool f) RollbackSemi) e5) as [e6 r6].
    destruct Ht as [Ht|Ht]; rewrite Ht;
      [set (ending := [Query (pool f) RollbackSemi])
      |set (ending := [Query (pool f) CommitSemi;
                       Query (pool f) RollbackSemi])];
      (destruct (rejection r6); cbn [env trace self fst snd];
       eexists; eexists; exists middle, ending;
       (split; [reflexivity |]); cbn [trace]; subst ending;
       (split; [rewrite <- !List.app_assoc; reflexivity |]);
       (split; [exact Hcount |]); right;
       (split; [eexists; reflexivity |]); auto).
Qed.

End Management.

Section Tenants.
Import RlsTenants TenantsBase.
Context {E : Type}.
Variable respond : event -> E -> E * response.

(** X7. [queryAs] of [PgBouncerRlsTenants] outside [transaction_mode],
    once the pool has handed out a client. In [session_mode] no
    transaction is opened: the tenant setting, the query, the release;
    but when the tenant setting is rejected the error is thrown and the
    client is not released. With any other mode the call throws
    [Invalid mode], and the client it took from the pool is not
    released either. *)
Theorem pgbouncer_rls_outside_transaction_mode (w : world E fields)
    (tenantId : string) (q : stmt) :
  mode_is (self w) "transaction_mode" = false ->
  rejection (snd (respond (PoolConnect (pool (self w))) (env w))) = None ->
  let client := pool (self w) in
  let connected := fst (respond (PoolConnect client) (env w)) in
  let configured :=
    respond (Query client (PgbSetTenantSession tenantId)) connected in
  let run := pgb_queryAs respond tenantId q w in
  if mode_is (self w) "session_mode" then
    match rejection (snd configured) with
    | Some e =>
        trace (fst run)
        = trace w ++ [PoolConnect client;
                      Query client (PgbSetTenantSession tenantId)]
        /\ snd run = Throw e
    | None =>
        trace (fst run)
        = trace w ++ [PoolConnect client;
                      Query client (PgbSetTenantSession tenantId);
                      Query client q; Release client]
    end
  else
    trace (fst run) = trace w ++ [PoolConnect client]
    /\ snd run = Throw "Invalid mode".
Proof.
  intros Hmode Hconnect client connected configured run.
  subst run configured connected client.
  destruct w as [e0 t0 f]. cbn [env trace self] in *.
  unfold pgb_queryAs, pgb_getClientFor, connect, query, release,
    console_error.
  unfold bind, call, emit, try_catch, try_finally, get_self, ret, throw.
  cbn [env trace self].
  destruct (respond (PoolConnect (pool f)) e0) as [e1 r1].
  cbn [fst snd] in *. rewrite Hconnect. cbn [env trace self].
  rewrite Hmode.
  destruct (mode_is f "session_mode"); cbn [fst snd env trace self].
  - destruct (respond (Query (pool f) (PgbSetTenantSession tenantId)) e1)
      as [e2 r2].
    cbn [fst snd].
    destruct (rejection r2) as [err|]; cbn [fst snd env trace self].
    + rewrite <- !List.app_assoc. split; reflexivity.
    + rewrite Hmode. cbn [env trace self].
      destruct (respond (Query (pool f) q) e2) as [e3 r3].
      destruct (rejection r3); cbn [fst snd env trace self];
        rewrite <- !List.app_assoc; reflexivity.
  - split; reflexivity.
Qed.

End Tenants.

Lemma pgbouncer_rls_outside_transaction_mode_witness :
  let w := World tt [] (RlsTenants.Build_fields 0 (Some "session_mode")) in
  trace (fst (RlsTenants.pgb_queryAs agreeable "acme" (UserQuery "SELECT 1") w))
  = [PoolConnect 0; Query 0 (PgbSetTenantSession "acme");
     Query 0 (UserQuery "SELECT 1"); Release 0].
Proof.
  intros w.
  exact (pgbouncer_rls_outside_transaction_mode agreeable w "acme"
           (UserQuery "SELECT 1") eq_refl eq_refl).
Defined.

Lemma setup_ends_its_transaction_witness :
  exists w' o middle ending,
    RlsManagement.setup (postgres no_sequences) (Some sample_tables)
      (World empty_database [] sample_management) = (w', o)
    /\ trace w'
       = [] ++ [PoolConnect 0; Query 0 ResetAll;
                Query 0 SelectCurrentSchema; Query 0 Begin]
           ++ middle ++ ending ++ [Release 0]
    /\ count_events is_transaction_control middle = 0
    /\ ((o = Return tt /\ ending = [Query 0 CommitSemi])
        \/ ((exists e, o = Throw e)
            /\ (ending = [Query 0 RollbackSemi]
                \/ ending = [Query 0 CommitSemi; Query 0 RollbackSemi]))).
Proof.
  apply (setup_ends_its_transaction (postgres no_sequences)
           (World empty_database [] sample_management)
           (Some sample_tables)
           {| name := "todos"; schema := None; tenantIdColumn := None |}
           [{| name := "users"; schema := Some "app";
               tenantIdColumn := None |}]);
    reflexivity.
Defined.

End RlsFacts.

(** ** Property lists that stay well formed *)

Module DescriptorFacts.
Import JsString Json JsonFacts MapFacts.

Lemma mem_string_set {A} (k k' : string) (v : A) (l : list (string * A)) :
  mem_string k (map fst (obj_set k' v l))
  = mem_string k (map fst l) || String.eqb k k'.
Proof.
  induction l as [|[k0 v0] l IH]; cbn [obj_set map fst mem_string].
  - now rewrite orb_false_r.
  - destruct (String.eqb_spec k' k0) as [->|Hne]; cbn [map fst mem_string].
    + destruct (String.eqb k k0); cbn; [reflexivity |].
      now rewrite orb_false_r.
    + rewrite IH. now rewrite orb_assoc.
Qed.

Lemma distinct_set {A} (k : string) (v : A) (l : list (string * A)) :
  distinct (map fst l) = true -> distinct (map fst (obj_set k v l)) = true.
Proof.
  induction l as [|[k0 v0] l IH]; cbn [obj_set map fst distinct mem_string];
    [reflexivity |].
  intros H. apply andb_true_iff in H as [Hk0 Hl].
  destruct (String.eqb_spec k k0) as [->|Hne];
    cbn [map fst distinct mem_string].
  - now rewrite Hk0, Hl.
  - rewrite mem_string_set, (IH Hl).
    apply negb_true_iff in Hk0. rewrite Hk0. cbn.
    destruct (String.eqb_spec k0 k) as [->|_]; [contradiction | reflexivity].
Qed.

Lemma forallb_set (p : json -> bool) (k : string) (v : json)
    (l : list (string * json)) :
  forallb (fun kv => let '(_, x) := kv in p x) l = true -> p v = true ->
  forallb (fun kv => let '(_, x) := kv in p x) (obj_set k v l) = true.
Proof.
  intros Hl Hv. induction l as [|[k0 v0] l IH]; cbn [obj_set forallb].
  - now rewrite Hv.
  - cbn [forallb] in Hl. apply andb_true_iff in Hl as [H0 Hl].
    destruct (String.eqb k k0); cbn [forallb].
    + now rewrite Hv, Hl.
    + now rewrite H0, (IH Hl).
Qed.

(** [obj[k] = v] keeps an object well formed. *)
Lemma wf_obj_set (k : string) (v : json) (l : list (string * json)) :
  wf (JObj l) = true -> wf v = true -> wf (JObj (obj_set k v l)) = true.
Proof.
  cbn [wf]. intros H Hv. apply andb_true_iff in H as [Hd Hl].
  rewrite (distinct_set k v l Hd). cbn.
  now apply forallb_set.
Qed.

(** So does [{...a, ...b}]. *)
Lemma wf_obj_assign (a b : list (string * json)) :
  wf (JObj a) = true ->
  forallb (fun kv => let '(_, x) := kv in wf x) b = true ->
  wf (JObj (obj_assign a b)) = true.
Proof.
  unfold obj_assign. revert a.
  induction b as [|[k v] b IH]; intros a Ha Hb; cbn [fold_left fst snd].
  - exact Ha.
  - cbn [forallb] in Hb. apply andb_true_iff in Hb as [Hv Hb].
    apply IH; [now apply wf_obj_set | exact Hb].
Qed.

End DescriptorFacts.

(** ** The Schema strategy against any database *)

Module SchemaFacts.
Import JsString Json Sql Effects Core PostgresBase Worlds.
Import JsonFacts MapFacts DescriptorFacts SchemaSpec.

Lemma descriptor_wf (f : SchemaManagement.fields)
    (tenantId password db : string) :
  wf (JObj (SchemaManagement.poolConfig f)) = true ->
  wf (descriptor f tenantId password db) = true.
Proof. intros H. unfold descriptor. now apply wf_obj_assign. Qed.

Lemma descriptor_schema (f : SchemaManagement.fields)
    (tenantId password db : string) :
  member (descriptor f tenantId password db) "schema"
  = Some (JStr (SchemaManagement.getSchemaNameForTenant f tenantId)).
Proof.
  unfold descriptor, obj_assign. cbn [member fold_left fst snd].
  apply obj_get_set_eq.
Qed.

Section Management.
Import SchemaManagement.
Context {E : Type}.
Variable respond : event -> E -> E * response.

(** One step of the symbolic execution: the next call whose world is
    known is answered. *)
Local Ltac answer :=
  match goal with
  | |- context [respond ?ev ?e] =>
      is_var e;
      let e' := fresh "e" in
      let r := fresh "r" in
      destruct (respond ev e) as [e' r]; cbn [fst snd env trace self];
      try match goal with
        | |- context [rejection r] =>
            let err := fresh "err" in
            destruct (rejection r) as [err|]; cbn [fst snd env trace self]
        end
  | |- context [match rows_of ?r with _ => _ end] =>
      let first := fresh "first" in
      destruct (rows_of r) as [|first ?]; cbn [fst snd env trace self]
  end.

(** X12. [PostgresSchemaManagement.deleteTenant] for a tenant whose
    stored descriptor is the one [createTenant] writes, once the fresh
    client is connected: it reads the descriptor, drops the schema that
    was created for the tenant, with [CASCADE], and ends the client,
    also when the drop is rejected. It sends nothing else: the tenant's
    role and the stored descriptor are left in place. *)
Theorem schema_deleteTenant_drops_only_the_schema (w : world E fields)
    (tenantId password currentDatabase : string) (e1 : E) :
  let f := self w in
  let client := next_handle f in
  let config := JObj (poolConfig f) in
  let path := getPath (secretsManager f) tenantId in
  wf config = true ->
  respond (GetSecret path) (env w)
  = (e1, Text (stringify (descriptor f tenantId password currentDatabase))) ->
  rejection
    (snd (respond (ClientConnect client)
            (fst (respond (ClientNew client config) e1)))) = None ->
  exists w' o,
    deleteTenant respond tenantId w = (w', o)
    /\ trace w'
       = trace w
           ++ [GetSecret path; ClientNew client config; ClientConnect client;
               Query client
                 (DropSchemaCascade (getSchemaNameForTenant f tenantId));
               ClientEnd client].
Proof.
  intros f client config path Hwf Hget Hconnect.
  subst f client config path.
  destruct w as [e0 t0 f]. cbn [env trace self] in *.
  unfold deleteTenant, get, new_Client, query.
  unfold bind, call, emit, try_catch, try_finally, get_self, set_self,
    ret, throw.
  cbn [env trace self]. rewrite Hget. cbn [rejection text_of env trace self].
  rewrite (parse_stringify _ (descriptor_wf f tenantId password
                                currentDatabase Hwf)).
  cbn [env trace self].
  set (client := next_handle f) in *.
  destruct (respond (ClientNew client (JObj (poolConfig f))) e1) as [e2 r2].
  cbn [fst snd] in *.
  destruct (respond (ClientConnect client) e2) as [e3 r3].
  cbn [fst snd] in *. rewrite Hconnect. cbn [env trace self].
  rewrite descriptor_schema. cbn [to_template to_string].
  change (match descriptor f tenantId password currentDatabase with
          | JNull => _ | _ => ?k end) with k.
  cbn [env trace self].
  rewrite <- !List.app_assoc. cbn [List.app].
  repeat answer.
  all: eexists; eexists; split; [reflexivity |];
    cbn [trace]; rewrite <- ?List.app_assoc; reflexivity.
Qed.

End Management.

(** The run of the sample, computed: the tenant is created, and the
    store holds the descriptor of what was created. *)
Example schema_createTenant_run :
  let run :=
    SchemaManagement.createTenant schema_world "acme"
      (World [] [] sample_schema_management) in
  snd run = Return tt
  /\ env (fst run)
     = [("/tenants/acme/postgres/connection",
         stringify
           (descriptor sample_schema_management "acme"
              "777777777777777777777777" "app"))].
Proof. vm_compute. split; reflexivity. Qed.

(** A descriptor that cannot be stored: the tenant's schema and role are
    committed, the call sends a [ROLLBACK] after the [COMMIT;] and
    throws. *)
Example schema_createTenant_with_a_path_in_use :
  let run :=
    SchemaManagement.createTenant schema_world "acme"
      (World [("/tenants/acme/postgres/connection", "{}")] []
         sample_schema_management) in
  snd run = Throw "Secret already exists"
  /\ skipn 6 (trace (fst run))
     = [Query 1
          (SchemaRoleAndGrants "tenant_acme" "777777777777777777777777"
             "tenant_acme" "app");
        Query 1 CommitSemi;
        CreateSecret "/tenants/acme/postgres/connection"
          (stringify
             (descriptor sample_schema_management "acme"
                "777777777777777777777777" "app"));
        Query 1 Rollback; ClientEnd 1].
Proof. vm_compute. split; reflexivity. Qed.

Lemma schema_deleteTenant_drops_only_the_schema_witness :
  let w :=
    World [("/tenants/acme/postgres/connection",
            stringify (descriptor sample_schema_management "acme" "pw" "app"))]
      [] sample_schema_management in
  exists w' o,
    SchemaManagement.deleteTenant schema_world "acme" w = (w', o)
    /\ trace w'
       = [] ++ [GetSecret "/tenants/acme/postgres/connection";
                ClientNew 1 (JObj [("host", JStr "db"); ("port", JNum 5432)]);
                ClientConnect 1;
                Query 1 (DropSchemaCascade "tenant_acme");
                ClientEnd 1].
Proof.
  intros w.
  apply (schema_deleteTenant_drops_only_the_schema schema_world w "acme"
           "pw" "app" (env w)); reflexivity.
Defined.

End SchemaFacts.

(** ** The Database strategy against any database *)

Module DatabaseStepsFacts.
Import JsString Json Sql Effects Core PostgresBase Worlds.
Import JsonFacts MapFacts DescriptorFacts DatabaseSpec.

Lemma database_descriptor_wf (f : DatabaseManagement.fields)
    (tenantId password : string) :
  wf (JObj (DatabaseManagement.poolConfig f)) = true ->
  wf (descriptor f tenantId password) = true.
Proof. intros H. unfold descriptor. now apply wf_obj_assign. Qed.

Lemma descriptor_user (f : DatabaseManagement.fields)
    (tenantId password : string) :
  member (descriptor f tenantId password) "user"
  = Some (JStr (roleName f tenantId)).
Proof.
  unfold descriptor, obj_assign. cbn [member fold_left fst snd].
  rewrite !obj_get_set_ne by discriminate. apply obj_get_set_eq.
Qed.

Lemma descriptor_password (f : DatabaseManagement.fields)
    (tenantId password : string) :
  member (descriptor f tenantId password) "password" = Some (JStr password).
Proof.
  unfold descriptor, obj_assign. cbn [member fold_left fst snd].
  rewrite !obj_get_set_ne by discriminate. apply obj_get_set_eq.
Qed.

Lemma descriptor_database (f : DatabaseManagement.fields)
    (tenantId password : string) :
  member (descriptor f tenantId password) "database"
  = Some (JStr (databaseName f tenantId)).
Proof.
  unfold descriptor, obj_assign. cbn [member fold_left fst snd].
  apply obj_get_set_eq.
Qed.

Lemma descriptor_other (f : DatabaseManagement.fields)
    (tenantId password k : string) :
  k <> "user" -> k <> "password" -> k <> "database" ->
  member (descriptor f tenantId password) k
  = obj_get k (DatabaseManagement.poolConfig f).
Proof.
  intros Hu Hp Hd. unfold descriptor, obj_assign.
  cbn [member fold_left fst snd].
  now rewrite !obj_get_set_ne.
Qed.

Section Tenants.
Import Tenants PostgresDatabaseTenants.
Context {E : Type}.
Variable respond : event -> E -> E * response.

(** X15. [PostgresDatabaseTenants.getClientFor] for a tenant without a
    cached pool, when the secret store hands back the descriptor that
    [createTenant] of a Management role on the same secrets wrote. The
    pool is created from that descriptor, cached under the tenant id,
    and a client is taken from it. The descriptor names the role, the
    password and the database created for the tenant, whatever the
    Management role's own configuration said about them, and agrees
    with that configuration on every other property. *)
Theorem database_tenant_pool_is_the_created_one (w : world E fields)
    (m : DatabaseManagement.fields) (tenantId password : string) (e1 : E) :
  let d := descriptor m tenantId password in
  let path := getPath (DatabaseManagement.secretsManager m) tenantId in
  let pool := next_handle (self w) in
  secretsManager (self w) = DatabaseManagement.secretsManager m ->
  wf (JObj (DatabaseManagement.poolConfig m)) = true ->
  obj_get tenantId (pools (self w)) = None ->
  respond (GetSecret path) (env w) = (e1, Text (stringify d)) ->
  (exists w' o,
     getClientFor respond tenantId w = (w', o)
     /\ obj_get tenantId (pools (self w')) = Some pool
     /\ trace w'
        = trace w ++ [GetSecret path; PoolNew (Some tenantId) pool d;
                      PoolConnect pool]
     /\ (o = Return pool \/ exists e, o = Throw e))
  /\ member d "user" = Some (JStr (roleName m tenantId))
  /\ member d "password" = Some (JStr password)
  /\ member d "database" = Some (JStr (databaseName m tenantId))
  /\ (forall k, k <> "user" -> k <> "password" -> k <> "database" ->
        member d k = obj_get k (DatabaseManagement.poolConfig m)).
Proof.
  intros d path pool Hsecrets Hwf Hpools Hget. subst path pool.
  split; [| split; [apply descriptor_user |];
            split; [apply descriptor_password |];
            split; [apply descriptor_database |];
            intros k; apply descriptor_other].
  destruct w as [e0 t0 f]. cbn [env trace self] in *.
  unfold getClientFor, initTenantPool, getClientConfigFor, get,
    new_Pool, modify, connect.
  unfold bind, call, emit, get_self, set_self, ret, throw.
  cbn [env trace self]. rewrite Hpools. cbn [env trace self].
  rewrite Hpools. cbn [env trace self].
  rewrite Hsecrets, Hget. cbn [rejection text_of env trace self].
  assert (Hparse : parse (stringify d) = Some d)
    by (apply parse_stringify; now apply database_descriptor_wf).
  rewrite Hparse.
  cbn [env trace self next_handle with_next_handle with_pools pools].
  destruct (respond (PoolConnect (next_handle f)) _) as [e3 r3].
  destruct (rejection r3) as [err|]; cbn [fst snd env trace self pools].
  all: eexists; eexists; split; [reflexivity |].
  all: cbn [self trace pools]; split; [apply obj_get_set_eq |].
  all: split; [rewrite <- !List.app_assoc; reflexivity |].
  - right. eexists. reflexivity.
  - left. reflexivity.
Qed.

End Tenants.

(** The run of the sample, computed: two schemas, created and granted
    on the second client. *)
Example database_createTenant_run :
  let run :=
    DatabaseManagement.createTenant memory_store "acme"
      (World [] [] sample_database_management) in
  snd run = Return tt
  /\ skipn 5 (trace (fst run))
     = [ClientNew 1
          (JObj [("host", JStr "db"); ("user", JStr "postgres");
                 ("database", JStr "tenant_acme")]);
        ClientConnect 1;
        Query 1 (CreateSchemaIfNotExists "public");
        Query 1 (CreateSchemaIfNotExists "audit");
        Query 1 (DatabaseSchemaGrants "public" "tenant_acme");
        Query 1 (DatabaseSchemaGrants "audit" "tenant_acme");
        ClientEnd 1; Release 0].
Proof. vm_compute. split; reflexivity. Qed.

(** A tenant whose path is in use: the database and the role are
    created, the call throws, and nothing is dropped. *)
Example database_createTenant_with_a_path_in_use :
  let run :=
    DatabaseManagement.createTenant memory_store "acme"
      (World [("/tenants/acme/postgres/connection", "{}")] []
         sample_database_management) in
  snd run = Throw "Secret already exists"
  /\ trace (fst run)
     = [PoolConnect 0;
        Query 0 (CreateDatabase "tenant_acme" None);
        RandomValues 24;
        Query 0
          (DatabaseRoleAndGrant "tenant_acme" "000000000000000000000000"
             "tenant_acme");
        CreateSecret "/tenants/acme/postgres/connection"
          (stringify
             (descriptor sample_database_management "acme"
                "000000000000000000000000"));
        Release 0].
Proof. vm_compute. split; reflexivity. Qed.

(** [deleteTenant] on the sample, computed, and on a Management role
    that connects as the tenant's role: its role is not dropped. *)
Example database_deleteTenant_run :
  let stored f :=
    [("/tenants/acme/postgres/connection",
      stringify (descriptor f "acme" "pw"))] in
  let own :=
    DatabaseManagement.new_fields [("user", JStr "tenant_acme")]
      {| DatabaseManagement.in_database_prefix := None;
         DatabaseManagement.in_database_template := None;
         DatabaseManagement.in_role_prefix := None;
         DatabaseManagement.in_generatePassword := false;
         DatabaseManagement.in_schemas_names := None;
         DatabaseManagement.in_createIfNotExists := None;
         DatabaseManagement.in_useForceOnDelete := Some true |}
      {| secrets_pattern := None |} None in
  trace (fst (DatabaseManagement.deleteTenant memory_store "acme"
                (World (stored sample_database_management) []
                   sample_database_management)))
  = [GetSecret "/tenants/acme/postgres/connection";
     PoolQuery 0 (DropDatabase "tenant_acme" false);
     DeleteSecret "/tenants/acme/postgres/connection";
     PoolQuery 0 (DropRole "tenant_acme")]
  /\ trace (fst (DatabaseManagement.deleteTenant memory_store "acme"
                   (World (stored own) [] own)))
     = [GetSecret "/tenants/acme/postgres/connection";
        PoolQuery 0 (DropDatabase "tenant_acme" true);
        DeleteSecret "/tenants/acme/postgres/connection"].
Proof. vm_compute. split; reflexivity. Qed.

Lemma database_tenant_pool_is_the_created_one_witness :
  let m := sample_database_management in
  let d := descriptor m "acme" "pw" in
  let path := "/tenants/acme/postgres/connection" in
  let w :=
    World [(path, stringify d)] []
      (Tenants.new_fields {| secrets_pattern := None |} None) in
  (exists w' o,
     PostgresDatabaseTenants.getClientFor memory_store "acme" w = (w', o)
     /\ obj_get "acme" (Tenants.pools (self w')) = Some 0
     /\ trace w'
        = [] ++ [GetSecret path; PoolNew (Some "acme") 0 d; PoolConnect 0]
     /\ (o = Return 0 \/ exists e, o = Throw e))
  /\ member d "user" = Some (JStr (roleName m "acme"))
  /\ member d "password" = Some (JStr "pw")
  /\ member d "database" = Some (JStr (databaseName m "acme"))
  /\ (forall k, k <> "user" -> k <> "password" -> k <> "database" ->
        member d k = obj_get k (DatabaseManagement.poolConfig m)).
Proof.
  intros m d path w.
  apply (database_tenant_pool_is_the_created_one memory_store w m "acme"
           "pw" (env w)); reflexivity.
Defined.

End DatabaseStepsFacts.

(** ** The Redis strategies *)

Module RedisRolesFacts.
Import JsString Json Effects Core Worlds.
Import JsonFacts MapFacts DescriptorFacts RedisRolesSpec.

Section PropertyLists.
Import RedisAclManagement.

Lemma obj_set_set {A} (k : string) (v v' : A) (l : list (string * A)) :
  obj_set k v (obj_set k v' l) = obj_set k v l.
Proof.
  induction l as [|[k0 v0] l IH]; cbn [obj_set].
  - now rewrite String.eqb_refl.
  - destruct (String.eqb k k0) eqn:Hk; cbn [obj_set].
    + now rewrite String.eqb_refl.
    + now rewrite Hk, IH.
Qed.

(** Writing a property that exists keeps its place, so it commutes
    with writing another one. *)
Lemma obj_set_present_comm {A} (k k' : string) (v v' : A)
    (l : list (string * A)) :
  obj_get k l <> None -> k <> k' ->
  obj_set k v (obj_set k' v' l) = obj_set k' v' (obj_set k v l).
Proof.
  intros Hin Hne. induction l as [|[k0 v0] l IH]; [now destruct Hin |].
  cbn [obj_get obj_set] in *.
  destruct (String.eqb_spec k k0) as [->|Hk0].
  - destruct (String.eqb_spec k' k0) as [->|Hk'0]; [contradiction |].
    cbn [obj_set]. rewrite String.eqb_refl.
    destruct (String.eqb_spec k' k0); [contradiction | reflexivity].
  - destruct (String.eqb_spec k' k0) as [->|Hk'0]; cbn [obj_set].
    + destruct (String.eqb_spec k k0); [contradiction |].
      now rewrite String.eqb_refl.
    + destruct (String.eqb_spec k k0); [contradiction |].
      destruct (String.eqb_spec k' k0); [contradiction |].
      now rewrite (IH Hin).
Qed.

Lemma of_object_set (k : string) (v : json) (l : list (string * json)) :
  obj_set k (Some v) (of_object l) = of_object (obj_set k v l).
Proof.
  induction l as [|[k0 v0] l IH]; [reflexivity |].
  cbn [of_object map obj_set fst snd].
  destruct (String.eqb k k0); cbn [of_object map fst snd];
    [reflexivity |].
  f_equal. exact IH.
Qed.

Lemma defined_of_object (l : list (string * json)) :
  defined (of_object l) = l.
Proof.
  induction l as [|[k v] l IH]; [reflexivity |].
  cbn [of_object map defined fst snd]. f_equal. exact IH.
Qed.

(** The object [createTenant] serializes, in the order of its
    properties. *)
Lemma stored_descriptor (clientConfig : option (list (string * json)))
    (dangerous : option bool) (custom : bool) (secrets : TenantsSecrets)
    (id : option string) (tenantId generated : string) :
  JObj (defined
          (obj_assign
             (match config (new_fields clientConfig dangerous custom
                              secrets id) with
              | Some c => c
              | None => []
              end)
             [("username", Some (JStr tenantId));
              ("password", Some (JStr generated));
              ("keyPrefix", Some (JStr ("tenant:" ++ tenantId ++ ":")))]))
  = descriptor clientConfig tenantId generated.
Proof.
  unfold descriptor, obj_assign. cbn [config new_fields fold_left fst snd].
  destruct clientConfig as [c|]; [| reflexivity].
  f_equal.
  set (K := JStr ("tenant:" ++ tenantId ++ ":")).
  rewrite (obj_set_present_comm "keyPrefix" "password");
    [| rewrite obj_get_set_ne by discriminate;
       rewrite obj_get_set_eq; discriminate
     | discriminate].
  rewrite (obj_set_present_comm "keyPrefix" "username");
    [| rewrite obj_get_set_eq; discriminate | discriminate].
  rewrite obj_set_set, !of_object_set, defined_of_object.
  symmetry.
  rewrite (obj_set_present_comm "keyPrefix" "password");
    [| rewrite obj_get_set_ne by discriminate;
       rewrite obj_get_set_eq; discriminate
     | discriminate].
  rewrite (obj_set_present_comm "keyPrefix" "username");
    [| rewrite obj_get_set_eq; discriminate | discriminate].
  now rewrite obj_set_set.
Qed.

Lemma acl_constructed_keyspace (clientConfig : option (list (string * json)))
    (dangerous : option bool) (custom : bool) (secrets : TenantsSecrets)
    (id : option string) (tenantId : string) :
  buildKeyspacePrefix (new_fields clientConfig dangerous custom secrets id)
    tenantId
  = ("tenant:" ++ tenantId ++ ":")%string.
Proof.
  unfold buildKeyspacePrefix. cbn [config new_fields].
  destruct clientConfig as [c|]; [| reflexivity].
  now rewrite get_value_set.
Qed.

Lemma acl_descriptor_wf (clientConfig : option (list (string * json)))
    (tenantId generated : string) :
  wf (JObj (match clientConfig with Some c => c | None => [] end)) = true ->
  wf (descriptor clientConfig tenantId generated) = true.
Proof.
  intros H. unfold descriptor. apply wf_obj_assign; [| reflexivity].
  destruct clientConfig as [c|]; [| reflexivity].
  now apply wf_obj_set.
Qed.

End PropertyLists.

Section AclTenants.
Import RedisAclTenants.
Context {E : Type}.
Variable respond : event -> E -> E * response.

(** What [getClientFor] does with the value the secret store holds. *)
Lemma getClientFor_spec (w : world E fields) (tenantId : string)
    (d : json) (e1 : E) :
  wf d = true ->
  respond (GetSecret (getPath (secretsManager (self w)) tenantId)) (env w)
  = (e1, Text (stringify d)) ->
  getClientFor respond tenantId w
  = (World e1
       (trace w ++ [GetSecret (getPath (secretsManager (self w)) tenantId)])
       (self w),
     match d with
     | JNull => Throw "TypeError"
     | _ =>
         if js_truthy (member d "keyPrefix") then Return d
         else Throw KEY_PREFIX_NOT_SET
     end).
Proof.
  intros Hwf Hget. destruct w as [e0 t0 f]. cbn [env trace self] in *.
  unfold getClientFor, get.
  unfold bind, call, emit, get_self, ret, throw. cbn [env trace self].
  rewrite Hget. cbn [rejection text_of env trace self].
  rewrite (parse_stringify _ Hwf).
  destruct d as [| b | z | m places | s | l | l]; try reflexivity.
  cbn [member]. destruct (obj_get "keyPrefix" l) as [v|] eqn:Hv;
    [| reflexivity].
  destruct (js_truthy (Some v)); [| reflexivity].
  unfold obj_assign. cbn [fold_left fst snd].
  now rewrite (obj_set_same _ _ _ Hv).
Qed.


End AclTenants.

Section Prefix.
Import RedisPrefixManagement RedisPrefixTenants.
Context {E : Type}.
Variable respond : event -> E -> E * response.

(** X19. [RedisPrefixManagement.createTenant] with [autosetup], once
    [ACL LIST] has answered. The shared user [tenant_acl] is set up,
    limited to the keys under [tenant:] and without the dangerous
    commands, exactly when no line of the list starts with [user
    tenant_acl]; a line of a user whose name only starts with
    [tenant_acl] is enough for the call to return without setting the
    user up. *)
Theorem prefix_createTenant_sets_up_unless_listed (w : world E fields)
    (users : list string) (e1 : E) :
  autosetup (self w) = true ->
  respond RedisAclList (env w) = (e1, Texts users) ->
  exists w' o,
    createTenant respond w = (w', o)
    /\ (((exists line,
            In line users
            /\ String.prefix "user tenant_acl" line = true)
         /\ trace w' = trace w ++ [RedisAclList]
         /\ o = Return tt)
        \/ ((forall line,
               In line users ->
               String.prefix "user tenant_acl" line = false)
            /\ trace w' = trace w ++ [RedisAclList; shared_user]
            /\ (o = Return tt
                <-> rejection (snd (respond shared_user e1)) = None))).
Proof.
  intros Hauto Hlist. destruct w as [e0 t0 f]. cbn [env trace self] in *.
  unfold createTenant, setup.
  unfold bind, call, get_self, ret, throw. cbn [env trace self].
  rewrite Hauto. cbn [env trace self]. rewrite Hlist.
  cbn [rejection texts_of env trace self].
  change ("user " ++ DEFAULT_ACL_USERNAME)%string with "user tenant_acl".
  destruct (existsb (String.prefix "user tenant_acl") users) eqn:Hex;
    cbn [negb env trace self].
  - eexists. eexists. split; [reflexivity |]. left.
    apply existsb_exists in Hex. auto.
  - change (RedisCall _) with shared_user.
    destruct (respond shared_user e1) as [e2 r2].
    cbn [snd].
    assert (Hnone : forall line,
               In line users ->
               String.prefix "user tenant_acl" line = false).
    { intros line Hin.
      destruct (String.prefix "user tenant_acl" line) eqn:Hp;
        [| reflexivity].
      rewrite <- Hex. symmetry. apply existsb_exists. eauto. }
    destruct (rejection r2) as [err|]; eexists; eexists;
      (split; [reflexivity |]); right;
      (split; [exact Hnone |]); cbn [trace];
      (split; [now rewrite <- List.app_assoc |]);
      split; congruence.
Qed.


End Prefix.

(** An empty password: the user is created with [nopass], and the
    descriptor holds the empty password. *)
Example acl_createTenant_with_an_empty_password :
  trace (fst (RedisAclManagement.createTenant memory_store "acme"
                (World [] []
                   (RedisAclManagement.new_fields
                      (Some [("host", JStr "redis")]) None true
                      {| secrets_pattern := None |} None))))
  = [CustomPassword "acme";
     RedisCall ["ACL"; "SETUSER"; "acme"; "on"; "nopass"; "~tenant:acme:*";
                "+@all"; "-@dangerous"];
     CreateSecret "/tenants/acme/redis/connection"
       (stringify
          (JObj [("host", JStr "redis"); ("keyPrefix", JStr "tenant:acme:");
                 ("username", JStr "acme"); ("password", JStr "")]))].
Proof. vm_compute. reflexivity. Qed.


Lemma prefix_createTenant_sets_up_unless_listed_witness :
  let users := ["user default on nopass ~* +@all"] in
  let w :=
    World users [] (RedisPrefixManagement.new_fields (Some true)) in
  exists w' o,
    RedisPrefixManagement.createTenant acl_server w = (w', o)
    /\ (((exists line,
            In line users
            /\ String.prefix "user tenant_acl" line = true)
         /\ trace w' = [] ++ [RedisAclList]
         /\ o = Return tt)
        \/ ((forall line,
               In line users ->
               String.prefix "user tenant_acl" line = false)
            /\ trace w' = [] ++ [RedisAclList; shared_user]
            /\ (o = Return tt
                <-> rejection (snd (acl_server shared_user users)) = None))).
Proof.
  intros users w.
  apply (prefix_createTenant_sets_up_unless_listed acl_server w users users);
    reflexivity.
Defined.

(** A server that lists a user [tenant_acl_reports] and no user
    [tenant_acl]: the shared user is not set up. A second call on a
    server where the first one set the user up only lists the users. *)
Example prefix_createTenant_with_a_similar_user :
  let instance := RedisPrefixManagement.new_fields (Some true) in
  let first :=
    RedisPrefixManagement.createTenant acl_server
      (World ["user tenant_acl_reports on nopass ~reports:* +@read"] []
         instance) in
  let second :=
    RedisPrefixManagement.createTenant acl_server
      (fst (RedisPrefixManagement.createTenant acl_server
              (World ["user default on nopass ~* +@all"] [] instance))) in
  first
  = (World ["user tenant_acl_reports on nopass ~reports:* +@read"]
       [RedisAclList] instance, Return tt)
  /\ trace (fst second) = [RedisAclList; shared_user; RedisAclList].
Proof. vm_compute. split; reflexivity. Qed.

End RedisRolesFacts.

(** ** The Tenants roles and the descriptor they are given *)

Module DescriptorReadFacts.
Import JsString Json Sql Effects Core PostgresBase Tenants Worlds.
Import JsonFacts MapFacts DescriptorSpec.

Section Reads.
Context {E : Type}.
Variable respond : event -> E -> E * response.

(** X21. [getClientFor] of [PostgresDatabaseTenants] and of
    [PostgresSchemaTenants] for a tenant without a cached pool, when the
    secret store gives no descriptor: the read is rejected, or the text
    it gives is empty, which [JSON.parse] refuses. Both throw: the
    store's error when the read was rejected, a [SyntaxError] after
    logging it to the console when the text was empty. Neither creates
    a pool or changes what the instance remembers, and nothing is sent
    to a database. *)
Theorem tenants_without_a_descriptor_get_no_pool (w : world E fields)
    (tenantId : string) :
  let path := getPath (secretsManager (self w)) tenantId in
  let answer := respond (GetSecret path) (env w) in
  let after :=
    World (fold_left (fun e ev => fst (respond ev e))
             (read_log (snd answer)) (fst answer))
      (trace w ++ GetSecret path :: read_log (snd answer)) (self w) in
  obj_get tenantId (pools (self w)) = None ->
  unreadable (snd answer) = true ->
  PostgresDatabaseTenants.getClientFor respond tenantId w
  = (after, Throw (read_error (snd answer)))
  /\ PostgresSchemaTenants.getClientFor respond tenantId w
     = (after, Throw (read_error (snd answer))).
Proof.
  intros path answer after Hpools Hbad. subst after answer path.
  destruct w as [e0 t0 f]. cbn [env trace self] in *.
  unfold PostgresDatabaseTenants.getClientFor,
    PostgresSchemaTenants.getClientFor,
    PostgresDatabaseTenants.initTenantPool, getClientConfigFor, get.
  unfold bind, call, emit, get_self, ret, throw. cbn [env trace self].
  rewrite Hpools. cbn [env trace self]. rewrite Hpools.
  cbn [env trace self].
  unfold unreadable, read_error, read_log in *.
  destruct (respond (GetSecret (getPath (secretsManager f) tenantId)) e0)
    as [e1 r1].
  cbn [fst snd] in *.
  destruct (rejection r1) as [err|]; cbn [fold_left env trace self].
  - split; reflexivity.
  - apply String.eqb_eq in Hbad. rewrite Hbad.
    change (parse EmptyString) with (@None json).
    cbn [fold_left env trace self].
    rewrite <- !List.app_assoc. split; reflexivity.
Qed.


(** X23. [PgBouncerDatabaseTenants.getClientFor] for a tenant without a
    cached pool, on a stored descriptor, once the new pool has handed
    out a client. In [session_mode] the client is returned as it is. In
    [transaction_mode] [BEGIN;] is sent first: when the database
    accepts it the client is returned; when it rejects it a rollback is
    sent (a rejected rollback is only logged), the client is released
    and the error of [BEGIN;] is thrown. With any other pool mode, or
    none, the call throws [Invalid mode] and the client it took is not
    released. *)
Theorem pgbouncer_database_tenants_by_pool_mode (w : world E fields)
    (tenantId text : string) (d : json) (e1 e2 e3 : E) (r2 r3 : response) :
  let path := getPath (secretsManager (self w)) tenantId in
  let pool := next_handle (self w) in
  let began := respond (Query pool BeginSemi) e3 in
  let rolled := respond (Query pool Rollback) (fst began) in
  obj_get tenantId (pools (self w)) = None ->
  respond (GetSecret path) (env w) = (e1, Text text) ->
  parse text = Some d ->
  not_null d = true ->
  respond (PoolNew (Some tenantId) pool d) e1 = (e2, r2) ->
  respond (PoolConnect pool) e2 = (e3, r3) ->
  rejection r3 = None ->
  exists w',
    PgBouncerDatabaseTenants.getClientFor respond tenantId w
    = (w',
       if is_string (member d "poolMode") "session_mode" then Return pool
       else if is_string (member d "poolMode") "transaction_mode" then
         match rejection (snd began) with
         | Some err => Throw err
         | None => Return pool
         end
       else Throw "Invalid mode")
    /\ trace w'
       = trace w ++ [GetSecret path; PoolNew (Some tenantId) pool d;
                     PoolConnect pool]
           ++ (if is_string (member d "poolMode") "session_mode" then []
               else if is_string (member d "poolMode") "transaction_mode"
               then
                 Query pool BeginSemi
                   :: match rejection (snd began) with
                      | Some _ =>
                          Query pool Rollback
                            :: TransactionSpec.rollback_log (snd rolled)
                            ++ [Release pool]
                      | None => []
                      end
               else []).
Proof.
  intros path pool began rolled Hpools Hget Hparse Hnull Hnew Hconnect Hr3.
  subst path pool began rolled.
  assert (Hprop : forall k, prop (E:=E) d k = ret (member d k))
    by (intros k; destruct d; try reflexivity; discriminate Hnull).
  destruct w as [e0 t0 f]. cbn [env trace self] in *.
  unfold PgBouncerDatabaseTenants.getClientFor,
    PgBouncerDatabaseTenants.initTenantPool,
    PgBouncerDatabaseTenants.rollback_release, getClientConfigFor, get,
    new_Pool, modify, connect, query, release, console_error.
  unfold bind, call, emit, try_catch, try_finally, get_self, set_self,
    ret, throw.
  cbn [env trace self]. rewrite Hpools. cbn [env trace self].
  rewrite Hget. cbn [rejection text_of env trace self].
  rewrite Hparse. rewrite !Hprop. unfold ret.
  cbn [env trace self with_poolsMode with_next_handle
       poolsMode next_handle pools].
  rewrite !get_value_set.
  rewrite Hnew. cbn [fst snd env trace self]. rewrite Hconnect, Hr3.
  cbn [env trace self].
  destruct (is_string (member d "poolMode") "session_mode");
    cbn [env trace self].
  { eexists. split; [reflexivity |].
    cbn [trace]. now rewrite <- !List.app_assoc. }
  destruct (is_string (member d "poolMode") "transaction_mode");
    cbn [env trace self].
  2:{ eexists. split; [reflexivity |].
      cbn [trace]. now rewrite <- !List.app_assoc. }
  destruct (respond (Query (next_handle f) BeginSemi) e3) as [e4 r4].
  cbn [fst snd].
  destruct (rejection r4) as [err|]; cbn [fst snd env trace self].
  - destruct (respond (Query (next_handle f) Rollback) e4) as [e5 r5].
    cbn [fst snd]. unfold TransactionSpec.rollback_log.
    destruct r5 as [rows | s | l | l | rollbackErr];
      cbn [rejection fst snd env trace self];
      eexists; (split; [reflexivity |]); cbn [trace];
      rewrite <- !List.app_assoc; reflexivity.
  - eexists. split; [reflexivity |]. cbn [trace].
    rewrite <- !List.app_assoc. reflexivity.
Qed.

End Reads.

Lemma tenants_without_a_descriptor_get_no_pool_witness :
  let w :=
    World [("/tenants/acme/postgres/connection", EmptyString)] []
      (Tenants.new_fields {| secrets_pattern := None |} None) in
  let after :=
    World [("/tenants/acme/postgres/connection", EmptyString)]
      ([] ++ [GetSecret "/tenants/acme/postgres/connection";
              Console "error"
                "Error parsing secret. Make sure the secret is a valid JSON string."])
      (Tenants.new_fields {| secrets_pattern := None |} None) in
  PostgresDatabaseTenants.getClientFor memory_store "acme" w
  = (after, Throw "SyntaxError")
  /\ PostgresSchemaTenants.getClientFor memory_store "acme" w
     = (after, Throw "SyntaxError").
Proof.
  intros w after.
  apply (tenants_without_a_descriptor_get_no_pool memory_store w "acme");
    reflexivity.
Defined.

(** A tenant that was never created: the error of the secret store. *)
Example tenants_never_created :
  PostgresSchemaTenants.getClientFor memory_store "acme"
    (World [] [] (Tenants.new_fields {| secrets_pattern := None |} None))
  = (World [] [GetSecret "/tenants/acme/postgres/connection"]
       (Tenants.new_fields {| secrets_pattern := None |} None),
     Throw "Secret not found").
Proof. reflexivity. Qed.

(** A descriptor whose port is written with a fraction is read as any
    other: the pool is created with the port as an integer. *)
Example descriptor_with_a_fraction_in_its_port :
  let text :=
    ("{" ++ dq ++ "host" ++ dq ++ ":" ++ dq ++ "db" ++ dq ++ ","
         ++ dq ++ "port" ++ dq ++ ":5432.0}")%string in
  let w :=
    World [("/tenants/acme/postgres/connection", text)] []
      (Tenants.new_fields {| secrets_pattern := None |} None) in
  let run := PostgresDatabaseTenants.getClientFor memory_store "acme" w in
  trace (fst run)
  = [GetSecret "/tenants/acme/postgres/connection";
     PoolNew (Some "acme") 0 (JObj [("host", JStr "db"); ("port", JNum 5432)]);
     PoolConnect 0]
  /\ snd run = Return 0
  /\ Tenants.pools (self (fst run)) = [("acme", 0)].
Proof. vm_compute. repeat split. Qed.


Lemma pgbouncer_database_tenants_by_pool_mode_witness :
  let d :=
    JObj [("host", JStr "pgbouncer"); ("database", JStr "tenant_acme");
          ("poolMode", JStr "transaction_mode")] in
  let path := "/tenants/acme/postgres/connection" in
  let w :=
    World [Text (stringify d); Rows []; Rows []; Rejected "no transaction";
           Rejected "gone"]
      [] (Tenants.new_fields {| secrets_pattern := None |} None) in
  exists w',
    PgBouncerDatabaseTenants.getClientFor scripted "acme" w
    = (w', Throw "no transaction")
    /\ trace w'
       = [GetSecret path; PoolNew (Some "acme") 0 d; PoolConnect 0;
          Query 0 BeginSemi; Query 0 Rollback;
          Console "error" "Error during rollback: gone"; Release 0].
Proof.
  intros d path w.
  exact (pgbouncer_database_tenants_by_pool_mode scripted w "acme"
           (stringify d) d _ _ _ _ _
           eq_refl eq_refl eq_refl eq_refl eq_refl eq_refl eq_refl).
Defined.

End DescriptorReadFacts.

(** ** A provider that only reads *)

Module StaticProviderFacts.
Import JsString Json Effects Core StaticProvider.

Section ReadOnly.
Context {E F : Type}.
Variable resolver : string -> outcome string.
Variable rest : event -> E -> E * response.
Variable m : TenantsSecretsManager.

Lemma write_changes_nothing (op : write) (w : world E F) :
  exists ev,
    run_write (provider resolver rest) m op w
    = (World (env w) (trace w ++ [ev]) (self w), Return tt).
Proof.
  destruct op; eexists; reflexivity.
Qed.

Lemma writes_change_nothing (ops : list write) :
  forall w : world E F,
  exists evs w',
    for_each ops (run_write (provider resolver rest) m) w = (w', Return tt)
    /\ env w' = env w /\ self w' = self w /\ trace w' = trace w ++ evs.
Proof.
  induction ops as [|op ops IH]; intros w; cbn [for_each].
  - exists [], w. rewrite List.app_nil_r. auto.
  - unfold bind at 1.
    destruct (write_changes_nothing op w) as [ev ->].
    destruct (IH (World (env w) (trace w ++ [ev]) (self w)))
      as (evs & w' & Hrun & He & Hs & Ht).
    exists (ev :: evs), w'. cbn [env trace self] in *.
    split; [exact Hrun |]. split; [exact He |]. split; [exact Hs |].
    rewrite Ht. now rewrite <- List.app_assoc.
Qed.

(** X24. A [TenantsSecretsManager] on a [StaticProvider]: whatever is
    stored, updated or removed, every write returns, and what [get]
    returns afterwards for any tenant is what the resolver gives for
    the tenant's path, as before the writes. A descriptor written
    through this provider is not kept. *)
Theorem static_provider_keeps_no_write (ops : list write)
    (tenantId : string) (w : world E F) :
  exists w',
    for_each ops (run_write (provider resolver rest) m) w = (w', Return tt)
    /\ snd (get (provider resolver rest) m tenantId w')
       = read resolver m tenantId
    /\ snd (get (provider resolver rest) m tenantId w)
       = read resolver m tenantId.
Proof.
  destruct (writes_change_nothing ops w) as (evs & w' & Hrun & He & Hs & Ht).
  exists w'. split; [exact Hrun |].
  assert (Hget : forall w0 : world E F,
             snd (get (provider resolver rest) m tenantId w0)
             = read resolver m tenantId).
  { intros w0. unfold get, read, bind, call, emit, ret, throw.
    unfold provider at 1 2, getSecret.
    destruct (resolver (getPath m tenantId)) as [text|e];
      cbn [rejection text_of fst snd]; [| reflexivity].
    destruct (parse text); reflexivity. }
  split; apply Hget.
Qed.

End ReadOnly.

(** A descriptor stored and read back through a provider that resolves
    every path to an empty object. *)
Example static_provider_drops_the_descriptor :
  let respond := provider (fun _ => Return "{}") Worlds.memory_store in
  let m := new_TenantsSecretsManager {| secrets_pattern := None |}
             (PostgresBase.getPattern None) None in
  let stored :=
    store (F:=unit) respond m "acme" (JObj [("user", JStr "tenant_acme")])
      (World [] [] tt) in
  snd stored = Return tt
  /\ snd (get respond m "acme" (fst stored)) = Return (JObj []).
Proof. vm_compute. split; reflexivity. Qed.

End StaticProviderFacts.

(** ** Names of what a tenant is given *)

Module TenantNamesFacts.
Import JsString Json Effects Core PostgresBase.

Lemma append_cancel_l (p a b : string) :
  (p ++ a)%string = (p ++ b)%string -> a = b.
Proof.
  induction p as [|c p IH]; cbn [append]; intros H; [exact H |].
  inversion H. now apply IH.
Qed.

Lemma role_name_injective (prefix : option string) (a b : string) :
  generateDefaultTenantRoleName a prefix
  = generateDefaultTenantRoleName b prefix -> a = b.
Proof.
  unfold generateDefaultTenantRoleName.
  destruct (truthy prefix); apply append_cancel_l.
Qed.

(** X25. Two different tenants of the same Management role never share
    a name: the database and the role of the Database strategy, the
    schema and the role of the Schema strategy are different for
    different tenant ids, whatever prefixes were configured. *)
Theorem tenants_never_share_a_name (d : DatabaseManagement.fields)
    (s : SchemaManagement.fields) (a b : string) :
  String.eqb a b = false ->
  DatabaseSpec.databaseName d a <> DatabaseSpec.databaseName d b
  /\ DatabaseSpec.roleName d a <> DatabaseSpec.roleName d b
  /\ SchemaManagement.getSchemaNameForTenant s a
     <> SchemaManagement.getSchemaNameForTenant s b
  /\ generateDefaultTenantRoleName a None
     <> generateDefaultTenantRoleName b None.
Proof.
  intros Hne. apply String.eqb_neq in Hne.
  unfold DatabaseSpec.databaseName, DatabaseSpec.roleName,
    SchemaManagement.getSchemaNameForTenant.
  repeat split; intros H; apply Hne.
  - exact (append_cancel_l _ _ _ H).
  - exact (role_name_injective _ _ _ H).
  - exact (append_cancel_l _ _ _ H).
  - exact (role_name_injective _ _ _ H).
Qed.

Lemma tenants_never_share_a_name_witness :
  let d := DatabaseSpec.sample_database_management in
  let s := SchemaSpec.sample_schema_management in
  DatabaseSpec.databaseName d "acme" <> DatabaseSpec.databaseName d "acme2"
  /\ DatabaseSpec.roleName d "acme" <> DatabaseSpec.roleName d "acme2"
  /\ SchemaManagement.getSchemaNameForTenant s "acme"
     <> SchemaManagement.getSchemaNameForTenant s "acme2"
  /\ generateDefaultTenantRoleName "acme" None
     <> generateDefaultTenantRoleName "acme2" None.
Proof.
  intros d s.
  apply (tenants_never_share_a_name d s "acme" "acme2"). reflexivity.
Defined.

End TenantNamesFacts.

Module StepsFacts.
Import JsString Json Sql Effects StepsSpec.

Section Run.
Context {E : Type}.
Variable respond : event -> E -> E * response.

Lemma steps_app (a b : list event) (next : plan) :
  steps (a ++ b) next = steps a (steps b next).
Proof.
  induction a as [|ev a IH]; cbn [steps List.app]; [reflexivity |].
  now rewrite IH.
Qed.

(** A list of calls followed by a plan: the plan starts where the list
    ended, if every call of the list was accepted. *)
Lemma run_steps_then (l : list event) (next : plan) :
  forall e : E,
  run_plan respond (steps l next) e
  = let first := run_plan respond (steps l Done) e in
    match failure first with
    | Some err => first
    | None =>
        let rest := run_plan respond next (after first) in
        Result (done first ++ done rest) (after rest) (failure rest)
    end.
Proof.
  induction l as [|ev l IH]; intros e; cbn [steps run_plan].
  - cbn. now destruct (run_plan respond next e).
  - destruct (respond ev e) as [e1 r].
    destruct (rejection r) as [err|]; [reflexivity |].
    rewrite IH. cbn zeta.
    destruct (run_plan respond (steps l Done) e1) as [d a [err|]];
      cbn [done after failure]; reflexivity.
Qed.

(** A loop that awaits one call per element is the plan of these
    calls. *)
Lemma for_each_plan {F A : Type} (g : A -> event) (l : list A) :
  forall w : world E F,
  for_each l (fun x => bind (call respond (g x)) (fun _ => ret tt)) w
  = let ran := run_plan respond (steps (map g l) Done) (env w) in
    (World (after ran) (trace w ++ done ran) (self w),
     outcome_of tt (failure ran)).
Proof.
  induction l as [|x l IH]; intros w; cbn [for_each map steps run_plan].
  - cbn. rewrite List.app_nil_r. now destruct w.
  - unfold bind at 1. unfold bind at 1, call at 1, ret at 1.
    destruct (respond (g x) (env w)) as [e1 r1].
    destruct (rejection r1) as [err|]; [reflexivity |].
    rewrite IH. cbn [env trace self done after failure].
    now rewrite <- List.app_assoc.
Qed.

End Run.

End StepsFacts.

(** ** The RLS strategy, answer by answer *)

Module RlsStepsFacts.
Import JsString Json Sql Effects Core PostgresBase RlsSpec.
Import StepsSpec StepsFacts.

Section Management.
Import RlsManagement.
Context {E : Type}.
Variable respond : event -> E -> E * response.

(** X5. [PostgresRlsManagement.deleteTenant] on a table list that is not
    empty, once the pool has handed out a client, whatever the database
    answers. It sends [BEGIN;], the transaction-local tenant setting,
    one [DELETE] per table in the order of the list and [COMMIT;], each
    one only after the database accepted the one before, and none after
    the first that is rejected. If one was rejected it sends
    [ROLLBACK;] next (a rejected rollback is only logged) and throws
    the error of the rejected statement; it returns exactly when every
    statement was accepted, and then sends no rollback. In every case
    the client is released, once, as the last step. *)
Theorem rls_deleteTenant_one_transaction (w : world E fields) (id : string)
    (tables_arg : option (list Table)) (x : Table) (l : list Table)
    (e1 : E) (r1 : response) :
  match tables_arg with Some l => Some l | None => tables (self w) end
  = Some (x :: l) ->
  respond (PoolConnect (pool (self w))) (env w) = (e1, r1) ->
  rejection r1 = None ->
  let client := pool (self w) in
  let ran :=
    run_plan respond
      (steps (delete_script (self w) id client (x :: l)) Done) e1 in
  let closing :=
    rolled_back respond (Query client RollbackSemi) (failure ran)
      (after ran) in
  let run := deleteTenant respond id tables_arg w in
  trace (fst run)
  = trace w ++ PoolConnect client :: done ran ++ done closing
      ++ [Release client]
  /\ snd run = outcome_of tt (failure ran).
Proof.
  intros Htables Hconnect Hr1 client ran closing run.
  enough (exists e', run
            = (World e' (trace w ++ PoolConnect client :: done ran
                           ++ done closing ++ [Release client]) (self w),
               outcome_of tt (failure ran))) as [e' ->];
    [split; reflexivity |].
  subst run closing ran client.
  destruct w as [e0 t0 f]. cbn [env trace self] in *.
  set (client := pool f) in *.
  unfold deleteTenant, query, release, console.
  unfold bind at 1. unfold get_self at 1. cbn [self]. rewrite Htables.
  fold client.
  set (g := delete_of f id client).
  unfold delete_script. fold g.
  change (Query client BeginSemi :: Query client (SetTenantLocal id)
            :: map g (x :: l) ++ [Query client CommitSemi])
    with ([Query client BeginSemi; Query client (SetTenantLocal id)]
            ++ map g (x :: l) ++ [Query client CommitSemi]).
  rewrite !steps_app.
  cbn [steps run_plan].
  unfold try_finally, try_catch.
  unfold bind at 1. unfold call at 1. cbn [env trace self].
  rewrite Hconnect, Hr1.
  unfold bind at 1. unfold bind at 1. unfold call at 1. cbn [env trace self].
  destruct (respond (Query client BeginSemi) e1) as [e2 r2].
  destruct (rejection r2) as [err|]; cbn [done after failure rolled_back].
  { unfold bind, call, emit, ret, throw. cbn [env trace self].
    destruct (respond (Query client RollbackSemi) e2) as [e3 r3].
    destruct (rejection r3) as [rollbackErr|];
      cbn [done after failure env trace self fst snd outcome_of];
      rewrite <- ?List.app_assoc; cbn [List.app]; eexists; reflexivity. }
  unfold bind at 1. unfold bind at 1. unfold call at 1. cbn [env trace self].
  destruct (respond (Query client (SetTenantLocal id)) e2) as [e3 r3].
  destruct (rejection r3) as [err|]; cbn [done after failure rolled_back].
  { unfold bind, call, emit, ret, throw. cbn [env trace self].
    destruct (respond (Query client RollbackSemi) e3) as [e4 r4].
    destruct (rejection r4) as [rollbackErr|];
      cbn [done after failure env trace self fst snd outcome_of];
      rewrite <- ?List.app_assoc; cbn [List.app]; eexists; reflexivity. }
  unfold bind at 1.
  change (for_each (x :: l) _)
    with (for_each (F:=fields) (x :: l)
            (fun table => bind (call respond (g table)) (fun _ => ret tt))).
  rewrite for_each_plan.
  rewrite (run_steps_then respond (map g (x :: l)) (Then _ _)).
  cbn [env trace self]. cbv zeta.
  destruct (run_plan respond (steps (map g (x :: l)) Done) e3)
    as [sent e4 [err|]]; cbn [done after failure outcome_of rolled_back].
  { unfold bind, call, emit, ret, throw. cbn [env trace self].
    destruct (respond (Query client RollbackSemi) e4) as [e5 r5].
    destruct (rejection r5) as [rollbackErr|];
      cbn [done after failure env trace self fst snd outcome_of];
      rewrite <- ?List.app_assoc; cbn [List.app]; eexists; reflexivity. }
  cbn [steps run_plan].
  unfold bind, call, emit, ret, throw. cbn [env trace self].
  destruct (respond (Query client CommitSemi) e4) as [e5 r5].
  destruct (rejection r5) as [err|];
    cbn [done after failure rolled_back env trace self].
  { destruct (respond (Query client RollbackSemi) e5) as [e6 r6].
    destruct (rejection r6) as [rollbackErr|];
      cbn [done after failure env trace self fst snd outcome_of];
      rewrite <- ?List.app_assoc; cbn [List.app];
      rewrite <- ?List.app_assoc; cbn [List.app]; eexists; reflexivity. }
  cbn [done after failure env trace self fst snd outcome_of].
  rewrite <- ?List.app_assoc; cbn [List.app].
  rewrite <- ?List.app_assoc. cbn [List.app].
  eexists; reflexivity.
Qed.

End Management.

Section Tenants.
Import RlsTenants TenantsBase.
Context {E : Type}.
Variable respond : event -> E -> E * response.

(** X6. [queryAs] and [withClientFor] of [PostgresRlsTenants], whatever
    the database answers. The caller's query, or callback, runs only
    after the session was set to the tenant ([set_config] accepted);
    when the pool gives no client nothing else happens and the pool's
    error is thrown; when [set_config] is rejected the client is
    released and that error thrown; otherwise the client is released
    after the query or the callback, as the last step, and the call
    ends as they did: [queryAs] returns the answer to the query when
    the database accepted it and throws its error when it was
    rejected, [withClientFor] ends as the callback did. *)
Theorem rls_tenants_hand_the_client_back (w : world E fields)
    (tenantId : string) (q : stmt) (safeCb : handle -> @M E fields unit) :
  let client := pool (self w) in
  let connected := respond (PoolConnect client) (env w) in
  let configured :=
    respond (Query client (SetTenantSession tenantId)) (fst connected) in
  let ready :=
    World (fst configured)
      (trace w ++ [PoolConnect client;
                   Query client (SetTenantSession tenantId)])
      (self w) in
  let run := queryAs respond tenantId q w in
  let run_cb := withClientFor respond (getClientFor respond) tenantId safeCb w in
  match rejection (snd connected), rejection (snd configured) with
  | Some e, _ =>
      trace (fst run) = trace w ++ [PoolConnect client]
      /\ snd run = Throw e
      /\ trace (fst run_cb) = trace w ++ [PoolConnect client]
      /\ snd run_cb = Throw e
  | None, Some e =>
      trace (fst run) = trace ready ++ [Release client]
      /\ snd run = Throw e
      /\ trace (fst run_cb) = trace ready ++ [Release client]
      /\ snd run_cb = Throw e
  | None, None =>
      trace (fst run) = trace ready ++ [Query client q; Release client]
      /\ snd run = awaited (snd (respond (Query client q) (env ready)))
      /\ trace (fst run_cb)
         = trace (fst (safeCb client ready)) ++ [Release client]
      /\ snd run_cb = snd (safeCb client ready)
  end.
Proof.
  intros client connected configured ready run run_cb.
  subst run run_cb ready configured connected client.
  destruct w as [e0 t0 f]. cbn [env trace self].
  unfold queryAs, withClientFor, getClientFor, connect, query, release.
  unfold bind, call, emit, try_catch, try_finally, get_self, ret, throw.
  cbn [env trace self].
  destruct (respond (PoolConnect (pool f)) e0) as [e1 r1]. cbn [fst snd].
  destruct (rejection r1) as [err|]; cbn [fst snd env trace self].
  { repeat split. }
  destruct (respond (Query (pool f) (SetTenantSession tenantId)) e1)
    as [e2 r2].
  cbn [fst snd].
  destruct (rejection r2) as [err|]; cbn [fst snd env trace self].
  { rewrite <- !List.app_assoc. repeat split. }
  destruct (respond (Query (pool f) q) e2) as [e3 r3]. cbn [fst snd].
  unfold awaited.
  split; [destruct (rejection r3); cbn [fst snd env trace self];
          rewrite <- !List.app_assoc; reflexivity |].
  split; [destruct (rejection r3); cbn [fst snd env trace self];
          reflexivity |].
  rewrite <- !List.app_assoc. cbn [List.app].
  destruct (safeCb (pool f) _) as [w4 o4]. cbn [fst snd trace].
  split; [reflexivity | now destruct o4].
Qed.

End Tenants.

Lemma rls_deleteTenant_one_transaction_witness :
  let w := World tt [] (RlsManagement.new_fields None None None None None) in
  let run := RlsManagement.deleteTenant read_only "acme" (Some two_tables) w in
  trace (fst run)
  = [PoolConnect 0; Query 0 BeginSemi; Query 0 (SetTenantLocal "acme");
     Query 0 (DeleteTenantRows None "todos" "tenant_id" "acme");
     Query 0 RollbackSemi; Release 0]
  /\ snd run = Throw "permission denied".
Proof.
  intros w run.
  exact (rls_deleteTenant_one_transaction read_only w "acme"
           (Some two_tables)
           {| name := "todos"; schema := None; tenantIdColumn := None |}
           [{| name := "users"; schema := Some "app";
               tenantIdColumn := Some "org" |}] tt (Rows [])
           eq_refl eq_refl eq_refl).
Defined.

End RlsStepsFacts.

(** ** The Schema strategy, answer by answer *)

Module SchemaStepsFacts.
Import JsString Json Sql Effects Core PostgresBase Worlds.
Import JsonFacts MapFacts DescriptorFacts SchemaSpec SchemaFacts.
Import StepsSpec StepsFacts SchemaPlanSpec.

Section Management.
Import SchemaManagement.
Context {E : Type}.
Variable respond : event -> E -> E * response.

(** One step of the symbolic execution: the next call whose world is
    known is answered, on the side of the method and of the plan
    alike. *)
Local Ltac answer :=
  match goal with
  | |- context [respond ?ev ?e] =>
      is_var e;
      let e' := fresh "e" in
      let r := fresh "r" in
      destruct (respond ev e) as [e' r];
      cbn [fst snd env trace self done after failure];
      try match goal with
        | |- context [rejection r] =>
            let err := fresh "err" in
            destruct (rejection r) as [err|];
            cbn [fst snd env trace self done after failure]
        end
  | |- context [match rows_of ?r with _ => _ end] =>
      let first := fresh "first" in
      destruct (rows_of r) as [|first ?];
      cbn [fst snd env trace self done after failure run_plan steps]
  end.

(** X10. [PostgresSchemaManagement.createTenant], once the fresh client
    is connected and whatever the database and the secret store answer.
    It goes through [create_plan] call by call, each call made only
    after the one before was accepted: [BEGIN;], [CREATE SCHEMA], the
    name of the database, the password, [CREATE ROLE] with the grants,
    [COMMIT;] and only then the descriptor, stored under the tenant's
    path with the role, the schema, the database name the server gave
    and the password that was drawn and used for the role. The first
    call that is rejected is the last of them: [ROLLBACK] follows (a
    rejected rollback is only logged), also when it was the descriptor
    that could not be stored after the commit, and the error of the
    rejected call is thrown. The call returns exactly when every call
    was accepted, and no rollback is sent then. In every case the
    client is ended last, and an error of that ending is thrown in
    place of any other outcome. *)
Theorem schema_createTenant_stores_after_commit (w : world E fields)
    (tenantId : string) (e1 e2 : E) (r1 r2 : response) :
  let f := self w in
  let client := next_handle f in
  let config := JObj (poolConfig f) in
  respond (ClientNew client config) (env w) = (e1, r1) ->
  respond (ClientConnect client) e1 = (e2, r2) ->
  rejection r2 = None ->
  let ran := run_plan respond (create_plan f client tenantId) e2 in
  let closing :=
    rolled_back respond (Query client Rollback) (failure ran) (after ran) in
  let run := createTenant respond tenantId w in
  trace (fst run)
  = trace w ++ [ClientNew client config; ClientConnect client]
      ++ done ran ++ done closing ++ [ClientEnd client]
  /\ snd run
     = finally_awaited respond (ClientEnd client) (after closing)
         (outcome_of tt (failure ran)).
Proof.
  intros f client config Hnew Hconnect Hr2 ran closing run.
  enough (exists e' f',
             run
             = (World e'
                  (trace w ++ [ClientNew client config; ClientConnect client]
                     ++ done ran ++ done closing ++ [ClientEnd client]) f',
                finally_awaited respond (ClientEnd client) (after closing)
                  (outcome_of tt (failure ran)))) as (e' & f' & ->);
    [split; reflexivity |].
  subst run closing ran config client f.
  destruct w as [e0 t0 f]. cbn [env trace self] in *.
  unfold createTenant, new_Client, query, store, generatePassword,
    create_plan, rolled_back, finally_awaited, descriptor.
  unfold bind, call, emit, try_catch, try_finally, get_self, set_self,
    ret, throw.
  cbn [env trace self run_plan steps].
  set (client := next_handle f) in *.
  rewrite Hnew. cbn [fst snd env trace self]. rewrite Hconnect, Hr2.
  cbn [env trace self].
  repeat answer.
  all: cbn [outcome_of]; rewrite <- ?List.app_assoc; cbn [List.app].
  all: eexists; eexists; reflexivity.
Qed.

End Management.

Section Tenants.
Import Tenants PostgresSchemaTenants.
Context {E : Type}.
Variable respond : event -> E -> E * response.

(** [getClientFor] for a tenant without a cached pool, on a descriptor
    that holds a schema: what it does, answer by answer. *)
Lemma getClientFor_without_pool (w : world E fields) (tenantId : string)
    (text text' : string) (d d' : json) (e1 e2 e3 e4 e5 : E)
    (r3 r4 r5 : response) :
  let path := getPath (secretsManager (self w)) tenantId in
  let pool := next_handle (self w) in
  let setting :=
    Query pool
      (SetRoleAndSearchPath (generateDefaultTenantRoleName tenantId None)
         (to_template (member d "schema"))) in
  obj_get tenantId (pools (self w)) = None ->
  respond (GetSecret path) (env w) = (e1, Text text) ->
  parse text = Some d ->
  d <> JNull ->
  respond (GetSecret path) e1 = (e2, Text text') ->
  parse text' = Some d' ->
  respond (PoolNew (Some tenantId) pool d') e2 = (e3, r3) ->
  respond (PoolConnect pool) e3 = (e4, r4) ->
  rejection r4 = None ->
  respond setting e4 = (e5, r5) ->
  exists w',
    getClientFor respond tenantId w
    = (w', outcome_of pool (rejection r5))
    /\ obj_get tenantId (pools (self w')) = Some pool
    /\ trace w'
       = trace w
           ++ [GetSecret path; GetSecret path;
               PoolNew (Some tenantId) pool d'; PoolConnect pool; setting]
           ++ session_closing pool r5.
Proof.
  intros path pool setting Hpools Hget1 Hparse1 Hnull Hget2 Hparse2 Hnew
    Hconnect Hr4 Hset.
  subst path pool setting.
  destruct w as [e0 t0 f]. cbn [env trace self] in *.
  unfold getClientFor, initTenantPool, getClientConfigFor, get, prop,
    new_Pool, modify, connect, query, release, session_closing.
  unfold bind, call, emit, try_catch, try_finally, get_self, set_self,
    ret, throw.
  cbn [env trace self]. rewrite Hget1.
  cbn [rejection text_of env trace self]. rewrite Hparse1.
  cbn [env trace self].
  assert (Hd : forall (A : Type) (a b : A),
             match d with JNull => a | _ => b end = b)
    by (intros A a b; destruct d; congruence).
  rewrite Hd. cbn [env trace self]. rewrite Hpools. cbn [env trace self].
  rewrite Hget2. cbn [rejection text_of env trace self]. rewrite Hparse2.
  cbn [env trace self next_handle with_next_handle with_pools pools].
  rewrite Hnew. cbn [fst snd env trace self]. rewrite Hconnect, Hr4.
  cbn [env trace self]. rewrite Hset.
  destruct (rejection r5) as [err|];
    cbn [fst snd env trace self pools outcome_of].
  - eexists. split; [reflexivity |].
    cbn [self trace pools]. split; [apply obj_get_set_eq |].
    rewrite <- !List.app_assoc. reflexivity.
  - eexists. split; [reflexivity |].
    cbn [self trace pools]. split; [apply obj_get_set_eq |].
    rewrite <- !List.app_assoc. reflexivity.
Qed.

(** X11. [PostgresSchemaTenants.getClientFor] for a tenant without a
    cached pool, when the secret store hands back the descriptor that
    [createTenant] of a Management role on the same secrets wrote, once
    the new pool has handed out its client: the pool is created from
    that descriptor and cached, and the session of the client is set to
    the role and to the schema that were created for the tenant. When
    the database accepts the setting the client is returned; when it
    rejects it the client is released and that error is thrown. *)
Theorem schema_tenant_gets_its_role_and_schema (w : world E fields)
    (m : SchemaManagement.fields) (tenantId password currentDatabase : string)
    (e1 e2 e3 e4 e5 : E) (r3 r4 r5 : response) :
  let d := descriptor m tenantId password currentDatabase in
  let path := getPath (SchemaManagement.secretsManager m) tenantId in
  let pool := next_handle (self w) in
  let setting :=
    Query pool
      (SetRoleAndSearchPath (generateDefaultTenantRoleName tenantId None)
         (SchemaManagement.getSchemaNameForTenant m tenantId)) in
  secretsManager (self w) = SchemaManagement.secretsManager m ->
  wf (JObj (SchemaManagement.poolConfig m)) = true ->
  obj_get tenantId (pools (self w)) = None ->
  respond (GetSecret path) (env w) = (e1, Text (stringify d)) ->
  respond (GetSecret path) e1 = (e2, Text (stringify d)) ->
  respond (PoolNew (Some tenantId) pool d) e2 = (e3, r3) ->
  respond (PoolConnect pool) e3 = (e4, r4) ->
  rejection r4 = None ->
  respond setting e4 = (e5, r5) ->
  exists w',
    getClientFor respond tenantId w
    = (w', match rejection r5 with
           | Some err => Throw err
           | None => Return pool
           end)
    /\ obj_get tenantId (pools (self w')) = Some pool
    /\ trace w'
       = trace w
           ++ [GetSecret path; GetSecret path;
               PoolNew (Some tenantId) pool d; PoolConnect pool; setting]
           ++ match rejection r5 with
              | Some _ => [Release pool]
              | None => []
              end.
Proof.
  intros d path pool setting Hsecrets Hwf Hpools Hget1 Hget2 Hnew Hconnect
    Hr4 Hset.
  subst path pool setting.
  assert (Hparse : parse (stringify d) = Some d)
    by (apply parse_stringify; now apply descriptor_wf).
  assert (Hschema : to_template (member d "schema")
                    = SchemaManagement.getSchemaNameForTenant m tenantId)
    by (unfold d; now rewrite descriptor_schema).
  rewrite <- Hsecrets in Hget1, Hget2. rewrite <- Hschema in Hset.
  destruct (getClientFor_without_pool w tenantId _ _ d d e1 e2 e3 e4 e5
              r3 r4 r5 Hpools Hget1 Hparse ltac:(discriminate) Hget2 Hparse
              Hnew Hconnect Hr4 Hset) as (w' & Hrun & Hcached & Htrace).
  exists w'. rewrite <- Hsecrets, <- Hschema.
  split; [exact Hrun |]. split; [exact Hcached | exact Htrace].
Qed.

End Tenants.

Lemma schema_createTenant_stores_after_commit_witness :
  let run :=
    SchemaManagement.createTenant schema_world "acme"
      (World [("/tenants/acme/postgres/connection", "{}")] []
         sample_schema_management) in
  trace (fst run)
  = [ClientNew 1 (JObj [("host", JStr "db"); ("port", JNum 5432)]);
     ClientConnect 1; Query 1 BeginSemi;
     Query 1 (CreateSchema "tenant_acme"); Query 1 SelectCurrentDatabase;
     RandomValues 24;
     Query 1
       (SchemaRoleAndGrants "tenant_acme" "777777777777777777777777"
          "tenant_acme" "app");
     Query 1 CommitSemi;
     CreateSecret "/tenants/acme/postgres/connection"
       (stringify
          (descriptor sample_schema_management "acme"
             "777777777777777777777777" "app"));
     Query 1 Rollback; ClientEnd 1]
  /\ snd run = Throw "Secret already exists".
Proof.
  intros run.
  exact (schema_createTenant_stores_after_commit schema_world
           (World [("/tenants/acme/postgres/connection", "{}")] []
              sample_schema_management) "acme" _ _ _ _
           eq_refl eq_refl eq_refl).
Defined.

Lemma schema_tenant_gets_its_role_and_schema_witness :
  let d := descriptor sample_schema_management "acme" "pw" "app" in
  let path := "/tenants/acme/postgres/connection" in
  let w :=
    World [(path, stringify d)] []
      (Tenants.new_fields {| secrets_pattern := None |} None) in
  exists w',
    PostgresSchemaTenants.getClientFor schema_world "acme" w
    = (w', Return 0)
    /\ obj_get "acme" (Tenants.pools (self w')) = Some 0
    /\ trace w'
       = [GetSecret path; GetSecret path;
          PoolNew (Some "acme") 0 d; PoolConnect 0;
          Query 0 (SetRoleAndSearchPath "tenant_acme" "tenant_acme")].
Proof.
  intros d path w.
  exact (schema_tenant_gets_its_role_and_schema schema_world w
           sample_schema_management "acme" "pw" "app" _ _ _ _ _ _ _ _
           eq_refl eq_refl eq_refl eq_refl eq_refl eq_refl eq_refl eq_refl
           eq_refl).
Defined.

End SchemaStepsFacts.

(** ** The Database strategy, answer by answer *)

Module DatabasePlanFacts.
Import JsString Json Sql Effects Core PostgresBase Worlds.
Import JsonFacts MapFacts DescriptorFacts DatabaseSpec DatabaseStepsFacts.
Import StepsSpec StepsFacts DatabasePlanSpec.

Section Management.
Import DatabaseManagement.
Context {E : Type}.
Variable respond : event -> E -> E * response.

Local Ltac answer :=
  match goal with
  | |- context [respond ?ev ?e] =>
      is_var e;
      let e' := fresh "e" in
      let r := fresh "r" in
      destruct (respond ev e) as [e' r];
      cbn [fst snd env trace self done after failure];
      try match goal with
        | |- context [rejection r] =>
            let err := fresh "err" in
            destruct (rejection r) as [err|];
            cbn [fst snd env trace self done after failure]
        end
  end.

(** A loop of the administrative part, as the plan of its calls. *)
Local Ltac run_loop g :=
  match goal with
  | |- context [for_each ?l ?b ?w] =>
      change (for_each l b w)
        with (for_each l (fun x => bind (call respond (g x))
                                     (fun _ => ret tt)) w);
      rewrite (for_each_plan respond g l w);
      cbv zeta; cbn [env trace self]
  end.

Local Ltac close_leaf :=
  unfold emit;
  cbn [env trace self done after failure outcome_of List.length Nat.leb
       List.app];
  rewrite <- ?List.app_assoc; cbn [List.app];
  eexists; eexists; reflexivity.

(** X13. [PostgresDatabaseManagement.createTenant], once the pool has
    handed out a client and whatever the database, the password
    function and the secret store answer. It goes through
    [create_plan] call by call, each call made only after the one
    before was accepted: [CREATE DATABASE], the password, [CREATE ROLE]
    with the grant on the database, the descriptor stored under the
    tenant's path with the password that was drawn and given to the
    role, then a second client on the new database for the schemas and
    their grants. The first call that is rejected is the last of them
    and its error is thrown; the call returns exactly when every call
    was accepted. Nothing is undone when a call is rejected: no other
    statement follows, so that what was done before stays, the stored
    descriptor included. The second client is ended once it was
    created, and the pool's client is released last. *)
Theorem database_createTenant_undoes_nothing (w : world E fields)
    (tenantId : string) (e1 : E) (r1 : response) :
  let f := self w in
  let client := pool f in
  respond (PoolConnect client) (env w) = (e1, r1) ->
  rejection r1 = None ->
  let ran := run_plan respond (create_plan f tenantId) e1 in
  let run := createTenant respond tenantId w in
  trace (fst run)
  = trace w ++ [PoolConnect client]
      ++ done ran ++ admin_closing f (done ran) ++ [Release client]
  /\ snd run = outcome_of tt (failure ran).
Proof.
  intros f client Hconnect Hr1 ran run.
  enough (exists e' f',
             run
             = (World e'
                  (trace w ++ [PoolConnect client]
                     ++ done ran ++ admin_closing f (done ran)
                     ++ [Release client]) f',
                outcome_of tt (failure ran))) as (e' & f' & ->);
    [split; reflexivity |].
  subst run ran client f.
  destruct w as [e0 t0 f]. cbn [env trace self] in *.
  unfold createTenant, new_Client, query, store, generatePassword,
    create_plan, admin_closing, admin_script, password_draw, drawn_password,
    descriptor, databaseName, roleName.
  unfold bind, call, emit, try_catch, try_finally, get_self, set_self,
    ret, throw.
  cbn [env trace self steps run_plan].
  rewrite Hconnect, Hr1. cbn [env trace self].
  destruct (custom_generatePassword (opts f)) eqn:Hcustom;
    destruct (createIfNotExists (opts f)) eqn:Hcreate;
    cbn [env trace self List.app].
  all: repeat answer.
  all: try solve [close_leaf].
  all: set (adminClient := next_handle f) in *.
  all: set (create :=
              fun schema => Query adminClient (CreateSchemaIfNotExists schema)).
  all: set (grant :=
              fun schema =>
                Query adminClient
                  (DatabaseSchemaGrants schema
                     (generateDefaultTenantRoleName tenantId
                        (Some (role_prefix (opts f)))))).
  all: rewrite ?steps_app.
  all: try (rewrite (run_steps_then respond (map create _)); cbv zeta).
  all: try (run_loop create;
            destruct (run_plan respond (steps (map create _) Done) _)
              as [created ? [err|]];
            cbn [done after failure outcome_of env trace self];
            [solve [close_leaf] |]).
  all: run_loop grant;
    destruct (run_plan respond (steps (map grant _) Done) _)
      as [granted ? [err|]];
    cbn [done after failure outcome_of env trace self List.length Nat.leb
         List.app];
    rewrite <- ?List.app_assoc; cbn [List.app];
    rewrite <- ?List.app_assoc; cbn [List.app];
    eexists; eexists; reflexivity.
Qed.

(** X14. [PostgresDatabaseManagement.deleteTenant] for a tenant whose
    stored descriptor is the one [createTenant] writes, whatever the
    database and the secret store answer afterwards. It drops the
    database created for the tenant, then removes the descriptor, then
    drops the tenant's role, each call made only after the one before
    was accepted: the descriptor is removed only after the database
    was dropped, and the role only after both. The first call that is
    rejected is the last of them and its error is thrown; the call
    returns exactly when every call was accepted. The role is not
    dropped when it is the user the Management role itself connects
    as. *)
Theorem database_deleteTenant_order (w : world E fields)
    (tenantId password : string) (e1 : E) :
  let f := self w in
  let path := getPath (secretsManager f) tenantId in
  wf (JObj (poolConfig f)) = true ->
  respond (GetSecret path) (env w)
  = (e1, Text (stringify (descriptor f tenantId password))) ->
  let ran := run_plan respond (steps (delete_script f tenantId) Done) e1 in
  deleteTenant respond tenantId w
  = (World (after ran) (trace w ++ GetSecret path :: done ran) f,
     outcome_of tt (failure ran)).
Proof.
  intros f path Hwf Hget ran. subst ran f path.
  destruct w as [e0 t0 f]. cbn [env trace self] in *.
  unfold deleteTenant, get, remove.
  unfold bind, call, emit, get_self, ret, throw.
  cbn [env trace self]. rewrite Hget. cbn [rejection text_of env trace self].
  rewrite (parse_stringify _ (database_descriptor_wf f tenantId password Hwf)).
  cbn [env trace self].
  change (match descriptor f tenantId password with
          | JNull => _ | _ => ?k end) with k.
  cbn [env trace self].
  rewrite descriptor_user, descriptor_database.
  cbn [to_template to_string].
  unfold delete_script. fold (roleName f tenantId) (databaseName f tenantId).
  destruct (strict_neq (obj_get "user" (poolConfig f))
              (Some (JStr (roleName f tenantId)))).
  all: cbn [List.app steps run_plan].
  all: repeat answer.
  all: cbn [outcome_of]; rewrite <- ?List.app_assoc; cbn [List.app].
  all: reflexivity.
Qed.

End Management.

Lemma database_createTenant_undoes_nothing_witness :
  let run :=
    DatabaseManagement.createTenant memory_store "acme"
      (World [("/tenants/acme/postgres/connection", "{}")] []
         sample_database_management) in
  trace (fst run)
  = [PoolConnect 0;
     Query 0 (CreateDatabase "tenant_acme" None);
     RandomValues 24;
     Query 0
       (DatabaseRoleAndGrant "tenant_acme" "000000000000000000000000"
          "tenant_acme");
     CreateSecret "/tenants/acme/postgres/connection"
       (stringify
          (descriptor sample_database_management "acme"
             "000000000000000000000000"));
     Release 0]
  /\ snd run = Throw "Secret already exists".
Proof.
  intros run.
  exact (database_createTenant_undoes_nothing memory_store
           (World [("/tenants/acme/postgres/connection", "{}")] []
              sample_database_management) "acme" _ _ eq_refl eq_refl).
Defined.

Lemma database_deleteTenant_order_witness :
  let path := "/tenants/acme/postgres/connection" in
  let w :=
    World [(path, stringify (descriptor sample_database_management "acme"
                               "pw"))]
      [] sample_database_management in
  DatabaseManagement.deleteTenant memory_store "acme" w
  = (World [] [GetSecret path;
               PoolQuery 0 (DropDatabase "tenant_acme" false);
               DeleteSecret path;
               PoolQuery 0 (DropRole "tenant_acme")]
       sample_database_management,
     Return tt).
Proof.
  intros path w.
  exact (database_deleteTenant_order memory_store w "acme" "pw" (env w)
           eq_refl eq_refl).
Defined.

End DatabasePlanFacts.

Module RedisServerFacts.
Import JsString Json Effects RedisServer.

Example glob_samples :
  matches "tenant:acme:*" "tenant:acme:order_1" = true
  /\ matches "tenant:acme:*" "tenant:acme:" = true
  /\ matches "tenant:acme:*" "tenant:acme2:order_1" = false
  /\ matches "tenant:*:*" "tenant:acme:order_1" = true
  /\ matches "tenant:acm?:*" "tenant:acme:order_1" = true
  /\ matches "tenant:a[b-d]:*" "tenant:ac:x" = true
  /\ matches "tenant:a[b:*" "tenant:a[b:x" = false
  /\ matches "h[^e]llo" "hallo" = true
  /\ matches "h[^e]llo" "hello" = false
  /\ matches "a\*" "a*" = true
  /\ matches "a\*" "ab" = false
  /\ matches "*" "" = false
  /\ matches "a*b*c" "a123b45c" = true
  /\ matches "a*b*c" "a123b45" = false
  /\ matches "a[bc" "ab" = true
  /\ matches "a[bc" "abc" = false.
Proof. vm_compute. repeat split. Qed.

Lemma glob_free_cons (c : ascii) (s : string) :
  glob_free (String c s) = true ->
  Ascii.eqb c "*" = false /\ Ascii.eqb c "?" = false
  /\ Ascii.eqb c "[" = false /\ Ascii.eqb c "\" = false
  /\ glob_free s = true.
Proof.
  unfold glob_free. cbn [has_char].
  rewrite (Ascii.eqb_sym c "*"), (Ascii.eqb_sym c "?"),
    (Ascii.eqb_sym c "["), (Ascii.eqb_sym c "\").
  destruct (Ascii.eqb "*" c), (Ascii.eqb "?" c), (Ascii.eqb "[" c),
    (Ascii.eqb "\" c), (has_char "*" s), (has_char "?" s),
    (has_char "[" s), (has_char "\" s); cbn; try discriminate; auto.
Qed.

Lemma glob_free_app (a b : string) :
  glob_free a = true -> glob_free b = true -> glob_free (a ++ b) = true.
Proof.
  induction a as [|c a IH]; cbn [append]; [auto |].
  intros Ha Hb. destruct (glob_free_cons c a Ha) as (H1 & H2 & H3 & H4 & Ha').
  specialize (IH Ha' Hb). unfold glob_free in *. cbn [has_char].
  rewrite (Ascii.eqb_sym "*" c), (Ascii.eqb_sym "?" c),
    (Ascii.eqb_sym "[" c), (Ascii.eqb_sym "\" c), H1, H2, H3, H4.
  exact IH.
Qed.

(** One step of [glob] on a character that stands for itself. *)
Lemma glob_literal (c : ascii) (p : string) (d : ascii) (s : string) :
  Ascii.eqb c "*" = false -> Ascii.eqb c "?" = false ->
  Ascii.eqb c "[" = false -> Ascii.eqb c "\" = false ->
  glob (String c p) (String d s)
  = Ascii.eqb c d
    && match s with
       | EmptyString => only_stars p
       | String _ _ => glob p s
       end.
Proof.
  intros H1 H2 H3 H4.
  destruct c as [[] [] [] [] [] [] [] []]; try reflexivity;
    cbn in H1, H2, H3, H4; discriminate.
Qed.

Lemma only_stars_free (p : string) :
  glob_free p = true ->
  only_stars (p ++ "*") = match p with EmptyString => true | _ => false end.
Proof.
  destruct p as [|c p]; [reflexivity |]. intros H.
  destruct (glob_free_cons c p H) as (H1 & _).
  cbn [append only_stars].
  destruct c as [[] [] [] [] [] [] [] []]; try reflexivity;
    cbn in H1; discriminate.
Qed.

(** A pattern made of a text that stands for itself and a final star
    matches the keys that start with the text. *)
Lemma glob_prefix (p : string) :
  glob_free p = true ->
  forall c s, glob (p ++ "*") (String c s) = String.prefix p (String c s).
Proof.
  induction p as [|a p IH]; intros Hfree c s; [reflexivity |].
  destruct (glob_free_cons a p Hfree) as (H1 & H2 & H3 & H4 & Hp).
  cbn [append]. rewrite (glob_literal a _ c s H1 H2 H3 H4).
  cbn [String.prefix].
  destruct (Ascii.eqb_spec a c) as [-> | Hne].
  - destruct (ascii_dec c c) as [_ | Hcc]; [| congruence].
    cbn [andb]. destruct s as [|d s].
    + rewrite (only_stars_free p Hp). now destruct p.
    + now apply IH.
  - destruct (ascii_dec a c) as [Hac | _]; [congruence | reflexivity].
Qed.

Lemma matches_prefix (p key : string) :
  glob_free p = true -> p <> EmptyString ->
  matches (p ++ "*") key = String.prefix p key.
Proof.
  intros Hfree Hp. destruct key as [|c s].
  - destruct p as [|a p]; [congruence | reflexivity].
  - now apply glob_prefix.
Qed.

End RedisServerFacts.

(** ** The Redis ACL strategy, answer by answer *)

Module RedisPlanFacts.
Import JsString Json Effects Core Worlds.
Import JsonFacts MapFacts DescriptorFacts RedisRolesSpec RedisRolesFacts.
Import StepsSpec StepsFacts RedisPlanSpec RedisServer RedisServerFacts.

Local Ltac answer respond :=
  match goal with
  | |- context [respond ?ev ?e] =>
      is_var e;
      let e' := fresh "e" in
      let r := fresh "r" in
      destruct (respond ev e) as [e' r];
      cbn [fst snd env trace self done after failure];
      try match goal with
        | |- context [rejection r] =>
            let err := fresh "err" in
            destruct (rejection r) as [err|];
            cbn [fst snd env trace self done after failure]
        end
  end.


Section AclManagement.
Import RedisAclManagement.
Context {E : Type}.
Variable respond : event -> E -> E * response.

(** [createTenant] as the plan of its calls. *)
Lemma acl_createTenant_run (e : E)
    (t : list event) (clientConfig : option (list (string * json)))
    (dangerous : option bool) (custom : bool) (secrets : TenantsSecrets)
    (id : option string) (tenantId : string) :
  let f := new_fields clientConfig dangerous custom secrets id in
  let ran := run_plan respond (create_plan f clientConfig tenantId) e in
  createTenant respond tenantId (World e t f)
  = (World (after ran) (t ++ done ran) f, outcome_of tt (failure ran)).
Proof.
  intros f ran. subst ran.
  unfold createTenant, store, generatePassword, create_plan, password_draw,
    drawn_password, set_user, acl_password.
  unfold bind, call, get_self, ret, throw.
  cbn [env trace self run_plan steps].
  subst f. rewrite acl_constructed_keyspace.
  cbn [custom_generatePassword enableDangerousCommands new_fields
       tenantsSecretsManager].
  destruct custom; destruct dangerous as [[|]|];
    cbn [env trace self List.app].
  all: answer respond; [reflexivity |].
  all: rewrite stored_descriptor.
  all: repeat answer respond.
  all: cbn [outcome_of]; rewrite <- ?List.app_assoc; reflexivity.
Qed.

(** X16. [RedisAclManagement.createTenant] on an instance as the
    constructor leaves it, whatever Redis, the password function and
    the secret store answer, does what [create_plan] says, call by
    call. It draws the password; when that was accepted it sends [ACL
    SETUSER] for a user named after the tenant, with the key pattern
    [~tenant:<tenantId>:*], with [-@dangerous] unless dangerous
    commands were enabled, and with the password that was drawn
    ([nopass] when it is empty); and when that was accepted it stores
    the descriptor, which holds the caller's options, the tenant id as
    [username], the password that was drawn and the key prefix
    [tenant:<tenantId>:]. The first call that is rejected is the last
    one made and its error is thrown; the call returns exactly when
    every call was accepted. *)
Theorem acl_createTenant_sets_the_user_then_stores (e : E)
    (t : list event) (clientConfig : option (list (string * json)))
    (dangerous : option bool) (custom : bool) (secrets : TenantsSecrets)
    (id : option string) (tenantId : string) :
  let f := new_fields clientConfig dangerous custom secrets id in
  let ran := run_plan respond (create_plan f clientConfig tenantId) e in
  createTenant respond tenantId (World e t f)
  = (World (after ran) (t ++ done ran) f, outcome_of tt (failure ran)).
Proof.
  exact (acl_createTenant_run e t clientConfig dangerous custom secrets id
           tenantId).
Qed.

End AclManagement.

Section AclTenants.
Import RedisAclTenants.
Context {E : Type}.
Variable respond : event -> E -> E * response.

(** X18. A tenant created by [RedisAclManagement.createTenant] and read
    back by [RedisAclTenants.getClientFor] on the same secrets, when
    the password, the [ACL SETUSER] and the storing of the descriptor
    were accepted and the secret store hands back what was stored.
    [createTenant] returns after these three calls, and [getClientFor]
    returns the options of the client, built from the descriptor that
    was stored: the client logs in as the user that was set up, named
    after the tenant, with the password that was drawn and given to
    that user, and its key prefix is the text [tenant:<tenantId>:] from
    which the key pattern of that user was made, whatever the
    Management role's own options said about these three; every other
    option is the Management role's. When the tenant id holds none of
    the characters that a pattern reads as more than themselves, the
    keys that pattern matches are the keys that start with the
    client's prefix. *)
Theorem acl_tenant_client_is_the_created_user (e e1 e2 e3 e4 : E)
    (r1 r2 r3 : response) (t t' : list event)
    (clientConfig : option (list (string * json)))
    (dangerous : option bool) (custom : bool) (secrets : TenantsSecrets)
    (id : option string) (tenantId : string) :
  let m :=
    RedisAclManagement.new_fields clientConfig dangerous custom secrets id in
  let given := match clientConfig with Some c => c | None => [] end in
  let generated := drawn_password m r1 in
  let keyPrefix := ("tenant:" ++ tenantId ++ ":")%string in
  let d := descriptor clientConfig tenantId generated in
  let path := getPath (RedisAclManagement.tenantsSecretsManager m) tenantId in
  let setting :=
    RedisCall
      (["ACL"; "SETUSER"; tenantId; "on"; acl_password generated;
        ("~" ++ keyPrefix ++ "*")%string; "+@all"]
       ++ (if RedisAclManagement.enableDangerousCommands m then []
           else ["-@dangerous"])) in
  wf (JObj given) = true ->
  respond (password_draw m tenantId) e = (e1, r1) ->
  rejection r1 = None ->
  respond setting e1 = (e2, r2) ->
  rejection r2 = None ->
  respond (CreateSecret path (stringify d)) e2 = (e3, r3) ->
  rejection r3 = None ->
  respond (GetSecret path) e3 = (e4, Text (stringify d)) ->
  RedisAclManagement.createTenant respond tenantId (World e t m)
  = (World e3
       (t ++ [password_draw m tenantId; setting;
              CreateSecret path (stringify d)]) m,
     Return tt)
  /\ getClientFor respond tenantId (World e3 t' (new_fields secrets id))
     = (World e4 (t' ++ [GetSecret path]) (new_fields secrets id), Return d)
  /\ member d "username" = Some (JStr tenantId)
  /\ member d "password" = Some (JStr generated)
  /\ member d "keyPrefix" = Some (JStr keyPrefix)
  /\ (forall k, k <> "username" -> k <> "password" -> k <> "keyPrefix" ->
        member d k = obj_get k given)
  /\ (glob_free tenantId = true ->
      forall key,
        matches (keyPrefix ++ "*") key = String.prefix keyPrefix key).
Proof.
  intros m given generated keyPrefix d path setting Hwf Hdraw Hr1 Hset Hr2
    Hstore Hr3 Hget.
  assert (Hk : member d "keyPrefix" = Some (JStr keyPrefix)).
  { unfold d, descriptor, obj_assign. cbn [member fold_left fst snd].
    apply obj_get_set_eq. }
  split.
  { pose proof (acl_createTenant_run respond e t clientConfig dangerous
                  custom secrets id tenantId) as Hrun.
    cbv zeta in Hrun. fold m in Hrun. rewrite Hrun.
    unfold create_plan. cbn [run_plan steps].
    rewrite Hdraw, Hr1. fold generated keyPrefix d path.
    unfold set_user. fold setting. rewrite Hset, Hr2.
    fold path. rewrite Hstore, Hr3.
    cbn [done after failure outcome_of].
    reflexivity. }
  split.
  { rewrite (getClientFor_spec respond (World e3 t' (new_fields secrets id))
               tenantId d e4
               (acl_descriptor_wf clientConfig tenantId generated Hwf) Hget).
    cbn [env trace self]. rewrite Hk. reflexivity. }
  split; [| split; [| split; [exact Hk | split]]].
  - unfold d, descriptor, obj_assign. cbn [member fold_left fst snd].
    rewrite !obj_get_set_ne by discriminate. apply obj_get_set_eq.
  - unfold d, descriptor, obj_assign. cbn [member fold_left fst snd].
    rewrite !obj_get_set_ne by discriminate. apply obj_get_set_eq.
  - intros k Hu Hp Hkp. unfold d, descriptor, obj_assign, given.
    cbn [member fold_left fst snd].
    rewrite !obj_get_set_ne by assumption.
    destruct clientConfig as [c|]; [| reflexivity].
    now rewrite obj_get_set_ne.
  - intros Hfree key. apply matches_prefix; [| discriminate].
    unfold keyPrefix.
    apply (glob_free_app "tenant:"); [reflexivity |].
    apply glob_free_app; [exact Hfree | reflexivity].
Qed.

End AclTenants.


(** The user is gone and the descriptor stays when the secret store
    refuses. *)
Example deleteTenant_without_a_descriptor :
  let f :=
    RedisAcl.new_fields None None false {| secrets_pattern := None |} None in
  let st :=
    {| keys := ["tenant:acme:a"]; users := ["acme"]; secrets := [] |} in
  RedisAcl.deleteTenant server "acme" (World st [] f)
  = (World {| keys := []; users := []; secrets := [] |}
       [RedisKeys "tenant:acme:*"; RedisPipelineDel ["tenant:acme:a"];
        RedisCall ["ACL"; "DELUSER"; "acme"];
        DeleteSecret "/tenants/acme/redis/connection"] f,
     Throw "Secret not found").
Proof. vm_compute. reflexivity. Qed.

Lemma acl_createTenant_sets_the_user_then_stores_witness :
  let given := [("host", JStr "cache"); ("keyPrefix", JStr "mine")] in
  let f :=
    RedisAclManagement.new_fields (Some given) None false
      {| secrets_pattern := None |} None in
  let st := {| keys := []; users := []; secrets := [] |} in
  let d := descriptor (Some given) "acme" "777777777777777777777777" in
  RedisAclManagement.createTenant server "acme" (World st [] f)
  = (World {| keys := []; users := ["acme"];
              secrets := [("/tenants/acme/redis/connection", stringify d)] |}
       [RandomValues 24;
        RedisCall ["ACL"; "SETUSER"; "acme"; "on";
                   ">777777777777777777777777"; "~tenant:acme:*"; "+@all";
                   "-@dangerous"];
        CreateSecret "/tenants/acme/redis/connection" (stringify d)] f,
     Return tt).
Proof.
  intros given f st d.
  exact (acl_createTenant_sets_the_user_then_stores server st [] (Some given)
           None false {| secrets_pattern := None |} None "acme").
Defined.

Lemma acl_tenant_client_is_the_created_user_witness :
  let given := [("host", JStr "cache"); ("keyPrefix", JStr "mine")] in
  let m :=
    RedisAclManagement.new_fields (Some given) None false
      {| secrets_pattern := None |} None in
  let st := {| keys := []; users := []; secrets := [] |} in
  let d := descriptor (Some given) "acme" "777777777777777777777777" in
  let created := fst (RedisAclManagement.createTenant server "acme"
                        (World st [] m)) in
  snd (RedisAclManagement.createTenant server "acme" (World st [] m))
  = Return tt
  /\ snd (RedisAclTenants.getClientFor server "acme"
            (World (env created) []
               (RedisAclTenants.new_fields {| secrets_pattern := None |}
                  None)))
     = Return d
  /\ d = JObj [("host", JStr "cache"); ("keyPrefix", JStr "tenant:acme:");
               ("username", JStr "acme");
               ("password", JStr "777777777777777777777777")].
Proof.
  intros given m st d created.
  pose proof (acl_tenant_client_is_the_created_user server st _ _ _ _
                _ _ _ [] [] (Some given) None false
                {| secrets_pattern := None |} None "acme"
                eq_refl eq_refl eq_refl eq_refl eq_refl eq_refl eq_refl
                eq_refl) as (Hcreate & Hget & _).
  split; [exact (f_equal snd Hcreate) |].
  split; [exact (f_equal snd Hget) | reflexivity].
Defined.

End RedisPlanFacts.

(** ** [end] and the pools created after it *)

Module PoolEndFacts.
Import JsString Json Sql Effects Core PostgresBase Tenants Worlds PoolSpec.
Import MapFacts PoolFacts StepsSpec SchemaPlanSpec SchemaStepsFacts.
Import PoolEndSpec.

Section Roles.
Context {E : Type}.
Variable respond : event -> E -> E * response.

Lemma database_without_pool (tenantId : string) (w : world E fields) :
  obj_get tenantId (pools (self w)) = None ->
  database_creates_pool respond tenantId w.
Proof.
  intros Hpools text d e1 e2 e3 r2 r3 Hget Hparse Hnew Hconnect.
  destruct w as [e0 t0 f]. cbn [env trace self] in *.
  unfold PostgresDatabaseTenants.getClientFor,
    PostgresDatabaseTenants.initTenantPool, getClientConfigFor, get,
    new_Pool, modify, connect.
  unfold bind, call, emit, get_self, set_self, ret, throw.
  cbn [env trace self]. rewrite Hpools. cbn [env trace self].
  rewrite Hpools. cbn [env trace self].
  rewrite Hget. cbn [rejection text_of env trace self]. rewrite Hparse.
  cbn [env trace self next_handle with_next_handle with_pools pools].
  rewrite Hnew. cbn [fst snd env trace self]. rewrite Hconnect.
  destruct (rejection r3) as [err|];
    cbn [fst snd env trace self pools outcome_of];
    eexists; (split; [reflexivity |]); cbn [self trace pools];
    (split; [now rewrite <- !List.app_assoc | apply obj_get_set_eq]).
Qed.

Lemma schema_without_pool (tenantId : string) (w : world E fields) :
  obj_get tenantId (pools (self w)) = None ->
  schema_creates_pool respond tenantId w.
Proof.
  intros Hpools text text' d d' e1 e2 e3 e4 e5 r3 r4 r5 setting Hget1 Hparse1
    Hnull Hget2 Hparse2 Hnew Hconnect Hr4 Hset.
  destruct (getClientFor_without_pool respond w tenantId text text' d d'
              e1 e2 e3 e4 e5 r3 r4 r5 Hpools Hget1 Hparse1 Hnull Hget2
              Hparse2 Hnew Hconnect Hr4 Hset)
    as (w' & Hrun & Hcached & Htrace).
  exists w'. auto.
Qed.

End Roles.



(** What the caller sees in that run. After [end("acme")] both roles
    create a second pool from the stored descriptor and return its
    client; after [end()] the ended pool refuses, and still one pool
    was created. *)
Example getClientFor_after_end :
  let ended_one := fst (end_ tenant_world (Some "acme") served_tenants) in
  let path := "/tenants/acme/postgres/connection" in
  PostgresDatabaseTenants.getClientFor tenant_world "acme" ended_one
  = (World (env ended_one)
       (trace ended_one
          ++ [GetSecret path; PoolNew (Some "acme") 1 session_descriptor;
              PoolConnect 1])
       (with_pools [("acme", 1)] (with_next_handle 2 (self ended_one))),
     Return 1)
  /\ PostgresSchemaTenants.getClientFor tenant_world "acme" ended_one
     = (World (env ended_one)
          (trace ended_one
             ++ [GetSecret path; GetSecret path;
                 PoolNew (Some "acme") 1 session_descriptor; PoolConnect 1;
                 Query 1 (SetRoleAndSearchPath "tenant_acme" "tenant_acme")])
          (with_pools [("acme", 1)] (with_next_handle 2 (self ended_one))),
        Return 1)
  /\ snd (PostgresDatabaseTenants.getClientFor tenant_world "acme"
            ended_tenants)
     = Throw "Cannot use a pool after calling end on the pool"
  /\ snd (PostgresSchemaTenants.getClientFor tenant_world "acme"
            ended_tenants)
     = Throw "Cannot use a pool after calling end on the pool"
  /\ pools_created "acme"
       (trace (fst (PostgresDatabaseTenants.getClientFor tenant_world "acme"
                      ended_tenants))) = 1
  /\ pools_created "acme"
       (trace (fst (PostgresSchemaTenants.getClientFor tenant_world "acme"
                      ended_tenants))) = 1.
Proof. vm_compute. repeat split; reflexivity. Qed.

End PoolEndFacts.

Module OverlapFacts.
Import JsString Json Sql Effects Core PostgresBase RlsManagement.
Import SetupSpec OverlapSpec.

(** A call of [createTenant] is the reading of the options followed by
    what the call does once resumed. *)
Lemma createTenant_reads_then_resumes (E : Type)
    (respond : event -> E -> E * response) (tenantId : string)
    (w : world E fields) :
  createTenant respond tenantId w = resumed respond (self w) w.
Proof. reflexivity. Qed.

(** Two calls made one after the other are two such calls, the second
    reading the options the first has left. *)
Lemma create_tenants_twice (E : Type)
    (respond : event -> E -> E * response) (a b : string)
    (w : world E fields) :
  create_tenants respond [a; b] w
  = let first := resumed respond (self w) w in
    fst (resumed respond (self (fst first)) (fst first)).
Proof. reflexivity. Qed.

(** C8, as stated: the pass does not run in at most one call over the
    lifetime of the instance. The flag is read before the first
    [await] of [createTenant] and cleared in its [finally] block, so
    of two calls that overlap both find it set: both send the catalog
    query of the discovery and both run [setup], which opens its
    transaction twice. Here the database lets neither setup succeed.
    The same two calls made one after the other send the query once
    and open one transaction. *)
Theorem overlapping_createTenants_both_run_the_pass :
  let w := World tt [] auto_management in
  let both := overlapping unowned_table w in
  let after := fst (snd both) in
  count_events is_discovery (trace after) = 2
  /\ count_events is_setup_begin (trace after) = 2
  /\ snd (fst both) = Throw "must be owner of table todos"
  /\ snd (snd both) = Throw "must be owner of table todos"
  /\ autoSetup (self after) = false
  /\ count_events is_discovery
       (trace (create_tenants unowned_table ["a"; "b"] w)) = 1
  /\ count_events is_setup_begin
       (trace (create_tenants unowned_table ["a"; "b"] w)) = 1.
Proof. vm_compute. repeat split; reflexivity. Qed.

(** The calls of that run, in order. *)
Example overlapping_createTenants_trace :
  trace (fst (snd (overlapping unowned_table (World tt [] auto_management))))
  = let pass :=
      [PoolConnect 0; Query 0 ResetAll;
       Query 0 (SelectMultitenantTables "tenant_id");
       Console "log" "Setting up RLS for tables:";
       PoolConnect 0; Query 0 ResetAll; Query 0 SelectCurrentSchema;
       Query 0 Begin; Query 0 SelectRole; Query 0 CreateRole;
       Query 0 (GrantOverRole "public" "todos");
       Query 0 (SelectTableSequences "public" "todos");
       Query 0 (EnableRls "public" "todos" true);
       Query 0 RollbackSemi; Release 0; Release 0] in
    pass ++ pass.
Proof. vm_compute. reflexivity. Qed.

End OverlapFacts.

(** ** The key spaces of the Redis strategies *)

Module KeyspaceFacts.
Import JsString Json Effects Core NamesFacts RedisServer RedisServerFacts.

Lemma prefix_split (p k : string) :
  String.prefix p k = true -> exists rest, k = (p ++ rest)%string.
Proof.
  revert k. induction p as [|c p IH]; intros k H.
  - exists k. reflexivity.
  - destruct k as [|d k]; [discriminate H |]. cbn [String.prefix] in H.
    destruct (ascii_dec c d) as [-> | _]; [| discriminate H].
    destruct (IH k H) as [rest ->]. exists rest. reflexivity.
Qed.

Lemma prefix_app (p rest : string) : String.prefix p (p ++ rest) = true.
Proof.
  induction p as [|c p IH]; [now destruct rest |].
  cbn [append String.prefix].
  destruct (ascii_dec c c) as [_ | H]; [exact IH | congruence].
Qed.

(** X4. The key spaces of two different tenants are disjoint when their
    ids hold no colon and none of the characters that a key pattern
    reads as more than themselves ([*], [?], [[] and the backslash).
    No key lies under the prefixes that [buildKeyspacePrefix] gives to
    both, in the ACL strategy and in the Prefix strategy (the prefix of
    the tenant's client). And the pattern made of the prefix of one
    tenant and a star, which the ACL strategy gives to [KEYS] in
    [deleteTenant] and to the key rule of the tenant's user, matches
    every key under the prefix of that tenant and no key under the
    prefix of the other. *)
Theorem keyspaces_are_disjoint (f : RedisAcl.fields)
    (clientConfig : option (list (string * json)))
    (dangerous : option bool) (custom : bool) (secrets : TenantsSecrets)
    (id : option string) (a b key key' : string) :
  has_char ":" a = false -> has_char ":" b = false ->
  glob_free a = true -> glob_free b = true ->
  String.eqb a b = false ->
  let constructed :=
    RedisAcl.new_fields clientConfig dangerous custom secrets id in
  (RedisAcl.buildKeyspacePrefix f a ++ key
   <> RedisAcl.buildKeyspacePrefix f b ++ key')%string
  /\ (RedisPrefixTenants.buildKeyspacePrefix clientConfig a ++ key
      <> RedisPrefixTenants.buildKeyspacePrefix clientConfig b ++ key')%string
  /\ matches (RedisAcl.buildKeyspacePrefix constructed a ++ "*")
       (RedisAcl.buildKeyspacePrefix constructed a ++ key) = true
  /\ matches (RedisAcl.buildKeyspacePrefix constructed a ++ "*")
       (RedisAcl.buildKeyspacePrefix constructed b ++ key) = false.
Proof.
  intros Ha Hb Hfa Hfb Hne constructed. apply String.eqb_neq in Hne.
  assert (Hacl : forall g x y,
             (RedisAcl.buildKeyspacePrefix g a ++ x
              <> RedisAcl.buildKeyspacePrefix g b ++ y)%string).
  { intros g x y H. apply Hne.
    destruct (acl_prefix_shape g a) as [ra Hpa].
    destruct (acl_prefix_shape g b) as [rb Hpb].
    rewrite Hpa, Hpb in H. rewrite !PathFacts.append_assoc in H. cbn in H.
    inversion H as [H'].
    exact (colon_free_split a b _ _ Ha Hb H'). }
  split; [apply Hacl |]. split.
  { intros H. apply Hne.
    destruct (prefix_prefix_shape clientConfig a) as [ra Hpa].
    destruct (prefix_prefix_shape clientConfig b) as [rb Hpb].
    rewrite Hpa, Hpb in H. rewrite !PathFacts.append_assoc in H. cbn in H.
    inversion H as [H'].
    exact (colon_free_split a b _ _ Ha Hb H'). }
  assert (Hprefix : RedisAcl.buildKeyspacePrefix constructed a
                    = ("tenant:" ++ a ++ ":")%string)
    by apply RedisFacts.constructed_prefix.
  assert (Hfree : glob_free (RedisAcl.buildKeyspacePrefix constructed a)
                  = true).
  { rewrite Hprefix. apply (glob_free_app "tenant:"); [reflexivity |].
    apply glob_free_app; [exact Hfa | reflexivity]. }
  assert (Hsome : RedisAcl.buildKeyspacePrefix constructed a <> EmptyString)
    by (rewrite Hprefix; discriminate).
  rewrite !(matches_prefix _ _ Hfree Hsome).
  split; [apply prefix_app |].
  destruct (String.prefix _ _) eqn:Hp; [| reflexivity].
  destruct (prefix_split _ _ Hp) as [rest Hrest].
  exfalso. exact (Hacl constructed rest key (eq_sym Hrest)).
Qed.

Lemma keyspaces_are_disjoint_witness :
  let f :=
    RedisAcl.new_fields None None false {| secrets_pattern := None |} None in
  (RedisAcl.buildKeyspacePrefix f "acme" ++ "order_1"
   <> RedisAcl.buildKeyspacePrefix f "acme2" ++ "order_1")%string
  /\ (RedisPrefixTenants.buildKeyspacePrefix None "acme" ++ "order_1"
      <> RedisPrefixTenants.buildKeyspacePrefix None "acme2" ++ "order_1")%string
  /\ matches "tenant:acme:*" "tenant:acme:order_1" = true
  /\ matches "tenant:acme:*" "tenant:acme2:order_1" = false.
Proof.
  intros f.
  exact (keyspaces_are_disjoint f None None false {| secrets_pattern := None |}
           None "acme" "acme2" "order_1" "order_1"
           eq_refl eq_refl eq_refl eq_refl eq_refl).
Defined.

(** Tenant ids that a pattern reads as more than themselves: the
    pattern of one tenant covers keys of another. *)
Example patterns_of_other_ids :
  matches "tenant:*:*" "tenant:acme:order_1" = true
  /\ matches "tenant:acm?:*" "tenant:acme:order_1" = true
  /\ matches "tenant:[a-z]cme:*" "tenant:acme:order_1" = true
  /\ matches "tenant:a[b:*" "tenant:a[b:order_1" = false.
Proof. vm_compute. repeat split. Qed.

End KeyspaceFacts.

(** ** Tenant ids in SQL and Redis commands *)

Module CommandsFacts.
Import JsString Json Sql Effects Core PostgresBase InjectionSpec.
Import InjectionFacts RedisRolesSpec RedisPlanSpec CommandsSpec.
Import RedisServer RedisServerFacts.

Lemma plain_prefixed_role (prefix tenantId : string) :
  plain prefix = true -> plain tenantId = true ->
  plain (generateDefaultTenantRoleName tenantId (Some prefix)) = true.
Proof.
  intros Hp Hid. unfold generateDefaultTenantRoleName.
  destruct prefix as [|c p]; cbn [truthy or_else].
  - now rewrite plain_app, Hid.
  - now rewrite plain_app, Hp, Hid.
Qed.

#[local] Hint Resolve plain_role plain_both plain_prefixed_role : quoting.

Section Plain.
Variables tenantId tenantId' : string.
Hypothesis plain_id : plain tenantId = true.
Hypothesis plain_id' : plain tenantId' = true.

Lemma pgbouncer_shape :
  shapes (pgbouncer_commands tenantId) = shapes (pgbouncer_commands tenantId').
Proof.
  unfold pgbouncer_commands. same_shapes.
Qed.

Lemma schema_session_shape (schemaPrefix : string) :
  plain schemaPrefix = true ->
  shapes (schema_session_commands schemaPrefix tenantId)
  = shapes (schema_session_commands schemaPrefix tenantId').
Proof.
  intros Hprefix. unfold schema_session_commands. same_shapes.
Qed.

Lemma database_shape (databasePrefix rolePrefix password : string)
    (template : option string) (schema : string) (force : bool) :
  plain databasePrefix = true -> plain rolePrefix = true ->
  plain password = true -> plain (or_else template "") = true ->
  plain schema = true ->
  shapes (database_commands databasePrefix rolePrefix password template
            schema force tenantId)
  = shapes (database_commands databasePrefix rolePrefix password template
              schema force tenantId').
Proof.
  intros Hdatabase Hrole Hpassword Htemplate Hschema.
  unfold database_commands.
  destruct template as [[|c s]|]; destruct force;
    cbn [or_else] in Htemplate; same_shapes.
Qed.

End Plain.

(** The Redis commands of the ACL strategy have the same arguments at
    the same places whatever the tenant id: only the user name and the
    key pattern carry it. *)
Lemma acl_arguments (dangerous : bool) (generated a b : string) :
  map (@List.length string) (acl_commands dangerous generated a)
  = map (@List.length string) (acl_commands dangerous generated b)
  /\ map (fixed_arguments 0) (acl_commands dangerous generated a)
     = map (fixed_arguments 0) (acl_commands dangerous generated b).
Proof. destruct dangerous; split; reflexivity. Qed.

(** The methods send these commands: in a world where every call
    succeeds, what they send is the following, whatever the tenant
    id. *)
Lemma more_commands_sent (tenantId : string) :
  queries
    (trace (fst (RlsTenants.pgb_getClientFor (accepting "app") tenantId
                   (World tt []
                      (RlsTenants.Build_fields 0 (Some "session_mode"))))))
  ++ queries
       (trace (fst (RlsTenants.pgb_getClientFor (accepting "app") tenantId
                      (World tt []
                         (RlsTenants.Build_fields 0
                            (Some "transaction_mode"))))))
  = pgbouncer_commands tenantId
  /\ (exists password,
        queries
          (trace (fst (DatabaseManagement.createTenant (accepting "app")
                         tenantId
                         (World tt []
                            DatabaseSpec.sample_database_management))))
        = match database_commands "tenant_" "tenant_" password None "public"
                  false tenantId,
                database_commands "tenant_" "tenant_" password None "audit"
                  false tenantId with
          | [create; role; public; grant_public; _; _],
            [_; _; audit; grant_audit; _; _] =>
              [create; role; public; audit; grant_public; grant_audit]
          | _, _ => []
          end)
  /\ (exists generated,
        redis_calls
          (trace (fst (RedisAclManagement.createTenant (accepting "app")
                         tenantId
                         (World tt []
                            (RedisAclManagement.new_fields None None false
                               {| secrets_pattern := None |} None)))))
        ++ redis_calls
             (trace (fst (RedisAcl.deleteTenant (accepting "app") tenantId
                            (World tt []
                               (RedisAcl.new_fields None None false
                                  {| secrets_pattern := None |} None)))))
        = acl_commands false generated tenantId).
Proof.
  split; [reflexivity |]. split; eexists; reflexivity.
Qed.



(** A doubled quote in the tenant id does not change the shape of a
    command, though the text between the quotes is another: it is the
    way a quote is written inside a literal or a quoted identifier. *)
Example doubled_quote_keeps_the_shape :
  shapes (session_commands "x''y") = shapes (session_commands "x")
  /\ shapes (delete_commands todos "tenant_id" "x''y")
     = shapes (delete_commands todos "tenant_id" "x")
  /\ shapes (schema_commands "tenant_" "pw" "app"
               ("x" ++ dq ++ dq ++ "y"))
     = shapes (schema_commands "tenant_" "pw" "app" "x").
Proof. vm_compute. repeat split; reflexivity. Qed.

(** A tenant id with a pattern character: the key rule of its ACL user
    covers the keys of another tenant. *)
Example pattern_in_tenant_id_widens_the_rule :
  nth 5 (hd [] (acl_commands false "pw" "*")) "" = "~tenant:*:*"
  /\ matches "tenant:*:*" "tenant:acme:order_1" = true
  /\ nth 5 (hd [] (acl_commands false "pw" "acm?")) "" = "~tenant:acm?:*"
  /\ matches "tenant:acm?:*" "tenant:acme:order_1" = true.
Proof. vm_compute. repeat split; reflexivity. Qed.

End CommandsFacts.
